(* ===== verification/_CoqProject ===== *)
-Q . S2P
Prelude.v
CString.v
Text.v
PathPolicy.v
SmsUtil.v
OrdMap.v
Seams.v
Mocks.v
GnmiCommand.v
GnmiReply.v
GnmiExecutor.v
Bridge.v
Config.v
Users.v
DirectAction.v
DsTransport.v
AtModem.v
AtProofs.v
AtTalk.v
SmsModem.v
GnmiTree.v
GnmiWire.v
LocalGnmiSink.v
GnmiSimd.v
SmsToDevice.v
Secrets.v
SmsCtl.v
Standalone.v
Appliance.v
SerialAppliance.v
SerialDemo.v
ZeroTouchd.v
ZtDaemon.v
ZtRuns.v
ZtDevice.v
Log.v
TunnelNet.v
CommandLine.v
Usage.v
TunnelSockets.v
SimServer.v
ZtSim.v
Echo.v
TunnelSession.v
TunnelProofs.v
TunnelSplice.v
TunnelClient.v
TunnelEnd.v
TunnelUnwind.v
TunnelPipe.v
TunnelRuns.v
TunnelConn.v
TunnelHub.v
TunnelFleet.v
TunnelFleetRuns.v
