(* ===== verification/Prelude.v ===== *)
(** * A verification of zero-touch

    zero-touch is a gNMI provisioning path over SMS: a text message from an
    authenticated sender is parsed, authorised, run against a gNMI server on the
    device and answered by SMS.  Around that core the repository has two daemons,
    a simulated modem-less console, a simulated gNMI device, and a reverse tunnel
    that lets a server dial into a device behind NAT.  This library models the
    C++ of src/ and proves what makes each part, and the parts together, correct.

    ** The program and the files that model it

    The command path, bottom up (file under src/, then file of the library):
    - src/path_policy.cpp, src/sms_util.cpp: [PathPolicy], [SmsUtil] - the
      sensitive-path denylist, and who can be answered by SMS.
    - inc/zerotouch/sms_transport.hpp, gnmi_sink.hpp, modem.hpp: [Seams] - the
      data that crosses the interfaces and a class per abstract base class; a
      client's theorems are proved over any instance.  [Mocks] has the doubles of
      the repository's tests as instances.
    - src/gnmi_command.cpp, gnmi_reply.cpp, gnmi_executor.cpp: [GnmiCommand],
      [GnmiReply], [GnmiExecutor] - grammar, answers, and the engine that looks up
      a sender's access before it touches a sink.
    - src/bridge.cpp: [Bridge] - one SMS in: gate, tokens, gNMI engine or
      fallback, at most one SMS out.
    - src/config.cpp, users.cpp: [Config], [Users] (and [Text], [CString] for the
      string functions of the standard library they use, with C's integer
      conversions at their widths).
    - src/direct_action_sink.cpp: [DirectAction] - the classic commands over AT.
    - src/local_gnmi_sink.cpp: [LocalGnmiSink] over the messages of [GnmiWire] -
      the denylist on request and answer.
    - src/at_modem.cpp, modem_factory.cpp: [AtModem], proofs in [AtProofs] - the
      command engine over a serial port, listing and draining SMS; [AtTalk] and
      [SmsModem] are the same engine opposite a modem that answers in time and has
      a SIM.
    - src/ds_sms_transport.cpp: [DsTransport] - SMS through the data store, its
      watch thread and the reactor as a step relation.
    The programs: daemon/zerotouchd_standalone.cpp and zerotouchd.cpp wire these
    into the two daemons ([Standalone], [ZeroTouchd]), and [ZtDaemon] and [ZtRuns]
    have the second running, with its listener and its reactor; sim/zt_sim.cpp is
    the console ([ZtSim]); sim/gnmi_tree.hpp and zt_gnmi_simd.cpp the simulated device
    ([GnmiTree], [GnmiSimd] for its handlers, [SimServer] for its connections);
    [SmsToDevice] puts the command path and the device together, [Secrets] looks at
    two runs of that whole, [Appliance] does it for the daemon, [SerialAppliance] for the daemon on its serial port, down to
    the bytes ([SerialDemo] runs it), [ZtDevice] for the ds daemon and its store; all argument loops are in [CommandLine], what
    they print in [Usage].  [SmsCtl] is the interface of the smsctl library they
    share.
    The tunnel (grpc-tunnel/src): net.cc in [TunnelNet] and [TunnelSockets];
    session.cc and tunnel_server.cc in [TunnelSession]; tunnel_client.cc in
    [TunnelClient]; echo_*.cc in [Echo]; log.h in [Log].  Its proofs: [TunnelProofs] (one server
    session), [TunnelSplice] (what a read loop that writes streams to sockets
    keeps of the bytes, for either end), [TunnelEnd] and [TunnelUnwind] (the
    client), [TunnelPipe] (the two ends running together), [TunnelRuns] (concrete runs),
    [TunnelConn] (when the descriptor of a connection is closed).  The system:
    [TunnelHub] is the server with all its calls, one registry and one forwarder, and
    [TunnelFleet] that server with any number of client processes that dial again
    when their tunnel is gone ([TunnelFleetRuns] runs it).

    ** How code is translated

    A method with effects is a computation over the world its objects live in
    (this file); an abstract base class or a library outside src/ is a type class
    whose instances theorems quantify over; where code relies on documented
    behaviour of such a library, the laws are a class or named hypotheses, with
    a concrete instance that satisfies them next to the property.  Threads are
    step relations: a handler's work is cut where a mutex is released, and what a
    socket, a stream or the scheduler does is chosen by the step.  Machine
    integers are [Z] with the wrap-around written out; strings are byte strings.

    ** What the theorems show

    - Safety of the command path: no answer without a session, no write without
      Admin ([GnmiExecutor]); a reader learns nothing of a denylisted leaf and
      its path never leaves the process ([LocalGnmiSink]), and no conversation by
      SMS tells devices apart that differ in such leaves ([Secrets]); the two engines
      never
      both see a message and at most one SMS goes out ([Bridge]); a daemon or the
      console that is disabled does nothing ([Standalone], [ZtSim]), and the console
      answers or notes every line that is an SMS ([ZtSim]); accounts and
      rights come only from their files or keys ([Users], [Standalone],
      [ZeroTouchd]).
    - The modem and the store: no operation hangs, the answer of a command is how
      the bytes read and not how they arrive, stored SMS are listed, delivered and
      deleted in order ([AtProofs]); an SMS of the data store is delivered once
      and the last one is never lost ([DsTransport]).  The daemon on the store, as
      its threads interleave: it ends up with the configuration and the SMS the
      store holds, and what it sends are the answers to the SMS it took, in order,
      each to its sender ([ZtRuns]).
    - End to end: what an admin texts with a SET is what the next GET texts back,
      through bridge, engine, sink, request bytes and the device's handlers
      ([SmsToDevice], on [GnmiSimd]), and so on the appliance with its gate, sessions
      and modem ([Appliance]), and so when the messages lie on a SIM and the
      answers go out as PDUs on the line the poll reads from ([SerialAppliance]), and
      so when message and answer pass through the data store ([ZtDevice]);
      the device's connection table
      refines "every request a connection's bytes spell is run once, on one tree, in
      order, and answered on that connection" ([SimServer]).
    - The tunnel, one session: nothing is written to a stream after its handler's
      barrier, nothing is leaked, every pump is woken, the registry forgets a session
      ([TunnelProofs]); the client returns quietly ([TunnelEnd]) and nothing blocks
      its way out ([TunnelUnwind]); each stream is a pair of pipes whatever the
      threads of both ends interleave ([TunnelPipe]).  The tunnel, all of it: each
      call of a server runs as a session on its own, so the above holds of every
      one; the last registration of a name is the one served ([TunnelHub]); a
      connection reaches only an edge that has its target, over the pipes of its
      own call, and an edge can always come back ([TunnelFleet]).  No descriptor is used
      once it was closed and each is closed, once ([TunnelConn]); [ListenTcp] and
      [DialTcp] leak none, and [DialTcp] returns the first address that takes the
      connection ([TunnelSockets]).  No line of the log is torn ([Log]).
    - Formats: the grammar decided, printing and parsing of commands,
      configuration, users and command lines inverse to each other, replies that
      fit one SMS ([GnmiCommand], [Config], [Users], [CommandLine], [GnmiReply]);
      a program that refuses its arguments says why, or it is known which arguments
      end it by an exception ([Usage]).

    ** Fuel and bounds

    The loops of [AtModem] wait on a serial port and a clock and take fuel;
    [AtProofs.modem_operations_terminate] gives the fuel that is enough on any
    port that makes progress, and its other theorems hold for any fuel.  The
    stream of [Echo] takes fuel: one more than its count is enough, but for the
    count 2^32 - 1, for which no fuel is.  Everything else recurs on its data.
    Stream identifiers are [uint64_t]: the theorems on them are for sessions that
    hand out fewer than 2^64.  [SerialAppliance] needs no fuel of its own: its
    theorem gives a result that is the same for all fuels from some point on.
    [ZtRuns] bounds the critical sections to rest by [backlog], which counts the
    work queued, and [Log] the writes to silence by those that are left.

    ** Not modelled, and why

    The texts of single log lines and where they are written, sleeps and signal
    handlers (they change no state another part reads); the bodies of code outside
    src/ - smsctl, the data store's client, the cellular PDU codec, gnmi_util,
    gnmi_client, grace-server's grpc_session, protobuf and gRPC, ACE, libevent, lua_file - which are parameters,
    as are the modem at the end of the serial line and the network.  In
    [TunnelFleet] gRPC delivers a call's frames in order or ends the call; the server
    process itself does not restart, and a dial that never reaches it is a call
    whose handler takes no step.  In [ZtDaemon] the threads interleave from the event
    loop on: [run] up to there is one step ([zt_boot] opens it where the configuration
    has been read and its watch is not yet registered), and so is the drain of an SMS,
    which the reactor runs alone.

    ** This file

    The computation type, its laws and the shared automation.
    A method is translated to a computation [ST W A := W -> A * W] over the world
    [W]: a caller threads the world in the order of the source's calls.  Here are
    that type with its notation, the pointwise equivalence of
    computations with the [Proper] instances that let it be rewritten, the two
    compositional judgements the components use ([st_rel], how a computation
    may move the world, and [st_post], what it may return), the loop over a
    list, and the tactics and hint databases the other files share. *)

From stdpp Require Export base gmap sets list strings.
From Stdlib Require Export ZArith Lia.
From Stdlib Require Export Morphisms Setoid.
From Stdlib Require Export Ascii.

Declare Scope zt_scope.
Delimit Scope zt_scope with zt.

(** ** State-passing computations *)

Definition ST (W A : Type) : Type := W -> A * W.

Section Computations.
Context {W : Type}.

Definition st_ret {A} (a : A) : ST W A := fun w => (a, w).

Definition st_bind {A B} (m : ST W A) (k : A -> ST W B) : ST W B :=
  fun w => let '(a, w1) := m w in k a w1.

(** Read a part of the world, replace the world. *)
Definition st_gets {A} (f : W -> A) : ST W A := fun w => (f w, w).
Definition st_modify (f : W -> W) : ST W unit := fun w => (tt, f w).

(** [for (x : l) f(x);] *)
Fixpoint st_for {A} (f : A -> ST W unit) (l : list A) : ST W unit :=
  match l with
  | [] => st_ret tt
  | x :: r => st_bind (f x) (fun _ => st_for f r)
  end.

(** The world after a computation, and its result. *)
Definition exec {A} (m : ST W A) (w : W) : W := snd (m w).
Definition result {A} (m : ST W A) (w : W) : A := fst (m w).

(** Two computations are the same when they agree on every world. *)
Definition st_equiv {A} (m1 m2 : ST W A) : Prop := forall w, m1 w = m2 w.

(** [st_rel R m]: running [m] moves the world along [R]. *)
Definition st_rel {A} (R : relation W) (m : ST W A) : Prop :=
  forall w, R w (exec m w).

(** [st_post P m]: every result of [m] satisfies [P]. *)
Definition st_post {A} (P : A -> Prop) (m : ST W A) : Prop :=
  forall w, P (result m w).

(** [frames f m]: running [m] leaves the projection [f] of the world alone. *)
Definition same_view {X} (f : W -> X) : relation W := fun w w' => f w' = f w.
End Computations.

Abbreviation frames f m := (st_rel (same_view f) m).

Notation "'let*' x ':=' m 'in' k" := (st_bind m (fun x => k))
  (at level 10, x binder, m at level 100, k at level 200,
   format "'[v' 'let*'  x  ':='  m  'in' '/' k ']'") : zt_scope.
Notation "m1 '>>>' m2" := (st_bind m1 (fun _ => m2))
  (at level 60, right associativity) : zt_scope.
Infix "≋" := st_equiv (at level 70) : zt_scope.
#[global] Open Scope zt_scope.

(** ** Shared tactics *)

(** Case analysis on the scrutinee of a [match] of the goal, keeping the
    equation: the workhorse for a definition translated from nested [if]s. *)
Ltac case_goal :=
  match goal with
  | |- context [match ?x with _ => _ end] => destruct x eqn:?
  end.

(** Split conjunctions and booleans of the hypotheses. *)
Ltac boolify :=
  repeat match goal with
  | H : _ && _ = true |- _ => apply andb_true_iff in H; destruct H
  | H : _ || _ = false |- _ => apply orb_false_iff in H; destruct H
  | H : negb _ = true |- _ => apply negb_true_iff in H
  | H : negb _ = false |- _ => apply negb_false_iff in H
  | H : bool_decide _ = true |- _ => apply bool_decide_eq_true_1 in H
  | H : bool_decide _ = false |- _ => apply bool_decide_eq_false_1 in H
  | H : String.eqb _ _ = true |- _ => apply String.eqb_eq in H
  | H : String.eqb _ _ = false |- _ => apply String.eqb_neq in H
  end.

(** Close a boolean goal by the boolean facts of the context. *)
Ltac by_bools :=
  intros; cbv beta in *; boolify;
  repeat match goal with
  | H : ?b = true |- context [?b] => rewrite H
  | H : ?b = false |- context [?b] => rewrite H
  end; done.

(** Run the first computation of a [let*] chain of the goal. *)
Ltac st_step :=
  match goal with
  | |- context [let '(_, _) := ?m ?w in _] =>
      let a := fresh "a" in let w1 := fresh "w" in let E := fresh "E" in
      destruct (m w) as [a w1] eqn:E
  end.
Ltac st_unfold := unfold st_bind, st_ret, st_gets, st_modify, exec, result in *.

(** ** Laws *)

Section Laws.
Context {W : Type}.
Implicit Types R : relation W.

Lemma exec_ret {A} (a : A) (w : W) : exec (st_ret a) w = w.
Proof. done. Qed.
Lemma result_ret {A} (a : A) (w : W) : result (st_ret a) w = a.
Proof. done. Qed.
Lemma exec_bind {A B} (m : ST W A) (k : A -> ST W B) w :
  exec (st_bind m k) w = exec (k (result m w)) (exec m w).
Proof. unfold exec, result, st_bind; by destruct (m w). Qed.
Lemma result_bind {A B} (m : ST W A) (k : A -> ST W B) w :
  result (st_bind m k) w = result (k (result m w)) (exec m w).
Proof. unfold exec, result, st_bind; by destruct (m w). Qed.
Lemma run_split {A} (m : ST W A) w : m w = (result m w, exec m w).
Proof. unfold exec, result; by destruct (m w). Qed.

#[global] Instance st_equiv_equivalence A : Equivalence (@st_equiv W A).
Proof.
  split; unfold st_equiv; [easy | | ].
  - intros m1 m2 H w; symmetry; apply H.
  - intros m1 m2 m3 H1 H2 w; etrans; [apply H1 | apply H2].
Qed.

#[global] Instance st_bind_proper A B :
  Proper (@st_equiv W A ==> pointwise_relation A (@st_equiv W B) ==> @st_equiv W B)
         st_bind.
Proof.
  intros m1 m2 Hm k1 k2 Hk w; unfold st_bind; rewrite Hm.
  destruct (m2 w); apply Hk.
Qed.

#[global] Instance st_rel_proper A R :
  Proper (@st_equiv W A ==> iff) (st_rel R).
Proof. intros m1 m2 H; unfold st_rel, exec; by setoid_rewrite (H _). Qed.

#[global] Instance st_post_proper A (P : A -> Prop) :
  Proper (@st_equiv W A ==> iff) (st_post P).
Proof. intros m1 m2 H; unfold st_post, result; by setoid_rewrite (H _). Qed.

Lemma st_bind_assoc {A B C} (m : ST W A) (k : A -> ST W B) (h : B -> ST W C) :
  st_bind (st_bind m k) h ≋ st_bind m (fun a => st_bind (k a) h).
Proof. intros w; unfold st_bind; by destruct (m w). Qed.

Lemma st_rel_ret {A} R `{!Reflexive R} (a : A) : st_rel R (st_ret a).
Proof. intros w; reflexivity. Qed.

Lemma st_rel_gets {A} R `{!Reflexive R} (f : W -> A) : st_rel R (st_gets f).
Proof. intros w; reflexivity. Qed.

Lemma st_rel_bind {A B} R `{!Transitive R} (m : ST W A) (k : A -> ST W B) :
  st_rel R m -> (forall a, st_rel R (k a)) -> st_rel R (st_bind m k).
Proof.
  intros Hm Hk w; unfold st_rel, exec, st_bind in *; specialize (Hm w).
  destruct (m w) as [a w1]; simpl in *; etrans; [exact Hm | apply Hk].
Qed.

Lemma st_rel_for {A} R `{!PreOrder R} (f : A -> ST W unit) l :
  (forall x, x ∈ l -> st_rel R (f x)) -> st_rel R (st_for f l).
Proof.
  induction l as [|x l IH]; intros H; simpl; [apply st_rel_ret, _ |].
  apply st_rel_bind; [apply _ | apply H; set_solver | intros _; apply IH; set_solver].
Qed.

Lemma st_post_ret {A} (P : A -> Prop) a : P a -> st_post P (st_ret (W:=W) a).
Proof. by intros H w. Qed.

Lemma st_post_bind {A B} (P : B -> Prop) (m : ST W A) (k : A -> ST W B) :
  (forall a, st_post P (k a)) -> st_post P (st_bind m k).
Proof. intros H w; unfold result, st_bind; destruct (m w) as [a w1]; apply H. Qed.

#[global] Instance same_view_preorder {X} (f : W -> X) : PreOrder (same_view f).
Proof. split; unfold same_view; [easy | congruence]. Qed.

(** Invariants as a relation: if [I] held it still holds. *)
#[global] Instance keeps_preorder (I : W -> Prop) :
  PreOrder (fun w w' : W => I w -> I w').
Proof. split; repeat intro; auto. Qed.
End Laws.

#[global] Arguments exec : simpl never.
#[global] Arguments result : simpl never.
Create Rewrite HintDb st_run.
#[export] Hint Rewrite @exec_ret @result_ret @exec_bind @result_bind : st_run.
(** Push [exec] and [result] through binds and returns. *)
Ltac st_run := autorewrite with st_run.

Create HintDb frame.
#[export] Hint Resolve st_rel_ret st_rel_gets st_rel_bind st_post_ret st_post_bind : frame.
#[export] Hint Extern 4 (Transitive _) => typeclasses eauto : frame.
#[export] Hint Extern 4 (Reflexive _) => typeclasses eauto : frame.

(** Prove [st_rel R m] or [st_post P m] for a computation built from binds,
    returns and branches out of pieces the context or [frame] knows about. *)
Ltac framed :=
  repeat first
    [ progress intros
    | assumption
    | solve [auto with frame]
    | apply st_rel_ret; apply _
    | apply st_rel_gets; apply _
    | apply st_rel_bind; [apply _ | | intros ?]
    | apply st_rel_for; [apply _ | intros ? ?]
    | apply st_post_bind; intros ?
    | case_goal ].
