(* ===== verification/CString.v ===== *)
(** * CString: the part of [std::string] and [<string>] the program uses.

    A [std::string] is a Stdlib [string] of 8-bit characters.  Positions are
    [nat], [npos] is [None].  [to_string], [stol] and [stoi] work on [Z] with
    the ranges of a 64-bit [long] and a 32-bit [int] written out; an exception
    of [std::stol]/[std::stoi] is [None].  Character classes are those of the
    "C" locale, the only one the daemons run in. *)

From S2P Require Import Prelude.

(** ** Characters *)

Definition is_upper (c : ascii) : bool :=
  let n := N_of_ascii c in (65 <=? n)%N && (n <=? 90)%N.

(** [std::tolower] in the "C" locale. *)
Definition tolower (c : ascii) : ascii :=
  if is_upper c then ascii_of_N (N_of_ascii c + 32) else c.

Definition is_digit (c : ascii) : bool :=
  let n := N_of_ascii c in (48 <=? n)%N && (n <=? 57)%N.

(** [isspace], which [strtol] skips: space, \t \n \v \f \r. *)
Definition is_space (c : ascii) : bool :=
  let n := N_of_ascii c in (n =? 32)%N || ((9 <=? n)%N && (n <=? 13)%N).

Definition digit_val (c : ascii) : Z := Z.of_N (N_of_ascii c) - 48.
Definition digit_char (d : Z) : ascii := ascii_of_N (Z.to_N (d + 48)).

Definition nl : ascii := "010"%char.
Definition cr : ascii := "013"%char.
Definition tab : ascii := "009"%char.
Definition dquote : ascii := "034"%char.
Definition esc : ascii := "027"%char.
Definition ctrl_z : ascii := "026"%char.

(** A one-character string. *)
Definition chr (c : ascii) : string := String c "".

(** ** Strings *)

Fixpoint all_chars (p : ascii -> bool) (s : string) : bool :=
  match s with
  | "" => true
  | String c r => p c && all_chars p r
  end.

Definition no_char (c : ascii) (s : string) : bool :=
  all_chars (fun d => negb (Ascii.eqb d c)) s.

(** [s.find(c)] *)
Fixpoint find_char (c : ascii) (s : string) : option nat :=
  match s with
  | "" => None
  | String d r => if Ascii.eqb d c then Some 0 else S <$> find_char c r
  end.

(** [s.rfind(c)] *)
Fixpoint rfind_char (c : ascii) (s : string) : option nat :=
  match s with
  | "" => None
  | String d r =>
      match rfind_char c r with
      | Some n => Some (S n)
      | None => if Ascii.eqb d c then Some 0 else None
      end
  end.

(** [s.substr(0, n)] and [s.substr(n)] for [n <= s.size()]. *)
Fixpoint str_take (n : nat) (s : string) : string :=
  match n, s with
  | S m, String c r => String c (str_take m r)
  | _, _ => ""
  end.
Fixpoint str_drop (n : nat) (s : string) : string :=
  match n, s with
  | S m, String _ r => str_drop m r
  | _, _ => s
  end.
(** [s.substr(pos, len)] for [pos <= s.size()]. *)
Definition substr (pos len : nat) (s : string) : string := str_take len (str_drop pos s).

(** [s.find(c, pos)] *)
Definition find_char_from (c : ascii) (pos : nat) (s : string) : option nat :=
  (fun n => pos + n)%nat <$> find_char c (str_drop pos s).

(** [s.rfind(p, 0) == 0] *)
Fixpoint starts_with (p s : string) : bool :=
  match p, s with
  | "", _ => true
  | String a p', String b s' => Ascii.eqb a b && starts_with p' s'
  | _, _ => false
  end.

(** [s.find(t) != npos] *)
Fixpoint contains (t s : string) : bool :=
  starts_with t s ||
  match s with
  | "" => false
  | String _ r => contains t r
  end.

Fixpoint str_map (f : ascii -> ascii) (s : string) : string :=
  match s with
  | "" => ""
  | String c r => String (f c) (str_map f r)
  end.
Definition lower : string -> string := str_map tolower.

(** [s.back()], and [s.pop_back()]. *)
Fixpoint back (s : string) : option ascii :=
  match s with
  | "" => None
  | String c "" => Some c
  | String _ r => back r
  end.
Fixpoint pop_back (s : string) : string :=
  match s with
  | "" => ""
  | String c "" => ""
  | String c r => String c (pop_back r)
  end.

(** Lines, each ended by a newline. *)
Fixpoint unlines (ls : list string) : string :=
  match ls with
  | [] => ""
  | l :: r => l +:+ String nl (unlines r)
  end.

(** The successive results of [std::getline(in, line)] over the text: a
    trailing newline does not open one more, empty line. *)
Fixpoint getlines_from (cur s : string) : list string :=
  match s with
  | "" => match cur with "" => [] | _ => [cur] end
  | String c r =>
      if Ascii.eqb c nl then cur :: getlines_from "" r
      else getlines_from (cur +:+ chr c) r
  end.
Definition getlines : string -> list string := getlines_from "".

(** [find_first_not_of(set)], [find_last_not_of(set)]. *)
Fixpoint find_first_not_of (p : ascii -> bool) (s : string) : option nat :=
  match s with
  | "" => None
  | String c r => if p c then S <$> find_first_not_of p r else Some 0
  end.
Fixpoint find_last_not_of (p : ascii -> bool) (s : string) : option nat :=
  match s with
  | "" => None
  | String c r =>
      match find_last_not_of p r with
      | Some n => Some (S n)
      | None => if p c then None else Some 0
      end
  end.

(** Membership in the set " \t\r\n". *)
Definition is_trim (c : ascii) : bool :=
  Ascii.eqb c " " || Ascii.eqb c tab || Ascii.eqb c cr || Ascii.eqb c nl.

(** ** Numbers *)

#[local] Open Scope Z_scope.

(** [std::to_string] of an integer. *)
Fixpoint dec_digits (fuel : nat) (n : Z) (acc : string) : string :=
  match fuel with
  | O => acc
  | S f => if (n <? 10)%Z then String (digit_char n) acc
           else dec_digits f (n / 10) (String (digit_char (n mod 10)) acc)
  end.
Definition to_dec (n : Z) : string := dec_digits (S (Z.to_nat (Z.log2 n))) n "".
Definition to_string (n : Z) : string :=
  if n <? 0 then String "-" (to_dec (- n)) else to_dec n.

(** The digits at the front of a string, and Horner's rule over them. *)
Fixpoint digits_value (acc : Z) (s : string) : Z :=
  match s with
  | String c r => if is_digit c then digits_value (acc * 10 + digit_val c) r else acc
  | "" => acc
  end.
Definition starts_digit (s : string) : bool :=
  match s with String c _ => is_digit c | "" => false end.

Fixpoint skip_space (s : string) : string :=
  match s with
  | String c r => if is_space c then skip_space r else s
  | "" => ""
  end.

(** [strtol(s, &end, 10)] before the range check; [None] when there is no
    conversion. *)
Definition strtol (s : string) : option Z :=
  match skip_space s with
  | String c r =>
      if Ascii.eqb c "-" then if starts_digit r then Some (- digits_value 0 r) else None
      else if Ascii.eqb c "+" then if starts_digit r then Some (digits_value 0 r) else None
      else if is_digit c then Some (digits_value 0 (String c r)) else None
  | "" => None
  end.

Definition in_range (lo hi n : Z) : bool := (lo <=? n) && (n <=? hi).
Definition long_min : Z := - 2 ^ 63.
Definition long_max : Z := 2 ^ 63 - 1.
Definition int_min : Z := - 2 ^ 31.
Definition int_max : Z := 2 ^ 31 - 1.

(** [std::stol] and [std::stoi]; [None] is the exception. *)
Definition stol (s : string) : option Z :=
  match strtol s with
  | Some n => if in_range long_min long_max n then Some n else None
  | None => None
  end.
Definition stoi (s : string) : option Z :=
  match stol s with
  | Some n => if in_range int_min int_max n then Some n else None
  | None => None
  end.

(** [atoi] as glibc computes it: [(int) strtol(s, NULL, 10)], whose [strtol]
    saturates at the bounds of [long]. *)
Definition to_i32 (n : Z) : Z := (n + 2 ^ 31) mod 2 ^ 32 - 2 ^ 31.
Definition atoi (s : string) : Z :=
  match strtol s with
  | Some n => to_i32 (Z.max long_min (Z.min long_max n))
  | None => 0
  end.

(** [static_cast<std::uint32_t>], [static_cast<std::uint16_t>] *)
Definition u32 (n : Z) : Z := n mod 2 ^ 32.
Definition u16 (n : Z) : Z := n mod 2 ^ 16.
Definition u64 (n : Z) : Z := n mod 2 ^ 64.

#[local] Close Scope Z_scope.

(** ** Lemmas on append, take and drop *)

Lemma app_cons c s t : String c s +:+ t = String c (s +:+ t).
Proof. done. Qed.
Lemma app_nil_l' t : "" +:+ t = t.
Proof. done. Qed.
Lemma str_app_nil_r s : s +:+ "" = s.
Proof. induction s as [|c s IH]; [done | by rewrite app_cons, IH]. Qed.
Lemma str_app_assoc s t u : (s +:+ t) +:+ u = s +:+ t +:+ u.
Proof. induction s as [|c s IH]; [done | by rewrite !app_cons, IH]. Qed.
Lemma length_app s t : String.length (s +:+ t) = (String.length s + String.length t)%nat.
Proof. induction s as [|c s IH]; [done |]. rewrite app_cons; simpl; by rewrite IH. Qed.

Create Rewrite HintDb cstring.
#[export] Hint Rewrite app_cons app_nil_l' str_app_nil_r str_app_assoc length_app : cstring.

Lemma length_str_take n s : String.length (str_take n s) = Nat.min n (String.length s).
Proof. revert s; induction n as [|n IH]; intros [|c s]; simpl; [done..|]; by rewrite IH. Qed.
Lemma length_str_drop n s : String.length (str_drop n s) = (String.length s - n)%nat.
Proof. revert s; induction n as [|n IH]; intros [|c s]; simpl; done. Qed.
Lemma str_take_drop n s : str_take n s +:+ str_drop n s = s.
Proof.
  revert s; induction n as [|n IH]; intros [|c s]; simpl; [done..|].
  by rewrite app_cons, IH.
Qed.
Lemma str_take_ge n s : (String.length s <= n)%nat -> str_take n s = s.
Proof.
  revert s; induction n as [|n IH]; intros [|c s]; simpl; intros; [done|lia|done|].
  rewrite IH; [done | lia].
Qed.
Lemma str_take_app_length s t : str_take (String.length s) (s +:+ t) = s.
Proof. induction s as [|c s IH]; [by destruct t | rewrite app_cons; simpl; by rewrite IH]. Qed.
Lemma str_drop_app_length s t : str_drop (String.length s) (s +:+ t) = t.
Proof. induction s as [|c s IH]; [done | rewrite app_cons; simpl; done]. Qed.
Lemma str_take_app_le n s t :
  (n <= String.length s)%nat -> str_take n (s +:+ t) = str_take n s.
Proof.
  revert s; induction n as [|n IH]; intros [|c s] H; simpl in *; try done.
  - lia.
  - rewrite IH; [done | lia].
Qed.

(** ** [starts_with] and [contains] *)

Lemma starts_with_spec p s : starts_with p s = true <-> exists r, s = p +:+ r.
Proof.
  revert s; induction p as [|a p IH]; intros s; simpl.
  - split; [by exists s | done].
  - destruct s as [|b s]; [split; [done | intros [r Hr]; done] |].
    rewrite andb_true_iff, Ascii.eqb_eq, IH; split.
    + intros [-> [r ->]]; by exists r.
    + intros [r Hr]; injection Hr as -> ->; eauto.
Qed.
Lemma starts_with_app p r : starts_with p (p +:+ r) = true.
Proof. apply starts_with_spec; by exists r. Qed.
Lemma starts_with_refl p : starts_with p p = true.
Proof. apply starts_with_spec; exists ""; by rewrite str_app_nil_r. Qed.

Lemma contains_spec t s : contains t s = true <-> exists a b, s = a +:+ t +:+ b.
Proof.
  induction s as [|c s IH]; simpl; rewrite orb_true_iff, starts_with_spec.
  - split; [intros [[r Hr] | ?]; [exists "", r; done | done] |].
    intros (a & b & H). left; destruct a; [by exists b | done].
  - rewrite IH; split.
    + intros [[r Hr] | (a & b & ->)]; [exists "", r; done | exists (String c a), b; done].
    + intros ([|d a] & b & H); [left; by exists b |].
      injection H as -> ->; right; by exists a, b.
Qed.

(** Lowercasing. *)
Lemma str_map_app f s t : str_map f (s +:+ t) = str_map f s +:+ str_map f t.
Proof. induction s as [|c s IH]; [done | rewrite app_cons; simpl; by rewrite IH]. Qed.
Lemma length_str_map f s : String.length (str_map f s) = String.length s.
Proof. induction s as [|c s IH]; simpl; congruence. Qed.
Lemma tolower_idemp c : tolower (tolower c) = tolower c.
Proof. by destruct c as [[] [] [] [] [] [] [] []]. Qed.
Lemma lower_idemp s : lower (lower s) = lower s.
Proof. unfold lower; induction s as [|c s IH]; simpl; [done | by rewrite tolower_idemp, IH]. Qed.
Lemma lower_app s t : lower (s +:+ t) = lower s +:+ lower t.
Proof. apply str_map_app. Qed.

(** ** Characters of a string *)

Lemma all_chars_app p s t : all_chars p (s +:+ t) = all_chars p s && all_chars p t.
Proof. induction s as [|c s IH]; [done | rewrite app_cons; simpl; by rewrite IH, andb_assoc]. Qed.
Lemma all_chars_impl (p q : ascii -> bool) s :
  (forall c, p c = true -> q c = true) -> all_chars p s = true -> all_chars q s = true.
Proof.
  intros H; induction s as [|c s IH]; simpl; [done |].
  rewrite !andb_true_iff; intros [? ?]; auto.
Qed.
Lemma no_char_app c s t : no_char c (s +:+ t) = no_char c s && no_char c t.
Proof. apply all_chars_app. Qed.
Lemma no_char_cons c d s : no_char c (String d s) = negb (Ascii.eqb d c) && no_char c s.
Proof. done. Qed.
#[export] Hint Rewrite all_chars_app no_char_app no_char_cons : cstring.

(** ** [find] *)

Lemma find_char_app c a b :
  no_char c a = true -> find_char c (a +:+ String c b) = Some (String.length a).
Proof.
  induction a as [|d a IH]; intros H.
  - rewrite app_nil_l'; simpl; by rewrite Ascii.eqb_refl.
  - rewrite no_char_cons in H; boolify. rewrite app_cons; simpl.
    rewrite H; rewrite IH by done; done.
Qed.
Lemma find_char_none c s : find_char c s = None <-> no_char c s = true.
Proof.
  induction s as [|d s IH]; [done |]. rewrite no_char_cons; simpl.
  destruct (Ascii.eqb d c); simpl; [done |]. rewrite <- IH.
  by destruct (find_char c s).
Qed.
Lemma find_char_some c s n :
  find_char c s = Some n ->
  s = str_take n s +:+ String c (str_drop (S n) s) /\
  no_char c (str_take n s) = true /\ String.length (str_take n s) = n.
Proof.
  revert n; induction s as [|d s IH]; simpl; intros n H; [done |].
  destruct (Ascii.eqb d c) eqn:E.
  - injection H as <-. apply Ascii.eqb_eq in E as ->. done.
  - destruct (find_char c s) as [m|] eqn:F; [|done]. injection H as <-.
    destruct (IH m eq_refl) as (H1 & H2 & H3).
    cbn [str_take]; rewrite no_char_cons, app_cons, E, H2; cbn [String.length].
    split_and!; [by rewrite H1 at 1 | done | by rewrite H3].
Qed.

(** A string is cut at its first [c], or has none. *)
Lemma find_char_cases c s :
  (find_char c s = None /\ no_char c s = true) \/
  (exists a b, s = a +:+ String c b /\ no_char c a = true /\
               find_char c s = Some (String.length a)).
Proof.
  destruct (find_char c s) as [n|] eqn:E.
  - right. destruct (find_char_some _ _ _ E) as (H1 & H2 & H3).
    exists (str_take n s), (str_drop (S n) s); rewrite H3; auto.
  - left; split; [done | by apply find_char_none].
Qed.

Lemma substr_cut c a b :
  substr 0 (String.length a) (a +:+ String c b) = a /\
  str_drop (S (String.length a)) (a +:+ String c b) = b.
Proof.
  unfold substr; simpl; split; [apply str_take_app_length |].
  induction a as [|d a IH]; [done | rewrite app_cons; done].
Qed.

(** ** [getline] *)

Lemma getlines_from_line cur l t :
  no_char nl l = true -> getlines_from cur (l +:+ String nl t) = (cur +:+ l) :: getlines t.
Proof.
  revert cur; induction l as [|c l IH]; intros cur H.
  - rewrite app_nil_l', str_app_nil_r; reflexivity.
  - rewrite no_char_cons in H; boolify. rewrite app_cons; simpl; rewrite H.
    rewrite IH by done. by rewrite str_app_assoc.
Qed.
Lemma getlines_line l t :
  no_char nl l = true -> getlines (l +:+ String nl t) = l :: getlines t.
Proof. intros; unfold getlines at 1; by rewrite getlines_from_line. Qed.
Lemma getlines_from_last cur l :
  no_char nl l = true -> cur +:+ l <> "" -> getlines_from cur l = [cur +:+ l].
Proof.
  revert cur; induction l as [|c l IH]; intros cur H Hne; simpl.
  - rewrite str_app_nil_r in *; by destruct cur.
  - rewrite no_char_cons in H; boolify.
    rewrite H, IH; [by rewrite str_app_assoc | done | by rewrite str_app_assoc].
Qed.
Lemma getlines_last l : no_char nl l = true -> l <> "" -> getlines l = [l].
Proof. intros; by apply (getlines_from_last ""). Qed.
Lemma getlines_app l t :
  getlines (l +:+ String nl t) = getlines (l +:+ chr nl) ++ getlines t.
Proof.
  unfold getlines at 1 2. generalize "" as cur.
  induction l as [|c l IH]; intros cur.
  - rewrite !app_nil_l'; simpl; done.
  - rewrite !app_cons; simpl. case_goal; [simpl; f_equal|]; apply IH.
Qed.
Lemma getlines_no_nl s : Forall (fun l => no_char nl l = true) (getlines s).
Proof.
  unfold getlines. assert (H : no_char nl "" = true) by done. revert H.
  generalize "" as cur.
  induction s as [|c s IH]; intros cur H; simpl.
  - case_goal; repeat constructor; done.
  - case_goal; [constructor; [done |]; by apply IH |].
    apply IH. rewrite no_char_app, H; unfold chr; rewrite no_char_cons. by rewrite Heqb.
Qed.

(** ** Decimal numbers *)

Lemma digit_char_digit d : (0 <= d < 10)%Z -> is_digit (digit_char d) = true.
Proof.
  intros H. assert (d = 0 \/ d = 1 \/ d = 2 \/ d = 3 \/ d = 4 \/ d = 5 \/ d = 6 \/
    d = 7 \/ d = 8 \/ d = 9)%Z as Hd by lia.
  repeat destruct Hd as [-> | Hd]; try reflexivity. by subst d.
Qed.
Lemma digit_val_char d : (0 <= d < 10)%Z -> digit_val (digit_char d) = d.
Proof.
  intros H. assert (d = 0 \/ d = 1 \/ d = 2 \/ d = 3 \/ d = 4 \/ d = 5 \/ d = 6 \/
    d = 7 \/ d = 8 \/ d = 9)%Z as Hd by lia.
  repeat destruct Hd as [-> | Hd]; try reflexivity. by subst d.
Qed.

(** Enough fuel: each step divides by ten. *)
Lemma dec_digits_value fuel n acc :
  (0 <= n)%Z -> (n < 2 ^ Z.of_nat fuel)%Z ->
  digits_value 0 (dec_digits fuel n acc) = digits_value n acc.
Proof.
  revert n acc; induction fuel as [|f IH]; intros n acc H0 Hf.
  - change (2 ^ Z.of_nat 0)%Z with 1%Z in Hf. assert (n = 0)%Z by lia; by subst.
  - cbn [dec_digits]. destruct (Z.ltb_spec n 10).
    + cbn [digits_value]. rewrite digit_char_digit, digit_val_char by lia. f_equal; lia.
    + rewrite IH.
      * cbn [digits_value]. pose proof (Z.mod_pos_bound n 10).
        rewrite digit_char_digit, digit_val_char by lia. f_equal.
        pose proof (Z.div_mod n 10); lia.
      * apply Z.div_pos; lia.
      * rewrite Nat2Z.inj_succ, Z.pow_succ_r in Hf by lia.
        apply Z.div_lt_upper_bound; lia.
Qed.
Lemma dec_digits_chars fuel n acc :
  (0 <= n)%Z -> all_chars is_digit acc = true ->
  all_chars is_digit (dec_digits fuel n acc) = true.
Proof.
  revert n acc; induction fuel as [|f IH]; intros n acc H0 Ha; [done |].
  cbn [dec_digits]. destruct (Z.ltb_spec n 10).
  - simpl. by rewrite digit_char_digit, Ha by lia.
  - apply IH; [apply Z.div_pos; lia |]. simpl.
    rewrite digit_char_digit, Ha; [done | apply Z.mod_pos_bound; lia].
Qed.
Lemma dec_digits_nonempty fuel n acc :
  fuel <> 0%nat \/ acc <> "" -> dec_digits fuel n acc <> "".
Proof.
  revert n acc; induction fuel as [|f IH]; intros n acc [H|H]; try done;
    cbn [dec_digits]; destruct (n <? 10)%Z; try done; apply IH; by right.
Qed.

Lemma to_dec_value n : (0 <= n)%Z -> digits_value 0 (to_dec n) = n.
Proof.
  intros H. unfold to_dec. rewrite dec_digits_value; [done | done |].
  rewrite Nat2Z.inj_succ, Z2Nat.id by apply Z.log2_nonneg.
  destruct (Z.eq_dec n 0) as [-> | ?]; [by vm_compute | apply Z.log2_spec; lia].
Qed.
Lemma to_dec_chars n : (0 <= n)%Z -> all_chars is_digit (to_dec n) = true.
Proof. intros; by apply dec_digits_chars. Qed.
Lemma to_dec_nonempty n : to_dec n <> "".
Proof. apply dec_digits_nonempty; by left. Qed.

Lemma is_digit_not (c d : ascii) : is_digit d = false -> is_digit c = true -> Ascii.eqb c d = false.
Proof. intros Hd Hc; apply Ascii.eqb_neq; congruence. Qed.
Lemma is_digit_space c : is_digit c = true -> is_space c = false.
Proof. by destruct c as [[] [] [] [] [] [] [] []]. Qed.

Lemma strtol_digits s :
  starts_digit s = true -> strtol s = Some (digits_value 0 s).
Proof.
  destruct s as [|c s]; [done | intros H; simpl in H].
  unfold strtol; cbn [skip_space]. rewrite is_digit_space by done.
  by rewrite !is_digit_not, H by done.
Qed.

Lemma strtol_minus s :
  starts_digit s = true -> strtol (String "-" s) = Some (- digits_value 0 s)%Z.
Proof.
  intros H; unfold strtol; change (skip_space (String "-" s)) with (String "-" s).
  cbv beta iota; change (Ascii.eqb "-" "-") with true; cbv beta iota. by rewrite H.
Qed.

Lemma starts_digit_to_dec n : (0 <= n)%Z -> starts_digit (to_dec n) = true.
Proof.
  intros H; pose proof (to_dec_chars n H) as Hc; pose proof (to_dec_nonempty n).
  destruct (to_dec n); [done | simpl in Hc; by boolify].
Qed.

Lemma strtol_to_string n : strtol (to_string n) = Some n.
Proof.
  unfold to_string. destruct (Z.ltb_spec n 0).
  - rewrite strtol_minus, to_dec_value by (apply starts_digit_to_dec || idtac; lia).
    f_equal; lia.
  - rewrite strtol_digits by (apply starts_digit_to_dec; lia).
    by rewrite to_dec_value.
Qed.
Lemma to_string_inj n m : to_string n = to_string m -> n = m.
Proof. intros H. apply (f_equal strtol) in H. rewrite !strtol_to_string in H. congruence. Qed.
Lemma stol_to_string n : (long_min <= n <= long_max)%Z -> stol (to_string n) = Some n.
Proof.
  intros [H1 H2]. unfold stol; rewrite strtol_to_string; unfold in_range.
  by rewrite (proj2 (Z.leb_le _ _) H1), (proj2 (Z.leb_le _ _) H2).
Qed.
Lemma to_string_chars n :
  (0 <= n)%Z -> all_chars is_digit (to_string n) = true.
Proof.
  intros; unfold to_string. destruct (Z.ltb_spec n 0); [lia |]; by apply to_dec_chars.
Qed.
Lemma to_string_nonempty n : to_string n <> "".
Proof. unfold to_string. destruct (n <? 0)%Z; [done | apply to_dec_nonempty]. Qed.
