(* ===== verification/Text.v ===== *)
(** * Text: the anonymous-namespace text helpers several source files repeat.

    [trim] (config.cpp, users.cpp), the lenient [split_csv] of an allow-list
    (config.cpp, zerotouchd.cpp, zt_sim.cpp) and the strict [csv] of the
    command grammar (gnmi_command.cpp), with the facts their clients need:
    trimming is idempotent and ignores padding, and the two splitters invert
    [join]. *)

From S2P Require Import Prelude CString.

(** ** The code *)

(** [trim]: from the first to the last character that is not a blank. *)
Definition trim (s : string) : string :=
  match find_first_not_of is_trim s with
  | None => ""
  | Some b =>
      match find_last_not_of is_trim s with
      | None => ""
      | Some e => substr b (e - b + 1) s
      end
  end.

(** [split_csv]: blanks dropped, empty fields dropped. *)
Fixpoint split_csv_from (cur s : string) : list string :=
  match s with
  | "" => match cur with "" => [] | _ => [cur] end
  | String c r =>
      if Ascii.eqb c "," then
        match cur with
        | "" => split_csv_from "" r
        | _ => cur :: split_csv_from "" r
        end
      else if negb (Ascii.eqb c " ") && negb (Ascii.eqb c tab)
           then split_csv_from (cur +:+ chr c) r
           else split_csv_from cur r
  end.
Definition split_csv : string -> list string := split_csv_from "".

(** [csv]: every field kept, the last one pushed after the loop. *)
Fixpoint csv_from (cur s : string) : list string :=
  match s with
  | "" => [cur]
  | String c r =>
      if Ascii.eqb c "," then cur :: csv_from "" r else csv_from (cur +:+ chr c) r
  end.
Definition csv : string -> list string := csv_from "".

(** ** Specification vocabulary *)

Fixpoint join (sep : string) (l : list string) : string :=
  match l with
  | [] => ""
  | [x] => x
  | x :: r => x +:+ sep +:+ join sep r
  end.

Fixpoint ltrim (s : string) : string :=
  match s with
  | String c r => if is_trim c then ltrim r else s
  | "" => ""
  end.
Fixpoint rtrim (s : string) : string :=
  match s with
  | "" => ""
  | String c r =>
      match rtrim r with
      | "" => if is_trim c then "" else String c ""
      | r' => String c r'
      end
  end.

(** A text [trim] leaves alone. *)
Definition trimmed (s : string) : bool := String.eqb (trim s) s.

(** A field a lenient CSV list can carry: not empty, no comma, no blank. *)
Definition csv_field (s : string) : bool :=
  negb (String.eqb s "") &&
  all_chars (fun c => negb (Ascii.eqb c ",") && negb (Ascii.eqb c " ") && negb (Ascii.eqb c tab)) s.

(** ** [trim] *)

Lemma find_first_last_none s :
  find_first_not_of is_trim s = None <-> find_last_not_of is_trim s = None.
Proof.
  induction s as [|c s IH]; simpl; [done |].
  destruct (is_trim c), (find_first_not_of is_trim s), (find_last_not_of is_trim s);
    simpl; try done; by destruct IH as [IH1 IH2]; try (by specialize (IH1 eq_refl)); try (by specialize (IH2 eq_refl)).
Qed.
Lemma str_take_last s e :
  find_last_not_of is_trim s = Some e -> str_take (S e) s = rtrim s.
Proof.
  revert e; induction s as [|c s IH]; intros e; cbn -[str_take]; [done |].
  destruct (find_last_not_of is_trim s) as [n|] eqn:E.
  - intros [= <-]. specialize (IH n eq_refl).
    assert (rtrim s <> "") as Hne by (rewrite <- IH; destruct s; done).
    change (str_take (S (S n)) (String c s)) with (String c (str_take (S n) s)).
    rewrite IH; by destruct (rtrim s).
  - assert (rtrim s = "") as ->.
    { clear IH; induction s as [|d s IH]; simpl in *; [done |].
      destruct (find_last_not_of is_trim s); [done |].
      rewrite IH by done; by destruct (is_trim d). }
    by destruct (is_trim c); intros [= <-].
Qed.
Lemma trim_ltrim_rtrim s : trim s = rtrim (ltrim s).
Proof.
  unfold trim; induction s as [|c s IH]; [done |].
  pose proof (find_first_last_none s) as H.
  cbn [find_first_not_of find_last_not_of ltrim].
  destruct (is_trim c) eqn:Hc.
  - destruct (find_first_not_of is_trim s) as [b|], (find_last_not_of is_trim s) as [e|];
      cbn [fmap option_fmap option_map]; try exact IH; by destruct H as [H1 H2]; try (by specialize (H1 eq_refl));
      try (by specialize (H2 eq_refl)).
  - destruct (find_last_not_of is_trim s) as [e|] eqn:E.
    + unfold substr; cbn [str_drop]. rewrite <- (str_take_last (String c s) (S e)).
      * f_equal; lia.
      * simpl; by rewrite E.
    + unfold substr; cbn [str_drop]. rewrite <- (str_take_last (String c s) 0); [done |].
      simpl; by rewrite E, Hc.
Qed.

Lemma ltrim_ws a s : all_chars is_trim a = true -> ltrim (a +:+ s) = ltrim s.
Proof.
  induction a as [|c a IH]; intros H; [done |].
  simpl in H; boolify. rewrite app_cons; simpl. by rewrite H, IH.
Qed.
Lemma rtrim_ws s b : all_chars is_trim b = true -> rtrim (s +:+ b) = rtrim s.
Proof.
  intros Hb; induction s as [|c s IH].
  - rewrite app_nil_l'. induction b as [|d b IHb]; [done |]; simpl in Hb; boolify.
    simpl; by rewrite IHb, H.
  - rewrite app_cons; simpl; by rewrite IH.
Qed.
Lemma ltrim_app_ws s b :
  all_chars is_trim b = true -> rtrim (ltrim (s +:+ b)) = rtrim (ltrim s).
Proof.
  intros Hb; induction s as [|c s IH].
  - rewrite app_nil_l'. pose proof (ltrim_ws b "" Hb) as H; rewrite str_app_nil_r in H; by rewrite H.
  - rewrite app_cons; simpl. destruct (is_trim c); [done |].
    rewrite <- app_cons; by apply rtrim_ws.
Qed.
Lemma trim_pad a s b :
  all_chars is_trim a = true -> all_chars is_trim b = true ->
  trim (a +:+ s +:+ b) = trim s.
Proof. intros; rewrite !trim_ltrim_rtrim, ltrim_ws by done; by apply ltrim_app_ws. Qed.
Lemma ltrim_idemp s : ltrim (ltrim s) = ltrim s.
Proof. induction s as [|c s IH]; simpl; [done |]. destruct (is_trim c) eqn:E; simpl; by rewrite ?E. Qed.
Lemma rtrim_idemp s : rtrim (rtrim s) = rtrim s.
Proof.
  induction s as [|c s IH]; simpl; [done |].
  destruct (rtrim s) as [|d r] eqn:E.
  - destruct (is_trim c) eqn:Ec; simpl; by rewrite ?Ec.
  - change (rtrim (String c (String d r))) with
      (match rtrim (String d r) with
       | "" => if is_trim c then "" else String c "" | r' => String c r' end).
    by rewrite IH.
Qed.
Lemma ltrim_rtrim t : ltrim t = t -> ltrim (rtrim t) = rtrim t.
Proof.
  destruct t as [|c t]; [done |]; simpl. destruct (is_trim c) eqn:E.
  - intros H. assert (String.length (ltrim t) <= String.length t)%nat.
    { clear; induction t as [|d t IH]; simpl; [done |]; destruct (is_trim d); simpl; lia. }
    rewrite H in H0; simpl in H0; lia.
  - intros _. destruct (rtrim t); simpl; by rewrite E.
Qed.
Lemma trim_idemp s : trim (trim s) = trim s.
Proof. rewrite !trim_ltrim_rtrim, ltrim_rtrim by apply ltrim_idemp. apply rtrim_idemp. Qed.

Lemma rtrim_chars (p : ascii -> bool) s : all_chars p s = true -> all_chars p (rtrim s) = true.
Proof.
  induction s as [|c s IH]; [done |]; simpl; intros H; boolify.
  specialize (IH H0). destruct (rtrim s); [destruct (is_trim c); [done|] |];
    simpl; by rewrite H, ?IH.
Qed.
Lemma ltrim_chars (p : ascii -> bool) s : all_chars p s = true -> all_chars p (ltrim s) = true.
Proof.
  induction s as [|c s IH]; [done |]; simpl; intros H; boolify.
  destruct (is_trim c); [by apply IH | simpl; by rewrite H, H0].
Qed.
(** Trimming only removes characters. *)
Lemma trim_chars p s : all_chars p s = true -> all_chars p (trim s) = true.
Proof. intros; rewrite trim_ltrim_rtrim; by apply rtrim_chars, ltrim_chars. Qed.

Lemma trimmed_spec s : trimmed s = true <-> trim s = s.
Proof. unfold trimmed; apply String.eqb_eq. Qed.
Lemma trim_trimmed s : trimmed (trim s) = true.
Proof. apply trimmed_spec, trim_idemp. Qed.

(** A text without any blank is left alone. *)
Lemma rtrim_no_blank s : all_chars (fun c => negb (is_trim c)) s = true -> rtrim s = s.
Proof.
  induction s as [|c s IH]; simpl; intros H; [done |]; boolify.
  rewrite IH by done; destruct s; [by rewrite H | done].
Qed.
Lemma no_blank_trimmed s : all_chars (fun c => negb (is_trim c)) s = true -> trimmed s = true.
Proof.
  intros H; apply trimmed_spec; rewrite trim_ltrim_rtrim.
  rewrite <- (rtrim_no_blank s) at 2 by done. f_equal.
  destruct s as [|c s]; [done |]; simpl in *; boolify. by rewrite H.
Qed.

Lemma ltrim_head c s : is_trim c = false -> ltrim (String c s) = String c s.
Proof. intros H; simpl; by rewrite H. Qed.
(** Everything before a character that is not a blank survives [rtrim]. *)
Lemma rtrim_app_char a c b :
  is_trim c = false -> rtrim (a +:+ String c b) = a +:+ String c (rtrim b).
Proof.
  intros H; induction a as [|d a IH]; [simpl; destruct (rtrim b); by rewrite ?H |].
  rewrite !app_cons. change (rtrim (String d (a +:+ String c b))) with
    (match rtrim (a +:+ String c b) with
     | "" => if is_trim d then "" else String d "" | r' => String d r' end).
  rewrite IH. by destruct a.
Qed.
Lemma trim_rtrim s : trim (rtrim s) = trim s.
Proof.
  rewrite !trim_ltrim_rtrim. induction s as [|c s IH]; [done |]. cbn [rtrim ltrim].
  destruct (rtrim s) as [|d r] eqn:E.
  - destruct (is_trim c) eqn:Hc; cbn [ltrim].
    + rewrite <- IH; done.
    + rewrite Hc. cbn [rtrim]. by rewrite E, Hc.
  - cbn [ltrim]; destruct (is_trim c) eqn:Hc; [exact IH |].
    rewrite <- E. change (rtrim (String c (rtrim s))) with
      (match rtrim (rtrim s) with
       | "" => if is_trim c then "" else String c "" | r' => String c r' end).
    by rewrite rtrim_idemp.
Qed.

Lemma ltrim_length s : (String.length (ltrim s) <= String.length s)%nat.
Proof. induction s as [|c s IH]; simpl; [done |]; destruct (is_trim c); simpl; lia. Qed.
Lemma rtrim_length s : (String.length (rtrim s) <= String.length s)%nat.
Proof.
  induction s as [|c s IH]; simpl; [done |].
  destruct (rtrim s); [destruct (is_trim c) |]; simpl in *; lia.
Qed.
Lemma trimmed_ltrim s : trimmed s = true -> ltrim s = s.
Proof.
  rewrite trimmed_spec, trim_ltrim_rtrim. destruct s as [|c s]; [done |]; simpl.
  destruct (is_trim c); [| done]. intros H.
  pose proof (ltrim_length s). pose proof (rtrim_length (ltrim s)).
  rewrite H in H1; simpl in H1; lia.
Qed.
Lemma trimmed_rtrim s : trimmed s = true -> rtrim s = s.
Proof.
  intros H. rewrite <- (trimmed_ltrim s H) at 1. rewrite <- trim_ltrim_rtrim.
  by apply trimmed_spec.
Qed.
(** A text that starts and ends with trimmed, non-empty fields is trimmed. *)
Lemma trimmed_around a c b :
  trimmed a = true -> a <> "" -> is_trim c = false -> trimmed b = true ->
  trimmed (a +:+ String c b) = true.
Proof.
  intros Ha Hne Hc Hb. apply trimmed_spec. rewrite trim_ltrim_rtrim.
  destruct a as [|d a]; [done |]. pose proof (trimmed_ltrim _ Ha) as Hl; simpl in Hl.
  destruct (is_trim d) eqn:Hd.
  { pose proof (ltrim_length a) as Hle; rewrite Hl in Hle; simpl in Hle; lia. }
  rewrite app_cons, ltrim_head, <- app_cons, rtrim_app_char by done. by rewrite trimmed_rtrim.
Qed.

(** ** [csv] and [split_csv] *)

Lemma csv_from_field cur x s :
  no_char "," x = true -> csv_from cur (x +:+ String "," s) = (cur +:+ x) :: csv s.
Proof.
  revert cur; induction x as [|c x IH]; intros cur H.
  - by rewrite app_nil_l', str_app_nil_r.
  - rewrite no_char_cons in H; boolify. rewrite app_cons; simpl; rewrite H.
    rewrite IH by done. by rewrite str_app_assoc.
Qed.
Lemma csv_from_last cur x : no_char "," x = true -> csv_from cur x = [cur +:+ x].
Proof.
  revert cur; induction x as [|c x IH]; intros cur H.
  - simpl; by rewrite str_app_nil_r.
  - rewrite no_char_cons in H; boolify. simpl; rewrite H, IH by done. by rewrite str_app_assoc.
Qed.
(** [csv] inverts [join] on fields without commas, and [join] inverts [csv]. *)
Lemma csv_join l :
  l <> [] -> Forall (fun x => no_char "," x = true) l -> csv (join "," l) = l.
Proof.
  intros Hne H; unfold csv. induction H as [|x l Hx Hl IH]; [done |].
  destruct l as [|y l]; [by apply csv_from_last |].
  change (join "," (x :: y :: l)) with (x +:+ "," +:+ join "," (y :: l)).
  change ("," +:+ join "," (y :: l)) with (String "," (join "," (y :: l))).
  rewrite csv_from_field by done. unfold csv; by rewrite IH.
Qed.
Lemma csv_from_nonempty cur s : csv_from cur s <> [].
Proof. revert cur; induction s as [|c s IH]; intros cur; simpl; [done |]; case_goal; [done | apply IH]. Qed.
Lemma join_csv_from cur s : join "," (csv_from cur s) = cur +:+ s.
Proof.
  revert cur; induction s as [|c s IH]; intros cur; simpl; [by rewrite str_app_nil_r |].
  destruct (Ascii.eqb c ",") eqn:E.
  - apply Ascii.eqb_eq in E as ->. pose proof (csv_from_nonempty "" s).
    simpl. destruct (csv_from "" s) eqn:F; [done |]. rewrite <- F, IH. done.
  - by rewrite IH, str_app_assoc.
Qed.
Lemma join_csv s : join "," (csv s) = s.
Proof. apply (join_csv_from ""). Qed.
Lemma csv_nonempty s : csv s <> [].
Proof. apply csv_from_nonempty. Qed.
Lemma csv_from_no_comma cur s :
  no_char "," cur = true -> Forall (fun x => no_char "," x = true) (csv_from cur s).
Proof.
  revert cur; induction s as [|c s IH]; intros cur H; simpl; [by repeat constructor |].
  case_goal; [constructor; [done | by apply IH] |].
  apply IH. rewrite no_char_app, H; unfold chr; rewrite no_char_cons; by rewrite Heqb.
Qed.
Lemma csv_no_comma s : Forall (fun x => no_char "," x = true) (csv s).
Proof. by apply csv_from_no_comma. Qed.

Lemma split_csv_from_field cur x s :
  cur +:+ x <> "" ->
  all_chars (fun c => negb (Ascii.eqb c ",") && negb (Ascii.eqb c " ") && negb (Ascii.eqb c tab)) x = true ->
  split_csv_from cur (x +:+ String "," s) = (cur +:+ x) :: split_csv s.
Proof.
  revert cur; induction x as [|c x IH]; intros cur Hne H.
  - rewrite app_nil_l', str_app_nil_r in *; simpl; by destruct cur.
  - simpl in H; boolify. rewrite app_cons; simpl; rewrite H, H2, H1; simpl.
    rewrite IH; [by rewrite str_app_assoc | by rewrite str_app_assoc | done].
Qed.
Lemma split_csv_from_last cur x :
  cur +:+ x <> "" ->
  all_chars (fun c => negb (Ascii.eqb c ",") && negb (Ascii.eqb c " ") && negb (Ascii.eqb c tab)) x = true ->
  split_csv_from cur x = [cur +:+ x].
Proof.
  revert cur; induction x as [|c x IH]; intros cur Hne H; simpl.
  - rewrite str_app_nil_r in *; by destruct cur.
  - simpl in H; boolify. rewrite H, H2, H1; simpl.
    rewrite IH; [by rewrite str_app_assoc | by rewrite str_app_assoc | done].
Qed.
Lemma split_csv_join l :
  Forall (fun x => csv_field x = true) l -> split_csv (join "," l) = l.
Proof.
  unfold split_csv. induction 1 as [|x l Hx Hl IH]; [done |].
  unfold csv_field in Hx; boolify.
  destruct l as [|y l]; [by apply split_csv_from_last |].
  change (join "," (x :: y :: l)) with (x +:+ String "," (join "," (y :: l))).
  rewrite split_csv_from_field by done. unfold split_csv; by rewrite IH.
Qed.
Lemma split_csv_from_fields cur s :
  all_chars (fun c => negb (Ascii.eqb c ",") && negb (Ascii.eqb c " ") && negb (Ascii.eqb c tab)) cur = true ->
  Forall (fun x => csv_field x = true) (split_csv_from cur s).
Proof.
  unfold csv_field.
  revert cur; induction s as [|c s IH]; intros cur H; simpl.
  - destruct cur; constructor; [by rewrite H | done].
  - destruct (Ascii.eqb c ",") eqn:E1.
    { destruct cur; [by apply IH |]. constructor; [by rewrite H | by apply IH]. }
    destruct (Ascii.eqb c " ") eqn:E2; [by apply IH |].
    destruct (Ascii.eqb c tab) eqn:E3; [by apply IH |]. simpl.
    apply IH. rewrite all_chars_app, H; simpl; by rewrite E1, E2, E3.
Qed.
(** Every field [split_csv] yields is usable: not empty, no comma, no blank. *)
Lemma split_csv_fields s : Forall (fun x => csv_field x = true) (split_csv s).
Proof. by apply split_csv_from_fields. Qed.
