(* ===== verification/PathPolicy.v ===== *)
(** * PathPolicy: the sensitive-path denylist (src/path_policy.cpp).

    [is_sensitive_path] as the source computes it, its meaning as a
    case-insensitive substring test, and the closure facts the gNMI sinks rely
    on: everything below a sensitive path is sensitive, whatever its case. *)

From S2P Require Import Prelude CString.

Definition default_deny_tokens : list string :=
  ["password"; "passwd"; "psk"; "secret"; "private-key"; "privatekey";
   "credential"; "pre-shared"; "apikey"; "api-key"; "auth-key"].

(** [is_sensitive_path(xpath, tokens)]: the xpath is lowercased, the tokens are
    taken as they are. *)
Definition is_sensitive_path (xpath : string) (tokens : list string) : bool :=
  let low := lower xpath in
  existsb (fun t => negb (String.eqb t "") && contains t low) tokens.

(** The overload on [default_deny_tokens()]. *)
Definition is_sensitive_path_default (xpath : string) : bool :=
  is_sensitive_path xpath default_deny_tokens.

(** ** Lemmas *)

Lemma is_sensitive_spec xpath tokens :
  is_sensitive_path xpath tokens = true <->
  exists t a b, t ∈ tokens /\ t <> "" /\ lower xpath = a +:+ t +:+ b.
Proof.
  unfold is_sensitive_path. rewrite existsb_exists. split.
  - intros (t & Ht & H); boolify. apply contains_spec in H0 as (a & b & E).
    exists t, a, b. rewrite list_elem_of_In; done.
  - intros (t & a & b & Ht & Hne & E). exists t. rewrite <- list_elem_of_In; split; [done |].
    apply andb_true_iff; split; [by apply negb_true_iff, String.eqb_neq |].
    apply contains_spec; eauto.
Qed.

Lemma is_sensitive_lower_eq x y tokens :
  lower x = lower y -> is_sensitive_path x tokens = is_sensitive_path y tokens.
Proof. unfold is_sensitive_path; by intros ->. Qed.

Lemma is_sensitive_extend a x b tokens :
  is_sensitive_path x tokens = true -> is_sensitive_path (a +:+ x +:+ b) tokens = true.
Proof.
  rewrite !is_sensitive_spec. intros (t & p & q & Ht & Hne & E).
  exists t, (lower a +:+ p), (q +:+ lower b); split_and!; [done | done |].
  by rewrite !lower_app, E, !str_app_assoc.
Qed.

Lemma all_chars_not_upper_lower s : all_chars (fun c => negb (is_upper c)) (lower s) = true.
Proof.
  induction s as [|c s IH]; [done |]. cbn. fold (lower s). rewrite IH.
  by destruct c as [[] [] [] [] [] [] [] []].
Qed.

(** ** Properties *)

(** The denylist is a case-insensitive test that is closed upwards: a path
    is refused exactly when its lowercase form contains a non-empty token;
    changing the case of the path changes nothing; and every path that extends
    a refused one (a leaf below a refused container) is refused too. *)
Theorem is_sensitive_path_meaning (tokens : list string) :
  (forall xpath, is_sensitive_path xpath tokens = true <->
     exists t a b, t ∈ tokens /\ t <> "" /\ lower xpath = a +:+ t +:+ b) /\
  (forall x y, lower x = lower y ->
     is_sensitive_path x tokens = is_sensitive_path y tokens) /\
  (forall a x b, is_sensitive_path x tokens = true ->
     is_sensitive_path (a +:+ x +:+ b) tokens = true).
Proof.
  split_and!; intros; [apply is_sensitive_spec | by apply is_sensitive_lower_eq |
                       by apply is_sensitive_extend].
Qed.

(** Only the xpath is lowercased, so a configured token that holds an
    uppercase letter matches no path at all, not even itself. *)
Theorem uppercase_token_never_matches (t xpath : string) :
  all_chars (fun c => negb (is_upper c)) t = false ->
  is_sensitive_path xpath [t] = false.
Proof.
  intros Ht. apply not_true_iff_false; rewrite is_sensitive_spec.
  intros (t' & a & b & Hin & _ & E). apply list_elem_of_singleton in Hin as ->.
  pose proof (all_chars_not_upper_lower xpath) as H.
  rewrite E, !all_chars_app, Ht, andb_false_l, andb_false_r in H; done.
Qed.

Lemma uppercase_token_never_matches_witness :
  is_sensitive_path "/system/config/ApiToken" ["ApiToken"] = false.
Proof. apply uppercase_token_never_matches; reflexivity. Defined.

Example default_denylist_examples :
  is_sensitive_path_default "/System/Config/PASSWORD" = true /\
  is_sensitive_path_default "/system/aaa" = false /\
  is_sensitive_path_default "/" = false.
Proof. repeat split; reflexivity. Qed.
