(* ===== verification/SmsUtil.v ===== *)
(** * SmsUtil: who can be answered (src/sms_util.cpp). *)

From S2P Require Import Prelude CString.

(** The loop of [is_reachable_sender], with its early return and its count. *)
Fixpoint reachable_from (digits : nat) (s : string) : bool :=
  match s with
  | "" => (7 <=? digits)%nat
  | String c r =>
      if is_digit c then reachable_from (S digits) r
      else if negb (Ascii.eqb c "+") && negb (Ascii.eqb c " ") && negb (Ascii.eqb c "-")
           then false
           else reachable_from digits r
  end.
Definition is_reachable_sender (sender : string) : bool := reachable_from 0 sender.

Definition e164_char (c : ascii) : bool :=
  is_digit c || Ascii.eqb c "+" || Ascii.eqb c " " || Ascii.eqb c "-".
Fixpoint count_chars (p : ascii -> bool) (s : string) : nat :=
  match s with
  | "" => 0
  | String c r => (if p c then 1 else 0) + count_chars p r
  end.

Lemma reachable_from_spec n s :
  reachable_from n s = all_chars e164_char s && (7 <=? n + count_chars is_digit s)%nat.
Proof.
  revert n; induction s as [|c s IH]; intros n; cbn [reachable_from all_chars count_chars].
  - by rewrite Nat.add_0_r.
  - rewrite !IH; unfold e164_char at 3. destruct (is_digit c); cbn [orb andb].
    + by rewrite Nat.add_succ_r.
    + by destruct (Ascii.eqb c "+"), (Ascii.eqb c " "), (Ascii.eqb c "-").
Qed.

(** A sender is answerable exactly when all its characters are digits,
    '+', blanks or '-' and at least seven of them are digits; in particular an
    alphanumeric sender ID never is. *)
Theorem is_reachable_sender_meaning (sender : string) :
  is_reachable_sender sender =
  all_chars e164_char sender && (7 <=? count_chars is_digit sender)%nat.
Proof. apply reachable_from_spec. Qed.

Example alphanumeric_sender : is_reachable_sender "AZ-AIRTEL-S" = false.
Proof. reflexivity. Qed.
