(* ===== verification/OrdMap.v ===== *)
(** * OrdMap: [std::map<std::string, V>].

    The code iterates its maps, so the model keeps what iteration shows: the
    entries in increasing key order ([std::string]'s [<] compares characters
    as unsigned bytes, which is [String.compare]).  [to_gmap] forgets the
    order; the refinement lemmas say that every operation of the ordered map is
    the corresponding operation of stdpp's [gmap], so the clients' theorems are
    stated over [gmap] lookups. *)

From Stdlib Require Import Sorted.
From S2P Require Import Prelude CString.

(** ** The code *)

Definition OMap (V : Type) : Type := list (string * V).

Section Operations.
Context {V : Type}.

(** [m.find(k)] *)
Fixpoint find (k : string) (m : OMap V) : option V :=
  match m with
  | [] => None
  | (k', v) :: r => if String.eqb k' k then Some v else find k r
  end.

(** [m[k] = v] *)
Fixpoint put (k : string) (v : V) (m : OMap V) : OMap V :=
  match m with
  | [] => [(k, v)]
  | (k', v') :: r =>
      match String.compare k k' with
      | Lt => (k, v) :: m
      | Eq => (k, v) :: r
      | Gt => (k', v') :: put k v r
      end
  end.

(** [m.erase(it)] for the entry at [k] *)
Fixpoint remove (k : string) (m : OMap V) : OMap V :=
  match m with
  | [] => []
  | (k', v) :: r => if String.eqb k' k then r else (k', v) :: remove k r
  end.
End Operations.

Definition str_lt (a b : string) : Prop := String.compare a b = Lt.
Definition key_lt {V} (p q : string * V) : Prop := str_lt p.1 q.1.

(** The representation invariant: strictly increasing keys. *)
Definition ordered {V} (m : OMap V) : Prop := StronglySorted key_lt m.

Definition to_gmap {V} (m : OMap V) : gmap string V := list_to_map m.

(** ** The key order *)

Lemma str_lt_le a b : str_lt a b <-> String.le a b /\ a <> b.
Proof.
  unfold str_lt, String.le, String.leb. split.
  - intros H; rewrite H; split; [done |]. intros ->.
    pose proof (String.compare_antisym b b) as E; by rewrite H in E.
  - intros [H Hne]. destruct (String.compare a b) eqn:E; try done.
    by apply String.compare_eq_iff in E.
Qed.
#[export] Instance str_lt_strict : StrictOrder str_lt.
Proof.
  split.
  - intros a; unfold complement; rewrite str_lt_le; naive_solver.
  - intros a b c; rewrite !str_lt_le; intros [H1 N1] [H2 N2]. split; [by etrans |].
    intros ->. apply N1, (anti_symm String.le); done.
Qed.
Lemma compare_gt a b : String.compare a b = Gt -> str_lt b a.
Proof. intros H; unfold str_lt; by rewrite String.compare_antisym, H. Qed.

(** ** Refinement of [gmap] *)

Section Refinement.
Context {V : Type}.
Implicit Types (m : OMap V) (k : string).

Lemma find_gmap k m : find k m = to_gmap m !! k.
Proof.
  induction m as [|[k' v] m IH]; [done |]. unfold to_gmap in *; simpl.
  destruct (String.eqb_spec k' k) as [-> |]; [by rewrite lookup_insert_eq |].
  by rewrite lookup_insert_ne.
Qed.

Lemma ordered_fresh k (v : V) m :
  ordered ((k, v) :: m) -> to_gmap m !! k = None /\ ordered m.
Proof.
  intros H; apply StronglySorted_inv in H as [Hs Hf]; split; [| done].
  apply not_elem_of_list_to_map_1. intros Hin. apply list_elem_of_fmap in Hin as ([k' v'] & -> & Hin).
  rewrite Forall_forall in Hf. specialize (Hf _ Hin). unfold key_lt in Hf; simpl in Hf.
  by apply irreflexivity in Hf; [| apply _].
Qed.

Lemma put_gmap k v m : to_gmap (put k v m) = <[k := v]> (to_gmap m).
Proof.
  unfold to_gmap; induction m as [|[k' v'] m IH]; [done |]; simpl.
  destruct (String.compare k k') eqn:E; simpl.
  - apply String.compare_eq_iff in E as ->; by rewrite insert_insert_eq.
  - done.
  - apply compare_gt, str_lt_le in E as [_ Hne]. rewrite IH. by apply insert_insert_ne.
Qed.

Lemma put_elem k v m p : p ∈ put k v m -> p = (k, v) \/ p ∈ m.
Proof.
  induction m as [|[k' v'] m IH]; simpl; [set_solver |].
  destruct (String.compare k k'); set_solver.
Qed.
Lemma put_ordered k v m : ordered m -> ordered (put k v m).
Proof.
  unfold ordered; induction 1 as [|[k' v'] m Hs IH Hf]; simpl; [repeat constructor |].
  destruct (String.compare k k') eqn:E.
  - apply String.compare_eq_iff in E as ->. constructor; done.
  - constructor; [by constructor |]. constructor; [done |].
    eapply Forall_impl; [exact Hf |]. intros q; unfold key_lt; simpl. by transitivity k'.
  - constructor; [done |]. rewrite Forall_forall in *. intros p Hp.
    destruct (put_elem _ _ _ _ Hp) as [-> | Hin]; [by apply compare_gt | by apply Hf].
Qed.

Lemma remove_gmap k m : ordered m -> to_gmap (remove k m) = delete k (to_gmap m).
Proof.
  induction m as [|[k' v'] m IH]; intros H; simpl; [by rewrite delete_empty |].
  destruct (ordered_fresh _ _ _ H) as [Hfresh Hm]. unfold to_gmap in *; simpl.
  destruct (String.eqb_spec k' k) as [-> | Hne].
  - by rewrite delete_insert_id.
  - simpl. rewrite IH by done. by rewrite delete_insert_ne.
Qed.
Lemma remove_sublist k m : sublist (remove k m) m.
Proof.
  induction m as [|[k' v'] m IH]; simpl; [done |].
  destruct (String.eqb k' k); by constructor.
Qed.
Lemma ordered_sublist m1 m2 : sublist m1 m2 -> ordered m2 -> ordered m1.
Proof.
  unfold ordered; induction 1 as [|p m1 m2 H IH|p m1 m2 H IH]; intros Hs; [done | |];
    apply StronglySorted_inv in Hs as [Hs Hf]; [constructor; [auto |] | auto].
  rewrite Forall_forall in *. intros q Hq; apply Hf. by eapply elem_of_sublist.
Qed.
Lemma remove_ordered k m : ordered m -> ordered (remove k m).
Proof. apply ordered_sublist, remove_sublist. Qed.
Lemma filter_ordered (P : string * V -> Prop) `{!forall p, Decision (P p)} m :
  ordered m -> ordered (filter P m).
Proof. apply ordered_sublist, sublist_filter. Qed.

Lemma ordered_NoDup m : ordered m -> NoDup m.*1.
Proof.
  unfold ordered; induction 1 as [|[k v] m Hs IH Hf]; simpl; [constructor |].
  constructor; [| done]. intros Hin. apply list_elem_of_fmap in Hin as ([k' v'] & -> & Hin).
  rewrite Forall_forall in Hf. specialize (Hf _ Hin); unfold key_lt in Hf; simpl in Hf.
  by apply irreflexivity in Hf; [| apply _].
Qed.
Lemma elem_of_gmap m k v : ordered m -> (k, v) ∈ m <-> to_gmap m !! k = Some v.
Proof. intros H; unfold to_gmap; apply elem_of_list_to_map, ordered_NoDup, H. Qed.

(** Entries in key order are determined by the lookups. *)
Lemma ordered_ext m1 m2 : ordered m1 -> ordered m2 -> to_gmap m1 = to_gmap m2 -> m1 = m2.
Proof.
  intros H1 H2 E.
  assert (Hp : m1 ≡ₚ m2).
  { apply NoDup_Permutation; [by eapply NoDup_fmap_1, ordered_NoDup .. |].
    intros [k v]; rewrite !elem_of_gmap by done; by rewrite E. }
  clear E. revert m2 H2 Hp; induction H1 as [|p m1 Hs IH Hf]; intros m2 H2 Hp.
  { symmetry in Hp; by apply Permutation_nil_r in Hp as ->. }
  destruct H2 as [|q m2 Hs2 Hf2]; [by apply Permutation_nil_r in Hp |].
  assert (p = q) as ->.
  { assert (p ∈ q :: m2) as Hpq by (rewrite <- Hp; by left).
    assert (q ∈ p :: m1) as Hqp by (rewrite Hp; by left).
    apply elem_of_cons in Hpq as [? | Hpq]; [done |].
    apply elem_of_cons in Hqp as [? | Hqp]; [done |].
    rewrite Forall_forall in Hf, Hf2. specialize (Hf _ Hqp); specialize (Hf2 _ Hpq).
    unfold key_lt in *. exfalso. eapply (irreflexivity str_lt p.1). by transitivity q.1. }
  f_equal. apply IH; [done |]. by eapply Permutation_cons_inv.
Qed.
End Refinement.

(** Of a sequence of writes the last one to a key is what a read sees. *)
Lemma last_write_wins (us a b : list (string * string)) x v (g : gmap string string) :
  us = a ++ (x, v) :: b -> x ∉ b.*1 ->
  foldl (fun g xv => <[xv.1 := xv.2]> g) g us !! x = Some v.
Proof.
  intros -> Hb. rewrite foldl_app; cbn. generalize (foldl (fun (g : gmap string string) xv => <[xv.1 := xv.2]> g) g a) as g'.
  intros g'. assert (H1 : <[x := v]> g' !! x = Some v) by apply lookup_insert_eq.
  revert H1; generalize (<[x := v]> g') as h.
  induction b as [|[y u] b IH]; intros h Hh; cbn in *; [done |].
  apply not_elem_of_cons in Hb as [Hy Hb]. apply IH; [done |]. by rewrite lookup_insert_ne.
Qed.
