(* ===== verification/Seams.v ===== *)
(** * Seams: the data that crosses the interfaces, and the interfaces.

    [InboundSms], [GnmiPathResult], [GnmiResult], [AtResult] as the headers
    declare them, and one class per abstract base class: [ISmsTransport]
    (inc/zerotouch/sms_transport.hpp), [GnmiSink] (gnmi_sink.hpp), [IModem]
    (modem.hpp), and [DsSink], the surface of smsctl's own seam that the two
    implementations in this repository override.

    A method is a computation over the world [W] of the objects behind the
    interface.  A registered callback cannot live in [W] (it is itself a
    computation over [W]), so registration and start are one method taking the
    callback: the code registers exactly once, in [Bridge::start], right before
    it starts the transport. *)

From S2P Require Import Prelude CString PathPolicy.

Record InboundSms := mkInboundSms { sender : string; text : string; ts : string }.

#[export] Instance InboundSms_eq_dec : EqDecision InboundSms.
Proof. solve_decision. Defined.

Record GnmiPathResult := mkRow { xpath : string; value : string; error : string }.

Record GnmiResult := mkGnmiResult {
  ok : bool;
  grpc_status : Z;
  grpc_message : string;
  paths : list GnmiPathResult
}.

(** A default-constructed [GnmiResult]. *)
Definition GnmiResult_default : GnmiResult := mkGnmiResult false (-1) "" [].

Record AtResult := mkAtResult { at_ok : bool; lines : list string }.
Definition AtResult_default : AtResult := mkAtResult false [].

(** [AtResult::line_with] *)
Fixpoint first_with (prefix : string) (ls : list string) : string :=
  match ls with
  | [] => ""
  | l :: r => if starts_with prefix l then l else first_with prefix r
  end.
Definition line_with (r : AtResult) (prefix : string) : string :=
  first_with prefix (lines r).

Definition MessageFn (W : Type) : Type := InboundSms -> ST W unit.

(** ** The interfaces *)

Class ISmsTransport (W : Type) := {
  tx_send : string -> string -> ST W bool;
  tx_start : MessageFn W -> ST W unit
}.

Class GnmiSink (W : Type) := {
  sink_get : list string -> ST W GnmiResult;
  sink_set : list (string * string) -> ST W GnmiResult
}.

Class IModem (W : Type) := {
  modem_at : string -> ST W AtResult;
  modem_send_sms : string -> string -> ST W bool;
  modem_start : MessageFn W -> ST W unit
}.

Class DsSink (W : Type) := {
  ds_set : string -> string -> ST W bool;
  ds_get : string -> ST W (option string);
  arm_trigger : string -> string -> ST W bool
}.

(** The contract gnmi_sink.hpp states for every backend: no value is returned
    for a denylisted path; its row carries an error instead. *)
Definition row_masked (deny : list string) (p : GnmiPathResult) : Prop :=
  is_sensitive_path (xpath p) deny = true -> value p = "" /\ error p <> "".

Class SafeSink (W : Type) `{GnmiSink W} (deny : list string) :=
  get_masks : forall xs, st_post (fun r => Forall (row_masked deny) (paths r)) (sink_get xs).

(** [AtModemTransport] (at_modem_transport.hpp): the transport that maps the
    seam onto a modem, method by method. *)
Definition AtModemTransport {W} `{IModem W} : ISmsTransport W :=
  {| tx_send := modem_send_sms; tx_start := modem_start |}.

Lemma first_with_spec prefix ls :
  (first_with prefix ls = "" /\ Forall (fun l => starts_with prefix l = false \/ l = "") ls) \/
  (first_with prefix ls ∈ ls /\ starts_with prefix (first_with prefix ls) = true).
Proof.
  induction ls as [|l ls IH]; simpl; [left; by constructor |].
  destruct (starts_with prefix l) eqn:E.
  - right; split; [by left | done].
  - destruct IH as [[H1 H2] | [H1 H2]]; [left; split; [done | constructor; auto] |].
    right; split; [by right | done].
Qed.
