(* ===== verification/Mocks.v ===== *)
(** * Mocks: the host test suite's doubles (test/mocks.hpp, test/modem_mock.hpp).

    One world with the recording transport, the canned gNMI sink and the
    scripted modem the repository's own tests use.  The concrete runs that show
    a property's hypotheses can hold are runs over these doubles. *)

From S2P Require Import Prelude CString PathPolicy Seams.

Record MockWorld := mkMock {
  sent : list (string * string);          (** MockTransport::sent *)
  started : bool;
  next : GnmiResult;                      (** MockGnmiSink::next *)
  last_get : list string;
  last_set : list (string * string);
  sent_at : list string;                  (** MockModem::sent_at *)
  sent_sms : list (string * string);
  replies : list (string * AtResult)
}.

Definition mock_idle (r : GnmiResult) (script : list (string * AtResult)) : MockWorld :=
  mkMock [] false r [] [] [] [] script.

Definition MockTransport : ISmsTransport MockWorld :=
  {| tx_send := fun to t w =>
       (true, mkMock (sent w ++ [(to, t)]) (started w) (next w) (last_get w) (last_set w)
                     (sent_at w) (sent_sms w) (replies w));
     tx_start := fun _ w =>
       (tt, mkMock (sent w) true (next w) (last_get w) (last_set w)
                   (sent_at w) (sent_sms w) (replies w)) |}.

Definition MockGnmiSink : GnmiSink MockWorld :=
  {| sink_get := fun xs w =>
       (next w, mkMock (sent w) (started w) (next w) xs (last_set w)
                       (sent_at w) (sent_sms w) (replies w));
     sink_set := fun us w =>
       (next w, mkMock (sent w) (started w) (next w) (last_get w) us
                       (sent_at w) (sent_sms w) (replies w)) |}.

Fixpoint script_find (cmd : string) (rs : list (string * AtResult)) : AtResult :=
  match rs with
  | [] => mkAtResult true []
  | (c, r) :: rest => if String.eqb c cmd then r else script_find cmd rest
  end.

Definition MockModem : IModem MockWorld :=
  {| modem_at := fun cmd w =>
       (script_find cmd (replies w),
        mkMock (sent w) (started w) (next w) (last_get w) (last_set w)
               (sent_at w ++ [cmd]) (sent_sms w) (replies w));
     modem_send_sms := fun to t w =>
       (true, mkMock (sent w) (started w) (next w) (last_get w) (last_set w)
                     (sent_at w) (sent_sms w ++ [(to, t)]) (replies w));
     modem_start := fun _ w =>
       (tt, mkMock (sent w) true (next w) (last_get w) (last_set w)
                   (sent_at w) (sent_sms w) (replies w)) |}.

(** A sink that answers every path with a denial: the smallest backend that
    keeps the masking contract. *)
Definition DenyAllSink : GnmiSink MockWorld :=
  {| sink_get := fun xs w =>
       (mkGnmiResult true 0 "" ((fun x => mkRow x "" "denied") <$> xs), w);
     sink_set := fun us w => (GnmiResult_default, w) |}.

Lemma DenyAllSink_safe deny : @SafeSink MockWorld DenyAllSink deny.
Proof.
  intros xs w; simpl. apply Forall_fmap, Forall_true; intros x; unfold row_masked; done.
Qed.
