(* ===== verification/GnmiCommand.v ===== *)
(** * GnmiCommand: the parser of the `IOT GNMI ...` grammar (src/gnmi_command.cpp).

    [parse_gnmi] branch by branch, a declarative grammar [gnmi_msg] that states
    what each message means without the order of the tests, and the proof that
    the parser decides exactly that grammar. *)

From S2P Require Import Prelude CString Text.

(** ** The code *)

Inductive GnmiKind := NotGnmi | Unknown | Get | Set_.

#[export] Instance GnmiKind_eq_dec : EqDecision GnmiKind.
Proof. solve_decision. Defined.

Record GnmiCommand := mkCommand {
  kind : GnmiKind;
  xpaths : list string;
  updates : list (string * string);
  error : string
}.

Definition GnmiCommand_default : GnmiCommand := mkCommand NotGnmi [] [] "".
Definition unknown_command (e : string) : GnmiCommand := mkCommand Unknown [] [] e.

(** [ieq(a, b)]: [b] is a lowercase literal. *)
Fixpoint ieq_chars (a b : string) : bool :=
  match a, b with
  | String c a', String d b' => Ascii.eqb (tolower c) d && ieq_chars a' b'
  | _, _ => true
  end.
Definition ieq (a b : string) : bool :=
  Nat.eqb (String.length a) (String.length b) && ieq_chars a b.

(** [t[i]] for an index the caller has checked. *)
Definition tok (t : list string) (i : nat) : string := default "" (t !! i).

Definition parse_gnmi (t : list string) : GnmiCommand :=
  if (length t <? 2)%nat || negb (ieq (tok t 0) "iot") || negb (ieq (tok t 1) "gnmi")
  then GnmiCommand_default
  else if (length t <? 3)%nat then unknown_command "gnmi: expected GET or SET"
  else if ieq (tok t 2) "get" then
    if (length t <? 4)%nat then unknown_command "gnmi get: missing xpath"
    else mkCommand Get (csv (tok t 3)) [] ""
  else if ieq (tok t 2) "set" then
    if (length t <? 5)%nat then unknown_command "gnmi set: expected <xpaths> <values>"
    else
      let xs := csv (tok t 3) in
      let vs := csv (tok t 4) in
      if negb (Nat.eqb (length xs) (length vs))
      then unknown_command "gnmi set: xpath/value count mismatch"
      else mkCommand Set_ [] (zip xs vs) ""
  else unknown_command "gnmi: unknown operation".

(** ** The grammar, declaratively *)

(** [w] spells the lowercase keyword [k] in any case. *)
Definition spells (w k : string) : Prop := lower w = k.

Inductive gnmi_msg : list string -> GnmiCommand -> Prop :=
  | msg_short t :
      (length t < 2)%nat -> gnmi_msg t GnmiCommand_default
  | msg_other w1 w2 r :
      ~ (spells w1 "iot" /\ spells w2 "gnmi") ->
      gnmi_msg (w1 :: w2 :: r) GnmiCommand_default
  | msg_bare w1 w2 :
      spells w1 "iot" -> spells w2 "gnmi" ->
      gnmi_msg [w1; w2] (unknown_command "gnmi: expected GET or SET")
  | msg_get w1 w2 w3 a r :
      spells w1 "iot" -> spells w2 "gnmi" -> spells w3 "get" ->
      gnmi_msg (w1 :: w2 :: w3 :: a :: r) (mkCommand Get (csv a) [] "")
  | msg_get_bare w1 w2 w3 :
      spells w1 "iot" -> spells w2 "gnmi" -> spells w3 "get" ->
      gnmi_msg [w1; w2; w3] (unknown_command "gnmi get: missing xpath")
  | msg_set w1 w2 w3 a v r :
      spells w1 "iot" -> spells w2 "gnmi" -> spells w3 "set" ->
      length (csv a) = length (csv v) ->
      gnmi_msg (w1 :: w2 :: w3 :: a :: v :: r) (mkCommand Set_ [] (zip (csv a) (csv v)) "")
  | msg_set_mismatch w1 w2 w3 a v r :
      spells w1 "iot" -> spells w2 "gnmi" -> spells w3 "set" ->
      length (csv a) <> length (csv v) ->
      gnmi_msg (w1 :: w2 :: w3 :: a :: v :: r)
               (unknown_command "gnmi set: xpath/value count mismatch")
  | msg_set_short w1 w2 w3 r :
      spells w1 "iot" -> spells w2 "gnmi" -> spells w3 "set" -> (length r < 2)%nat ->
      gnmi_msg (w1 :: w2 :: w3 :: r) (unknown_command "gnmi set: expected <xpaths> <values>")
  | msg_junk w1 w2 w3 r :
      spells w1 "iot" -> spells w2 "gnmi" -> ~ spells w3 "get" -> ~ spells w3 "set" ->
      gnmi_msg (w1 :: w2 :: w3 :: r) (unknown_command "gnmi: unknown operation").

(** The tokens an operator sends for a command. *)
Definition get_tokens (xs : list string) : list string :=
  ["IOT"; "GNMI"; "GET"; join "," xs].
Definition set_tokens (us : list (string * string)) : list string :=
  ["IOT"; "GNMI"; "SET"; join "," us.*1; join "," us.*2].

(** ** Lemmas *)

Lemma ieq_chars_spec a b :
  String.length a = String.length b -> ieq_chars a b = true <-> lower a = b.
Proof.
  revert b; induction a as [|c a IH]; intros [|d b] H; simpl in *; try done.
  rewrite andb_true_iff, Ascii.eqb_eq, IH by lia. unfold lower; simpl.
  split; [by intros [-> ->] | by intros [= -> ->]].
Qed.
Lemma ieq_spec a b : ieq a b = true <-> spells a b.
Proof.
  unfold ieq, spells. rewrite andb_true_iff, Nat.eqb_eq. split.
  - intros [H1 H2]; by apply ieq_chars_spec.
  - intros <-. unfold lower; rewrite length_str_map; split; [done |].
    apply ieq_chars_spec; [by rewrite length_str_map | done].
Qed.
Lemma ieq_reflect a b : reflect (spells a b) (ieq a b).
Proof. apply iff_reflect; symmetry; apply ieq_spec. Qed.

Lemma get_not_set w : spells w "get" -> spells w "set" -> False.
Proof. unfold spells; congruence. Qed.

(** The parser's answer is always derivable in the grammar. *)
Lemma parse_gnmi_sound t : gnmi_msg t (parse_gnmi t).
Proof.
  destruct t as [|w1 [|w2 r]]; [constructor; simpl; lia .. |].
  unfold parse_gnmi; cbn [length tok lookup list_lookup default Nat.ltb Nat.leb].
  cbn -[ieq csv Nat.leb Nat.eqb].
  destruct (ieq_reflect w1 "iot"), (ieq_reflect w2 "gnmi"); simpl;
    try (apply msg_other; tauto).
  destruct r as [|w3 r]; [by constructor |].
  cbn -[ieq csv Nat.leb Nat.eqb].
  destruct (ieq_reflect w3 "get"); simpl.
  { destruct r; simpl; by constructor. }
  destruct (ieq_reflect w3 "set"); simpl; [| by constructor].
  destruct r as [|a [|v r]]; [constructor; simpl; auto; lia .. |].
  simpl. destruct (Nat.eqb_spec (length (csv a)) (length (csv v))); simpl; by constructor.
Qed.

(** The grammar gives a message one meaning. *)
Lemma gnmi_msg_functional t c1 c2 : gnmi_msg t c1 -> gnmi_msg t c2 -> c1 = c2.
Proof.
  intros H1 H2; destruct H1; inversion H2; subst; try done; simpl in *; try lia; try tauto;
    try (exfalso; eapply get_not_set; eassumption).
Qed.

Lemma parse_gnmi_grammar t c : parse_gnmi t = c <-> gnmi_msg t c.
Proof.
  split; [intros <-; apply parse_gnmi_sound |].
  intros H; eapply gnmi_msg_functional; [apply parse_gnmi_sound | done].
Qed.

(** ** Properties *)

(** C31: [parse_gnmi] decides the command grammar: it answers [c] for a token
    list exactly when the grammar gives that list the meaning [c], on every
    branch (not a gnmi message, each malformed form with its error text, GET,
    SET with positional pairing, and the count mismatch). *)
Theorem parse_gnmi_decides_grammar (t : list string) (c : GnmiCommand) :
  parse_gnmi t = c <-> gnmi_msg t c.
Proof. apply parse_gnmi_grammar. Qed.

(** What an operator sends is what the engine runs: the tokens of a GET or
    SET over any non-empty list of comma-free xpaths (and values) parse back to
    that very list, in order and with every value at its own xpath. *)
Theorem parse_gnmi_roundtrip (xs : list string) (us : list (string * string)) :
  (xs <> [] -> Forall (fun x => no_char "," x = true) xs ->
     parse_gnmi (get_tokens xs) = mkCommand Get xs [] "") /\
  (us <> [] -> Forall (fun u => no_char "," u.1 = true /\ no_char "," u.2 = true) us ->
     parse_gnmi (set_tokens us) = mkCommand Set_ [] us "").
Proof.
  split; intros Hne H; apply parse_gnmi_grammar.
  - rewrite <- (csv_join xs) at 2 by done. by constructor.
  - assert (H1 : csv (join "," us.*1) = us.*1).
    { apply csv_join; [by destruct us | by apply Forall_fmap; eapply Forall_impl; [exact H | intros ? []]]. }
    assert (H2 : csv (join "," us.*2) = us.*2).
    { apply csv_join; [by destruct us | by apply Forall_fmap; eapply Forall_impl; [exact H | intros ? []]]. }
    replace us with (zip (csv (join "," us.*1)) (csv (join "," us.*2))) at 2
      by (rewrite H1, H2; apply zip_fst_snd).
    constructor; try done. by rewrite H1, H2, !length_fmap.
Qed.

Lemma parse_gnmi_roundtrip_witness :
  parse_gnmi (set_tokens [("/system/config/hostname", "router-7"); ("/a", "")]) =
  mkCommand Set_ [] [("/system/config/hostname", "router-7"); ("/a", "")] "".
Proof.
  apply (proj2 (parse_gnmi_roundtrip [] [("/system/config/hostname", "router-7"); ("/a", "")]));
    [done | repeat constructor].
Defined.

Example parse_examples :
  kind (parse_gnmi ["iot"; "Gnmi"; "gEt"; "/a,/b"]) = Get /\
  xpaths (parse_gnmi ["iot"; "Gnmi"; "gEt"; "/a,/b"]) = ["/a"; "/b"] /\
  error (parse_gnmi ["IOT"; "GNMI"; "SET"; "/a,/b"; "1"]) =
    "gnmi set: xpath/value count mismatch" /\
  kind (parse_gnmi ["IOT"; "STATUS"]) = NotGnmi.
Proof. repeat split; reflexivity. Qed.
