(* ===== verification/GnmiReply.v ===== *)
(** * GnmiReply: one reply SMS per result (src/gnmi_reply.cpp).

    The formatters, and what an operator (or an eavesdropper) can and cannot
    learn from a reply: it fits one SMS, its first word tells success from
    failure, a failure code can be read back from its text, and the value of a
    row that carries an error never influences the text. *)

From S2P Require Import Prelude CString PathPolicy Seams.

(** ** The code *)

Definition kMaxReply : nat := 160.

Definition clamp_sms (s : string) (max : nat) : string :=
  if (String.length s <=? max)%nat then s
  else if (max <=? 3)%nat then str_take max s
  else str_take (max - 3) s +:+ "...".

(** [clamp_sms] with its default bound. *)
Definition clamp (s : string) : string := clamp_sms s kMaxReply.

Definition grpc_status_text (code : Z) : string :=
  match code with
  | (-1)%Z => "transport error"
  | 1%Z => "cancelled"
  | 2%Z => "unknown"
  | 3%Z => "invalid argument"
  | 4%Z => "deadline exceeded"
  | 5%Z => "not found"
  | 6%Z => "already exists"
  | 7%Z => "permission denied"
  | 8%Z => "resource exhausted"
  | 9%Z => "failed precondition"
  | 10%Z => "aborted"
  | 11%Z => "out of range"
  | 12%Z => "unimplemented"
  | 13%Z => "internal"
  | 14%Z => "unavailable"
  | 15%Z => "data loss"
  | 16%Z => "unauthenticated"
  | _ => if (code =? 0)%Z then "failed" else "status " +:+ to_string code
  end.

Definition failure_text (r : GnmiResult) : string :=
  if String.eqb (grpc_message r) "" then grpc_status_text (grpc_status r)
  else grpc_message r.

(** One row of the body: the error in angle brackets, else the value. *)
Definition row_text (p : GnmiPathResult) : string :=
  xpath p +:+ "=" +:+
  (if String.eqb (error p) "" then value p else "<" +:+ error p +:+ ">").

(** The loop over the rows, with its [first] flag. *)
Fixpoint rows_body (first : bool) (body : string) (ps : list GnmiPathResult) : string :=
  match ps with
  | [] => body
  | p :: r =>
      let body1 := if first then body else body +:+ "; " in
      rows_body false (body1 +:+ row_text p) r
  end.

Definition format_get (r : GnmiResult) : string :=
  if negb (ok r) then clamp ("ERR GNMI GET " +:+ failure_text r)
  else clamp (rows_body true "OK GNMI GET " (paths r)).

Definition format_set (r : GnmiResult) (n : nat) : string :=
  if negb (ok r) then clamp ("ERR GNMI SET " +:+ failure_text r)
  else clamp ("OK GNMI SET " +:+ to_string (Z.of_nat n) +:+ " path(s) updated").

(** ** Specification vocabulary *)

(** Two rows an operator must not be able to tell apart. *)
Definition row_alike (p q : GnmiPathResult) : Prop :=
  xpath p = xpath q /\ error p = error q /\ (error p = "" -> value p = value q).

Definition result_alike (r1 r2 : GnmiResult) : Prop :=
  ok r1 = ok r2 /\ grpc_status r1 = grpc_status r2 /\
  grpc_message r1 = grpc_message r2 /\ Forall2 row_alike (paths r1) (paths r2).

(** ** Lemmas *)

Lemma length_clamp_sms s max : (String.length (clamp_sms s max) <= max)%nat.
Proof.
  unfold clamp_sms. destruct (Nat.leb_spec (String.length s) max); [done |].
  destruct (Nat.leb_spec max 3); rewrite ?length_app, ?length_str_take; simpl; lia.
Qed.
Lemma length_clamp s : (String.length (clamp s) <= kMaxReply)%nat.
Proof. apply length_clamp_sms. Qed.

(** A clamped text keeps a short prefix of the original. *)
Lemma clamp_prefix p s :
  (String.length p <= kMaxReply - 3)%nat -> exists r, clamp (p +:+ s) = p +:+ r.
Proof.
  intros Hp. unfold clamp, clamp_sms.
  destruct (Nat.leb_spec (String.length (p +:+ s)) kMaxReply); [by exists s |].
  simpl (kMaxReply <=? 3)%nat; cbv iota.
  exists (str_take (kMaxReply - 3 - String.length p) s +:+ "...").
  rewrite <- str_app_assoc; f_equal. revert Hp. generalize (kMaxReply - 3)%nat as n.
  clear H; induction p as [|c p IH]; intros n Hp; [by rewrite app_nil_l', Nat.sub_0_r |].
  destruct n as [|n]; simpl in Hp; [lia |]. rewrite !app_cons; simpl.
  rewrite IH by lia; done.
Qed.

Lemma rows_body_prefix first body ps : exists r, rows_body first body ps = body +:+ r.
Proof.
  revert first body; induction ps as [|p ps IH]; intros first body; simpl.
  - exists ""; by rewrite str_app_nil_r.
  - destruct (IH false ((if first then body else body +:+ "; ") +:+ row_text p)) as [r ->].
    destruct first; rewrite !str_app_assoc; eauto.
Qed.

#[export] Instance row_alike_equivalence : Equivalence row_alike.
Proof.
  split; unfold row_alike.
  - intros p; auto.
  - intros p q (H1 & H2 & H3); split_and!; [done..|]. rewrite <- H2; intros; symmetry; auto.
  - intros p q r (H1 & H2 & H3) (H4 & H5 & H6); split_and!; [congruence..|].
    intros E; rewrite H3 by done; apply H6; congruence.
Qed.
#[export] Instance row_text_proper : Proper (row_alike ==> eq) row_text.
Proof.
  intros p q (H1 & H2 & H3). unfold row_text. rewrite H1, <- H2.
  destruct (String.eqb_spec (error p) ""); [by rewrite H3 | done].
Qed.
Lemma rows_body_alike first body ps qs :
  Forall2 row_alike ps qs -> rows_body first body ps = rows_body first body qs.
Proof.
  intros H; revert first body; induction H as [|p q ps qs Hpq H IH]; intros first body; simpl;
    [done |]. rewrite IH; by rewrite Hpq.
Qed.
Lemma format_get_alike r1 r2 : result_alike r1 r2 -> format_get r1 = format_get r2.
Proof.
  intros (H1 & H2 & H3 & H4); unfold format_get, failure_text.
  by rewrite H1, H2, H3, (rows_body_alike _ _ _ _ H4).
Qed.

(** The reply starts with the word its outcome dictates. *)
Lemma format_get_head r :
  exists t, format_get r = (if ok r then "OK GNMI GET " else "ERR GNMI GET ") +:+ t.
Proof.
  unfold format_get; destruct (ok r); simpl.
  - destruct (rows_body_prefix true "OK GNMI GET " (paths r)) as [t ->].
    apply clamp_prefix; unfold kMaxReply; simpl; lia.
  - apply clamp_prefix; unfold kMaxReply; simpl; lia.
Qed.
Lemma format_set_head r n :
  exists t, format_set r n = (if ok r then "OK GNMI SET " else "ERR GNMI SET ") +:+ t.
Proof.
  unfold format_set; destruct (ok r); simpl; apply clamp_prefix; unfold kMaxReply; simpl; lia.
Qed.
Lemma length_format_get r : (String.length (format_get r) <= kMaxReply)%nat.
Proof. unfold format_get; case_goal; apply length_clamp. Qed.
Lemma length_format_set r n : (String.length (format_set r n) <= kMaxReply)%nat.
Proof. unfold format_set; case_goal; apply length_clamp. Qed.

(** The canonical codes, and the rest. *)
Lemma grpc_status_text_cases c :
  (-1 <= c <= 16)%Z \/ grpc_status_text c = "status " +:+ to_string c.
Proof.
  destruct (decide (-1 <= c <= 16)%Z); [by left | right].
  unfold grpc_status_text. repeat case_match; subst; try lia; try done;
    try (apply Z.eqb_eq in H; lia); try (exfalso; lia).
Qed.
Definition canonical_codes : list Z := (fun n => Z.of_nat n - 1)%Z <$> seq 0 18.
Lemma canonical_in c : (-1 <= c <= 16)%Z -> c ∈ canonical_codes.
Proof.
  intros H; apply list_elem_of_fmap; exists (Z.to_nat (c + 1)).
  split; [lia | apply elem_of_seq; lia].
Qed.
Lemma canonical_texts_distinct :
  forallb (fun c => forallb (fun d =>
    (c =? d)%Z || negb (String.eqb (grpc_status_text c) (grpc_status_text d))) canonical_codes)
    canonical_codes = true.
Proof. by vm_compute. Qed.
Lemma canonical_texts_not_status :
  forallb (fun c => negb (starts_with "status " (grpc_status_text c))) canonical_codes = true.
Proof. by vm_compute. Qed.

(** ** Properties *)

(** C38: every reply fits one SMS and is truthful about the outcome: it has at
    most 160 characters, a text that fits is sent unchanged and a longer one is
    its first 157 characters and an ellipsis, and it starts with OK exactly
    when the result is ok. *)
Theorem reply_one_sms (r : GnmiResult) (n : nat) (s : string) :
  (String.length (format_get r) <= kMaxReply /\
   String.length (format_set r n) <= kMaxReply)%nat /\
  clamp s = (if (String.length s <=? 160)%nat then s else str_take 157 s +:+ "...") /\
  starts_with "OK" (format_get r) = ok r /\ starts_with "OK" (format_set r n) = ok r /\
  starts_with "ERR" (format_get r) = negb (ok r) /\
  starts_with "ERR" (format_set r n) = negb (ok r).
Proof.
  split; [split; [apply length_format_get | apply length_format_set] |].
  split; [reflexivity |].
  destruct (format_get_head r) as [t ->], (format_set_head r n) as [u ->].
  destruct (ok r); split_and!; reflexivity.
Qed.

(** No secret through a GET reply: two results that differ only in the
    values of rows carrying an error give the same SMS, character for
    character, before and after the clamp. *)
Theorem format_get_hides_errored_values (r1 r2 : GnmiResult) (H : result_alike r1 r2) :
  format_get r1 = format_get r2.
Proof. by apply format_get_alike. Qed.

Lemma format_get_hides_errored_values_witness :
  format_get (mkGnmiResult true 0 "" [mkRow "/a" "1" ""; mkRow "/pw" "hunter2" "denied"]) =
  format_get (mkGnmiResult true 0 "" [mkRow "/a" "1" ""; mkRow "/pw" "s3cr3t" "denied"]).
Proof.
  apply format_get_hides_errored_values.
  split_and!; try reflexivity. simpl. constructor; [split_and!; reflexivity |].
  constructor; [split_and!; [reflexivity | reflexivity | discriminate] | constructor].
Defined.

(** The failure text names the gRPC code without loss: two codes with the
    same text are the same code, for the canonical names, for the transport
    error, for 0 and for any code outside the canonical range. *)
Theorem grpc_status_text_faithful (c d : Z) :
  grpc_status_text c = grpc_status_text d <-> c = d.
Proof.
  split; [| by intros ->]. intros H.
  pose proof canonical_texts_not_status as Hst; rewrite forallb_forall in Hst.
  assert (Hno : forall x y, (-1 <= x <= 16)%Z -> grpc_status_text x <> "status " +:+ to_string y).
  { intros x y Hx E. specialize (Hst x). rewrite E, starts_with_app in Hst.
    discriminate Hst; by apply list_elem_of_In, canonical_in. }
  destruct (grpc_status_text_cases c) as [Hc|Hc], (grpc_status_text_cases d) as [Hd|Hd].
  - pose proof canonical_texts_distinct as Hdis; rewrite forallb_forall in Hdis.
    specialize (Hdis c (proj1 (list_elem_of_In _ _) (canonical_in c Hc))).
    rewrite forallb_forall in Hdis.
    specialize (Hdis d (proj1 (list_elem_of_In _ _) (canonical_in d Hd))).
    apply orb_true_iff in Hdis as [E | E]; [by apply Z.eqb_eq | boolify; done].
  - exfalso; eapply Hno; [exact Hc | by rewrite H].
  - exfalso; eapply Hno; [exact Hd | by rewrite <- H].
  - rewrite Hc, Hd in H. apply to_string_inj. by injection H.
Qed.
