(* ===== verification/GnmiExecutor.v ===== *)
(** * GnmiExecutor: authenticate a parsed command and run it (src/gnmi_executor.cpp).

    [handle] over an arbitrary [GnmiSink] and an injected [AuthFn], in the
    source's order: the sender's access is resolved first, whatever the
    command; then the command is refused or reaches the sink. *)

From S2P Require Import Prelude CString PathPolicy Seams Mocks GnmiCommand GnmiReply.

(** ** The code *)

Inductive Access := AccessNone | Viewer | Admin.

#[export] Instance Access_eq_dec : EqDecision Access.
Proof. solve_decision. Defined.

Definition AuthFn (W : Type) : Type := string -> ST W Access.

Section Executor.
Context {W : Type} `{GnmiSink W}.
(** [m_auth]: an empty [std::function] is [None]. *)
Context (m_auth : option (AuthFn W)).

Definition resolve_access (sender : string) : ST W Access :=
  match m_auth with
  | Some auth => auth sender
  | None => st_ret AccessNone
  end.

Definition handle (cmd : GnmiCommand) (sender : string) : ST W string :=
  let* access := resolve_access sender in
  match kind cmd with
  | NotGnmi => st_ret ""
  | Unknown => st_ret (clamp ("ERR " +:+ error cmd))
  | Get =>
      if decide (access = AccessNone)
      then st_ret (clamp "ERR GNMI GET login required")
      else let* r := sink_get (xpaths cmd) in st_ret (format_get r)
  | Set_ =>
      if negb (bool_decide (access = Admin))
      then st_ret (clamp "ERR GNMI SET admin login required")
      else let* r := sink_set (updates cmd) in
           st_ret (format_set r (length (updates cmd)))
  end.
End Executor.

(** ** Lemmas *)

Section ExecutorLemmas.
Context {W : Type} `{GnmiSink W} (auth : option (AuthFn W)).

(** Running [handle] is resolving the access and then a dispatch. *)
Lemma handle_run cmd sender w a w1 :
  resolve_access auth sender w = (a, w1) ->
  handle auth cmd sender w =
  match kind cmd with
  | NotGnmi => ("", w1)
  | Unknown => (clamp ("ERR " +:+ error cmd), w1)
  | Get => if decide (a = AccessNone) then (clamp "ERR GNMI GET login required", w1)
           else (format_get (result (sink_get (xpaths cmd)) w1),
                 exec (sink_get (xpaths cmd)) w1)
  | Set_ => if decide (a = Admin)
            then (format_set (result (sink_set (updates cmd)) w1) (length (updates cmd)),
                  exec (sink_set (updates cmd)) w1)
            else (clamp "ERR GNMI SET admin login required", w1)
  end.
Proof.
  intros E; unfold handle, st_bind; rewrite E. destruct (kind cmd); try reflexivity.
  - case_decide; [reflexivity |]. unfold exec, result; by destruct (sink_get _ w1).
  - destruct (decide (a = Admin));
      [rewrite bool_decide_true by done | rewrite bool_decide_false by done]; simpl;
      [| reflexivity]. unfold exec, result; by destruct (sink_set _ w1).
Qed.

Lemma handle_length cmd sender :
  st_post (fun reply => String.length reply <= kMaxReply)%nat (handle auth cmd sender).
Proof.
  unfold handle. apply st_post_bind; intros a.
  destruct (kind cmd); [apply st_post_ret; unfold kMaxReply; simpl; lia
                       | apply st_post_ret, length_clamp | |].
  - case_decide; [apply st_post_ret, length_clamp |].
    apply st_post_bind; intros r; apply st_post_ret, length_format_get.
  - case_goal; [apply st_post_ret, length_clamp |].
    apply st_post_bind; intros r; apply st_post_ret, length_format_set.
Qed.

(** A computation the sink and the access lookup both respect is respected
    by [handle]. *)
Lemma handle_rel (R : relation W) `{!PreOrder R} cmd sender :
  (forall s, st_rel R (resolve_access auth s)) ->
  (forall xs, st_rel R (sink_get xs)) -> (forall us, st_rel R (sink_set us)) ->
  st_rel R (handle auth cmd sender).
Proof. intros; unfold handle; framed. Qed.
End ExecutorLemmas.
#[export] Hint Resolve handle_rel handle_length : frame.

(** ** Properties *)

(** C1: access control. Whatever the sink does, [handle] gives this answer and
    leaves this world: a sender without a session never reaches the sink; a
    Viewer can GET but a SET of hers does not touch the sink; a command the
    parser rejected is answered with its error text and runs nothing. *)
Theorem handle_access_control {W : Type} `{GnmiSink W} (auth : AuthFn W)
    (cmd : GnmiCommand) (sender : string) (w w1 : W) (a : Access)
    (Hauth : auth sender w = (a, w1)) :
  handle (Some auth) cmd sender w =
  match kind cmd, a with
  | NotGnmi, _ => ("", w1)
  | Unknown, _ => (clamp ("ERR " +:+ error cmd), w1)
  | Get, AccessNone => ("ERR GNMI GET login required", w1)
  | Get, _ => let '(r, w2) := sink_get (xpaths cmd) w1 in (format_get r, w2)
  | Set_, Admin => let '(r, w2) := sink_set (updates cmd) w1 in
                   (format_set r (length (updates cmd)), w2)
  | Set_, _ => ("ERR GNMI SET admin login required", w1)
  end.
Proof.
  rewrite (handle_run _ _ _ _ a w1) by done. unfold exec, result.
  destruct (kind cmd), a; simpl; try reflexivity;
    (by destruct (sink_get _ w1)) || (by destruct (sink_set _ w1)).
Qed.

Lemma handle_access_control_witness :
  let w := mock_idle (mkGnmiResult true 0 "" [mkRow "/a" "1" ""]) [] in
  result (@handle _ MockGnmiSink (Some (fun _ => st_ret Viewer))
            (mkCommand Get ["/a"] [] "") "+123") w = "OK GNMI GET /a=1".
Proof.
  intros w; unfold result.
  rewrite (@handle_access_control _ MockGnmiSink (fun _ => st_ret Viewer) _ "+123" w w Viewer);
    reflexivity.
Defined.
