(* ===== verification/Bridge.v ===== *)
(** * Bridge: from an inbound SMS to at most one reply (src/bridge.cpp).

    [on_sms] gates the sender, tokenises, parses and routes the message either
    to the gnmi executor or to the classic engine, then sends a non-empty
    reply.  The tokenizer, the classic engine and the gate are the injected
    functions of the C++ class; an empty [std::function] is [None]. *)

From S2P Require Import Prelude CString PathPolicy Seams Mocks GnmiCommand GnmiReply GnmiExecutor.

(** ** The code *)

Definition TokenizeFn : Type := string -> list string.
Definition FallbackFn (W : Type) : Type := string -> string -> ST W string.
Definition AllowFn (W : Type) : Type := string -> ST W bool.

(** The members of [Bridge] other than the transport; the executor is its
    [AuthFn] over the ambient sink. *)
Record Bridge (W : Type) := mkBridge {
  m_gex : option (AuthFn W);
  m_tok : option TokenizeFn;
  m_fallback : option (FallbackFn W);
  m_allow : option (AllowFn W)
}.
Arguments mkBridge {W}.
Arguments m_gex {W}.
Arguments m_tok {W}.
Arguments m_fallback {W}.
Arguments m_allow {W}.

Section BridgeCode.
Context {W : Type} `{ISmsTransport W} `{GnmiSink W}.

(** [if (!reply.empty()) m_tx.send(in.sender, reply);] *)
Definition send_nonempty (to reply : string) : ST W unit :=
  if String.eqb reply "" then st_ret tt
  else let* _ := tx_send to reply in st_ret tt.

(** [m_allow && !m_allow(in.sender)], negated. *)
Definition gate (b : Bridge W) (s : string) : ST W bool :=
  match m_allow b with
  | Some allow => allow s
  | None => st_ret true
  end.

Definition tokens_of (b : Bridge W) (t : string) : list string :=
  match m_tok b with Some f => f t | None => [] end.

Definition on_sms (b : Bridge W) (i : InboundSms) : ST W unit :=
  let* allowed := gate b (sender i) in
  if negb allowed then st_ret tt
  else
    let g := parse_gnmi (tokens_of b (text i)) in
    if negb (bool_decide (kind g = NotGnmi)) then
      let* reply := handle (m_gex b) g (sender i) in
      send_nonempty (sender i) reply
    else
      match m_fallback b with
      | Some fallback =>
          let* reply := fallback (sender i) (text i) in
          send_nonempty (sender i) reply
      | None => st_ret tt
      end.

(** [Bridge::start]: register the handler, start the transport. *)
Definition bridge_start (b : Bridge W) : ST W unit := tx_start (on_sms b).
End BridgeCode.

(** ** What a transport promises about its outbox *)

(** [out] is the list of messages handed to the network.  A send appends the
    message or, when it could not be queued, nothing. *)
Class OutboxTransport (W : Type) `{ISmsTransport W} (out : W -> list (string * string)) := {
  send_appends : forall to t w,
    out (exec (tx_send to t) w) = out w ++ [(to, t)] \/ out (exec (tx_send to t) w) = out w;
  send_ok_appends : forall to t w,
    result (tx_send to t) w = true -> out (exec (tx_send to t) w) = out w ++ [(to, t)]
}.

(** The messages [w'] has sent that [w] had not. *)
Definition sent_between {W} (out : W -> list (string * string)) (w w' : W)
    (l : list (string * string)) : Prop := out w' = out w ++ l.

(** ** Lemmas *)

Section BridgeLemmas.
Context {W : Type} `{GnmiSink W} (out : W -> list (string * string)) `{OutboxTransport W out}.
Context (b : Bridge W).
(** Nothing but a reply is ever sent: the gate, the session lookup, the gNMI
    backend and the classic engine leave the outbox alone. *)
Context (Hallow : forall s, frames out (gate b s))
        (Hauth : forall s, frames out (resolve_access (m_gex b) s))
        (Hget : forall xs, frames out (sink_get xs))
        (Hset : forall us, frames out (sink_set us))
        (Hfb : forall fb s t, m_fallback b = Some fb -> frames out (fb s t)).

Lemma send_nonempty_sent to t w :
  exists l, sent_between out w (exec (send_nonempty to t) w) l /\
            (l = [] \/ (l = [(to, t)] /\ t <> "")).
Proof.
  unfold send_nonempty. destruct (String.eqb_spec t "").
  - exists []; split; [by unfold sent_between; rewrite app_nil_r | by left].
  - st_run. destruct (send_appends to t w) as [Hs | Hs].
    + exists [(to, t)]; split; [exact Hs | by right].
    + exists []; split; [unfold sent_between; by rewrite app_nil_r | by left].
Qed.

Lemma framed_then_send (m : ST W string) to w :
  frames out m ->
  exists l, sent_between out w (exec (let* r := m in send_nonempty to r) w) l /\
            (l = [] \/ (l = [(to, result m w)] /\ result m w <> "")).
Proof.
  intros Hm. specialize (Hm w). unfold same_view in Hm. st_run.
  destruct (send_nonempty_sent to (result m w) (exec m w)) as (l & Hl & Hc).
  exists l; split; [unfold sent_between in *; by rewrite Hl, Hm | done].
Qed.

Lemma gnmi_reply_length g s w :
  (String.length (result (handle (m_gex b) g s) w) <= kMaxReply)%nat.
Proof. apply handle_length. Qed.

(** One inbound message: at most one outbound message, to its sender, never
    empty, and within one SMS when the engine produced it. *)
Lemma on_sms_sends i w :
  exists l, sent_between out w (exec (on_sms b i) w) l /\
    (l = [] \/ exists r, l = [(sender i, r)] /\ r <> "" /\
       (kind (parse_gnmi (tokens_of b (text i))) <> NotGnmi ->
        String.length r <= kMaxReply)%nat).
Proof.
  unfold on_sms. pose proof (Hallow (sender i) w) as Ha; unfold same_view in Ha. st_run.
  destruct (result (gate b (sender i)) w); simpl; st_run;
    [| exists []; split; [unfold sent_between; by rewrite app_nil_r | by left]].
  destruct (decide (kind (parse_gnmi (tokens_of b (text i))) = NotGnmi)) as [Hk|Hk];
    [rewrite bool_decide_true by done | rewrite bool_decide_false by done]; simpl.
  - destruct (m_fallback b) as [fb|] eqn:Efb;
      [| exists []; split; [unfold sent_between; st_run; by rewrite app_nil_r | by left]].
    destruct (framed_then_send (fb (sender i) (text i)) (sender i) (exec (gate b (sender i)) w))
      as (l & Hl & Hc); [by apply Hfb |].
    exists l; split; [unfold sent_between in *; by rewrite Hl, Ha |].
    destruct Hc as [-> | [-> Hne]]; [by left | right; eexists; split_and!; done].
  - destruct (framed_then_send (handle (m_gex b) (parse_gnmi (tokens_of b (text i))) (sender i))
                (sender i) (exec (gate b (sender i)) w)) as (l & Hl & Hc).
    { apply handle_rel; [apply _ | done..]. }
    exists l; split; [unfold sent_between in *; by rewrite Hl, Ha |].
    destruct Hc as [-> | [-> Hne]]; [by left | right; eexists; split_and!; [done..|]].
    intros _; apply gnmi_reply_length.
Qed.
End BridgeLemmas.

#[export] Instance MockTransport_outbox : @OutboxTransport MockWorld MockTransport sent.
Proof. split; intros; [left |]; reflexivity. Qed.

(** The whitespace tokenizer the bridge tests stand in for smsctl's. *)
Fixpoint ws_split (cur s : string) : list string :=
  match s with
  | "" => if String.eqb cur "" then [] else [cur]
  | String c r =>
      if is_space c
      then (if String.eqb cur "" then [] else [cur]) ++ ws_split "" r
      else ws_split (cur +:+ chr c) r
  end.
Definition ws_tokenize : TokenizeFn := ws_split "".

(** ** Properties *)

(** silence. A sender the gate refuses costs one gate check and nothing
    else: no tokenising, no session lookup, no gNMI call, no classic command
    and no reply, for any message. *)
Theorem on_sms_silent_drop {W : Type} `{ISmsTransport W} `{GnmiSink W} (b : Bridge W)
    (allow : AllowFn W) (i : InboundSms) (w w1 : W)
    (Hb : m_allow b = Some allow) (Hrefused : allow (sender i) w = (false, w1)) :
  on_sms b i w = (tt, w1).
Proof. unfold on_sms, gate, st_bind; by rewrite Hb, Hrefused. Qed.

Lemma on_sms_silent_drop_witness :
  let b := mkBridge (Some (fun _ => st_ret Admin)) (Some ws_tokenize)
             (Some (fun _ t => st_ret t)) (Some (fun s => st_ret (String.eqb s "+allowed"))) in
  let w := mock_idle GnmiResult_default [] in
  @on_sms _ MockTransport MockGnmiSink b (mkInboundSms "+blocked" "IOT GNMI GET /a" "t0") w =
    (tt, w).
Proof.
  intros b w. exact (@on_sms_silent_drop _ MockTransport MockGnmiSink b _
    (mkInboundSms "+blocked" "IOT GNMI GET /a" "t0") w w eq_refl eq_refl).
Defined.

(** C22: one message in, at most one message out. Over any transport whose
    sends append to the outbox, and any gate, session lookup, gNMI backend and
    classic engine that do not send by themselves, an inbound SMS adds nothing
    to the outbox or exactly one message, which goes back to its sender, is not
    empty, and fits one SMS when it answers a gnmi command. *)
Theorem on_sms_at_most_one_reply {W : Type} `{GnmiSink W} (out : W -> list (string * string))
    `{OutboxTransport W out} (b : Bridge W)
    (Hallow : forall s, frames out (gate b s))
    (Hauth : forall s, frames out (resolve_access (m_gex b) s))
    (Hget : forall xs, frames out (sink_get xs)) (Hset : forall us, frames out (sink_set us))
    (Hfb : forall fb s t, m_fallback b = Some fb -> frames out (fb s t))
    (i : InboundSms) (w : W) :
  exists l, out (exec (on_sms b i) w) = out w ++ l /\
    (l = [] \/ exists r, l = [(sender i, r)] /\ r <> "" /\
       (kind (parse_gnmi (tokens_of b (text i))) <> NotGnmi ->
        String.length r <= kMaxReply)%nat).
Proof. eapply on_sms_sends; eauto. Qed.

Lemma on_sms_at_most_one_reply_witness :
  let b := mkBridge (Some (fun _ => st_ret Viewer)) (Some ws_tokenize) None None in
  let w := mock_idle (mkGnmiResult true 0 "" [mkRow "/a" "1" ""]) [] in
  let i := mkInboundSms "+123" "IOT GNMI GET /a" "t0" in
  (exists l, sent (exec (@on_sms _ MockTransport MockGnmiSink b i) w) = sent w ++ l /\
    (l = [] \/ exists r, l = [("+123", r)] /\ r <> "" /\
       (kind (parse_gnmi (tokens_of b (text i))) <> NotGnmi ->
        String.length r <= kMaxReply)%nat)) /\
  sent (exec (@on_sms _ MockTransport MockGnmiSink b i) w) = [("+123", "OK GNMI GET /a=1")].
Proof.
  intros b w i; split; [| vm_compute; reflexivity].
  apply (@on_sms_at_most_one_reply MockWorld MockGnmiSink sent MockTransport
           MockTransport_outbox b); try (intros ? ?; reflexivity).
  intros ? ? ?; discriminate.
Defined.

(** C21: routing. The two engines never both see a message: when the tokens
    start with IOT GNMI the classic engine is irrelevant to the outcome, and
    when they do not, neither the session lookup nor the gNMI backend is. *)
Theorem on_sms_routing {W : Type} `{ISmsTransport W} (g1 g2 : GnmiSink W)
    (auth1 auth2 : option (AuthFn W)) (tokf : option TokenizeFn)
    (fb1 fb2 : option (FallbackFn W)) (allow : option (AllowFn W)) (i : InboundSms) :
  let k := kind (parse_gnmi (tokens_of (mkBridge auth1 tokf fb1 allow) (text i))) in
  (k <> NotGnmi ->
     @on_sms W _ g1 (mkBridge auth1 tokf fb1 allow) i ≋
     @on_sms W _ g1 (mkBridge auth1 tokf fb2 allow) i) /\
  (k = NotGnmi ->
     @on_sms W _ g1 (mkBridge auth1 tokf fb1 allow) i ≋
     @on_sms W _ g2 (mkBridge auth2 tokf fb1 allow) i).
Proof.
  intros k; split; intros Hk; unfold on_sms;
    change (tokens_of (mkBridge _ tokf _ allow)) with (tokens_of (mkBridge auth1 tokf fb1 allow));
    change (gate (mkBridge _ tokf _ allow)) with (gate (mkBridge auth1 tokf fb1 allow));
    fold k; [rewrite bool_decide_false by done | rewrite bool_decide_true by done]; reflexivity.
Qed.

Lemma on_sms_routing_witness :
  let b fb := mkBridge (Some (fun _ => st_ret Viewer)) (Some ws_tokenize) fb None in
  let i := mkInboundSms "+1" "iot gnmi get /a" "t0" in
  @on_sms _ MockTransport MockGnmiSink (b None) i ≋
  @on_sms _ MockTransport MockGnmiSink (b (Some (fun _ t => st_ret t))) i.
Proof.
  intros b i.
  apply (proj1 (@on_sms_routing _ MockTransport MockGnmiSink MockGnmiSink
    (Some (fun _ => st_ret Viewer)) None (Some ws_tokenize) None
    (Some (fun _ t => st_ret t)) None i)).
  by vm_compute.
Defined.
