(* ===== verification/Config.v ===== *)
(** * Config: the standalone appliance's configuration file (src/config.cpp).

    [parse_config] line by line over the defaults, the number conversion with
    its wrap-around, and the modem family names.  [print_config] is the
    specification's own printer: what a file that sets every key looks like. *)

From S2P Require Import Prelude CString Text.

(** ** The code *)

Inductive ModemType := Auto | Sierra | Quectel | UBlox | Generic.

#[export] Instance ModemType_eq_dec : EqDecision ModemType.
Proof. solve_decision. Defined.

Record AppConfig := mkAppConfig {
  enabled : bool;
  gnmi_host : string;
  gnmi_port : Z;                  (** uint16_t *)
  allowed_numbers : list string;
  session_ttl_sec : Z;            (** uint32_t, as the four below *)
  lockout_failures : Z;
  lockout_sec : Z;
  modem_dev : string;
  modem_baud : Z;
  modem_type : ModemType;
  users_file : string
}.

Definition AppConfig_default : AppConfig :=
  mkAppConfig false "127.0.0.1" 50051 [] 600 5 900 "/dev/ttyUSB2" 115200 Auto
              "/etc/zerotouch/users".

Definition to_bool (v : string) : bool :=
  String.eqb v "1" || String.eqb v "true" || String.eqb v "yes" || String.eqb v "on".

Definition to_u32 (v : string) (dflt : Z) : Z :=
  match stol v with
  | Some n => if (0 <? n)%Z then u32 n else dflt
  | None => dflt
  end.

Definition parse_modem_type (s : string) : ModemType :=
  let v := lower s in
  if String.eqb v "sierra" then Sierra
  else if String.eqb v "quectel" then Quectel
  else if String.eqb v "ublox" || String.eqb v "u-blox" then UBlox
  else if String.eqb v "generic" then Generic
  else Auto.

Definition modem_type_name (t : ModemType) : string :=
  match t with
  | Sierra => "sierra"
  | Quectel => "quectel"
  | UBlox => "ublox"
  | Generic => "generic"
  | Auto => "auto"
  end.

(** The chain of [else if] over the key. *)
Definition set_key (c : AppConfig) (key val : string) : AppConfig :=
  let '(mkAppConfig e h p al st lf ls d b t u) := c in
  if String.eqb key "enabled" then mkAppConfig (to_bool val) h p al st lf ls d b t u
  else if String.eqb key "gnmi.host" then mkAppConfig e val p al st lf ls d b t u
  else if String.eqb key "gnmi.port" then
    mkAppConfig e h (u16 (to_u32 val p)) al st lf ls d b t u
  else if String.eqb key "allowed.numbers" then
    mkAppConfig e h p (split_csv val) st lf ls d b t u
  else if String.eqb key "session.ttl.sec" then
    mkAppConfig e h p al (to_u32 val st) lf ls d b t u
  else if String.eqb key "lockout.failures" then
    mkAppConfig e h p al st (to_u32 val lf) ls d b t u
  else if String.eqb key "lockout.sec" then
    mkAppConfig e h p al st lf (to_u32 val ls) d b t u
  else if String.eqb key "modem.dev" then mkAppConfig e h p al st lf ls val b t u
  else if String.eqb key "modem.baud" then
    mkAppConfig e h p al st lf ls d (to_u32 val b) t u
  else if String.eqb key "modem.type" then
    mkAppConfig e h p al st lf ls d b (parse_modem_type val) u
  else if String.eqb key "users.file" then mkAppConfig e h p al st lf ls d b t val
  else c.

(** [if (h = line.find('#'); h != npos) line.erase(h);] *)
Definition strip_comment (line : string) : string :=
  match find_char "#" line with
  | Some h => str_take h line
  | None => line
  end.

(** One turn of the [while (getline)] loop. *)
Definition config_line (c : AppConfig) (raw : string) : AppConfig :=
  let line := trim (strip_comment raw) in
  if String.eqb line "" then c
  else match find_char "=" line with
       | None => c
       | Some eq =>
           set_key c (trim (substr 0 eq line)) (trim (str_drop (eq + 1) line))
       end.

Definition parse_config (text : string) : AppConfig :=
  foldl config_line AppConfig_default (getlines text).

(** ** Specification vocabulary *)

Definition bool_text (b : bool) : string := if b then "true" else "false".

Definition config_kv (c : AppConfig) : list (string * string) :=
  [("enabled", bool_text (enabled c)); ("gnmi.host", gnmi_host c);
   ("gnmi.port", to_string (gnmi_port c)); ("allowed.numbers", join "," (allowed_numbers c));
   ("session.ttl.sec", to_string (session_ttl_sec c));
   ("lockout.failures", to_string (lockout_failures c));
   ("lockout.sec", to_string (lockout_sec c)); ("modem.dev", modem_dev c);
   ("modem.baud", to_string (modem_baud c)); ("modem.type", modem_type_name (modem_type c));
   ("users.file", users_file c)].
Definition kv_line (kv : string * string) : string := kv.1 +:+ " = " +:+ kv.2.
Definition print_config (c : AppConfig) : string := unlines (kv_line <$> config_kv c).

(** A text a config value can carry: no line break, no comment sign, nothing
    [trim] would drop. *)
Definition plain_value (v : string) : bool :=
  no_char nl v && no_char "#" v && trimmed v.

(** A number of the allow-list: a CSV field without any blank or '#'. *)
Definition no_blank_hash : string -> bool :=
  all_chars (fun c => negb (is_trim c) && negb (Ascii.eqb c "#")).
Definition number_field (x : string) : bool := csv_field x && no_blank_hash x.

Definition config_in_range (c : AppConfig) : Prop :=
  (0 <= gnmi_port c < 2 ^ 16)%Z /\
  Forall (fun n => 0 <= n < 2 ^ 32)%Z
    [session_ttl_sec c; lockout_failures c; lockout_sec c; modem_baud c].

(** The configurations a file can spell. *)
Definition printable_config (c : AppConfig) : Prop :=
  plain_value (gnmi_host c) = true /\ plain_value (modem_dev c) = true /\
  plain_value (users_file c) = true /\
  Forall (fun x => number_field x = true) (allowed_numbers c) /\
  (0 < gnmi_port c < 2 ^ 16)%Z /\
  Forall (fun n => 0 < n < 2 ^ 32)%Z
    [session_ttl_sec c; lockout_failures c; lockout_sec c; modem_baud c].

(** ** Lemmas *)

Lemma to_u32_range v d : (0 <= d < 2 ^ 32)%Z -> (0 <= to_u32 v d < 2 ^ 32)%Z.
Proof. intros; unfold to_u32, u32; repeat case_match; try done; by apply Z.mod_pos_bound. Qed.
Lemma u16_range n : (0 <= u16 n < 2 ^ 16)%Z.
Proof. by apply Z.mod_pos_bound. Qed.
Lemma to_u32_to_string n d : (0 < n < 2 ^ 32)%Z -> to_u32 (to_string n) d = n.
Proof.
  intros H; unfold to_u32. rewrite stol_to_string by (unfold long_min, long_max; lia).
  rewrite (proj2 (Z.ltb_lt 0 n)) by lia. unfold u32; by rewrite Z.mod_small by lia.
Qed.
Lemma to_bool_text b : to_bool (bool_text b) = b.
Proof. by destruct b. Qed.
Lemma parse_modem_type_name t : parse_modem_type (modem_type_name t) = t.
Proof. by destruct t. Qed.

Lemma strip_comment_none l : no_char "#" l = true -> strip_comment l = l.
Proof. intros H; unfold strip_comment; by rewrite (proj2 (find_char_none _ _) H). Qed.
Lemma strip_comment_app l t :
  no_char "#" l = true -> strip_comment (l +:+ String "#" t) = l.
Proof.
  intros H; unfold strip_comment; rewrite find_char_app by done. apply str_take_app_length.
Qed.

(** A well-formed line sets its key. *)
Lemma config_line_kv c k v :
  no_blank_hash k = true -> no_char "=" k = true -> k <> "" ->
  no_char "#" v = true -> trimmed v = true ->
  config_line c (kv_line (k, v)) = set_key c k v.
Proof.
  intros Hk He Hne Hv Htv.
  assert (Hk1 : all_chars (fun c => negb (is_trim c)) k = true /\ no_char "#" k = true).
  { split; (eapply all_chars_impl; [| exact Hk]); by_bools. }
  destruct Hk1 as [Hkb Hkh].
  assert (Hline : trim (strip_comment (kv_line (k, v))) = k +:+ " =" +:+ rtrim (String " " v)).
  { unfold kv_line; cbn [fst snd].
    rewrite strip_comment_none by (autorewrite with cstring; rewrite Hkh, Hv; done).
    rewrite trim_ltrim_rtrim. destruct k as [|d k]; [done |]. simpl in Hkb; boolify.
    rewrite app_cons, ltrim_head by done. rewrite <- app_cons.
    change (" = " +:+ v) with (" " +:+ String "=" (String " " v)).
    rewrite <- str_app_assoc, rtrim_app_char by done. by rewrite str_app_assoc. }
  unfold config_line; rewrite Hline.
  replace (String.eqb (k +:+ " =" +:+ rtrim (String " " v)) "") with false
    by (symmetry; apply String.eqb_neq; by destruct k).
  change (" =" +:+ rtrim (String " " v)) with (" " +:+ String "=" (rtrim (String " " v))).
  rewrite <- str_app_assoc, find_char_app
    by (rewrite no_char_app, He; reflexivity).
  rewrite Nat.add_1_r. destruct (substr_cut "=" (k +:+ " ") (rtrim (String " " v))) as [-> ->].
  rewrite trim_rtrim. f_equal.
  - rewrite <- (app_nil_l' (k +:+ " ")), trim_pad by done.
    by apply trimmed_spec, no_blank_trimmed.
  - change (String " " v) with (" " +:+ v); rewrite <- (str_app_nil_r v) at 1.
    rewrite trim_pad by done. by apply trimmed_spec.
Qed.

Lemma getlines_unlines ls :
  Forall (fun l => no_char nl l = true) ls -> getlines (unlines ls) = ls.
Proof. induction 1; simpl; [done |]; by rewrite getlines_line, IHForall. Qed.

Lemma config_line_comment c l t :
  no_char "#" l = true -> config_line c (l +:+ String "#" t) = config_line c l.
Proof. intros; unfold config_line; by rewrite strip_comment_app, strip_comment_none. Qed.

Lemma set_key_range c k v : config_in_range c -> config_in_range (set_key c k v).
Proof.
  destruct c as [e h p al st lf ls d b t u]; unfold config_in_range, set_key.
  cbn [gnmi_port session_ttl_sec lockout_failures lockout_sec modem_baud].
  intros (Hp & H). rewrite !Forall_cons in H. destruct H as (H1 & H2 & H3 & H4 & _).
  repeat case_match;
    cbn [gnmi_port session_ttl_sec lockout_failures lockout_sec modem_baud];
    (split; [solve [auto using u16_range] |]);
    repeat (apply Forall_cons; split); auto using to_u32_range.
Qed.
Lemma config_line_range c l : config_in_range c -> config_in_range (config_line c l).
Proof. intros; unfold config_line; repeat case_match; auto using set_key_range. Qed.
Lemma parse_lines_range ls c :
  config_in_range c -> config_in_range (foldl config_line c ls).
Proof. revert c; induction ls; simpl; auto using config_line_range. Qed.

Lemma bool_text_plain b : plain_value (bool_text b) = true.
Proof. by destruct b. Qed.
Lemma modem_name_plain t : plain_value (modem_type_name t) = true.
Proof. by destruct t. Qed.
Lemma no_blank_hash_plain v : no_blank_hash v = true -> plain_value v = true.
Proof.
  intros H; unfold plain_value. rewrite !andb_true_iff; split_and!.
  - eapply all_chars_impl; [| exact H]. unfold is_trim; by_bools.
  - eapply all_chars_impl; [| exact H]. by_bools.
  - apply no_blank_trimmed. eapply all_chars_impl; [| exact H]. by_bools.
Qed.
Lemma digits_no_blank_hash s : all_chars is_digit s = true -> no_blank_hash s = true.
Proof.
  apply all_chars_impl. intros c Hc; unfold is_trim; by rewrite !is_digit_not.
Qed.
Lemma to_string_plain n : (0 <= n)%Z -> plain_value (to_string n) = true.
Proof. intros; by apply no_blank_hash_plain, digits_no_blank_hash, to_string_chars. Qed.
Lemma join_plain l :
  Forall (fun x => number_field x = true) l -> plain_value (join "," l) = true.
Proof.
  intros H; apply no_blank_hash_plain. induction H as [|x l Hx H IH]; [done |].
  unfold number_field in Hx; boolify. destruct l as [|y l]; [done |].
  change (join "," (x :: y :: l)) with (x +:+ String "," (join "," (y :: l))).
  unfold no_blank_hash in *. rewrite all_chars_app; simpl in *; by rewrite H1, IH.
Qed.

Lemma kv_line_no_nl k v : no_char nl k = true -> no_char nl v = true -> no_char nl (kv_line (k, v)) = true.
Proof. intros Hk Hv; unfold kv_line; cbn [fst snd]; by rewrite !no_char_app, Hk, Hv. Qed.

(** Reading back a list of printed pairs is setting them one after the other. *)
Lemma parse_kv_lines kvs :
  Forall (fun kv => no_blank_hash kv.1 && no_char "=" kv.1 && negb (String.eqb kv.1 "") = true /\
                    plain_value kv.2 = true) kvs ->
  parse_config (unlines (kv_line <$> kvs)) =
  foldl (fun c kv => set_key c kv.1 kv.2) AppConfig_default kvs.
Proof.
  intros H. unfold parse_config. rewrite getlines_unlines.
  - generalize AppConfig_default as c. induction H as [|[k v] kvs [Hk Hv] H IH]; intros c; [done |].
    cbn [fmap list_fmap foldl fst snd] in *. unfold plain_value in Hv; boolify.
    by rewrite config_line_kv, IH by done.
  - apply Forall_fmap; eapply Forall_impl; [exact H |]. intros [k v] [Hk Hv].
    cbn [compose fst snd] in *. apply andb_true_iff in Hk as [[Hk _]%andb_true_iff _].
    apply no_blank_hash_plain in Hk. unfold plain_value in *; boolify. by apply kv_line_no_nl.
Qed.

(** A line the loop leaves without effect. *)
Definition ignorable (l : string) : Prop := forall c, config_line c l = c.

Lemma ignorable_blank l : trim (strip_comment l) = "" -> ignorable l.
Proof. intros H c; unfold config_line; by rewrite H. Qed.
Lemma ignorable_no_eq l : no_char "=" (trim (strip_comment l)) = true -> ignorable l.
Proof.
  intros H c; unfold config_line; case_match; [done |].
  by rewrite (proj2 (find_char_none _ _) H).
Qed.
Definition known_keys : list string :=
  ["enabled"; "gnmi.host"; "gnmi.port"; "allowed.numbers"; "session.ttl.sec";
   "lockout.failures"; "lockout.sec"; "modem.dev"; "modem.baud"; "modem.type"; "users.file"].
Lemma set_key_unknown c k v : k ∉ known_keys -> set_key c k v = c.
Proof.
  intros H; destruct c; unfold set_key.
  repeat (case_match; [exfalso; boolify; subst; apply H; set_solver |]); done.
Qed.

Lemma parse_unlines_app ls t :
  Forall (fun l => no_char nl l = true) ls ->
  parse_config (unlines ls +:+ t) = foldl config_line (foldl config_line AppConfig_default ls) (getlines t).
Proof.
  intros H; unfold parse_config; rewrite <- foldl_app; f_equal.
  induction H as [|l ls Hl H IH]; simpl; [done |].
  rewrite str_app_assoc, app_cons, getlines_line by done. by rewrite IH.
Qed.

(** ** Properties *)

(** C39: the parser reads back every printable configuration, one whose texts
    hold no character a line is cut or trimmed at and whose numbers are
    positive and fit their fields: printing all eleven keys and parsing the text gives the same configuration, so no
    key is dropped, mixed up or damaged on the way. *)
Theorem parse_print_config (c : AppConfig) (Hc : printable_config c) :
  parse_config (print_config c) = c.
Proof.
  destruct Hc as (Hh & Hd & Hu & Hn & Hp & Hr). unfold print_config. rewrite parse_kv_lines.
  - rewrite !Forall_cons in Hr. destruct Hr as (H1 & H2 & H3 & H4 & _), c; simpl in *.
    rewrite to_bool_text, parse_modem_type_name, !to_u32_to_string by lia.
    rewrite split_csv_join; [unfold u16; by rewrite Z.mod_small by lia |].
    eapply Forall_impl; [exact Hn |]. intros x Hx; unfold number_field in Hx; by boolify.
  - rewrite !Forall_cons in Hr. destruct Hr as (H1 & H2 & H3 & H4 & _).
    repeat (apply Forall_cons; split); [..| by apply Forall_nil]; (split; [reflexivity |]);
      cbn [snd]; auto using bool_text_plain, modem_name_plain, join_plain;
      apply to_string_plain; lia.
Qed.

Lemma parse_print_config_witness :
  parse_config (print_config
    (mkAppConfig true "127.0.0.1" 57400 ["+919096383701"; "+4915112345678"] 300 3 60
       "/dev/ttyUSB3" 921600 UBlox "/etc/zerotouch/users")) =
  mkAppConfig true "127.0.0.1" 57400 ["+919096383701"; "+4915112345678"] 300 3 60
       "/dev/ttyUSB3" 921600 UBlox "/etc/zerotouch/users".
Proof.
  apply parse_print_config.
  split_and!; try reflexivity; repeat (apply Forall_cons; split);
    try (apply Forall_nil; exact I); try reflexivity; simpl; lia.
Defined.

(** An old, newer or damaged file never harms the other settings: whatever
    the text, the port fits 16 bits and the five counters fit 32; a line that is
    blank, all comment, without '=' or with an unknown key can be inserted
    anywhere without changing the result; a comment after a setting is as good
    as none. *)
Theorem parse_config_robust (text : string) :
  config_in_range (parse_config text) /\
  (forall ls l t, Forall (fun l => no_char nl l = true) (l :: ls) ->
     trim (strip_comment l) = "" \/ no_char "=" (trim (strip_comment l)) = true \/
     (exists k v, l = kv_line (k, v) /\ no_blank_hash k = true /\ no_char "=" k = true /\
                  k <> "" /\ no_char "#" v = true /\ trimmed v = true /\ k ∉ known_keys) ->
     parse_config (unlines ls +:+ l +:+ String nl t) = parse_config (unlines ls +:+ t)) /\
  (forall c l t, no_char "#" l = true -> config_line c (l +:+ String "#" t) = config_line c l).
Proof.
  split_and!.
  - apply parse_lines_range. split; [simpl; lia |].
    repeat (apply Forall_cons; split); try (by apply Forall_nil); simpl; lia.
  - intros ls l t H Hl. apply Forall_cons in H as [Hnl H].
    rewrite !parse_unlines_app by done. rewrite getlines_line by done. simpl. f_equal.
    destruct Hl as [Hl | [Hl | (k & v & -> & H1 & H2 & H3 & H4 & H5 & H6)]];
      [by apply ignorable_blank | by apply ignorable_no_eq |].
    rewrite config_line_kv by done. by apply set_key_unknown.
  - intros; by apply config_line_comment.
Qed.

(** Numbers wrap instead of being rejected: the positivity test runs on the
    64-bit value and the result is then truncated, so a positive number that is
    a multiple of 2^32 (2^16 for the port) is accepted and configures 0. *)
Theorem config_numbers_wrap (n : Z) (Hn : (0 < n <= long_max)%Z) :
  session_ttl_sec (parse_config (kv_line ("session.ttl.sec", to_string n))) = (n mod 2 ^ 32)%Z /\
  lockout_failures (parse_config (kv_line ("lockout.failures", to_string n))) = (n mod 2 ^ 32)%Z /\
  gnmi_port (parse_config (kv_line ("gnmi.port", to_string n))) = (n mod 2 ^ 16)%Z.
Proof.
  assert (Hone : forall k, no_blank_hash k = true -> no_char "=" k = true -> k <> "" ->
            parse_config (kv_line (k, to_string n)) = set_key AppConfig_default k (to_string n)).
  { intros k H1 H2 H3. pose proof (no_blank_hash_plain k H1) as Hk.
    pose proof (to_string_plain n ltac:(lia)) as Hp; unfold plain_value in *; boolify.
    unfold parse_config. rewrite getlines_last by (by apply kv_line_no_nl || by destruct k).
    cbn [foldl]. by apply config_line_kv. }
  rewrite !Hone by done. unfold set_key, AppConfig_default.
  cbn [String.eqb Ascii.eqb Bool.eqb session_ttl_sec lockout_failures gnmi_port].
  unfold to_u32. rewrite stol_to_string by (unfold long_min, long_max in *; lia).
  rewrite (proj2 (Z.ltb_lt 0 n)) by lia. split_and!; try reflexivity.
  unfold u16, u32. apply Z.mod_mod_divide.
  by exists (2 ^ 16)%Z.
Qed.

Lemma config_numbers_wrap_witness :
  session_ttl_sec (parse_config "session.ttl.sec = 4294967296") = 0%Z /\
  lockout_failures (parse_config "lockout.failures = 4294967296") = 0%Z /\
  gnmi_port (parse_config "gnmi.port = 4294967296") = 0%Z.
Proof. apply (config_numbers_wrap 4294967296). unfold long_max; lia. Defined.

Example config_of_the_tests :
  let c := parse_config ("# a comment" +:+ chr nl +:+ chr nl +:+ "enabled = yes   # inline" +:+
             chr nl +:+ "bogus line" +:+ chr nl +:+ "gnmi.port = 57400" +:+ chr nl +:+
             "allowed.numbers = +919096383701, +4915112345678") in
  enabled c = true /\ gnmi_port c = 57400%Z /\
  allowed_numbers c = ["+919096383701"; "+4915112345678"].
Proof. vm_compute; repeat split. Qed.
