(* ===== verification/Users.v ===== *)
(** * Users: the standalone appliance's user store (src/users.cpp).

    [UserStore::parse] line by line into an ordered map, [lookup] and [size];
    what every stored record looks like whatever the file holds, where an Admin
    record can come from, and the round trip of a printed user list. *)

From S2P Require Import Prelude CString Text OrdMap Config.

(** ** The code *)

Record User := mkUser { id : string; hash : string; access : string }.

Definition UserStore : Type := OMap User.

(** The two positions of the colons, as [find] gives them. *)
Definition split_record (line : string) : option (string * string * string) :=
  match find_char ":" line with
  | None => None
  | Some c1 =>
      match find_char_from ":" (c1 + 1) line with
      | None => None
      | Some c2 =>
          Some (substr 0 c1 line, substr (c1 + 1) (c2 - c1 - 1) line, str_drop (c2 + 1) line)
      end
  end.

(** The record a line declares; [None] when the loop skips it. *)
Definition user_of_line (raw : string) : option User :=
  let line := trim (strip_comment raw) in
  if String.eqb line "" then None
  else match split_record line with
       | None => None
       | Some (f1, f2, f3) =>
           let i := trim f1 in
           let h := trim f2 in
           let a := trim f3 in
           if String.eqb i "" || String.eqb h "" then None
           else Some (mkUser i h (if String.eqb a "Admin" then a else "Viewer"))
       end.

(** One turn of the loop: [store.m_users[u.id] = std::move(u)]. *)
Definition user_line (s : UserStore) (raw : string) : UserStore :=
  match user_of_line raw with
  | Some u => put (id u) u s
  | None => s
  end.

Definition parse (text : string) : UserStore := foldl user_line [] (getlines text).

Definition lookup (s : UserStore) (i : string) : option User := find i s.
Definition size (s : UserStore) : nat := length s.

(** ** Specification vocabulary *)

(** A field a record can carry. *)
Definition user_field (v : string) : bool := plain_value v && no_char ":" v.

Definition user_record (u : User) : string :=
  id u +:+ ":" +:+ hash u +:+ ":" +:+ access u.

Definition proper_user (u : User) : Prop :=
  user_field (id u) = true /\ id u <> "" /\ user_field (hash u) = true /\ hash u <> "" /\
  (access u = "Admin" \/ access u = "Viewer").

(** The records of a file in order, later ones winning. *)
Definition store_of (us : list User) : gmap string User :=
  foldl (fun m u => <[id u := u]> m) ∅ us.

(** ** Lemmas *)

Lemma find_char_from_app c a b d :
  no_char c b = true ->
  find_char_from c (String.length a) (a +:+ b +:+ String c d) =
  Some (String.length a + String.length b)%nat.
Proof.
  intros H; unfold find_char_from. by rewrite str_drop_app_length, find_char_app.
Qed.

Lemma str_drop_add n m s : str_drop (n + m) s = str_drop m (str_drop n s).
Proof. revert s; induction n as [|n IH]; intros [|c s]; simpl; try done; by destruct m. Qed.

Lemma split_record_fields a b c :
  no_char ":" a = true -> no_char ":" b = true ->
  split_record (a +:+ ":" +:+ b +:+ ":" +:+ c) = Some (a, b, c).
Proof.
  intros Ha Hb. unfold split_record.
  change (":" +:+ b +:+ ":" +:+ c) with (String ":" (b +:+ String ":" c)).
  rewrite find_char_app by done.
  assert (Hlen : (String.length a + 1)%nat = String.length (a +:+ ":")) by (rewrite length_app; done).
  replace (a +:+ String ":" (b +:+ String ":" c)) with ((a +:+ ":") +:+ b +:+ String ":" c)
    by (by rewrite str_app_assoc).
  rewrite Hlen, find_char_from_app by done. unfold substr.
  rewrite str_drop_app_length. do 2 f_equal; [f_equal |].
  - cbn [str_drop]. rewrite str_app_assoc. apply str_take_app_length.
  - rewrite length_app; simpl.
    replace (_ - _ - 1)%nat with (String.length b) by lia. apply str_take_app_length.
  - rewrite <- Nat.add_assoc, str_drop_add, str_drop_app_length, Nat.add_1_r.
    by destruct (substr_cut ":" b c).
Qed.

Lemma split_record_spec line f1 f2 f3 :
  split_record line = Some (f1, f2, f3) ->
  line = f1 +:+ ":" +:+ f2 +:+ ":" +:+ f3 /\ no_char ":" f1 = true /\ no_char ":" f2 = true.
Proof.
  intros H. destruct (find_char_cases ":" line) as [[H1 _] | (a & r & -> & Ha & H1)].
  { unfold split_record in H; by rewrite H1 in H. }
  destruct (find_char_cases ":" r) as [[H2 Hn] | (b & c & -> & Hb & H2)].
  - unfold split_record in H. rewrite H1 in H. unfold find_char_from in H.
    rewrite Nat.add_1_r in H. destruct (substr_cut ":" a r) as [_ E]; rewrite E, H2 in H; done.
  - change (a +:+ String ":" (b +:+ String ":" c)) with (a +:+ ":" +:+ b +:+ ":" +:+ c) in *.
    rewrite split_record_fields in H by done. by injection H as <- <- <-.
Qed.

(** What a declared record looks like, whatever the line. *)
Lemma user_of_line_proper l u :
  no_char nl l = true -> user_of_line l = Some u -> proper_user u.
Proof.
  intros Hnl. unfold user_of_line. case_match; [done |].
  destruct (split_record _) as [[[f1 f2] f3]|] eqn:E; [| done].
  apply split_record_spec in E as (Hl & H1 & H2).
  assert (Hc : forall p, all_chars p (trim (strip_comment l)) = true ->
             all_chars p (trim f1) = true /\ all_chars p (trim f2) = true).
  { intros p; rewrite Hl, !all_chars_app, !andb_true_iff. intros (? & _ & ? & _).
    split; by apply trim_chars. }
  assert (Hs : no_char "#" (strip_comment l) = true /\ no_char nl (strip_comment l) = true).
  { unfold strip_comment. destruct (find_char "#" l) as [h|] eqn:Eh.
    - destruct (find_char_some _ _ _ Eh) as (Hcut & Hh & _); split; [done |].
      rewrite Hcut, no_char_app in Hnl; by boolify.
    - by rewrite <- find_char_none. }
  destruct Hs as [Hh Hn]. destruct (Hc _ (trim_chars _ _ Hh)) as [Hh1 Hh2].
  destruct (Hc _ (trim_chars _ _ Hn)) as [Hn1 Hn2].
  case_match; [done |]; intros [= <-]; boolify.
  unfold proper_user, user_field, plain_value, no_char; simpl.
  rewrite Hh1, Hh2, Hn1, Hn2, !trim_trimmed; simpl.
  split_and!; auto using trim_chars. destruct (String.eqb_spec (trim f3) "Admin"); auto.
Qed.

Lemma user_of_line_record u :
  proper_user u -> user_of_line (user_record u) = Some u.
Proof.
  intros (Hi & Hine & Hh & Hhne & Ha). unfold user_field, plain_value in *; boolify.
  assert (Hat : trimmed (access u) = true /\ no_char "#" (access u) = true /\ access u <> "")
    by (destruct Ha as [-> | ->]; done).
  destruct Hat as (Hat & Hah & Hane). unfold user_of_line.
  rewrite strip_comment_none by (unfold user_record; autorewrite with cstring; by_bools).
  assert (Ht : trimmed (user_record u) = true).
  { unfold user_record. change (":" +:+ hash u +:+ ":" +:+ access u)
      with (String ":" (hash u +:+ String ":" (access u))).
    repeat (apply trimmed_around; [done | done | done |]); done. }
  apply trimmed_spec in Ht; rewrite Ht.
  replace (String.eqb (user_record u) "") with false
    by (symmetry; apply String.eqb_neq; unfold user_record; by destruct (id u)).
  unfold user_record; rewrite split_record_fields by done.
  rewrite !(proj1 (trimmed_spec _)) by done.
  replace (String.eqb (id u) "" || String.eqb (hash u) "") with false
    by (symmetry; apply orb_false_iff; split; by apply String.eqb_neq).
  destruct u as [i h a]; simpl in *. destruct Ha as [-> | ->]; done.
Qed.

Lemma user_record_no_nl u : proper_user u -> no_char nl (user_record u) = true.
Proof.
  intros (Hi & _ & Hh & _ & Ha). unfold user_record, user_field, plain_value in *; boolify.
  autorewrite with cstring. destruct Ha as [-> | ->]; by_bools.
Qed.

Definition well_formed_store (s : UserStore) : Prop :=
  ordered s /\ forall i u, to_gmap s !! i = Some u -> id u = i /\ proper_user u.

Lemma user_line_well_formed s l :
  no_char nl l = true -> well_formed_store s -> well_formed_store (user_line s l).
Proof.
  intros Hl [Ho Hs]. unfold user_line. destruct (user_of_line l) as [u|] eqn:E; [| done].
  split; [by apply put_ordered |]. intros i v. rewrite put_gmap, lookup_insert.
  case_decide; [| apply Hs]. intros [= <-]. split; [done | by eapply user_of_line_proper].
Qed.
Lemma parse_lines_well_formed ls s :
  Forall (fun l => no_char nl l = true) ls -> well_formed_store s ->
  well_formed_store (foldl user_line s ls).
Proof.
  intros H; revert s; induction H; simpl; intros; auto using user_line_well_formed.
Qed.
Lemma parse_well_formed text : well_formed_store (parse text).
Proof.
  apply parse_lines_well_formed; [apply getlines_no_nl |].
  split; [constructor | intros i u; simpl; by rewrite lookup_empty].
Qed.

(** The lines of a text, and who they declare. *)
Lemma parse_lines_origin ls s i u :
  to_gmap (foldl user_line s ls) !! i = Some u ->
  to_gmap s !! i = Some u \/ exists l, l ∈ ls /\ user_of_line l = Some u /\ id u = i.
Proof.
  revert s; induction ls as [|l ls IH]; intros s H; simpl in *; [by left |].
  apply IH in H as [H | (l' & Hin & Hu & Hi)]; [| right; exists l'; set_solver].
  unfold user_line in H. destruct (user_of_line l) as [v|] eqn:E; [| by left].
  rewrite put_gmap, lookup_insert in H. case_decide; [| by left].
  injection H as <-. right; exists l; set_solver.
Qed.

Lemma parse_records us s :
  Forall proper_user us ->
  to_gmap (foldl user_line s (user_record <$> us)) =
  foldl (fun m u => <[id u := u]> m) (to_gmap s) us.
Proof.
  intros H; revert s; induction H as [|u us Hu H IH]; intros s; [done |]; simpl.
  rewrite IH. unfold user_line; rewrite user_of_line_record by done. by rewrite put_gmap.
Qed.

(** ** Properties *)

(** C40: the user store is well formed whatever the file holds: each record is
    filed under its own id, its id and hash are non-empty single fields, and
    its access is Admin or Viewer, nothing else; [lookup] is the map lookup and
    [size] counts the distinct ids. *)
Theorem parse_users_well_formed (text : string) :
  (forall i u, lookup (parse text) i = Some u -> id u = i /\ proper_user u) /\
  (forall i, lookup (parse text) i = to_gmap (parse text) !! i) /\
  size (parse text) = base.size (to_gmap (parse text)).
Proof.
  destruct (parse_well_formed text) as [Ho H]. unfold lookup. split_and!.
  - intros i u; rewrite find_gmap; apply H.
  - intros i; apply find_gmap.
  - unfold size, to_gmap. rewrite map_size_list_to_map; [done | by apply ordered_NoDup].
Qed.

(** privilege comes only from the file: an Admin found under an id was
    declared by a line of the file whose first field is that id and whose last
    field is exactly Admin. *)
Theorem admin_is_declared (text i : string) (u : User)
    (Hu : lookup (parse text) i = Some u) (Ha : access u = "Admin") :
  exists l f1 f2 f3, l ∈ getlines text /\
    trim (strip_comment l) = f1 +:+ ":" +:+ f2 +:+ ":" +:+ f3 /\
    trim f1 = i /\ trim f2 = hash u /\ trim f3 = "Admin".
Proof.
  unfold lookup in Hu; rewrite find_gmap in Hu. unfold parse in Hu.
  apply parse_lines_origin in Hu as [Hu | (l & Hin & Hl & Hi)];
    [simpl in Hu; by rewrite lookup_empty in Hu |].
  unfold user_of_line in Hl. case_match; [done |].
  destruct (split_record _) as [[[f1 f2] f3]|] eqn:E; [| done].
  apply split_record_spec in E as (E & _ & _). exists l, f1, f2, f3.
  case_match; [done |]. injection Hl as <-; simpl in *.
  destruct (String.eqb_spec (trim f3) "Admin"); [auto | done].
Qed.

Lemma admin_is_declared_witness :
  exists l f1 f2 f3, l ∈ getlines ("bob:abc:Viewer" +:+ String nl "admin : 5e88 : Admin # root") /\
    trim (strip_comment l) = f1 +:+ ":" +:+ f2 +:+ ":" +:+ f3 /\
    trim f1 = "admin" /\ trim f2 = "5e88" /\ trim f3 = "Admin".
Proof.
  apply (admin_is_declared _ _ (mkUser "admin" "5e88" "Admin")); by vm_compute.
Defined.

(** A printed user list reads back: for any list of proper users the store
    parsed from their records resolves every id to the last record given for
    it, and to nothing when there is none. *)
Theorem parse_print_users (us : list User) (Hus : Forall proper_user us) (i : string) :
  lookup (parse (unlines (user_record <$> us))) i = store_of us !! i.
Proof.
  unfold lookup, parse; rewrite find_gmap, getlines_unlines.
  - by rewrite parse_records.
  - apply Forall_fmap; eapply Forall_impl; [exact Hus |]; apply user_record_no_nl.
Qed.

Lemma parse_print_users_witness :
  lookup (parse (unlines (user_record <$>
    [mkUser "admin" "aa" "Viewer"; mkUser "bob" "bb" "Viewer"; mkUser "admin" "cc" "Admin"]))) "admin"
  = Some (mkUser "admin" "cc" "Admin").
Proof.
  rewrite parse_print_users; [reflexivity |].
  repeat (apply Forall_cons; split); try (apply Forall_nil; exact I);
    (split_and!; try reflexivity; try discriminate; simpl; auto).
Defined.
