(* ===== verification/DirectAction.v ===== *)
(** * DirectAction: the classic commands on the modem (src/direct_action_sink.cpp).

    The three methods of [DirectActionSink] over the modem interface.  The
    theorems say which AT traffic each key costs (and that the other keys cost
    none), how a response line becomes fields, and what each answer reads as. *)

From S2P Require Import Prelude CString Text Seams Mocks.

(** ** The code *)

(** The trimming of [flush]: spaces and quotes in front, and a carriage return
    too at the end. *)
Definition at_lead (c : ascii) : bool := Ascii.eqb c " " || Ascii.eqb c dquote.
Definition at_trail (c : ascii) : bool := at_lead c || Ascii.eqb c cr.

Fixpoint at_ltrim (s : string) : string :=
  match s with
  | "" => ""
  | String c r => if at_lead c then at_ltrim r else s
  end.
Fixpoint at_rtrim (s : string) : string :=
  match s with
  | "" => ""
  | String c r =>
      match at_rtrim r with
      | "" => if at_trail c then "" else chr c
      | r' => String c r'
      end
  end.
Definition flush (cur : string) : string := at_rtrim (at_ltrim cur).

(** The loop from [colon + 1], with [cur]. *)
Fixpoint at_split (cur s : string) : list string :=
  match s with
  | "" => [flush cur]
  | String c r =>
      if Ascii.eqb c "," then flush cur :: at_split "" r else at_split (cur +:+ chr c) r
  end.

Definition at_fields (line : string) : list string :=
  match find_char ":" line with
  | None => []
  | Some colon => at_split "" (str_drop (S colon) line)
  end.

Definition reg_label (stat : string) : string :=
  if String.eqb stat "1" then "home"
  else if String.eqb stat "5" then "roam"
  else if String.eqb stat "2" then "searching"
  else if String.eqb stat "3" then "denied"
  else if String.eqb stat "0" then "off"
  else "-".

Definition cgdcont (v : string) : string :=
  "AT+CGDCONT=1," +:+ chr dquote +:+ "IP" +:+ chr dquote +:+ "," +:+
  chr dquote +:+ v +:+ chr dquote.

(** [-113 + 2 * std::stoi(s)] in [int]; [None] where [stoi] throws. *)
Definition csq_dbm (s : string) : option Z :=
  match stoi s with
  | Some n => Some (to_i32 (-113 + to_i32 (2 * n)))
  | None => None
  end.

Section Direct.
Context {W : Type} `{IM : IModem W}.
(** [smsctl::kRebootTrigger] *)
Context (kRebootTrigger : string).
(** [m_reboot]: a [std::function] that may be empty. *)
Context (m_reboot : option (ST W bool)).

Definition direct_set (key value : string) : ST W bool :=
  if String.eqb key "cell.apn" then
    let* r := modem_at (cgdcont value) in st_ret (at_ok r)
  else if String.eqb key "cell.reset.request" then
    let* down := modem_at "AT+CFUN=0" in
    let* up := modem_at "AT+CFUN=1" in
    st_ret (at_ok down && at_ok up)
  else st_ret true.

(** The part of [get] after each query. *)
Definition read_reg (r : AtResult) : option string :=
  if negb (at_ok r) then None
  else match at_fields (line_with r "+CREG:") with
       | _ :: stat :: _ => Some (reg_label stat)
       | _ => None
       end.
Definition read_csq (r : AtResult) : option string :=
  if negb (at_ok r) then None
  else match at_fields (line_with r "+CSQ:") with
       | [] => None
       | rssi :: _ => if String.eqb rssi "99" then None else to_string <$> csq_dbm rssi
       end.
Definition read_ip (r : AtResult) : option string :=
  if negb (at_ok r) then None
  else match at_fields (line_with r "+CGPADDR:") with
       | _ :: addr :: _ =>
           if String.eqb addr "" || String.eqb addr "0.0.0.0" then None else Some addr
       | _ => None
       end.

Definition direct_get (key : string) : ST W (option string) :=
  if String.eqb key "cell.reg" || String.eqb key "cell.reg.cs" then
    let* r := modem_at "AT+CREG?" in st_ret (read_reg r)
  else if String.eqb key "cell.signal.dbm" then
    let* r := modem_at "AT+CSQ" in st_ret (read_csq r)
  else if String.eqb key "cell.ip" then
    let* r := modem_at "AT+CGPADDR=1" in st_ret (read_ip r)
  else st_ret None.

Definition direct_arm (path content : string) : ST W bool :=
  if String.eqb path kRebootTrigger then
    match m_reboot with Some reboot => reboot | None => st_ret false end
  else st_ret false.

Definition DirectActionSink : DsSink W :=
  {| ds_set := direct_set; ds_get := direct_get; arm_trigger := direct_arm |}.
End Direct.

(** ** Specification vocabulary *)

(** A modem whose world records the commands it was given, in order. *)
Class TracedModem (W : Type) `{IModem W} (tr : W -> list string) :=
  at_traced : forall c w, tr (exec (modem_at c) w) = tr w ++ [c].

(** A field as [at_fields] delivers it: no comma, nothing to trim at the ends. *)
Definition at_field (s : string) : bool := no_char "," s && String.eqb (flush s) s.

(** The commands a read may use: none of them changes the modem. *)
Definition at_query (c : string) : bool :=
  existsb (String.eqb c) ["AT+CREG?"; "AT+CSQ"; "AT+CGPADDR=1"].

(** ** Lemmas *)

Lemma at_split_last cur x : no_char "," x = true -> at_split cur x = [flush (cur +:+ x)].
Proof.
  revert cur; induction x as [|c x IH]; intros cur H; simpl; [by rewrite str_app_nil_r |].
  rewrite no_char_cons in H; boolify. rewrite H, IH by done.
  by rewrite str_app_assoc.
Qed.
Lemma at_split_field cur x s :
  no_char "," x = true -> at_split cur (x +:+ String "," s) = flush (cur +:+ x) :: at_split "" s.
Proof.
  revert cur; induction x as [|c x IH]; intros cur H.
  - rewrite app_nil_l'; simpl; by rewrite str_app_nil_r.
  - rewrite no_char_cons in H; boolify. rewrite app_cons; simpl; rewrite H, IH by done.
    by rewrite str_app_assoc.
Qed.
Lemma at_split_join x fs :
  Forall (fun x => no_char "," x = true) (x :: fs) ->
  at_split "" (join "," (x :: fs)) = flush <$> (x :: fs).
Proof.
  revert x; induction fs as [|y fs IH]; intros x H; apply Forall_cons in H as [Hx H].
  - simpl; by rewrite at_split_last.
  - change (join "," (x :: y :: fs)) with (x +:+ "," +:+ join "," (y :: fs)).
    rewrite (app_cons "," ""), app_nil_l'.
    rewrite at_split_field by done. by rewrite IH.
Qed.

(** The trimming takes a pad of spaces and quotes off both ends. *)
Lemma at_ltrim_pad a s : all_chars at_lead a = true -> at_ltrim (a +:+ s) = at_ltrim s.
Proof.
  induction a as [|c a IH]; intros H; [done |]. cbn in H; boolify.
  rewrite app_cons; simpl; rewrite H; auto.
Qed.
Lemma at_rtrim_blank b : all_chars at_trail b = true -> at_rtrim b = "".
Proof. induction b as [|c b IH]; intros H; [done |]. cbn in *; boolify. by rewrite IH, H. Qed.
Lemma at_rtrim_pad s b : all_chars at_trail b = true -> at_rtrim (s +:+ b) = at_rtrim s.
Proof.
  intros H; induction s as [|c s IH]; [by apply at_rtrim_blank |].
  rewrite app_cons; simpl; by rewrite IH.
Qed.
Lemma at_rtrim_ltrim_blank b : all_chars at_trail b = true -> at_rtrim (at_ltrim b) = "".
Proof.
  induction b as [|c b IH]; intros H; [done |]. assert (H' := H); cbn in H; boolify.
  cbn [at_ltrim]. destruct (at_lead c); [auto | by apply at_rtrim_blank].
Qed.
Lemma flush_pad a s b :
  all_chars at_lead a = true -> all_chars at_trail b = true -> flush (a +:+ s +:+ b) = flush s.
Proof.
  intros Ha Hb; unfold flush; rewrite at_ltrim_pad by done.
  clear Ha; induction s as [|c s IH]; [by apply at_rtrim_ltrim_blank |].
  rewrite app_cons; cbn [at_ltrim]. destruct (at_lead c); [exact IH |].
  rewrite <- app_cons. by apply at_rtrim_pad.
Qed.

Lemma at_fields_line name x fs :
  no_char ":" name = true -> Forall (fun x => no_char "," x = true) (x :: fs) ->
  at_fields (name +:+ String ":" (join "," (x :: fs))) = flush <$> (x :: fs).
Proof.
  intros Hn Hx; unfold at_fields. rewrite find_char_app by done.
  replace (str_drop _ _) with (join "," (x :: fs)); [by apply at_split_join |].
  symmetry; clear; induction name; [done |]. by rewrite app_cons.
Qed.

Lemma flush_plain s : all_chars (fun c => negb (at_trail c)) s = true -> flush s = s.
Proof.
  intros H; unfold flush.
  assert (Hr : at_rtrim s = s).
  { induction s as [|c s IH]; [done |]. cbn in *; boolify. rewrite IH by done.
    rewrite H. by destruct s. }
  destruct s as [|c s]; [done |]. cbn [at_ltrim].
  cbn in H; boolify. unfold at_trail in H; boolify. by rewrite H.
Qed.
Lemma flush_digits s : all_chars is_digit s = true -> flush s = s.
Proof.
  intros H; apply flush_plain; eapply all_chars_impl; [| exact H].
  intros c; by destruct c as [[] [] [] [] [] [] [] []].
Qed.
Lemma digits_no_char c s : is_digit c = false -> all_chars is_digit s = true -> no_char c s = true.
Proof.
  intros Hc; induction s as [|d s IH]; intros H; [done |]. cbn in H; boolify.
  rewrite no_char_cons, is_digit_not by done; auto.
Qed.

Lemma to_i32_id z : (int_min <= z <= int_max)%Z -> to_i32 z = z.
Proof. unfold to_i32, int_min, int_max; intros; rewrite Z.mod_small; lia. Qed.
Lemma csq_dbm_scale n : (0 <= n <= 31)%Z -> csq_dbm (to_string n) = Some (-113 + 2 * n)%Z.
Proof.
  intros H; unfold csq_dbm, stoi. rewrite stol_to_string by (unfold long_min, long_max; lia).
  unfold in_range, int_min, int_max.
  rewrite (proj2 (Z.leb_le _ _)), (proj2 (Z.leb_le _ _)) by lia; cbn [andb].
  by rewrite (to_i32_id (2 * n)), to_i32_id by (unfold int_min, int_max; lia).
Qed.

Lemma first_with_found prefix pre l post :
  Forall (fun l => starts_with prefix l = false) pre -> starts_with prefix l = true ->
  first_with prefix (pre ++ l :: post) = l.
Proof. induction 1 as [|x pre Hx _ IH]; intros Hl; simpl; [by rewrite Hl | rewrite Hx; auto]. Qed.

Section Readings.
Context {W : Type} `{IM : IModem W}.
Implicit Types w : W.

(** The modem answers [OK] to [q], and the first line starting with [name] and a
    colon is [name ": " f1 "," f2 ...], among any other lines. *)
Definition answers w (q name : string) (fs : list string) : Prop :=
  no_char ":" name = true /\ Forall (fun f => no_char "," f = true) fs /\
  exists pre post,
    result (modem_at q) w =
      mkAtResult true (pre ++ (name +:+ ": " +:+ join "," fs) :: post) /\
    Forall (fun l => starts_with (name +:+ ":") l = false) pre.

Lemma answers_fields w q name prefix f fs :
  answers w q name (f :: fs) -> prefix = name +:+ ":" ->
  at_ok (result (modem_at q) w) = true /\
  at_fields (line_with (result (modem_at q) w) prefix) = flush <$> (f :: fs).
Proof.
  intros H ->; revert H; intros (Hn & Hf & pre & post & -> & Hp); split; [done |].
  unfold line_with; cbn [lines]. rewrite first_with_found; [| done |].
  2: { apply starts_with_spec; exists (" " +:+ join "," (f :: fs)).
       by rewrite str_app_assoc. }
  apply Forall_cons in Hf as [Hf Hfs].
  replace (name +:+ ": " +:+ join "," (f :: fs))
    with (name +:+ String ":" (join "," ((" " +:+ f) :: fs))) by (by destruct fs).
  by rewrite at_fields_line; [| | apply Forall_cons].
Qed.

Lemma direct_get_reg w key :
  key = "cell.reg" \/ key = "cell.reg.cs" ->
  direct_get key w = (read_reg (result (modem_at "AT+CREG?") w), exec (modem_at "AT+CREG?") w).
Proof.
  intros [-> | ->]; unfold direct_get; simpl; unfold st_bind; by rewrite (run_split _ w).
Qed.

(** A read is one query and a pure reading of its answer, or nothing. *)
Lemma direct_get_shape key :
  (exists q f, direct_get key = (let* r := modem_at q in st_ret (f r)) /\
     at_query q = true /\
     key ∈ ["cell.reg"; "cell.reg.cs"; "cell.signal.dbm"; "cell.ip"]) \/
  direct_get key = st_ret None.
Proof.
  unfold direct_get.
  destruct (String.eqb_spec key "cell.reg") as [-> | H1]; cbn [orb].
  { left; eexists _, _; split_and!; [done | done | by left]. }
  destruct (String.eqb_spec key "cell.reg.cs") as [-> | H2].
  { left; eexists _, _; split_and!; [done | done | by right; left]. }
  destruct (String.eqb_spec key "cell.signal.dbm") as [-> | H3].
  { left; eexists _, _; split_and!; [done | done | by do 2 right; left]. }
  destruct (String.eqb_spec key "cell.ip") as [-> | H4]; [| by right].
  left; eexists _, _; split_and!; [done | done | by do 3 right; left].
Qed.
End Readings.

(** ** Properties *)

(** the AT traffic of the classic commands. Over any modem that records what
    it is told, setting the APN is one AT+CGDCONT carrying it, a radio reset is
    AT+CFUN=0 then AT+CFUN=1, both sent whatever the first answers and true
    exactly when both are acknowledged; any other write is accepted and costs
    nothing. A read of a known key is one query that changes nothing on the
    modem, and a read of any other key costs nothing and is absent. *)
Theorem direct_traffic {W : Type} (tr : W -> list string) `{TracedModem W tr}
    (key v : string) (w : W) :
  tr (exec (direct_set key v) w) = tr w ++
    (if String.eqb key "cell.apn" then [cgdcont v]
     else if String.eqb key "cell.reset.request" then ["AT+CFUN=0"; "AT+CFUN=1"] else []) /\
  (key = "cell.reset.request" ->
   result (direct_set key v) w =
     at_ok (result (modem_at "AT+CFUN=0") w) &&
     at_ok (result (modem_at "AT+CFUN=1") (exec (modem_at "AT+CFUN=0") w))) /\
  (exists qs, tr (exec (direct_get key) w) = tr w ++ qs /\ (length qs <= 1)%nat /\
     Forall (fun q => at_query q = true) qs /\
     (key ∉ ["cell.reg"; "cell.reg.cs"; "cell.signal.dbm"; "cell.ip"] ->
      qs = [] /\ direct_get key w = (None, w))).
Proof.
  assert (Ht := at_traced (tr := tr)). split_and!.
  - unfold direct_set. repeat case_match; st_run; rewrite ?Ht, <- ?app_assoc; try done.
    by rewrite app_nil_r.
  - intros ->; unfold direct_set; simpl; by st_run.
  - destruct (direct_get_shape key) as [(q & f & E & Hq & Hk) | E]; rewrite E; st_run.
    + exists [q]; rewrite Ht; split_and!; [done | done | by constructor | by intros ?].
    + exists []; rewrite app_nil_r; split_and!; [done | simpl; lia | done | done].
Qed.

(** what each reading means, whatever other lines the modem answers around
    it. The registration is the label of the second field; a signal quality
    0..31 reads as 2q-113 dBm, between -113 and -51, and 99 (unknown) as
    absent; the bearer address is the second field without its quotes, absent
    when empty or 0.0.0.0. A command the modem does not acknowledge is absent. *)
Theorem direct_get_readings {W : Type} `{IModem W} (w : W) :
  (forall n stat rest key, answers w "AT+CREG?" "+CREG" (n :: stat :: rest) ->
     key = "cell.reg" \/ key = "cell.reg.cs" ->
     result (direct_get key) w = Some (reg_label (flush stat))) /\
  (forall q rest, answers w "AT+CSQ" "+CSQ" (to_string q :: rest) ->
     ((0 <= q <= 31)%Z -> exists dbm,
        result (direct_get "cell.signal.dbm") w = Some (to_string dbm) /\
        dbm = (2 * q - 113)%Z /\ (-113 <= dbm <= -51)%Z) /\
     (q = 99%Z -> result (direct_get "cell.signal.dbm") w = None)) /\
  (forall cid addr rest,
     answers w "AT+CGPADDR=1" "+CGPADDR" (cid :: (chr dquote +:+ addr +:+ chr dquote) :: rest) ->
     at_field addr = true ->
     result (direct_get "cell.ip") w =
       if String.eqb addr "" || String.eqb addr "0.0.0.0" then None else Some addr) /\
  (forall key q, (key, q) ∈ [("cell.reg", "AT+CREG?"); ("cell.signal.dbm", "AT+CSQ");
                             ("cell.ip", "AT+CGPADDR=1")] ->
     at_ok (result (modem_at q) w) = false -> result (direct_get key) w = None).
Proof.
  split_and!.
  - intros n stat rest key Ha Hk. apply (answers_fields _ _ _ "+CREG:") in Ha as [Hok Hf]; [| done]; cbn in Hf.
    unfold result at 1; rewrite direct_get_reg by done; cbn. unfold read_reg.
    by rewrite Hok, Hf.
  - intros q rest Ha. apply (answers_fields _ _ _ "+CSQ:") in Ha as [Hok Hf]; [| done]; cbn in Hf.
    assert (E : result (direct_get "cell.signal.dbm") w = read_csq (result (modem_at "AT+CSQ") w))
      by (unfold direct_get; simpl; by st_run).
    rewrite E; unfold read_csq; rewrite Hok, Hf; cbn [negb]. split; [intros Hq | intros ->; done].
    rewrite flush_digits by (apply to_string_chars; lia).
    exists (2 * q - 113)%Z; split_and!; [| lia..].
    rewrite csq_dbm_scale by done; cbn. destruct (String.eqb_spec (to_string q) "99") as [E9 | _].
    + apply (to_string_inj q 99) in E9; lia.
    + do 3 f_equal; lia.
  - intros cid addr rest Ha Hf. apply andb_true_iff in Hf as [_ Hfl]; apply String.eqb_eq in Hfl.
    apply (answers_fields _ _ _ "+CGPADDR:") in Ha as [Hok E]; [| done]; cbn in E.
    rewrite flush_pad, Hfl in E by done.
    assert (Eg : result (direct_get "cell.ip") w = read_ip (result (modem_at "AT+CGPADDR=1") w))
      by (unfold direct_get; simpl; by st_run).
    rewrite Eg; unfold read_ip; by rewrite Hok, E.
  - intros key q Hin Hok. unfold direct_get.
    repeat (apply elem_of_cons in Hin as [[= -> ->] | Hin]); [.. | by apply elem_of_nil in Hin];
      simpl; st_run; unfold read_reg, read_csq, read_ip; by rewrite Hok.
Qed.

#[local] Existing Instance MockModem.

Definition MockModem_traced : TracedModem MockWorld sent_at.
Proof. by intros c w. Defined.

Lemma direct_traffic_witness :
  sent_at (exec (direct_set "cell.reset.request" "1") (mock_idle GnmiResult_default [])) =
    ["AT+CFUN=0"; "AT+CFUN=1"].
Proof.
  apply (direct_traffic (H0 := MockModem_traced) sent_at "cell.reset.request" "1"
           (mock_idle GnmiResult_default [])).
Defined.

(** The replies of the repository's own test of this sink. *)
Definition cell_script : MockWorld :=
  mock_idle GnmiResult_default
    [("AT+CREG?", mkAtResult true ["+CREG: 0,1"]);
     ("AT+CSQ", mkAtResult true ["+CSQ: 17,99"]);
     ("AT+CGPADDR=1", mkAtResult true
        ["+CGPADDR: 1," +:+ chr dquote +:+ "10.1.2.3" +:+ chr dquote])].

Lemma direct_get_readings_witness :
  result (direct_get "cell.signal.dbm") cell_script = Some "-79" /\
  result (direct_get "cell.ip") cell_script = Some "10.1.2.3".
Proof.
  destruct (direct_get_readings cell_script) as (_ & Hq & Hip & _). split.
  - destruct (Hq 17%Z ["99"]) as [Hs _].
    + repeat split; [by repeat constructor |]. by exists [], [].
    + destruct (Hs ltac:(lia)) as (d & -> & -> & _). by vm_compute.
  - apply (Hip "1" "10.1.2.3" []); [| by vm_compute].
    repeat split; [by repeat constructor |]. by exists [], [].
Defined.
