(* ===== verification/DsTransport.v ===== *)
(** * DsTransport: SMS over the data store (src/ds_sms_transport.cpp).

    cellular-client publishes each received SMS under the [sms.last.*] keys and
    bumps [sms.version]; [DsSmsTransport] watches the counter on the store's
    listener thread and drains on the reactor thread.  The methods are
    computations over the pair of the store (a parameter) and the transport's
    fields; the two threads are a step relation that interleaves them at the
    points where the code releases its mutex. *)

From Stdlib Require Import Sorting.Sorted.
From S2P Require Import Prelude CString SmsUtil Seams.

(** ** Parameters: data_store::Client *)

Class DsClient (E : Type) := {
  Value : Type;
  mk_value : string -> Value;
  value_to_string : Value -> option string;
  (** [get(keys, got)]: [None] is [!ok]; an entry is [None] when it has no value. *)
  dsc_get : list string -> ST E (option (list (option Value)));
  (** [set(kvs)]: the [ok] flag. *)
  dsc_set : list (string * Value) -> ST E bool;
  (** [ACE_OS::gettimeofday()] as seconds and microseconds. *)
  gettimeofday : ST E (Z * Z)
}.

(** ** The code *)

(** The fields of [DsSmsTransport] the threads share. *)
Record DsSmsTransport := mkDsSmsTransport {
  m_sms_dirty : bool;
  m_seen_sender : string;
  m_seen_text : string;
  m_seen_ts : string
}.
Definition DsSmsTransport_init : DsSmsTransport := mkDsSmsTransport false "" "" "".

Record DsWorld (E : Type) := mkDsWorld { env : E; tr : DsSmsTransport }.
Arguments mkDsWorld {E} _ _.
Arguments env {E} _.
Arguments tr {E} _.

Definition sms_last_keys : list string := ["sms.last.sender"; "sms.last.text"; "sms.last.ts"].

Section Transport.
Context {E : Type} `{DC : DsClient E}.

(** A call into the store. *)
Definition on_store {A} (m : ST E A) : ST (DsWorld E) A :=
  fun w => let '(a, e) := m (env w) in (a, mkDsWorld e (tr w)).
Definition get_tr : ST (DsWorld E) DsSmsTransport := st_gets tr.
Definition put_tr (t : DsSmsTransport) : ST (DsWorld E) unit :=
  st_modify (fun w => mkDsWorld (env w) t).

Definition now_ms : ST E Z :=
  let* tv := gettimeofday in st_ret (u64 (u64 (tv.1 * 1000) + u64 (Z.quot tv.2 1000))).

(** The [val] lambda of [read_last]. *)
Definition got_text (v : option Value) : string :=
  match v with
  | None => ""
  | Some x => default "" (value_to_string x)
  end.

Definition read_last : ST E (option InboundSms) :=
  let* got := dsc_get sms_last_keys in
  st_ret match got with
         | Some (a :: b :: c :: _) => Some (mkInboundSms (got_text a) (got_text b) (got_text c))
         | _ => None
         end.

(** [start()]: the baseline; the watch registration that follows has no effect
    on the fields. *)
Definition ds_start : ST (DsWorld E) unit :=
  let* l := on_store read_last in
  match l with
  | None => st_ret tt
  | Some i =>
      let* t := get_tr in
      put_tr (mkDsSmsTransport (m_sms_dirty t) (sender i) (text i) (ts i))
  end.

(** The watch callback, on the listener thread: the locked assignment. The
    [notify] that follows is a step of the interleaving. *)
Definition flag_dirty : ST (DsWorld E) unit :=
  let* t := get_tr in
  put_tr (mkDsSmsTransport true (m_seen_sender t) (m_seen_text t) (m_seen_ts t)).

(** The locked block of [handle_exception]: the flag it found. *)
Definition take_dirty : ST (DsWorld E) bool :=
  let* t := get_tr in
  let dirty := m_sms_dirty t in
  let* _ := put_tr (mkDsSmsTransport false (m_seen_sender t) (m_seen_text t) (m_seen_ts t)) in
  st_ret dirty.

(** [drain_inbound] up to the callback: the message to deliver, if any. *)
Definition take_last : ST (DsWorld E) (option InboundSms) :=
  let* l := on_store read_last in
  match l with
  | None => st_ret None
  | Some i =>
      if String.eqb (sender i) "" || String.eqb (text i) "" then st_ret None
      else
        let* t := get_tr in
        if String.eqb (sender i) (m_seen_sender t) && String.eqb (text i) (m_seen_text t)
           && String.eqb (ts i) (m_seen_ts t)
        then st_ret None
        else put_tr (mkDsSmsTransport (m_sms_dirty t) (sender i) (text i) (ts i)) >>>
             st_ret (Some i)
  end.

(** [m_on_message]: a [std::function] that may be empty. *)
Definition drain_inbound (m_on_message : option (MessageFn (DsWorld E))) : ST (DsWorld E) unit :=
  let* m := take_last in
  match m, m_on_message with
  | Some i, Some cb => cb i
  | _, _ => st_ret tt
  end.

Definition handle_exception (m_on_message : option (MessageFn (DsWorld E)))
  : ST (DsWorld E) Z :=
  let* dirty := take_dirty in
  (if dirty then drain_inbound m_on_message else st_ret tt) >>> st_ret 0%Z.

Definition ds_send (to txt : string) : ST (DsWorld E) bool :=
  if negb (is_reachable_sender to) then st_ret false
  else
    let* ok1 := on_store (dsc_set [("sms.send.to", mk_value to); ("sms.send.text", mk_value txt)]) in
    if negb ok1 then st_ret false
    else
      let* now := on_store now_ms in
      let* ok2 := on_store (dsc_set [("sms.send.request", mk_value (to_string now))]) in
      st_ret ok2.
End Transport.

(** ** The two threads *)

(** Where each thread is between its critical sections. *)
Inductive ListenerPc := LWait | LNotify.
Inductive ReactorPc := RWait | RDrain.

(** A run: the world, the store events not yet handed to the listener, the
    notifications not yet handed to the reactor, both program counters and the
    messages delivered so far. *)
Record Run (E : Type) := mkRun {
  world : DsWorld E;
  events : nat;
  notes : nat;
  lpc : ListenerPc;
  rpc : ReactorPc;
  delivered : list InboundSms
}.
Arguments mkRun {E} _ _ _ _ _ _.
Arguments world {E} _.
Arguments events {E} _.
Arguments notes {E} _.
Arguments lpc {E} _.
Arguments rpc {E} _.
Arguments delivered {E} _.

Section Threads.
Context {E : Type} `{DC : DsClient E}.
Context (cb : option (MessageFn (DsWorld E))).
(** What other processes may do to the store, with the [sms.version] events
    the change raises. *)
Context (publish : relation E).

Inductive ds_step : Run E -> Run E -> Prop :=
| step_publish s e' :
    publish (env (world s)) e' ->
    ds_step s (mkRun (mkDsWorld e' (tr (world s))) (S (events s)) (notes s) (lpc s) (rpc s)
                     (delivered s))
| step_flag s n :
    lpc s = LWait -> events s = S n ->
    ds_step s (mkRun (exec flag_dirty (world s)) n (notes s) LNotify (rpc s) (delivered s))
| step_notify s :
    lpc s = LNotify ->
    ds_step s (mkRun (world s) (events s) (S (notes s)) LWait (rpc s) (delivered s))
| step_take s n :
    rpc s = RWait -> notes s = S n ->
    ds_step s (mkRun (exec take_dirty (world s)) (events s) n (lpc s)
                     (if result take_dirty (world s) then RDrain else RWait) (delivered s))
| step_drain s :
    rpc s = RDrain ->
    ds_step s (mkRun (exec (drain_inbound cb) (world s)) (events s) (notes s) (lpc s) RWait
                     (delivered s ++ match result take_last (world s) with
                                     | Some i => [i] | None => [] end)).

(** A run starts when [start()] has returned on a fresh transport. *)
Definition ds_initial (e : E) : Run E :=
  mkRun (exec ds_start (mkDsWorld e DsSmsTransport_init)) 0 0 LWait RWait [].

Definition ds_reachable (e : E) (s : Run E) : Prop := rtc ds_step (ds_initial e) s.
End Threads.

(** ** Specification vocabulary *)

Definition seen_of (t : DsSmsTransport) : InboundSms :=
  mkInboundSms (m_seen_sender t) (m_seen_text t) (m_seen_ts t).
Definition deliverable (i : InboundSms) : bool :=
  negb (String.eqb (sender i) "" || String.eqb (text i) "").

Section Spec.
Context {E : Type} `{DC : DsClient E}.

(** What [sms.last.*] holds, as [read_last] reads it. *)
Definition last_of (e : E) : option InboundSms := result read_last e.
Definition baseline (e : E) : InboundSms :=
  default (mkInboundSms "" "" "") (last_of e).

(** Nothing is pending anywhere. *)
Definition quiescent (s : Run E) : Prop :=
  events s = 0%nat /\ notes s = 0%nat /\ lpc s = LWait /\ rpc s = RWait.

(** The critical sections the two threads still owe. *)
Definition work (s : Run E) : nat :=
  4 * events s + (match lpc s with LNotify => 3 | LWait => 0 end) + 2 * notes s
  + (match rpc s with RDrain => 1 | RWait => 0 end).

(** A read leaves the store alone. *)
Class PureReads := read_pure : forall ks e, exec (dsc_get ks) e = e.
(** A callback that does not touch the transport's fields. *)
Definition cb_frames (cb : option (MessageFn (DsWorld E))) : Prop :=
  forall f i, cb = Some f -> frames tr (f i).
(** A callback that does not change what [sms.last.*] holds. *)
Definition cb_keeps_last (cb : option (MessageFn (DsWorld E))) : Prop :=
  forall f i, cb = Some f -> frames (fun w => last_of (env w)) (f i).
End Spec.
Arguments PureReads E {DC}.

(** ** Lemmas *)

Section TransportLemmas.
Context {E : Type} `{DC : DsClient E} `{!PureReads E}.

Lemma read_last_pure (e : E) : exec read_last e = e.
Proof. unfold read_last; st_run; apply read_pure. Qed.

Lemma on_store_run {A} (m : ST E A) w :
  on_store m w = (result m (env w), mkDsWorld (exec m (env w)) (tr w)).
Proof. unfold on_store; by rewrite (run_split m). Qed.

Lemma triple_eqb (i : InboundSms) t :
  String.eqb (sender i) (m_seen_sender t) && String.eqb (text i) (m_seen_text t)
  && String.eqb (ts i) (m_seen_ts t) = bool_decide (i = seen_of t).
Proof.
  apply eq_true_iff_eq. rewrite !andb_true_iff, !String.eqb_eq, bool_decide_eq_true.
  unfold seen_of; destruct i; simpl. split; [intros [[-> ->] ->] | intros [= -> -> ->]]; done.
Qed.

Definition fresh (i : InboundSms) (t : DsSmsTransport) : bool :=
  deliverable i && bool_decide (i <> seen_of t).
Definition see (i : InboundSms) (t : DsSmsTransport) : DsSmsTransport :=
  mkDsSmsTransport (m_sms_dirty t) (sender i) (text i) (ts i).

(** [take_last] delivers the current message exactly when it is complete and
    differs from the one seen, and then records it. *)
Lemma take_last_run (w : DsWorld E) :
  take_last w =
  match last_of (env w) with
  | Some i => if fresh i (tr w) then (Some i, mkDsWorld (env w) (see i (tr w))) else (None, w)
  | None => (None, w)
  end.
Proof.
  unfold take_last, st_bind; rewrite on_store_run, read_last_pure.
  fold (last_of (env w)). destruct w as [e t]; cbn [env tr].
  destruct (last_of e) as [i|]; [| done]. unfold fresh, deliverable.
  destruct (String.eqb (sender i) "" || String.eqb (text i) ""); [done |].
  unfold get_tr, st_gets; cbn [tr]. rewrite triple_eqb.
  repeat case_bool_decide; done.
Qed.

Lemma ds_start_run (e : E) t :
  exec ds_start (mkDsWorld e t) =
  mkDsWorld e (match last_of e with Some i => see i t | None => t end).
Proof.
  unfold ds_start, exec, st_bind; rewrite on_store_run, read_last_pure; cbn [env tr].
  fold (last_of e). by destruct (last_of e).
Qed.

Lemma take_dirty_run (w : DsWorld E) :
  take_dirty w = (m_sms_dirty (tr w),
    mkDsWorld (env w) (mkDsSmsTransport false (m_seen_sender (tr w)) (m_seen_text (tr w))
                         (m_seen_ts (tr w)))).
Proof. done. Qed.

(** The transport's fields after a drain. *)
Lemma drain_tr cb (w : DsWorld E) :
  cb_frames cb -> tr (exec (drain_inbound cb) w) = tr (exec take_last w).
Proof.
  intros Hc; unfold drain_inbound; rewrite exec_bind.
  destruct (result take_last w); [| done]. destruct cb as [f|] eqn:Ef; [| done].
  by apply (Hc f).
Qed.
Lemma drain_last cb (w : DsWorld E) :
  cb_keeps_last cb -> last_of (env (exec (drain_inbound cb) w)) = last_of (env w).
Proof.
  intros Hc; unfold drain_inbound; rewrite exec_bind.
  assert (Ht : env (exec take_last w) = env w).
  { unfold exec; rewrite take_last_run. by repeat case_match. }
  destruct (result take_last w); [| by st_run; rewrite Ht].
  destruct cb as [f|] eqn:Ef; [| by st_run; rewrite Ht].
  rewrite (Hc f _ eq_refl (exec take_last w)). by rewrite Ht.
Qed.
End TransportLemmas.

Section RunLemmas.
Context {E : Type} `{DC : DsClient E} `{!PureReads E}.
Context (cb : option (MessageFn (DsWorld E))) (publish : relation E).
Context (Hcb : cb_frames cb).

(** The safety invariant: what was delivered never repeats its predecessor, and
    the fields remember the last of it. *)
Definition once_inv (e : E) (s : Run E) : Prop :=
  Sorted (fun a b => a <> b) (baseline e :: delivered s) /\
  Forall (fun i => deliverable i = true) (delivered s) /\
  last (baseline e :: delivered s) = Some (seen_of (tr (world s))).

Lemma Sorted_snoc {A} (R : relation A) x l y z :
  Sorted R (x :: l) -> last (x :: l) = Some z -> R z y -> Sorted R (x :: l ++ [y]).
Proof.
  revert x; induction l as [|a l IH]; intros x Hs Hl Hr; cbn [app].
  - injection Hl as ->. by repeat constructor.
  - inversion Hs as [|? ? Hs' Hh]; subst. constructor.
    + apply IH; [done | by rewrite <- Hl | done].
    + inversion Hh; subst; by constructor.
Qed.

Lemma once_init e : once_inv e (ds_initial e).
Proof.
  unfold once_inv, ds_initial; cbn [world delivered]. rewrite ds_start_run; cbn [tr].
  split_and!; [by repeat constructor | done |]. unfold baseline; cbn.
  by destruct (last_of e) as [[]|].
Qed.

Lemma once_step e s s' : ds_step cb publish s s' -> once_inv e s -> once_inv e s'.
Proof.
  intros Hs (H1 & H2 & H3); destruct Hs as [s e' Hp | s n Hl He | s Hl | s n Hr Hn | s Hr];
    unfold once_inv; cbn [world delivered tr]; try done.
  rewrite drain_tr by done. unfold exec, result; rewrite take_last_run.
  destruct (last_of (env (world s))) as [i|]; [| by rewrite app_nil_r].
  destruct (fresh i (tr (world s))) eqn:Ef; cbn [fst snd tr]; [| by rewrite app_nil_r].
  apply andb_true_iff in Ef as [Hd Hne]; apply bool_decide_eq_true in Hne.
  split_and!.
  - by eapply Sorted_snoc.
  - apply Forall_app; by split; [| constructor].
  - rewrite app_comm_cons, last_snoc. by destruct i.
Qed.

Lemma once_reachable e s : ds_reachable cb publish e s -> once_inv e s.
Proof.
  intros H. apply (rtc_ind_r (once_inv e) (ds_initial e)) in H; [done | apply once_init |].
  intros; by eapply once_step.
Qed.

(** Each delivered message was in the store when the reactor drained it. *)
Lemma delivered_origin e s i :
  ds_reachable cb publish e s -> i ∈ delivered s ->
  exists s0, ds_reachable cb publish e s0 /\ rtc (ds_step cb publish) s0 s /\
             rpc s0 = RDrain /\ last_of (env (world s0)) = Some i.
Proof.
  revert s; apply (rtc_ind_r (fun s => i ∈ delivered s ->
    exists s0, ds_reachable cb publish e s0 /\ rtc (ds_step cb publish) s0 s /\
               rpc s0 = RDrain /\ last_of (env (world s0)) = Some i));
    [by intros ?%elem_of_nil | intros s s' Hr Hs IH Hi].
  assert (Hold : i ∈ delivered s -> exists s0, ds_reachable cb publish e s0 /\
    rtc (ds_step cb publish) s0 s' /\ rpc s0 = RDrain /\ last_of (env (world s0)) = Some i).
  { intros Hin; destruct (IH Hin) as (s0 & H1 & H2 & H3 & H4). exists s0; split_and!; [done | | done..].
    by eapply rtc_r. }
  destruct Hs as [s e' Hp | s n Hl He | s Hl | s n Hrp Hn | s Hrp]; try by apply Hold.
  cbn [delivered] in Hi. apply elem_of_app in Hi as [Hi | Hi]; [by apply Hold |].
  assert (Hst := step_drain cb publish s Hrp).
  unfold result in Hi; rewrite take_last_run in Hi.
  destruct (last_of (env (world s))) as [j|] eqn:El; [| by apply elem_of_nil in Hi].
  destruct (fresh j _); cbn in Hi; [| by apply elem_of_nil in Hi].
  apply list_elem_of_singleton in Hi as ->.
  exists s; split_and!; [exact Hr | by apply rtc_once | done | done].
Qed.

(** No wakeup is lost: while the store holds a message that was not seen, some
    thread still has the work that will look at it. *)
Definition current (s : Run E) : Prop :=
  forall i, last_of (env (world s)) = Some i -> deliverable i = true ->
            seen_of (tr (world s)) = i.
Definition wake_inv (s : Run E) : Prop :=
  (forall e, last_of e <> None) /\
  (current s \/ (0 < events s)%nat \/ rpc s = RDrain \/
   (m_sms_dirty (tr (world s)) = true /\ ((0 < notes s)%nat \/ lpc s = LNotify))).

Lemma current_drain s :
  cb_keeps_last cb ->
  current (mkRun (exec (drain_inbound cb) (world s)) (events s) (notes s) (lpc s) RWait
                 (delivered s ++ match result take_last (world s) with
                                 | Some i => [i] | None => [] end)).
Proof.
  intros Hk i; unfold current; cbn [world]. rewrite drain_last, drain_tr by done.
  intros El Hd. unfold exec; rewrite take_last_run, El. unfold fresh; rewrite Hd; cbn [andb].
  case_bool_decide as Hne; cbn [snd tr].
  - by destruct i.
  - done.
Qed.

Lemma wake_step s s' :
  cb_keeps_last cb -> ds_step cb publish s s' -> wake_inv s -> wake_inv s'.
Proof.
  intros Hk Hs [Hok Hw]; split; [exact Hok |].
  destruct Hs as [s e' Hp | s n Hl He | s Hl | s n Hr Hn | s Hr].
  - right; left; cbn; lia.
  - right; right; right; cbn. split; [done | by right].
  - destruct Hw as [Hw | [Hw | [Hw | [Hw Hn]]]]; cbn; auto.
    do 3 right. split; [done | left; lia].
  - change (result take_dirty (world s)) with (m_sms_dirty (tr (world s))).
    destruct (m_sms_dirty (tr (world s))) eqn:Ed; [by right; right; left |].
    destruct Hw as [Hw | [Hw | [Hw | [? _]]]]; [left | by right; left | congruence | congruence].
    exact Hw.
  - left; by apply current_drain.
Qed.

Lemma wake_reachable e s :
  (forall e, last_of e <> None) -> cb_keeps_last cb -> ds_reachable cb publish e s -> wake_inv s.
Proof.
  intros Hok Hk H. apply (rtc_ind_r wake_inv (ds_initial e)) in H; [done | |].
  - split; [done | left]. intros i; unfold ds_initial; cbn [world]. rewrite ds_start_run; cbn [env tr].
    intros -> _. by destruct i.
  - intros; by eapply wake_step.
Qed.
End RunLemmas.

(** The transport's own steps: those of its two threads. *)
Abbreviation own_step cb := (ds_step cb (fun _ _ => False)).

Section Settling.
Context {E : Type} `{DC : DsClient E}.
Context (cb : option (MessageFn (DsWorld E))).

Lemma own_step_step publish s s' : own_step cb s s' -> ds_step cb publish s s'.
Proof. intros H; destruct H; [done | ..]; by econstructor. Qed.

Lemma own_step_work s s' : own_step cb s s' -> (work s' < work s)%nat.
Proof.
  intros H; unfold work; destruct H as [? ? [] | s n Hl He | s Hl | s n Hr Hn | s Hr];
    cbn [events notes lpc rpc]; rewrite ?Hl, ?He, ?Hr, ?Hn; try lia.
  destruct (result take_dirty (world s)); lia.
Qed.

Lemma own_progress s : quiescent s \/ exists s', own_step cb s s'.
Proof.
  destruct (lpc s) eqn:El; [| by right; eexists; apply step_notify].
  destruct (rpc s) eqn:Er; [| by right; eexists; apply step_drain].
  destruct (events s) eqn:Ee; [| by right; eexists; eapply step_flag].
  destruct (notes s) eqn:En; [| by right; eexists; eapply step_take].
  by left.
Qed.

Lemma settles s : exists s', rtc (own_step cb) s s' /\ quiescent s'.
Proof.
  remember (work s) as n eqn:Hn. revert s Hn.
  induction (lt_wf n) as [n _ IH]; intros s ->.
  destruct (own_progress s) as [Hq | [s1 H1]]; [by exists s |].
  destruct (IH (work s1) ltac:(by apply own_step_work) s1 eq_refl) as (s' & H2 & Hq).
  exists s'; split; [by eapply rtc_l | done].
Qed.

Lemma own_run_length n s s' : nsteps (own_step cb) n s s' -> (n + work s' <= work s)%nat.
Proof.
  induction 1 as [s | n s s1 s' H1 _ IH]; [lia |].
  apply own_step_work in H1; lia.
Qed.
End Settling.

(** ** Properties *)

(** exactly once, no replay. However the listener, the reactor and the
    publishers interleave, the messages delivered are complete, each was what
    the store held when the reactor drained it, none repeats the one delivered
    before it, and the first is not the message that was already there when the
    transport started. *)
Theorem ds_delivers_once {E : Type} `{DsClient E} `{!PureReads E}
    (cb : option (MessageFn (DsWorld E))) (publish : relation E) (Hcb : cb_frames cb)
    (e : E) (s : Run E) (Hr : ds_reachable cb publish e s) :
  Sorted (fun a b => a <> b) (baseline e :: delivered s) /\
  forall i, i ∈ delivered s ->
    sender i <> "" /\ text i <> "" /\
    exists s0, ds_reachable cb publish e s0 /\ rtc (ds_step cb publish) s0 s /\
               last_of (env (world s0)) = Some i.
Proof.
  destruct (once_reachable cb publish Hcb e s Hr) as (Hs & Hd & _).
  split; [exact Hs |]; intros i Hi.
  rewrite Forall_forall in Hd; apply Hd in Hi as Hdi.
  apply negb_true_iff, orb_false_iff in Hdi as [H1%String.eqb_neq H2%String.eqb_neq].
  destruct (delivered_origin cb publish e s i Hr Hi) as (s0 & ? & ? & _ & ?); eauto 8.
Qed.

(** no lost wakeup. From every reachable state the two threads alone come
    to rest after at most [work s] critical sections, whichever order they
    take, and once at rest the newest complete message of the store has been
    delivered (or was there at the start): it is the last of the baseline and
    the deliveries. *)
Theorem ds_delivers_latest {E : Type} `{DsClient E} `{!PureReads E}
    (cb : option (MessageFn (DsWorld E))) (publish : relation E)
    (Hcb : cb_frames cb) (Hlast : cb_keeps_last cb) (Hok : forall e, last_of e <> None)
    (e : E) (s : Run E) (Hr : ds_reachable cb publish e s) :
  (exists s', rtc (own_step cb) s s' /\ quiescent s') /\
  (forall n s', nsteps (own_step cb) n s s' -> (n <= work s)%nat) /\
  (forall s', rtc (own_step cb) s s' -> quiescent s' ->
     forall i, last_of (env (world s')) = Some i -> sender i <> "" -> text i <> "" ->
       last (baseline e :: delivered s') = Some i).
Proof.
  split_and!; [apply settles | intros n s' Hn; apply own_run_length in Hn; lia |].
  intros s' Hs (He & Hn & Hl & Hp) i Hi H1 H2.
  assert (Hr' : ds_reachable cb publish e s').
  { unfold ds_reachable; etrans; [exact Hr |].
    eapply rtc_subrel; [| exact Hs]. intros ??; apply own_step_step. }
  destruct (once_reachable cb publish Hcb e s' Hr') as (_ & _ & ->).
  destruct (wake_reachable cb publish Hcb e s' Hok Hlast Hr') as (_ & [Hc | [Hc | [Hc | [_ [Hc | Hc]]]]]);
    [| lia | congruence | lia | congruence].
  f_equal; apply Hc; [done |]. unfold deliverable.
  by rewrite (proj2 (String.eqb_neq _ _) H1), (proj2 (String.eqb_neq _ _) H2).
Qed.

(** A store whose world records the writes it was given, in order. *)
Class TracedStore (E : Type) `{DsClient E} (tr : E -> list (list (string * Value))) := {
  set_traced : forall kvs e, tr (exec (dsc_set kvs) e) = tr e ++ [kvs];
  clock_traced : forall e, tr (exec gettimeofday e) = tr e
}.

Lemma exec_on_store {E A : Type} (m : ST E A) w :
  exec (on_store m) w = mkDsWorld (exec m (env w)) (tr w).
Proof. unfold exec at 1; by rewrite on_store_run. Qed.
Lemma result_on_store {E A : Type} (m : ST E A) w : result (on_store m) w = result m (env w).
Proof. unfold result at 1; by rewrite on_store_run. Qed.

(** sending. A sender that cannot receive SMS costs no write at all and
    answers false. Otherwise the recipient and the text are written together
    first; only when that succeeds is the request token, the clock's reading in
    milliseconds, written alone and after them, and the answer is that of this
    second write. The fields of the transport are not touched. *)
Theorem ds_send_envelope {E : Type} {DC : DsClient E} (wr : E -> list (list (string * Value)))
    {TS : TracedStore E wr} (to txt : string) (w : DsWorld E) :
  let payload := [("sms.send.to", mk_value to); ("sms.send.text", mk_value txt)] in
  let w' := exec (ds_send to txt) w in
  tr w' = tr w /\
  if is_reachable_sender to then
    if result (dsc_set payload) (env w) then
      let e1 := exec (dsc_set payload) (env w) in
      let token := mk_value (to_string (result now_ms e1)) in
      wr (env w') = wr (env w) ++ [payload; [("sms.send.request", token)]] /\
      result (ds_send to txt) w =
        result (dsc_set [("sms.send.request", token)]) (exec now_ms e1)
    else wr (env w') = wr (env w) ++ [payload] /\ result (ds_send to txt) w = false
  else w' = w /\ result (ds_send to txt) w = false.
Proof.
  cbv zeta. unfold ds_send. destruct (is_reachable_sender to); cbn [negb]; [| by st_run].
  st_run. rewrite exec_on_store, result_on_store; cbn [env tr].
  destruct (result (dsc_set _) (env w)); cbn [negb]; st_run;
    rewrite ?exec_on_store, ?result_on_store; cbn [env tr]; (split; [done |]).
  - rewrite !set_traced. split; [| done]. unfold now_ms; st_run.
    by rewrite clock_traced, set_traced, <- app_assoc.
  - by rewrite set_traced.
Qed.

(** ** A concrete store *)

(** The three keys, the writes so far and a clock. *)
Record MemStore := mkMemStore { m_last : InboundSms; m_writes : list (list (string * string)) }.

Definition mem_read (e : MemStore) (k : string) : option string :=
  if String.eqb k "sms.last.sender" then Some (sender (m_last e))
  else if String.eqb k "sms.last.text" then Some (text (m_last e))
  else if String.eqb k "sms.last.ts" then Some (ts (m_last e))
  else None.

#[local] Instance mem_client : DsClient MemStore :=
  {| Value := string; mk_value := fun s => s; value_to_string := fun v => Some v;
     dsc_get := fun ks e => (Some (mem_read e <$> ks), e);
     dsc_set := fun kvs e => (true, mkMemStore (m_last e) (m_writes e ++ [kvs]));
     gettimeofday := fun e => ((1700000000, 250000)%Z, e) |}.
Definition mem_pure : PureReads MemStore.
Proof. done. Defined.
Definition mem_traced : TracedStore MemStore m_writes.
Proof. by split. Defined.

Definition mem_publish : relation MemStore :=
  fun e e' => exists i, e' = mkMemStore i (m_writes e).
Definition sms (t n : string) : InboundSms := mkInboundSms "+15550001111" t n.
Definition mem_at (i : InboundSms) : MemStore := mkMemStore i [].

Lemma mem_last e : last_of e = Some (m_last e).
Proof. by destruct e as [[] ?]. Defined.

(** One message published and drained. *)
Definition one_run : Run MemStore :=
  mkRun (mkDsWorld (mem_at (sms "B" "2")) (see (sms "B" "2") DsSmsTransport_init))
        0 0 LWait RWait [sms "B" "2"].
Lemma one_run_reachable : ds_reachable None mem_publish (mem_at (sms "A" "1")) one_run.
Proof.
  eapply rtc_l; [by apply step_publish; exists (sms "B" "2") |].
  eapply rtc_l; [by apply step_flag |].
  eapply rtc_l; [by apply step_notify |].
  eapply rtc_l; [by apply step_take |].
  eapply rtc_l; [by apply step_drain | by apply rtc_refl].
Defined.

Lemma ds_delivers_once_witness :
  Sorted (fun a b => a <> b) [sms "A" "1"; sms "B" "2"].
Proof.
  apply (ds_delivers_once (PureReads0 := mem_pure) None mem_publish
           ltac:(intros f i [=]) (mem_at (sms "A" "1")) one_run one_run_reachable).
Defined.

Lemma ds_delivers_latest_witness :
  last (baseline (mem_at (sms "A" "1")) :: delivered one_run) = Some (sms "B" "2").
Proof.
  destruct (ds_delivers_latest (PureReads0 := mem_pure) None mem_publish
              ltac:(intros f i [=]) ltac:(intros f i [=])
              ltac:(intros e; rewrite mem_last; discriminate)
              (mem_at (sms "A" "1")) one_run one_run_reachable) as (_ & _ & Hl).
  apply (Hl one_run); [apply rtc_refl | by repeat split | by vm_compute | done | done].
Defined.

Lemma ds_send_envelope_witness :
  m_writes (env (exec (ds_send "+15550001111" "hi")
                      (mkDsWorld (mem_at (sms "A" "1")) DsSmsTransport_init))) =
  [[("sms.send.to", "+15550001111"); ("sms.send.text", "hi")];
   [("sms.send.request", "1700000000250")]].
Proof.
  apply (ds_send_envelope (DC := mem_client) (TS := mem_traced) m_writes "+15550001111" "hi"
           (mkDsWorld (mem_at (sms "A" "1")) DsSmsTransport_init)).
Defined.

(** The counter tells that something changed, not what: when two messages are
    published before the reactor drains, the first is never delivered. *)
Example ds_coalesces :
  exists s, ds_reachable None mem_publish (mem_at (sms "A" "1")) s /\ quiescent s /\
    delivered s = [sms "C" "3"] /\
    exists s0, ds_reachable None mem_publish (mem_at (sms "A" "1")) s0 /\
      rtc (ds_step None mem_publish) s0 s /\ last_of (env (world s0)) = Some (sms "B" "2").
Proof.
  set (s0 := mkRun (mkDsWorld (mem_at (sms "B" "2")) (see (sms "A" "1") DsSmsTransport_init))
               1 0 LWait RWait []).
  assert (H0 : ds_reachable None mem_publish (mem_at (sms "A" "1")) s0)
    by (apply rtc_once; apply step_publish; by exists (sms "B" "2")).
  set (s := mkRun (mkDsWorld (mem_at (sms "C" "3")) (see (sms "C" "3") DsSmsTransport_init))
               0 0 LWait RWait [sms "C" "3"]).
  assert (H1 : rtc (ds_step None mem_publish) s0 s).
  { eapply rtc_l; [by apply step_publish; exists (sms "C" "3") |].
    do 2 (eapply rtc_l; [by apply step_flag | eapply rtc_l; [by apply step_notify |]]).
    eapply rtc_l; [by apply step_take |]. eapply rtc_l; [by apply step_drain |].
    eapply rtc_l; [by apply step_take |]. apply rtc_refl. }
  exists s; split_and!; [exact (transitivity (R := rtc _) H0 H1) | done | done | by exists s0].
Qed.
