(* ===== verification/AtModem.v ===== *)
(** * AtModem: the AT engine on a serial port (src/at_modem.cpp, modem_factory.cpp).

    The port, the clock and the terminal calls belong to the operating system
    and the PDU codec, the vendor classifier and the reassembler to the iot
    submodule: both are parameters.  A loop that waits for the outside world
    takes fuel and answers [None] when it runs out, so an operation is a
    computation with an optional result; that enough fuel always gives one is
    [AtProofs.modem_operations_terminate].  The theorems say which bytes go out and what an answer
    is a function of, and how a listing of stored messages is drained. *)

From S2P Require Import Prelude CString Seams Config.

(** ** Parameters *)

Inductive WriteResult := Wrote (n : nat) | WriteAgain | WriteError.

(** The calls [AtModem] makes on the port and the system. *)
Class SerialPort (E : Type) := {
  port_open : string -> ST E Z;          (** [::open(dev, ...)]: the descriptor *)
  port_tcgetattr : ST E bool;            (** [== 0] *)
  port_tcsetattr : Z -> ST E bool;       (** raw mode at a speed; [== 0] *)
  port_write : string -> ST E WriteResult;
  port_select : ST E bool;               (** a 100 ms slice; [rc > 0] *)
  port_read : nat -> ST E (option string);  (** [None] is a negative return *)
  port_now_ms : ST E Z;                  (** the steady clock *)
  schedule_timer : Z -> ST E unit
}.

(** [cellular::Vendor]: the enumerators the source names. *)
Inductive Vendor := VSierra | VQuectel | VUBlox | VGeneric.

(** [cellular::SmsMessage]: the fields the source uses. *)
Record SmsMessage := mkSms {
  msg_sender : string; msg_text : string; scts : string; total : Z; index : Z }.

Class Cellular := {
  encode_sms_submit : string -> string -> option (string * Z);
  decode_sms_deliver : string -> option SmsMessage;
  parse_vendor : string -> Vendor;
  SmsReassembler : Type;
  reasm_empty : SmsReassembler;
  reasm_add : SmsMessage -> SmsReassembler -> SmsReassembler * option SmsMessage
}.

(** ** The code: pure parts *)

(** A [speed_t] constant is named by its rate. *)
Definition baud_const (baud : Z) : Z :=
  if existsb (Z.eqb baud) [9600; 19200; 38400; 57600; 115200; 230400; 460800; 921600]%Z
  then baud else 115200.

Definition is_error (l : string) : bool :=
  String.eqb l "ERROR" || starts_with "+CME ERROR" l || starts_with "+CMS ERROR" l.

Definition forced_vendor (t : ModemType) : Vendor :=
  match t with
  | Sierra => VSierra
  | Quectel => VQuectel
  | UBlox => VUBlox
  | Generic => VGeneric
  | Auto => VGeneric
  end.

Definition vendor_name (v : Vendor) : string :=
  match v with
  | VSierra => "Sierra"
  | VQuectel => "Quectel"
  | VUBlox => "u-blox"
  | VGeneric => "Generic"
  end.

(** [if (!line.empty() && line.back() == '\r') line.pop_back();] *)
Definition strip_cr (line : string) : string :=
  match back line with
  | Some c => if Ascii.eqb c cr then pop_back line else line
  | None => line
  end.

(** The loop over the complete lines of [m_rx]: the terminal result if one was
    met, the lines so far and what is left of [m_rx]. Each round erases at
    least one character, so the length of [m_rx] is enough fuel. *)
Fixpoint take_lines_from (fuel : nat) (cmd rx : string) (lines : list string)
  : option bool * list string * string :=
  match fuel with
  | O => (None, lines, rx)
  | S f =>
      match find_char nl rx with
      | None => (None, lines, rx)
      | Some n =>
          let line := strip_cr (substr 0 n rx) in
          let rx' := str_drop (S n) rx in
          if String.eqb line "" || String.eqb line cmd then take_lines_from f cmd rx' lines
          else if String.eqb line "OK" then (Some true, lines, rx')
          else if is_error line then (Some false, lines ++ [line], rx')
          else take_lines_from f cmd rx' (lines ++ [line])
      end
  end.
Definition take_lines (cmd rx : string) (lines : list string) :=
  take_lines_from (String.length rx) cmd rx lines.

(** The number of a header line of a listing. *)
Definition header_index (line : string) : option Z :=
  if negb (starts_with "+CMGL:" line) then None
  else match find_char ":" line with
       | Some n => stoi (str_drop (S n) line)
       | None => stoi line
       end.

(** ** The code: effects *)

(** [AtModem::Config] and the members. *)
Record AtConfig := mkAtConfig { dev : string; baud : Z; poll_sec : Z; type : ModemType }.
Definition AtConfig_default : AtConfig := mkAtConfig "/dev/ttyUSB2" 115200 5 Auto.

Definition make_modem (cfg : AppConfig) : AtConfig :=
  mkAtConfig (modem_dev cfg) (modem_baud cfg) (poll_sec AtConfig_default) (modem_type cfg).

Section Modem.
Context {E : Type} `{SP : SerialPort E} `{CE : Cellular}.

Record AtModem := mkAtModem {
  m_cfg : AtConfig; m_fd : Z; m_vendor : Vendor; m_reasm : SmsReassembler; m_rx : string }.
Definition AtModem_init (c : AtConfig) : AtModem := mkAtModem c (-1) VGeneric reasm_empty "".

Record ModemWorld := mkModemWorld { port : E; modem : AtModem }.

(** Computations that may run out of fuel. *)
Definition Op (A : Type) : Type := ST ModemWorld (option A).
Definition op_bind {A B} (m : Op A) (k : A -> Op B) : Op B :=
  let* o := m in match o with Some a => k a | None => st_ret None end.
Definition op_ret {A} (a : A) : Op A := st_ret (Some a).

Definition on_port {A} (m : ST E A) : Op A :=
  fun w => let '(a, e) := m (port w) in (Some a, mkModemWorld e (modem w)).
Definition get_modem : Op AtModem := fun w => (Some (modem w), w).
Definition put_modem (m : AtModem) : Op unit := fun w => (Some tt, mkModemWorld (port w) m).
Definition set_rx (rx : string) : Op unit := fun w =>
  let m := modem w in
  (Some tt, mkModemWorld (port w) (mkAtModem (m_cfg m) (m_fd m) (m_vendor m) (m_reasm m) rx)).
Definition set_fd (fd : Z) : Op unit := fun w =>
  let m := modem w in
  (Some tt, mkModemWorld (port w) (mkAtModem (m_cfg m) fd (m_vendor m) (m_reasm m) (m_rx m))).
Definition set_vendor (v : Vendor) : Op unit := fun w =>
  let m := modem w in
  (Some tt, mkModemWorld (port w) (mkAtModem (m_cfg m) (m_fd m) v (m_reasm m) (m_rx m))).
Definition set_reasm (r : SmsReassembler) : Op unit := fun w =>
  let m := modem w in
  (Some tt, mkModemWorld (port w) (mkAtModem (m_cfg m) (m_fd m) (m_vendor m) r (m_rx m))).
End Modem.
Arguments AtModem {CE}.
Arguments ModemWorld E {CE}.
Arguments Op E {CE} A.

Notation "'let+' x ':=' m 'in' k" := (op_bind m (fun x => k))
  (at level 10, x binder, m at level 100, k at level 200,
   format "'[v' 'let+'  x  ':='  m  'in' '/' k ']'") : zt_scope.
Notation "m1 '>>+' m2" := (op_bind m1 (fun _ => m2))
  (at level 60, right associativity) : zt_scope.

Section Engine.
Context {E : Type} `{SP : SerialPort E} `{CE : Cellular}.
Context (fuel : nat).

Definition open_port : Op E bool :=
  let+ m := get_modem in
  let+ fd := on_port (port_open (dev (m_cfg m))) in
  set_fd fd >>+
  if (fd <? 0)%Z then op_ret false
  else
    let+ got := on_port port_tcgetattr in
    if negb got then op_ret false
    else on_port (port_tcsetattr (baud_const (baud (m_cfg m)))).

(** The write loop from offset [off]: [s] is what is left. *)
Fixpoint write_loop (f : nat) (s : string) : Op E bool :=
  match f with
  | O => st_ret None
  | S f =>
      if String.eqb s "" then op_ret true
      else
        let+ r := on_port (port_write s) in
        match r with
        | Wrote n => write_loop f (str_drop n s)
        | WriteAgain => write_loop f s
        | WriteError => op_ret false
        end
  end.
Definition write_all (s : string) : Op E bool := write_loop fuel s.

(** One round of the read loop; [next] is the loop with the lines so far. *)
Definition at_round (cmd : string) (want_prompt : bool) (deadline : Z) (lines : list string)
    (next : list string -> Op E AtResult) : Op E AtResult :=
  let+ now := on_port port_now_ms in
  if negb (now <? deadline)%Z then op_ret (mkAtResult false lines)
  else
    let+ rc := on_port port_select in
    if negb rc then next lines
    else
      let+ got := on_port (port_read 512) in
      match got with
      | None | Some "" => next lines
      | Some bytes =>
          let+ m := get_modem in
          let rx := m_rx m +:+ bytes in
          if want_prompt && negb (no_char ">" rx) then
            set_rx "" >>+ op_ret (mkAtResult true lines)
          else
            let '(fin, lines', rx') := take_lines cmd rx lines in
            set_rx rx' >>+
            match fin with
            | Some b => op_ret (mkAtResult b lines')
            | None => next lines'
            end
      end.
Fixpoint at_loop (f : nat) (cmd : string) (want_prompt : bool) (deadline : Z)
    (lines : list string) : Op E AtResult :=
  match f with
  | O => st_ret None
  | S f => at_round cmd want_prompt deadline lines (at_loop f cmd want_prompt deadline)
  end.

Definition run_at (cmd : string) (timeout_ms : Z) (want_prompt : bool) : Op E AtResult :=
  let+ m := get_modem in
  if (m_fd m <? 0)%Z then op_ret AtResult_default
  else
    let+ sent := (if String.eqb cmd "" then op_ret true else write_all (cmd +:+ chr cr)) in
    if negb sent then op_ret AtResult_default
    else
      let+ now := on_port port_now_ms in
      at_loop fuel cmd want_prompt (u64 (now + u64 timeout_ms)) [].

Definition at_cmd (cmd : string) : Op E AtResult := run_at cmd 3000 false.

Definition send_sms (to txt : string) : Op E bool :=
  match encode_sms_submit to txt with
  | None => op_ret false
  | Some (pdu, tpdu_len) =>
      write_all (chr esc) >>+
      run_at "AT+CMGF=0" 1000 false >>+
      let+ prompt := run_at ("AT+CMGS=" +:+ to_string tpdu_len) 5000 true in
      if negb (at_ok prompt) then op_ret false
      else
        let payload := pdu +:+ chr ctrl_z in
        let+ sent := write_all payload in
        if negb sent then op_ret false
        else let+ r := run_at "" 60000 false in op_ret (at_ok r)
  end.

Definition spaced (ls : list string) : string := foldr (fun l acc => l +:+ " " +:+ acc) "" ls.

Definition resolve_vendor : Op E unit :=
  let+ m := get_modem in
  if negb (bool_decide (type (m_cfg m) = Auto)) then set_vendor (forced_vendor (type (m_cfg m)))
  else
    let+ gmi := at_cmd "AT+GMI" in
    let+ cgmm := at_cmd "AT+CGMM" in
    set_vendor (parse_vendor (spaced (Seams.lines gmi) +:+ spaced (Seams.lines cgmm))).

Definition configure : Op E unit :=
  write_all (chr esc) >>+
  run_at "ATE0" 1000 false >>+
  run_at "AT+CMEE=1" 1000 false >>+
  run_at "AT+CMGF=0" 1000 false >>+
  run_at "AT+CNMI=2,1,0,0,0" 1000 false >>+
  op_ret tt.

Context (m_on_sms : option (InboundSms -> Op E unit)).

(** The body of the loop for one decodable entry: reassemble, deliver. *)
Definition deliver (msg : SmsMessage) : Op E unit :=
  let+ full :=
    (if (total msg =? 0)%Z then op_ret (Some msg)
     else
       let+ m := get_modem in
       let '(r', full) := reasm_add msg (m_reasm m) in
       set_reasm r' >>+ op_ret full) in
  match full, m_on_sms with
  | Some f, Some cb => cb (mkInboundSms (msg_sender f) (msg_text f) (scts f))
  | _, _ => op_ret tt
  end.

(** The loop of [drain_sms] over the lines, with [to_delete]. *)
Fixpoint drain_lines (lines : list string) (to_delete : list Z) : Op E (list Z) :=
  match lines with
  | l :: (p :: r) as t =>
      match header_index l with
      | None => drain_lines t to_delete
      | Some idx =>
          match decode_sms_deliver p with
          | None => drain_lines r to_delete
          | Some msg =>
              deliver (mkSms (msg_sender msg) (msg_text msg) (scts msg) (total msg) idx) >>+
              drain_lines r (to_delete ++ [idx])
          end
      end
  | _ => op_ret to_delete
  end.

Fixpoint op_for {A B} (f : A -> Op E B) (l : list A) : Op E unit :=
  match l with
  | [] => op_ret tt
  | x :: r => f x >>+ op_for f r
  end.

Definition delete_sms (idx : Z) : Op E AtResult := at_cmd ("AT+CMGD=" +:+ to_string idx).

Definition drain_sms : Op E unit :=
  let+ r := at_cmd "AT+CMGL=4" in
  if negb (at_ok r) then op_ret tt
  else
    let+ to_delete := drain_lines (Seams.lines r) [] in
    op_for delete_sms to_delete.

Definition handle_timeout : Op E Z := drain_sms >>+ op_ret 0%Z.

Definition at_start : Op E unit :=
  let+ up := open_port in
  if negb up then op_ret tt
  else
    resolve_vendor >>+ configure >>+ drain_sms >>+
    let+ m := get_modem in
    on_port (schedule_timer (poll_sec (m_cfg m))).
End Engine.
