(* ===== verification/AtProofs.v ===== *)
(** * AtProofs: what the AT engine of AtModem guarantees.

    The answer of a command as a function of the bytes the port delivers
    ([answer_depends_on_bytes]), termination under a live clock
    and port ([modem_operations_terminate]), the bytes of an outbound SMS
    ([send_sms_bytes]) and the plan of a drain ([drain_sms_plan],
    [listing_reads_back]). *)

From S2P Require Import Prelude CString Seams Config AtModem.

(** ** Lines out of the byte stream *)

(** What one complete line is to a command. *)
Inductive LineKind := Noise | Final (ok : bool) | Info.
#[export] Instance LineKind_eq_dec : EqDecision LineKind.
Proof. solve_decision. Defined.

Definition line_kind (cmd line : string) : LineKind :=
  if String.eqb line "" || String.eqb line cmd then Noise
  else if String.eqb line "OK" then Final true
  else if is_error line then Final false
  else Info.

Lemma take_lines_from_none f cmd rx ls :
  no_char nl rx = true -> take_lines_from f cmd rx ls = (None, ls, rx).
Proof. intros H; destruct f; [done |]; cbn. by rewrite (proj2 (find_char_none _ _) H). Qed.

Lemma take_lines_from_line f cmd l t ls :
  no_char nl l = true ->
  take_lines_from (S f) cmd (l +:+ String nl t) ls =
  match line_kind cmd (strip_cr l) with
  | Noise => take_lines_from f cmd t ls
  | Final b => (Some b, if b then ls else ls ++ [strip_cr l], t)
  | Info => take_lines_from f cmd t (ls ++ [strip_cr l])
  end.
Proof.
  intros H; cbn [take_lines_from]. rewrite find_char_app by done.
  destruct (substr_cut nl l t) as [-> ->]. unfold line_kind.
  by repeat case_match.
Qed.

(** Fuel beyond the length of the text changes nothing. *)
Lemma take_lines_fuel f cmd rx ls :
  (String.length rx <= f)%nat -> take_lines_from f cmd rx ls = take_lines cmd rx ls.
Proof.
  unfold take_lines. remember (String.length rx) as n eqn:Hn. revert f rx ls Hn.
  induction (lt_wf n) as [n _ IH]; intros f rx ls -> Hf.
  destruct (find_char_cases nl rx) as [[_ H] | (l & t & -> & Hl & _)].
  - by rewrite !take_lines_from_none.
  - rewrite length_app in *; cbn [String.length] in *.
    destruct f as [|f]; [lia |]. rewrite Nat.add_succ_r. rewrite !take_lines_from_line by done.
    assert (Hlt : (String.length t < String.length l + S (String.length t))%nat) by lia.
    destruct (line_kind cmd (strip_cr l)); [| done |];
      by rewrite (IH _ Hlt f), (IH _ Hlt (String.length l + String.length t)%nat) by lia.
Qed.

Lemma take_lines_none cmd rx ls : no_char nl rx = true -> take_lines cmd rx ls = (None, ls, rx).
Proof. apply take_lines_from_none. Qed.
Lemma take_lines_line cmd l t ls :
  no_char nl l = true ->
  take_lines cmd (l +:+ String nl t) ls =
  match line_kind cmd (strip_cr l) with
  | Noise => take_lines cmd t ls
  | Final b => (Some b, if b then ls else ls ++ [strip_cr l], t)
  | Info => take_lines cmd t (ls ++ [strip_cr l])
  end.
Proof.
  intros H. rewrite <- (take_lines_fuel (S (String.length l + String.length t)))
    by (rewrite length_app; simpl; lia).
  rewrite take_lines_from_line by done.
  destruct (line_kind cmd (strip_cr l)); rewrite ?take_lines_fuel by lia; done.
Qed.

(** Induction on a text line by line. *)
Lemma lines_ind (P : string -> Prop) :
  (forall s, no_char nl s = true -> P s) ->
  (forall l t, no_char nl l = true -> P t -> P (l +:+ String nl t)) ->
  forall s, P s.
Proof.
  intros H1 H2 s. remember (String.length s) as n eqn:Hn. revert s Hn.
  induction (lt_wf n) as [n _ IH]; intros s ->.
  destruct (find_char_cases nl s) as [[_ H] | (l & t & -> & Hl & _)]; [by apply H1 |].
  apply H2; [done |]. apply (IH (String.length t)); [| done].
  rewrite length_app; simpl; lia.
Qed.

(** Feeding the stream in two parts is feeding it at once. *)
Lemma take_lines_app cmd a b ls :
  take_lines cmd (a +:+ b) ls =
  let '(fin, ls', rx) := take_lines cmd a ls in
  match fin with
  | Some _ => (fin, ls', rx +:+ b)
  | None => take_lines cmd (rx +:+ b) ls'
  end.
Proof.
  revert ls; induction a as [s H | l t Hl IH] using lines_ind; intros ls.
  - by rewrite (take_lines_none cmd s).
  - rewrite str_app_assoc, app_cons, !take_lines_line by done.
    destruct (line_kind cmd (strip_cr l)); [apply IH | done | apply IH].
Qed.
Lemma str_app_inj_l a b c : a +:+ b = a +:+ c -> b = c.
Proof. induction a as [| x a IH]; [done |]. rewrite !app_cons. intros [= E]. auto. Qed.
(** A text cut in two around the first [x]. *)
Lemma cut_around x q : forall a b p, a +:+ b = q +:+ String x p -> no_char x q = true ->
  (no_char x a = true /\ exists q', q = a +:+ q' /\ b = q' +:+ String x p) \/
  (no_char x a = false /\ exists p1, a = q +:+ String x p1 /\ p = p1 +:+ b).
Proof.
  induction q as [| y q IH]; intros [| z a] b p E Hq.
  - left. split; [done |]. by exists "".
  - rewrite app_cons, app_nil_l' in E. injection E as <- <-. right. rewrite no_char_cons, Ascii.eqb_refl.
    split; [done |]. by exists a.
  - left. split; [done |]. exists (String y q). by rewrite !app_nil_l' in *.
  - rewrite !app_cons in E. injection E as <- E. rewrite no_char_cons in Hq.
    apply andb_true_iff in Hq as [Hz Hq]. rewrite no_char_cons, Hz. cbn [andb].
    destruct (IH a b p E Hq) as [(Ha & q' & -> & ->) | (Ha & p1 & -> & ->)]; [left | right];
      (split; [done |]); eexists; by rewrite app_cons.
Qed.

(** What is left after an unfinished answer holds no line. *)
Lemma take_lines_rest cmd rx ls ls' rx' :
  take_lines cmd rx ls = (None, ls', rx') -> no_char nl rx' = true.
Proof.
  revert ls; induction rx as [s H | l t Hl IH] using lines_ind; intros ls.
  - rewrite take_lines_none by done. by intros [= _ <-].
  - rewrite take_lines_line by done. destruct (line_kind cmd (strip_cr l)); [apply IH | done | apply IH].
Qed.

(** What is left of the receive buffer was in it. *)
Lemma take_lines_rest_char x cmd rx ls ls' rx' :
  take_lines cmd rx ls = (None, ls', rx') -> no_char x rx = true -> no_char x rx' = true.
Proof.
  revert ls. induction rx as [s H | l t Hl IH] using lines_ind; intros ls.
  - rewrite take_lines_none by done. by intros [= _ <-].
  - rewrite take_lines_line by done. rewrite no_char_app, no_char_cons.
    intros Ht (_ & (_ & Hx)%andb_true_iff)%andb_true_iff.
    destruct (line_kind cmd (strip_cr l)); [eauto | done | eauto].
Qed.

(** The informational lines of an answer. *)
Definition informational (cmd : string) (ls : list string) : list string :=
  filter (fun l => line_kind cmd l = Info) (strip_cr <$> ls).

Lemma take_lines_prefix cmd ls pre t :
  Forall (fun l => no_char nl l = true) pre ->
  Forall (fun l => forall b, line_kind cmd (strip_cr l) <> Final b) pre ->
  take_lines cmd (unlines pre +:+ t) ls = take_lines cmd t (ls ++ informational cmd pre).
Proof.
  intros H1; revert ls; induction H1 as [|l pre Hl _ IH]; intros ls H2.
  - unfold informational; cbn; by rewrite app_nil_r.
  - apply Forall_cons in H2 as [Hk H2]. cbn [unlines].
    rewrite str_app_assoc, app_cons, take_lines_line by done.
    unfold informational; cbn [fmap list_fmap]; rewrite filter_cons.
    destruct (line_kind cmd (strip_cr l)) as [| b |]; [| by destruct (Hk b) |].
    + rewrite decide_False by done. by apply IH.
    + rewrite decide_True by done. rewrite IH by done. by rewrite <- app_assoc.
Qed.

(** *** Lines with carriage returns *)

Lemma strip_cr_snoc l : strip_cr (l +:+ chr cr) = l.
Proof.
  assert (back (l +:+ chr cr) = Some cr /\ pop_back (l +:+ chr cr) = l) as [Eb Ep].
  { induction l as [| x l [IH1 IH2]]; [done |]. rewrite app_cons.
    destruct l as [| y l]; [done |]. rewrite app_cons in *. cbn [back pop_back] in *. by rewrite IH1, IH2. }
  unfold strip_cr. by rewrite Eb, Ep.
Qed.

Lemma unlines_app a b : unlines (a ++ b) = unlines a +:+ unlines b.
Proof. induction a as [| l a IH]; [done |]. cbn [app unlines]. by rewrite IH, str_app_assoc, app_cons. Qed.

Lemma app_cr l t : (l +:+ chr cr) +:+ String nl t = l +:+ String cr (String nl t).
Proof. by rewrite str_app_assoc. Qed.
Lemma no_nl_cr l : no_char nl l = true -> no_char nl (l +:+ chr cr) = true.
Proof. intros H. by rewrite no_char_app, H. Qed.

Lemma informational_app cmd a b : informational cmd (a ++ b) = informational cmd a ++ informational cmd b.
Proof. unfold informational. by rewrite fmap_app, filter_app. Qed.
Lemma informational_lines cmd ls info :
  filter (fun l => l <> "") ls = info -> Forall (fun l => line_kind cmd l = Info) info ->
  informational cmd ((fun l => l +:+ chr cr) <$> ls) = info.
Proof.
  unfold informational. intros <-. induction ls as [| l ls IH]; [done |].
  rewrite !fmap_cons, !filter_cons, strip_cr_snoc. destruct (decide (l = "")) as [-> | Hne].
  - rewrite (decide_False (P := "" <> "")) by auto. rewrite decide_False by done. done.
  - rewrite (decide_True (P := l <> "")) by done. intros [Hl Hi]%Forall_cons.
    rewrite decide_True by done. by rewrite IH.
Qed.

(** *** How a text reads *)

(** No line of [pre] is a final one, and [rest] is no line yet. *)
Definition unfinished (cmd : string) (pre : list string) : Prop :=
  Forall (fun l => no_char nl l = true) pre /\
  Forall (fun l => forall b, line_kind cmd (strip_cr l) <> Final b) pre.

(** What [txt] says to a command: the lines before the first OK or error line are
    collected without blanks, echo and carriage returns; the first OK succeeds, the
    first error line fails and is itself reported, and [rest] is what follows it; a
    text without either is a failure, and what is left of it is its last, incomplete
    line. *)
Definition reads_as (cmd txt : string) (r : AtResult) (rest : string) : Prop :=
  exists pre, unfinished cmd pre /\
    ((no_char nl rest = true /\ txt = unlines pre +:+ rest /\ r = mkAtResult false (informational cmd pre)) \/
     exists final b, no_char nl final = true /\ line_kind cmd (strip_cr final) = Final b /\
       txt = unlines pre +:+ final +:+ String nl rest /\
       r = mkAtResult b (informational cmd pre ++ (if b then [] else [strip_cr final]))).

(** The outcome of the line loop as an answer. *)
Definition outcome (fin : option bool) (ls : list string) : AtResult :=
  mkAtResult (bool_decide (fin = Some true)) ls.

Lemma reads_as_take cmd txt r rest :
  reads_as cmd txt r rest -> exists fin ls, take_lines cmd txt [] = (fin, ls, rest) /\ r = outcome fin ls.
Proof.
  intros (pre & [H1 H2] & [(Hr & -> & ->) | (final & b & Hf & Hk & -> & ->)]);
    rewrite take_lines_prefix by done; cbn [app].
  - rewrite take_lines_none by done. by eexists _, _.
  - rewrite take_lines_line, Hk by done. eexists _, _. split; [done |]. unfold outcome.
    destruct b; [by rewrite app_nil_r | done].
Qed.

Lemma take_reads_as cmd txt fin ls rest :
  take_lines cmd txt [] = (fin, ls, rest) -> reads_as cmd txt (outcome fin ls) rest.
Proof.
  enough (forall pre, unfinished cmd pre ->
    take_lines cmd txt (informational cmd pre) = (fin, ls, rest) ->
    reads_as cmd (unlines pre +:+ txt) (outcome fin ls) rest) as H.
  { apply (H []). by repeat constructor. }
  induction txt as [s Hs | l t Hl IH] using lines_ind; intros pre Hp.
  - rewrite take_lines_none by done. intros [= <- <- <-]. exists pre. split; [done |]. by left.
  - rewrite take_lines_line by done. destruct (line_kind cmd (strip_cr l)) as [| b |] eqn:Ek.
    2: { intros [= <- <- <-]. exists pre. split; [done |]. right. exists l, b. split_and!; [done | done | done |].
         unfold outcome. destruct b; cbn; [by rewrite app_nil_r | done]. }
    all: intros H; specialize (IH (pre ++ [l])).
    all: rewrite unlines_app, informational_app in IH; cbn [unlines] in IH.
    all: rewrite !str_app_assoc, app_cons, app_nil_l' in IH; apply IH.
    1,3: destruct Hp as [H1 H2]; split; apply Forall_app; (split; [done |]); apply Forall_singleton;
      [done | intros b; by rewrite Ek].
    all: unfold informational at 2; cbn [fmap list_fmap]; rewrite filter_cons, Ek, filter_nil.
    + by rewrite decide_False, app_nil_r.
    + by rewrite decide_True.
Qed.

Lemma reads_as_unique cmd txt r1 rest1 r2 rest2 :
  reads_as cmd txt r1 rest1 -> reads_as cmd txt r2 rest2 -> r2 = r1 /\ rest2 = rest1.
Proof.
  intros (f1 & l1 & E1 & ->)%reads_as_take (f2 & l2 & E2 & ->)%reads_as_take.
  rewrite E1 in E2. by injection E2 as -> -> ->.
Qed.

(** ** Draining: deliveries, then deletions *)

Lemma op_bind_run `{Cellular} {E A B : Type} (m : Op E A) (k : A -> Op E B) w :
  op_bind m k w = match m w with
                  | (Some a, w1) => k a w1
                  | (None, w1) => (None, w1)
                  end.
Proof. unfold op_bind, st_bind; by destruct (m w) as [[]]. Qed.

Lemma op_bind_assoc `{Cellular} {E A B C : Type} (m : Op E A) (k : A -> Op E B) (h : B -> Op E C) :
  op_bind (op_bind m k) h ≋ op_bind m (fun a => op_bind (k a) h).
Proof.
  intros w; rewrite !op_bind_run. destruct (m w) as [[a|] w1]; [by rewrite op_bind_run | done].
Qed.

#[export] Instance op_bind_proper `{Cellular} E A B :
  Proper (st_equiv ==> pointwise_relation A st_equiv ==> st_equiv) (@op_bind E _ A B).
Proof.
  intros m1 m2 Hm k1 k2 Hk w; rewrite !op_bind_run, (Hm w).
  destruct (m2 w) as [[a|] w1]; [apply Hk | done].
Qed.

(** Induction that looks at two lines at a time. *)
Lemma pairs_ind (P : list string -> Prop) :
  P [] -> (forall x, P [x]) -> (forall l p r, P (p :: r) -> P r -> P (l :: p :: r)) ->
  forall ls, P ls.
Proof.
  intros H0 H1 H2 ls.
  cut (P ls /\ forall x, P (x :: ls)); [by intros [] |].
  induction ls as [|y ls [IH1 IH2]]; [auto |]. split; [auto | intros x; auto].
Qed.

(** The decodable entries of a listing: a header with a number goes with the next
    line, its PDU. *)
Fixpoint listing `{CE : Cellular} (lines : list string) : list (Z * SmsMessage) :=
  match lines with
  | l :: (p :: r) as t =>
      match header_index l with
      | None => listing t
      | Some idx =>
          match decode_sms_deliver p with
          | None => listing r
          | Some msg =>
              (idx, mkSms (msg_sender msg) (msg_text msg) (scts msg) (total msg) idx)
              :: listing r
          end
      end
  | _ => []
  end.
Section Plan.
Context {E : Type} `{CE : Cellular} (cb : option (InboundSms -> Op E unit)).

(** The interleaved loop is two loops: first all deliveries, in listing order,
    while the indices are collected. *)
Lemma drain_lines_plan ls del :
  drain_lines cb ls del ≋
  (op_for (deliver cb) (listing ls).*2 >>+ op_ret (del ++ (listing ls).*1)).
Proof.
  revert del; induction ls as [| x | l p r IH1 IH2] using pairs_ind; intros del;
    [intros w; cbn; by rewrite app_nil_r | intros w; cbn; by rewrite app_nil_r |].
  change (drain_lines cb (l :: p :: r) del) with
    (match header_index l with
     | None => drain_lines cb (p :: r) del
     | Some idx => match decode_sms_deliver p with
       | None => drain_lines cb r del
       | Some msg =>
           deliver cb (mkSms (msg_sender msg) (msg_text msg) (scts msg) (total msg) idx) >>+
           drain_lines cb r (del ++ [idx])
       end
     end).
  change (listing (l :: p :: r)) with
    (match header_index l with
     | None => listing (p :: r)
     | Some idx => match decode_sms_deliver p with
       | None => listing r
       | Some msg =>
           (idx, mkSms (msg_sender msg) (msg_text msg) (scts msg) (total msg) idx) :: listing r
       end
     end).
  destruct (header_index l) as [idx|]; [| apply IH1].
  destruct (decode_sms_deliver p) as [msg|]; [| apply IH2].
  cbn [fmap list_fmap fst snd op_for]. rewrite op_bind_assoc.
  apply op_bind_proper; [done |]. intros _. rewrite IH2.
  by rewrite <- app_assoc.
Qed.
End Plan.

(** What a poll is: list, deliver, then delete. *)
Definition poll_plan {E : Type} {SP : SerialPort E} {CE : Cellular} (fuel : nat)
    (cb : option (InboundSms -> Op E unit)) : Op E unit :=
  let+ r := at_cmd fuel "AT+CMGL=4" in
  if at_ok r then
    op_for (deliver cb) (listing (Seams.lines r)).*2 >>+
    op_for (fun i => at_cmd fuel ("AT+CMGD=" +:+ to_string i)) (listing (Seams.lines r)).*1
  else op_ret tt.

(** C28: the plan of a poll. It lists the stored messages once; unless the modem
    acknowledges the listing nothing else happens. Otherwise every decodable
    entry is handed to the reassembler and, when complete, delivered, in the
    order listed, and only after the last delivery exactly the entries that
    decoded are deleted, by their own index, in the same order: an entry that
    does not decode is neither delivered nor deleted. *)
Theorem drain_sms_plan {E : Type} {SP : SerialPort E} {CE : Cellular} (fuel : nat)
    (cb : option (InboundSms -> Op E unit)) :
  drain_sms fuel cb ≋ poll_plan fuel cb.
Proof.
  unfold drain_sms, poll_plan. apply op_bind_proper; [done |]. intros r.
  destruct (at_ok r); cbn [negb]; [| done].
  rewrite drain_lines_plan, op_bind_assoc. apply op_bind_proper; [done |].
  intros _ w; by rewrite op_bind_run.
Qed.

(** ** One round of the read loop *)

(** [AtModem] with another receive buffer. *)
Definition with_rx `{Cellular} (m : AtModem) (rx : string) : AtModem :=
  mkAtModem (m_cfg m) (m_fd m) (m_vendor m) (m_reasm m) rx.

Section Round.
Context {E : Type} `{SP : SerialPort E} `{CE : Cellular}.

Lemma on_port_run {A} (m : ST E A) (w : ModemWorld E) :
  on_port m w = (Some (result m (port w)), mkModemWorld (exec m (port w)) (modem w)).
Proof. unfold on_port; by rewrite (run_split m). Qed.

(** What a round does with the bytes it read. *)
Definition took (cmd : string) (p : bool) (ls : list string) (c : string) (e : E) (m : AtModem)
    (next : list string -> Op E AtResult) : option AtResult * ModemWorld E :=
  let rx := m_rx m +:+ c in
  if p && negb (no_char ">" rx) then (Some (mkAtResult true ls), mkModemWorld e (with_rx m ""))
  else
    let '(fin, ls', rx') := take_lines cmd rx ls in
    match fin with
    | Some b => (Some (mkAtResult b ls'), mkModemWorld e (with_rx m rx'))
    | None => next ls' (mkModemWorld e (with_rx m rx'))
    end.

(** A round, by the answers of the port. *)
Lemma at_round_run cmd p d ls next (w : ModemWorld E) :
  at_round cmd p d ls next w =
  (let e1 := exec port_now_ms (port w) in
   let e2 := exec port_select e1 in
   let e3 := exec (port_read 512) e2 in
   if negb (result port_now_ms (port w) <? d)%Z then (Some (mkAtResult false ls), mkModemWorld e1 (modem w))
   else if negb (result port_select e1) then next ls (mkModemWorld e2 (modem w))
   else match result (port_read 512) e2 with
        | None | Some "" => next ls (mkModemWorld e3 (modem w))
        | Some c => took cmd p ls c e3 (modem w) next
        end).
Proof.
  unfold at_round. rewrite op_bind_run, on_port_run. cbn [port modem]. destruct (negb _); [done |].
  rewrite op_bind_run, on_port_run. cbn [port modem]. destruct (negb _); [done |].
  rewrite op_bind_run, on_port_run. cbn [port modem]. destruct (result (port_read 512) _) as [[| a c] |]; [done | | done].
  rewrite op_bind_run. cbn [get_modem modem]. unfold took. cbn [modem port].
  destruct (p && _); [done |]. by destruct (take_lines _ _ _) as [[[b |] ls'] rx'].
Qed.
End Round.

(** ** Termination *)

(** A write that makes no progress cannot be answered for ever. *)
Class PatientPort (E : Type) `{SerialPort E} := {
  patience : E -> nat;
  write_patience : forall s e, s <> "" ->
    match result (port_write s) e with
    | Wrote 0 | WriteAgain => (patience (exec (port_write s) e) < patience e)%nat
    | _ => True
    end
}.

(** And after finitely many looks at the clock a deadline has passed. *)
Class LivePort (E : Type) `{SerialPort E} := {
  #[global] live_patient :: PatientPort E;
  until : Z -> E -> nat;
  now_until : forall d e, (result port_now_ms e < d)%Z ->
    (until d (exec port_now_ms e) < until d e)%nat;
  select_until : forall d e, (until d (exec port_select e) <= until d e)%nat;
  read_until : forall d n e, (until d (exec (port_read n) e) <= until d e)%nat
}.

Section Returns.
Context {E : Type} `{CE : Cellular}.

(** The operation gives this result for every fuel from some point on. *)
Definition converges {A} (m : nat -> Op E A) (w : ModemWorld E) (a : A) (w' : ModemWorld E) :=
  exists N, forall f, (N <= f)%nat -> m f w = (Some a, w').
Definition returns {A} (m : nat -> Op E A) (w : ModemWorld E) : Prop :=
  exists a w', converges m w a w'.

Lemma returns_const {A} (m : Op E A) w a w' : m w = (Some a, w') -> returns (fun _ => m) w.
Proof. intros H; exists a, w', 0%nat; auto. Qed.
Lemma returns_ret {A} (a : A) w : returns (fun _ => op_ret (E := E) a) w.
Proof. by eapply returns_const. Qed.

Lemma returns_bind {A B} (m : nat -> Op E A) (k : nat -> A -> Op E B) w :
  returns m w -> (forall a w', converges m w a w' -> returns (fun f => k f a) w') ->
  returns (fun f => op_bind (m f) (k f)) w.
Proof.
  intros (a & w1 & Hm) Hk. destruct (Hk a w1 Hm) as (b & w2 & N2 & H2).
  destruct Hm as [N1 H1]. exists b, w2, (N1 `max` N2)%nat; intros f Hf.
  rewrite op_bind_run, H1 by lia. by apply H2; lia.
Qed.
(** The same when what follows is known to return anywhere. *)
Lemma returns_seq {A B} (m : nat -> Op E A) (k : nat -> A -> Op E B) w :
  returns m w -> (forall a w', returns (fun f => k f a) w') ->
  returns (fun f => op_bind (m f) (k f)) w.
Proof. intros H1 H2; apply returns_bind; auto. Qed.

Lemma returns_on_port {A} (m : ST E A) w : returns (fun _ => on_port m) w.
Proof.
  eapply (returns_const _ w (result m (port w)) (mkModemWorld (exec m (port w)) (modem w))).
  unfold on_port; by rewrite (run_split m).
Qed.
Lemma returns_get w : returns (fun _ => get_modem (E := E)) w.
Proof. by eapply returns_const. Qed.
Lemma returns_set_rx r w : returns (fun _ => set_rx (E := E) r) w.
Proof. by eapply returns_const. Qed.
Lemma returns_set_fd r w : returns (fun _ => set_fd (E := E) r) w.
Proof. by eapply returns_const. Qed.
Lemma returns_set_vendor r w : returns (fun _ => set_vendor (E := E) r) w.
Proof. by eapply returns_const. Qed.
Lemma returns_set_reasm r w : returns (fun _ => set_reasm (E := E) r) w.
Proof. by eapply returns_const. Qed.

(** A first step that takes no fuel. *)
Lemma returns_step {A B} (m : Op E A) (k : nat -> A -> Op E B) w a w' :
  m w = (Some a, w') -> returns (fun f => k f a) w' ->
  returns (fun f => op_bind m (k f)) w.
Proof.
  intros Hm (b & w2 & N & H). exists b, w2, N; intros f Hf.
  rewrite op_bind_run, Hm; auto.
Qed.
Lemma returns_port {A B} (m : ST E A) (k : nat -> A -> Op E B) w :
  returns (fun f => k f (result m (port w))) (mkModemWorld (exec m (port w)) (modem w)) ->
  returns (fun f => op_bind (on_port m) (k f)) w.
Proof. apply returns_step, on_port_run. Qed.

Lemma returns_ext {A} (m m' : nat -> Op E A) w :
  (forall f, m f w = m' f w) -> returns m' w -> returns m w.
Proof. intros H (a & w' & N & HN). exists a, w', N; intros; rewrite H; auto. Qed.

(** A loop that unfolds on its own fuel. *)
Lemma returns_unfold {A} (m m' : nat -> Op E A) w :
  (forall f, m (S f) w = m' f w) -> returns m' w -> returns m w.
Proof.
  intros H (a & w' & N & HN). exists a, w', (S N); intros [|f] Hf; [lia |].
  rewrite H; apply HN; lia.
Qed.
End Returns.

Create HintDb returns.
#[export] Hint Resolve returns_ret returns_on_port returns_get returns_set_rx returns_set_fd
  returns_set_vendor returns_set_reasm returns_seq : returns.

Ltac returning :=
  repeat first
    [ progress intros
    | assumption
    | solve [auto with returns]
    | apply (returns_seq (A := _) (B := _)); [| intros ? ?]
    | case_goal ].

Section Patient.
Context {E : Type} `{SP : SerialPort E} `{CE : Cellular} `{PP : !PatientPort E}.
Implicit Types w : ModemWorld E.

Lemma write_loop_returns s w : returns (fun f => write_loop f s) w.
Proof.
  remember (String.length s) as n eqn:Hn; revert s Hn w.
  induction (lt_wf n) as [n _ IHn]; intros s -> w.
  remember (patience (port w)) as p eqn:Hp; revert w Hp.
  induction (lt_wf p) as [p _ IHp]; intros w ->.
  destruct (String.eqb_spec s "") as [-> | Hs].
  { eapply returns_unfold; [done | apply returns_ret]. }
  set (w1 := mkModemWorld (exec (port_write s) (port w)) (modem w)).
  assert (Hstep : forall f, write_loop (S f) s w =
    match result (port_write s) (port w) with
    | Wrote n => write_loop f (str_drop n s) w1
    | WriteAgain => write_loop f s w1
    | WriteError => (Some false, w1)
    end).
  { intros f; cbn [write_loop]. rewrite (proj2 (String.eqb_neq _ _) Hs), op_bind_run.
    unfold on_port; rewrite (run_split (port_write s)). by case_match. }
  assert (Hpat := write_patience s (port w) Hs).
  destruct (result (port_write s) (port w)) as [[|n'] | |] eqn:Er.
  - destruct (IHp _ Hpat w1 eq_refl) as (a & w' & N & HN).
    exists a, w', (S N); intros [|f] Hf; [lia |]. rewrite Hstep; apply HN; lia.
  - assert (Hlt : (String.length (str_drop (S n') s) < String.length s)%nat).
    { rewrite length_str_drop. destruct s; [done | simpl; lia]. }
    destruct (IHn _ Hlt (str_drop (S n') s) eq_refl w1) as (a & w' & N & HN).
    exists a, w', (S N); intros [|f] Hf; [lia |]. rewrite Hstep; apply HN; lia.
  - destruct (IHp _ Hpat w1 eq_refl) as (a & w' & N & HN).
    exists a, w', (S N); intros [|f] Hf; [lia |]. rewrite Hstep; apply HN; lia.
  - exists false, w1, 1%nat; intros [|f] Hf; [lia |]. apply Hstep.
Qed.

Lemma write_all_returns s w : returns (fun f => write_all f s) w.
Proof. apply write_loop_returns. Qed.
End Patient.

Section Live.
Context {E : Type} `{SP : SerialPort E} `{CE : Cellular} `{LP : !LivePort E}.
Implicit Types w : ModemWorld E.

(** Every round either ends or takes time off the deadline. *)
Lemma at_loop_returns cmd p d ls w : returns (fun f => at_loop f cmd p d ls) w.
Proof.
  remember (until d (port w)) as n eqn:Hn; revert ls w Hn.
  induction (lt_wf n) as [n _ IH]; intros ls w ->.
  apply (returns_unfold _ (fun f => at_round cmd p d ls (at_loop f cmd p d))); [done |].
  apply returns_port. set (e1 := exec port_now_ms (port w)).
  destruct (Z.ltb_spec (result port_now_ms (port w)) d) as [Hlt | _]; cbn [negb]; [| apply returns_ret].
  assert (H1 := now_until d (port w) Hlt). apply returns_port; cbn [port].
  assert (H2 := select_until d e1). fold e1 in H1 |- *. set (e2 := exec port_select e1) in *.
  destruct (result port_select e1); cbn [negb]; [| apply (IH (until d e2)); [lia | done]].
  apply returns_port; cbn [port].
  assert (H3 := read_until d 512 e2). set (e3 := exec (port_read 512) e2) in *.
  assert (Hgo : forall ls' m, returns (fun f => at_loop f cmd p d ls') (mkModemWorld e3 m))
    by (intros; apply (IH (until d e3)); [lia | done]).
  destruct (result (port_read 512) e2) as [[|c bytes]|]; [apply Hgo | | apply Hgo].
  eapply returns_step; [done |]. destruct (p && _); [returning |].
  destruct (take_lines cmd _ ls) as [[fin ls'] rx'].
  eapply returns_step; [done |]. destruct fin; [apply returns_ret | apply Hgo].
Qed.

Lemma run_at_returns cmd t p w : returns (fun f => run_at f cmd t p) w.
Proof.
  unfold run_at; returning; [apply write_all_returns | apply at_loop_returns].
Qed.
#[local] Hint Resolve run_at_returns : returns.
#[local] Hint Extern 1 (returns (fun f => write_all f _) _) => apply write_all_returns : returns.
Lemma at_cmd_returns cmd w : returns (fun f => at_cmd f cmd) w.
Proof. apply run_at_returns. Qed.

Lemma send_sms_returns to txt w : returns (fun f => send_sms f to txt) w.
Proof.
  unfold send_sms; destruct (encode_sms_submit to txt) as [[pdu len]|]; [| returning].
  returning.
Qed.
Lemma resolve_vendor_returns w : returns (fun f => resolve_vendor (E := E) f) w.
Proof.
  unfold resolve_vendor; apply returns_seq; [apply returns_get | intros m w1].
  destruct (negb _); unfold at_cmd; returning.
Qed.
Lemma configure_returns w : returns (fun f => configure (E := E) f) w.
Proof. unfold configure; returning. Qed.
Lemma open_port_returns w : returns (fun _ => open_port (E := E)) w.
Proof. unfold open_port; returning. Qed.

(** A callback may wait for the port too: it takes the same fuel. *)
Context (cb : option (nat -> InboundSms -> Op E unit)).
Definition cb_at (f : nat) : option (InboundSms -> Op E unit) := (fun g => g f) <$> cb.
Definition cb_returns : Prop :=
  forall g, cb = Some g -> forall i w, returns (fun f => g f i) w.
Context (Hcb : cb_returns).

Lemma deliver_returns msg w : returns (fun f => deliver (cb_at f) msg) w.
Proof.
  unfold deliver; apply returns_seq; [returning | intros full w1].
  unfold cb_at; destruct full, cb as [g|] eqn:Eg; cbn; try apply returns_ret.
  by apply (Hcb g).
Qed.
Lemma op_for_returns {A B} (g : nat -> A -> Op E B) l w :
  (forall a w, returns (fun f => g f a) w) -> returns (fun f => op_for (g f) l) w.
Proof.
  intros H; revert w; induction l as [|a l IH]; intros w; cbn [op_for]; [apply returns_ret |].
  apply returns_seq; [apply H | intros; apply IH].
Qed.
Lemma drain_lines_returns ls del w : returns (fun f => drain_lines (cb_at f) ls del) w.
Proof.
  apply (returns_ext _ (fun f => op_for (deliver (cb_at f)) (listing ls).*2 >>+
    op_ret (del ++ (listing ls).*1))); [intros f; apply drain_lines_plan |].
  apply returns_seq; [apply (op_for_returns (fun f => deliver (cb_at f))); intros; apply deliver_returns | intros].
  apply returns_ret.
Qed.
Lemma drain_sms_returns w : returns (fun f => drain_sms f (cb_at f)) w.
Proof.
  unfold drain_sms; apply returns_seq; [apply at_cmd_returns | intros r w1].
  destruct (negb (at_ok r)); [apply returns_ret |].
  apply returns_seq; [apply drain_lines_returns | intros dels w2].
  apply op_for_returns; intros; apply at_cmd_returns.
Qed.
End Live.

(** C27: no operation of the modem hangs. On a port whose writes eventually make
    progress or fail and under a clock that moves on, every operation returns a
    result from every state, the same one for all fuels from some point on: a
    command with any timeout, a send, a poll and the whole start-up, whatever
    the port answers, provided the callback returns too. *)
Theorem modem_operations_terminate {E : Type} {SP : SerialPort E} {CE : Cellular}
    {LP : LivePort E} (cb : option (nat -> InboundSms -> Op E unit)) (Hcb : cb_returns cb)
    (w : ModemWorld E) :
  (forall cmd t p, returns (fun f => run_at f cmd t p) w) /\
  (forall to txt, returns (fun f => send_sms f to txt) w) /\
  returns (fun f => handle_timeout f (cb_at cb f)) w /\
  returns (fun f => at_start f (cb_at cb f)) w.
Proof.
  split_and!.
  - intros; apply run_at_returns.
  - intros; apply send_sms_returns.
  - unfold handle_timeout; apply returns_seq; [by apply drain_sms_returns |].
    intros; apply returns_ret.
  - unfold at_start; apply returns_seq; [apply open_port_returns | intros up w1].
    destruct (negb up); [apply returns_ret |].
    apply returns_seq; [apply resolve_vendor_returns | intros _ w2].
    apply returns_seq; [apply configure_returns | intros _ w3].
    apply returns_seq; [by apply drain_sms_returns | intros _ w4].
    eapply returns_step; [done |]. apply returns_on_port.
Qed.

(** ** Bytes out and bytes in *)

(** A port whose world records the bytes it took and the bytes it handed over. *)
Class TracedPort (E : Type) `{SerialPort E} (wr rd : E -> string) := {
  write_traced : forall s e,
    wr (exec (port_write s) e) = wr e +:+
      match result (port_write s) e with Wrote n => str_take n s | _ => "" end /\
    rd (exec (port_write s) e) = rd e;
  read_traced : forall n e,
    wr (exec (port_read n) e) = wr e /\
    rd (exec (port_read n) e) = rd e +:+ default "" (result (port_read n) e);
  select_traced : forall e, wr (exec port_select e) = wr e /\ rd (exec port_select e) = rd e;
  now_traced : forall e, wr (exec port_now_ms e) = wr e /\ rd (exec port_now_ms e) = rd e
}.

Section Bytes.
Context {E : Type} {SP : SerialPort E} {CE : Cellular} {wr rd : E -> string}
        {TP : TracedPort E wr rd}.
Implicit Types w : ModemWorld E.

Definition wrote w : string := wr (port w).
Definition heard w : string := rd (port w).
(** Only the receive buffer may differ. *)
Definition same_but_rx (m m' : AtModem) : Prop :=
  m' = mkAtModem (m_cfg m) (m_fd m) (m_vendor m) (m_reasm m) (m_rx m').

Lemma op_ret_inv {A} (a b : A) w w' : op_ret (E := E) a w = (Some b, w') -> b = a /\ w' = w.
Proof. by intros [= -> ->]. Qed.
Lemma op_bind_inv {A B} (m : Op E A) (k : A -> Op E B) w b w' :
  op_bind m k w = (Some b, w') -> exists a w1, m w = (Some a, w1) /\ k a w1 = (Some b, w').
Proof. rewrite op_bind_run. destruct (m w) as [[a|] w1]; [eauto | done]. Qed.
Lemma on_port_inv {A} (m : ST E A) w a w' :
  on_port m w = (Some a, w') ->
  a = result m (port w) /\ w' = mkModemWorld (exec m (port w)) (modem w).
Proof. rewrite on_port_run. by intros [= <- <-]. Qed.

Lemma str_take_split n k s :
  str_take n s +:+ str_take k (str_drop n s) = str_take (n + k) s.
Proof.
  revert n; induction s as [|c s IH]; intros n; [by destruct n, k |].
  destruct n as [|n]; [done |]. cbn [str_take str_drop Nat.add]. rewrite app_cons; by rewrite IH.
Qed.

(** The write loop puts out a prefix, the whole text when it succeeds. *)
Lemma write_loop_bytes f s w b w' :
  write_loop f s w = (Some b, w') ->
  heard w' = heard w /\ modem w' = modem w /\
  exists n, wrote w' = wrote w +:+ str_take n s /\ (b = true -> str_take n s = s).
Proof.
  revert s w; induction f as [|f IH]; intros s w H; [done |]. cbn [write_loop] in H.
  destruct (String.eqb_spec s "") as [-> | Hs].
  { apply op_ret_inv in H as [-> ->]. split_and!; [done | done |].
    exists 0%nat; by rewrite str_app_nil_r. }
  apply op_bind_inv in H as (r & w1 & H1 & H).
  apply on_port_inv in H1 as [-> ->]. destruct (write_traced s (port w)) as [Hw Hr].
  destruct (result (port_write s) (port w)) as [n | |] eqn:Er.
  - apply IH in H as (Hh & Hm & k & Hk & Hb). unfold heard, wrote in *; cbn [port modem] in *.
    split_and!; [by rewrite Hh | done |]. exists (n + k)%nat.
    rewrite Hk, Hw, str_app_assoc, str_take_split; split; [done |].
    intros Hbt; rewrite <- str_take_split, (Hb Hbt). apply str_take_drop.
  - apply IH in H as (Hh & Hm & k & Hk & Hb). unfold heard, wrote in *; cbn [port modem] in *.
    split_and!; [by rewrite Hh | done |]. exists k. by rewrite Hk, Hw, str_app_nil_r.
  - apply op_ret_inv in H as [-> ->]. unfold heard, wrote; cbn [port modem].
    split_and!; [done | done |]. exists 0%nat; rewrite Hw. split; [done | done].
Qed.

(** What the read loop makes of the bytes it takes in. Without a prompt to wait for,
    or to be seen, they are read as lines after what was in the buffer; a prompt
    before any final line ends the command. *)
Definition read_outcome (cmd : string) (p : bool) (ls : list string) (m m' : AtModem)
    (bytes : string) (r : AtResult) : Prop :=
  same_but_rx m m' /\
  (bytes = "" -> r = mkAtResult false ls /\ m_rx m' = m_rx m) /\
  (bytes <> "" -> p = false \/ no_char ">" (m_rx m +:+ bytes) = true ->
     exists fin ls', take_lines cmd (m_rx m +:+ bytes) ls = (fin, ls', m_rx m') /\ r = outcome fin ls') /\
  (bytes <> "" -> p = true -> forall q post, m_rx m +:+ bytes = q +:+ String ">" post ->
     no_char ">" q = true -> (take_lines cmd q ls).1.1 = None -> at_ok r = true /\ m_rx m' = "").

Lemma same_but_rx_refl m : same_but_rx m m.
Proof. by destruct m. Qed.

(** A piece [c] that brings neither a prompt nor a final line, and what the rest of
    the loop makes of what follows it. *)
Lemma read_on cmd p ls ls' m rx' m' c bytes r : c <> "" ->
  p && negb (no_char ">" (m_rx m +:+ c)) = false ->
  take_lines cmd (m_rx m +:+ c) ls = (None, ls', rx') ->
  read_outcome cmd p ls' (with_rx m rx') m' bytes r -> read_outcome cmd p ls m m' (c +:+ bytes) r.
Proof.
  intros Hc Hp Et (Hs & H0 & H1 & H2). cbn [m_rx with_rx] in *. unfold read_outcome. rewrite <- !(str_app_assoc (m_rx m)).
  assert (Hrest := take_lines_rest _ _ _ _ _ Et).
  split_and!; [exact Hs | intros Hcb; by destruct c | |].
  - intros _ Hq. rewrite take_lines_app, Et.
    destruct (decide (bytes = "")) as [-> | Hne].
    { destruct (H0 eq_refl) as [-> ->]. rewrite str_app_nil_r, take_lines_none by done. by exists None, ls'. }
    apply H1; [done |]. destruct Hq as [-> | Hq]; [by left | right].
    rewrite no_char_app in Hq. apply andb_true_iff in Hq as [Hq1 Hq2].
    rewrite no_char_app, Hq2, andb_true_r. by eapply take_lines_rest_char.
  - intros _ -> q post Eq Hq Hl. cbn [andb] in Hp. apply negb_false_iff in Hp.
    destruct (cut_around ">" q (m_rx m +:+ c) bytes post Eq Hq) as [(_ & q' & -> & ->) | (Hg & _)]; [| congruence].
    rewrite take_lines_app, Et in Hl. rewrite no_char_app in Hq. apply andb_true_iff in Hq as [_ Hq].
    apply (H2 ltac:(by destruct q') eq_refl (rx' +:+ q') post); [by rewrite str_app_assoc | | done].
    rewrite no_char_app, Hq, andb_true_r. by eapply take_lines_rest_char.
Qed.

(** A piece that was read, and what the rest of the loop makes of it. *)
Lemma took_bytes cmd p d f ls c bs e w r w' :
  wr e = wrote w -> rd e = heard w +:+ String c bs ->
  took cmd p ls (String c bs) e (modem w) (at_loop f cmd p d) = (Some r, w') ->
  (forall ls w, at_loop f cmd p d ls w = (Some r, w') ->
     wrote w' = wrote w /\ exists bytes, heard w' = heard w +:+ bytes /\
       read_outcome cmd p ls (modem w) (modem w') bytes r) ->
  wrote w' = wrote w /\ exists bytes, heard w' = heard w +:+ bytes /\
    read_outcome cmd p ls (modem w) (modem w') bytes r.
Proof.
  intros Ew Er H IH. set (chunk := String c bs) in *. unfold took in H.
  destruct (p && negb (no_char ">" (m_rx (modem w) +:+ chunk))) eqn:Ep.
  { injection H as <- <-. boolify. unfold wrote, heard in *; cbn [port modem].
    split; [done |]. exists chunk; split; [done |]. split_and!; [done | done | | done].
    intros _ [-> | Hq]; congruence. }
  destruct (take_lines cmd (m_rx (modem w) +:+ chunk) ls) as [[fin ls'] rx'] eqn:Et.
  destruct fin as [b|].
  - injection H as <- <-. unfold wrote, heard in *; cbn [port modem].
    split; [done |]. exists chunk; split; [done |]. split_and!; [done | done | |].
    + intros _ _. rewrite Et. exists (Some b), ls'. by destruct b.
    + intros _ -> q post Eq Hq Hl. cbn [andb] in Ep. apply negb_false_iff in Ep.
      rewrite Eq, no_char_app, no_char_cons in Ep. cbn in Ep. by rewrite andb_false_r in Ep.
  - apply IH in H as (Hw & bytes & Hh & Ho).
    unfold wrote, heard in *; cbn [port modem] in *.
    split; [congruence |]. exists (chunk +:+ bytes).
    rewrite <- str_app_assoc. split; [congruence |]. by eapply read_on.
Qed.

Lemma at_loop_bytes f cmd p d ls w r w' :
  at_loop f cmd p d ls w = (Some r, w') ->
  wrote w' = wrote w /\
  exists bytes, heard w' = heard w +:+ bytes /\
    read_outcome cmd p ls (modem w) (modem w') bytes r.
Proof.
  revert ls w; induction f as [|f IH]; intros ls w H; [done |]. cbn [at_loop] in H.
  rewrite at_round_run in H. cbv zeta in H.
  destruct (now_traced (port w)) as [Nw Nr]. set (e1 := exec port_now_ms (port w)) in *.
  destruct (select_traced e1) as [Sw Sr]. set (e2 := exec port_select e1) in *.
  destruct (read_traced 512 e2) as [Rw Rr]. set (e3 := exec (port_read 512) e2) in *.
  assert (Hquiet : forall e, wr e = wr (port w) -> rd e = rd (port w) ->
            at_loop f cmd p d ls (mkModemWorld e (modem w)) = (Some r, w') ->
            wrote w' = wrote w /\ exists bytes, heard w' = heard w +:+ bytes /\
              read_outcome cmd p ls (modem w) (modem w') bytes r).
  { intros e Ew Er He. apply IH in He as (Hw & bytes & Hh & Ho); unfold wrote, heard in *; cbn [port modem] in *.
    split; [congruence |]. exists bytes; split; [congruence | done]. }
  destruct (negb (_ <? d)%Z).
  { injection H as <- <-; unfold wrote, heard; cbn [port modem]. split; [done |].
    exists ""; rewrite str_app_nil_r; split; [done |]. split_and!; [apply same_but_rx_refl | done | done | done]. }
  destruct (negb _); [apply (Hquiet e2); [congruence | congruence | done] |].
  destruct (result (port_read 512) e2) as [[|c bs]|] eqn:Eg; cbn [from_option id] in Rr.
  1,3: rewrite str_app_nil_r in Rr; apply (Hquiet e3); [congruence | congruence | done].
  eapply took_bytes; [| | exact H | exact IH]; unfold wrote, heard; congruence.
Qed.

(** A command line as it goes out; a prefix of a text. *)
Definition command_line (cmd : string) : string :=
  if String.eqb cmd "" then "" else cmd +:+ chr cr.
Definition cut_of (s x : string) : Prop := exists n, x = str_take n s.

Lemma cut_nil s : cut_of s "".
Proof. by exists 0%nat. Qed.
Lemma cut_all s : cut_of s s.
Proof. exists (String.length s); by rewrite str_take_ge. Qed.

Lemma write_all_bytes f s w b w' :
  write_all f s w = (Some b, w') ->
  heard w' = heard w /\ modem w' = modem w /\
  exists x, cut_of s x /\ wrote w' = wrote w +:+ x /\ (b = true -> x = s).
Proof.
  intros H; apply write_loop_bytes in H as (H1 & H2 & n & H3 & H4).
  split_and!; [done | done |]. exists (str_take n s); split_and!; [by exists n | done | done].
Qed.

(** A command: what goes out, what comes in, and the answer. *)
Lemma run_at_bytes f cmd t p w r w' :
  run_at f cmd t p w = (Some r, w') ->
  exists x bytes, cut_of (command_line cmd) x /\
    wrote w' = wrote w +:+ x /\ heard w' = heard w +:+ bytes /\
    ((r = AtResult_default /\ bytes = "" /\ modem w' = modem w) \/
     (x = command_line cmd /\ (0 <= m_fd (modem w))%Z /\
      read_outcome cmd p [] (modem w) (modem w') bytes r)).
Proof.
  unfold run_at; intros H. apply op_bind_inv in H as (m & w1 & H1 & H). injection H1 as <- <-.
  destruct (Z.ltb_spec (m_fd (modem w)) 0).
  { apply op_ret_inv in H as [-> ->]. exists "", "". rewrite !str_app_nil_r.
    split_and!; [apply cut_nil | done | done | by left]. }
  apply op_bind_inv in H as (sent & w1 & H1 & H).
  assert (Hs : heard w1 = heard w /\ modem w1 = modem w /\ exists x, cut_of (command_line cmd) x /\
    wrote w1 = wrote w +:+ x /\ (sent = true -> x = command_line cmd)).
  { unfold command_line; destruct (String.eqb cmd ""); [| by eapply write_all_bytes].
    apply op_ret_inv in H1 as [-> ->]. split_and!; [done | done |]. exists "".
    rewrite str_app_nil_r; split_and!; [apply cut_nil | done | done]. }
  destruct Hs as (Hh & Hm & x & Hx & Hw & Hb). destruct sent; cbn [negb] in H.
  - apply op_bind_inv in H as (now & w2 & H2 & H); apply on_port_inv in H2 as [-> ->].
    apply at_loop_bytes in H as (Hw' & bytes & Hh' & Ho). rewrite Hb in * by done.
    unfold wrote, heard in *; cbn [port modem] in *.
    destruct (now_traced (port w1)) as [Nw Nr].
    exists (command_line cmd), bytes. split_and!; [apply cut_all | congruence | congruence |].
    right; split_and!; [done | done |]. by rewrite <- Hm.
  - apply op_ret_inv in H as [-> ->]. exists x, ""; rewrite str_app_nil_r.
    split_and!; [done | done | done | by left].
Qed.
End Bytes.

(** C26: the answer to a command is a function of the bytes alone. A command always
    comes to an end, and puts out its text and a carriage return, or a prefix of that
    when the port refuses bytes. When nothing was read it failed and the receive buffer is as
    it was. Otherwise the whole command went out, and the answer is how the old buffer
    followed by the bytes read reads as lines, in whatever pieces and with whatever
    pauses the port delivered them: lines before the first OK or error are collected
    without blanks, echo and carriage returns, the first OK succeeds, the first error
    line fails and is itself reported, what follows stays in the buffer, and without
    either the command fails. That reading is unique. A command that waits for the
    prompt reads the same as long as there is none; one that comes before any final
    line makes it succeed and empties the buffer. Nothing else of the modem changes. *)
Theorem answer_depends_on_bytes {E : Type} {SP : SerialPort E} {CE : Cellular} {wr rd : E -> string}
    {TP : TracedPort E wr rd} {LP : LivePort E} (cmd : string) (t : Z) (p : bool) (w : ModemWorld E) :
  returns (fun fuel => run_at fuel cmd t p) w /\
  forall fuel r w', run_at fuel cmd t p w = (Some r, w') -> exists sent bytes,
    wr (port w') = wr (port w) +:+ sent /\ cut_of (command_line cmd) sent /\
    rd (port w') = rd (port w) +:+ bytes /\ same_but_rx (modem w) (modem w') /\
    (bytes = "" -> r = mkAtResult false [] /\ m_rx (modem w') = m_rx (modem w)) /\
    (bytes <> "" -> sent = command_line cmd /\
       let txt := m_rx (modem w) +:+ bytes in
       (p = false \/ no_char ">" txt = true ->
          reads_as cmd txt r (m_rx (modem w')) /\
          forall r2 rest2, reads_as cmd txt r2 rest2 -> r2 = r /\ rest2 = m_rx (modem w')) /\
       (p = true -> forall pre part post, txt = (unlines pre +:+ part) +:+ String ">" post ->
          unfinished cmd pre -> no_char nl part = true -> no_char ">" (unlines pre +:+ part) = true ->
          at_ok r = true /\ m_rx (modem w') = "")).
Proof.
  split; [apply run_at_returns |]. intros fuel r w' Hrun.
  apply (run_at_bytes (wr := wr) (rd := rd)) in Hrun as (x & bytes & Hx & Hw & Hh & Ho).
  exists x, bytes. unfold wrote, heard in *. do 2 (split; [done |]). split; [done |].
  destruct Ho as [(-> & -> & ->) | (-> & _ & Hs & H0 & H1 & H2)].
  { split_and!; [apply same_but_rx_refl | done | done]. }
  split_and!; [done | done |]. intros Hne. split; [done |]. cbv zeta. split.
  - intros Hp. destruct (H1 Hne Hp) as (fin & ls & Etl & ->). apply take_reads_as in Etl.
    split; [done |]. intros r2 rest2. by apply reads_as_unique.
  - intros Hp pre part post Et [U1 U2] Hn Hq. apply (H2 Hne Hp _ _ Et Hq).
    by rewrite take_lines_prefix, take_lines_none.
Qed.

(** the bytes of an outbound message. When the text cannot be encoded nothing
    is sent at all. Otherwise the port sees an escape, the switch to PDU mode,
    the announcement of exactly the encoder's length and the PDU with its
    Ctrl-Z, each at most once, in this order and possibly cut short; not a byte
    of the PDU goes out before the announcement is complete, and a send that
    reports success has put out both completely. *)
Theorem send_sms_bytes {E : Type} {SP : SerialPort E} {CE : Cellular} {wr rd : E -> string}
    {TP : TracedPort E wr rd} (fuel : nat) (to txt : string) (w w' : ModemWorld E) (b : bool)
    (Hrun : send_sms fuel to txt w = (Some b, w')) :
  match encode_sms_submit to txt with
  | None => b = false /\ w' = w
  | Some (pdu, len) =>
      let announce := "AT+CMGS=" +:+ to_string len +:+ chr cr in
      let payload := pdu +:+ chr ctrl_z in
      exists x1 x2 x3 x4,
        wr (port w') = wr (port w) +:+ x1 +:+ x2 +:+ x3 +:+ x4 /\
        cut_of (chr esc) x1 /\ cut_of ("AT+CMGF=0" +:+ chr cr) x2 /\
        cut_of announce x3 /\ cut_of payload x4 /\
        (x4 <> "" -> x3 = announce) /\ (b = true -> x3 = announce /\ x4 = payload)
  end.
Proof.
  unfold send_sms in Hrun. destruct (encode_sms_submit to txt) as [[pdu len]|];
    [| by apply op_ret_inv in Hrun as [-> ->]].
  apply op_bind_inv in Hrun as (b1 & w1 & H1 & H).
  apply (write_all_bytes (wr := wr) (rd := rd)) in H1 as (_ & _ & x1 & C1 & W1 & _).
  apply op_bind_inv in H as (r2 & w2 & H2 & H).
  apply (run_at_bytes (wr := wr) (rd := rd)) in H2 as (x2 & b2 & C2 & W2 & _ & _).
  apply op_bind_inv in H as (r3 & w3 & H3 & H).
  apply (run_at_bytes (wr := wr) (rd := rd)) in H3 as (x3 & b3 & C3 & W3 & _ & O3).
  assert (Ec : command_line ("AT+CMGS=" +:+ to_string len) =
               "AT+CMGS=" +:+ to_string len +:+ chr cr)
    by (unfold command_line; rewrite <- str_app_assoc; done).
  rewrite Ec in *. unfold wrote in *; cbv zeta.
  destruct (at_ok r3) eqn:Eo; cbn [negb] in H.
  - destruct O3 as [(-> & _) | (-> & _)]; [done |].
    apply op_bind_inv in H as (b4 & w4 & H4 & H).
    apply (write_all_bytes (wr := wr) (rd := rd)) in H4 as (_ & _ & x4 & C4 & W4 & B4).
    unfold wrote in *. exists x1, x2, ("AT+CMGS=" +:+ to_string len +:+ chr cr), x4.
    assert (Hw : wr (port w') = wr (port w4)).
    { destruct b4; cbn [negb] in H; [| by apply op_ret_inv in H as [_ ->]].
      apply op_bind_inv in H as (r5 & w5 & H5 & H). apply op_ret_inv in H as [_ ->].
      apply (run_at_bytes (wr := wr) (rd := rd)) in H5 as (x5 & b5 & [n C5] & W5 & _).
      unfold wrote in W5; rewrite W5, C5. by destruct n; cbn; rewrite str_app_nil_r. }
    split_and!; [| done | done | apply cut_all | done | done |].
    + by rewrite Hw, W4, W3, W2, W1, !str_app_assoc.
    + intros ->; split; [done |]. apply B4. destruct b4; [done |].
      by apply op_ret_inv in H as [? _].
  - apply op_ret_inv in H as [-> ->]. exists x1, x2, x3, "".
    split_and!; [| done | done | done | apply cut_nil | done | done].
    by rewrite W3, W2, W1, str_app_nil_r, !str_app_assoc.
Qed.

(** ** Reading the listing *)

Lemma digits_value_app acc a t :
  all_chars is_digit a = true -> starts_digit t = false ->
  digits_value acc (a +:+ t) = digits_value acc a.
Proof.
  intros Ha Ht; revert acc; induction a as [|c a IH]; intros acc.
  - rewrite app_nil_l'. destruct t as [|c t]; [done |]. cbn in *. by rewrite Ht.
  - cbn in Ha; boolify. rewrite app_cons; cbn. rewrite H; auto.
Qed.

Lemma stoi_index n t :
  (0 <= n <= int_max)%Z -> starts_digit t = false ->
  stoi (" " +:+ to_string n +:+ t) = Some n.
Proof.
  intros Hn Ht. assert (Hc := to_string_chars n ltac:(lia)).
  assert (E : strtol (" " +:+ to_string n +:+ t) = Some n).
  { change (strtol (" " +:+ to_string n +:+ t)) with (strtol (to_string n +:+ t)).
    assert (Hs : starts_digit (to_string n +:+ t) = true).
    { pose proof (to_string_nonempty n); destruct (to_string n) as [|c s]; [done |].
      cbn in Hc; boolify. by rewrite app_cons. }
    rewrite strtol_digits, digits_value_app by done. f_equal.
    assert (E := strtol_to_string n). rewrite strtol_digits in E; [congruence |].
    pose proof (to_string_nonempty n); destruct (to_string n) as [|c s]; [done |].
    cbn in Hc; by boolify. }
  assert (R : forall lo hi, (lo <= 0)%Z -> (int_max <= hi)%Z -> in_range lo hi n = true).
  { intros lo hi H1 H2; unfold in_range. apply andb_true_iff; split; apply Z.leb_le; lia. }
  unfold stoi, stol. by rewrite E, !R.
Qed.

Lemma cmgl_header n t :
  (0 <= n <= int_max)%Z -> starts_digit t = false ->
  header_index ("+CMGL: " +:+ to_string n +:+ t) = Some n.
Proof.
  intros Hn Ht; unfold header_index.
  rewrite (proj2 (starts_with_spec _ _)) by (by exists (" " +:+ to_string n +:+ t)); cbn [negb].
  change ("+CMGL: " +:+ to_string n +:+ t)
    with ("+CMGL" +:+ String ":" (" " +:+ to_string n +:+ t)).
  rewrite find_char_app by done.
  change (str_drop _ _) with (" " +:+ to_string n +:+ t). by apply stoi_index.
Qed.

Section ListingSpec.
Context `{CE : Cellular}.

(** The entries whose PDU decodes, each with the index it was stored under. *)
Definition decodable (es : list (Z * string)) : list (Z * SmsMessage) :=
  omap (fun e => (fun m => (e.1, mkSms (msg_sender m) (msg_text m) (scts m) (total m) e.1))
                   <$> decode_sms_deliver e.2) es.

(** One stored message as the modem lists it in PDU mode: +CMGL: index,stat,alpha,length
    and the PDU. [stat] is 0 for an unread message, 1 for a read one, and the alpha
    field, the name in the phone book, is empty or left out by most modems. *)
Record CmglEntry := mkCmgl { ce_index : Z; ce_stat : Z; ce_alpha : string; ce_length : Z; ce_pdu : string }.
Definition cmgl_tail (e : CmglEntry) : string :=
  "," +:+ to_string (ce_stat e) +:+ "," +:+ ce_alpha e +:+ "," +:+ to_string (ce_length e).
Definition cmgl_entry (e : CmglEntry) : list string :=
  ["+CMGL: " +:+ to_string (ce_index e) +:+ cmgl_tail e; ce_pdu e].
Definition cmgl_ok (cmd : string) (e : CmglEntry) : Prop :=
  (0 <= ce_index e <= int_max)%Z /\ (0 <= ce_stat e)%Z /\ (0 <= ce_length e)%Z /\
  no_char nl (ce_alpha e) = true /\ no_char nl (ce_pdu e) = true /\ line_kind cmd (ce_pdu e) = Info.

(** A line that is neither a header nor anything to the engine but information: what
    a modem puts between the entries by itself. *)
Definition chatter (cmd l : string) : Prop :=
  header_index l = None /\ no_char nl l = true /\ line_kind cmd l = Info.

Lemma listing_noise x ls : header_index x = None -> listing (x :: ls) = listing ls.
Proof. intros H; destruct ls as [|y ls]; [done |]. cbn [listing]; by rewrite H. Qed.
Lemma listing_entry e ls :
  (0 <= ce_index e <= int_max)%Z ->
  listing (cmgl_entry e ++ ls) = decodable [(ce_index e, ce_pdu e)] ++ listing ls.
Proof.
  intros Hn. unfold cmgl_entry, decodable; cbn [app fst snd listing].
  rewrite cmgl_header by done. cbn [omap list_omap fst snd].
  by destruct (decode_sms_deliver (ce_pdu e)).
Qed.

Lemma listing_groups cmd (groups : list (list string * CmglEntry)) (tail : list string) :
  Forall (fun g => Forall (chatter cmd) g.1 /\ cmgl_ok cmd g.2) groups -> Forall (chatter cmd) tail ->
  listing ((groups ≫= fun g => g.1 ++ cmgl_entry g.2) ++ tail) =
  decodable ((fun e => (ce_index e, ce_pdu e)) <$> groups.*2).
Proof.
  intros Hg Ht.
  assert (Hskip : forall xs ls, Forall (chatter cmd) xs -> listing (xs ++ ls) = listing ls).
  { induction 1 as [|x xs [Hx _] _ IH]; [done |]. cbn [app]; by rewrite listing_noise. }
  induction Hg as [|[noise e] groups [Hn He] _ IH]; cbn [mbind list_bind app fmap list_fmap snd fst].
  - by rewrite <- (app_nil_r tail), Hskip.
  - rewrite <- !app_assoc, Hskip, listing_entry, IH by (done || apply He).
    unfold decodable; cbn. by destruct (decode_sms_deliver (ce_pdu e)).
Qed.

Lemma to_string_no_nl z : (0 <= z)%Z -> no_char nl (to_string z) = true.
Proof.
  intros Hz. eapply all_chars_impl; [| by apply to_string_chars].
  intros c; by destruct c as [[] [] [] [] [] [] [] []].
Qed.

(** Every line of such a listing is information. *)
Lemma cmgl_lines cmd e : starts_with "+CMGL: " cmd = false -> cmgl_ok cmd e ->
  Forall (fun l => no_char nl l = true /\ line_kind cmd l = Info) (cmgl_entry e).
Proof.
  intros Hc (Hi & Hs & Hl & Ha & Hp & Hk). repeat constructor; [| | done | done].
  - unfold cmgl_tail. rewrite !no_char_app, !to_string_no_nl, Ha by lia. done.
  - set (t := to_string (ce_index e) +:+ cmgl_tail e). unfold line_kind.
    rewrite (proj2 (String.eqb_neq ("+CMGL: " +:+ t) cmd)); [done |].
    intros <-. by rewrite starts_with_app in Hc.
Qed.

(** C29: a listing reads back. Whatever messages are stored, read or unread and of any
    length, and whatever else the modem says between them: the text it answers
    AT+CMGL=4 with, each entry printed as index, stat, alpha and length over its PDU,
    with blank lines anywhere, is read as an acknowledged listing of just these lines,
    and the loop over them
    hands exactly the messages that decode to the delivery, in order, and leaves their
    own indices for deletion: an undecodable PDU costs only its own entry. *)
Theorem listing_reads_back {E : Type} (cb : option (InboundSms -> Op E unit))
    (groups : list (list string * CmglEntry)) (tail printed : list string) (rest : string) (del : list Z)
    (Hprinted : filter (fun l => l <> "") printed = (groups ≫= fun g => g.1 ++ cmgl_entry g.2) ++ tail)
    (Hg : Forall (fun g => Forall (chatter "AT+CMGL=4") g.1 /\ cmgl_ok "AT+CMGL=4" g.2) groups)
    (Ht : Forall (chatter "AT+CMGL=4") tail) :
  let ls := (groups ≫= fun g => g.1 ++ cmgl_entry g.2) ++ tail in
  let messages := decodable ((fun e => (ce_index e, ce_pdu e)) <$> groups.*2) in
  take_lines "AT+CMGL=4" (unlines ((fun l => l +:+ chr cr) <$> printed ++ ["OK"]) +:+ rest) [] =
    (Some true, ls, rest) /\
  drain_lines cb ls del ≋ (op_for (deliver cb) messages.*2 >>+ op_ret (del ++ messages.*1)).
Proof.
  cbv zeta. split; cycle 1.
  { rewrite drain_lines_plan. by rewrite (listing_groups "AT+CMGL=4"). }
  set (ls := _ ++ tail) in *.
  assert (Hls : Forall (fun l => no_char nl l = true /\ line_kind "AT+CMGL=4" l = Info) ls).
  { assert (forall xs, Forall (chatter "AT+CMGL=4") xs ->
      Forall (fun l => no_char nl l = true /\ line_kind "AT+CMGL=4" l = Info) xs) as Hch.
    { intros xs Hxs. eapply Forall_impl; [exact Hxs |]. by intros l (_ & H1 & H2). }
    subst ls. apply Forall_app. split; [| by apply Hch]. clear Ht Hprinted.
    induction Hg as [| g groups [Hn He] _ IH]; cbn [mbind list_bind]; [constructor |].
    rewrite !Forall_app. split; [split; [by apply Hch | by apply cmgl_lines] | exact IH]. }
  assert (Hpr : Forall (fun l => l = "" \/ no_char nl l = true /\ line_kind "AT+CMGL=4" l = Info) printed).
  { apply Forall_forall. intros l Hl. destruct (decide (l = "")) as [-> | Hne]; [by left | right].
    rewrite Forall_forall in Hls. apply Hls. rewrite <- Hprinted. by apply list_elem_of_filter. }
  rewrite fmap_app, unlines_app, str_app_assoc.
  change (unlines ((fun l => l +:+ chr cr) <$> ["OK"]) +:+ rest) with (("OK" +:+ chr cr) +:+ String nl rest).
  rewrite take_lines_prefix; cycle 1.
  - apply Forall_fmap. eapply Forall_impl; [exact Hpr |]. cbn. intros l [-> | [Hl _]]; [done | by apply no_nl_cr].
  - apply Forall_fmap. eapply Forall_impl; [exact Hpr |]. cbn. intros l [-> | [_ Hl]] b;
      [by unfold line_kind | by rewrite strip_cr_snoc, Hl].
  - rewrite take_lines_line by done. cbn [app]. do 2 f_equal. apply informational_lines; [done |].
    eapply Forall_impl; [exact Hls |]. by intros l [_ Hl].
Qed.
End ListingSpec.

(** ** A scripted port and a toy codec *)

(** Chunks still to be read, what was written and read, and a clock that moves
    by one millisecond at every look. *)
Record ScriptPort := mkScript { inbox : list string; out : string; inlog : string; clock : Z }.

#[local] Instance script_port : SerialPort ScriptPort :=
  {| port_open := fun _ e => (3%Z, e);
     port_tcgetattr := fun e => (true, e);
     port_tcsetattr := fun _ e => (true, e);
     port_write := fun s e =>
       (Wrote (String.length s), mkScript (inbox e) (out e +:+ s) (inlog e) (clock e));
     port_select := fun e => (negb (bool_decide (inbox e = [])), e);
     port_read := fun _ e =>
       match inbox e with
       | [] => (None, e)
       | c :: r => (Some c, mkScript r (out e) (inlog e +:+ c) (clock e))
       end;
     port_now_ms := fun e => (clock e, mkScript (inbox e) (out e) (inlog e) (clock e + 1));
     schedule_timer := fun _ e => (tt, e) |}.

#[local] Instance script_live : LivePort ScriptPort.
Proof.
  refine {| live_patient := {| patience := fun _ => 0%nat |}; until := fun d e => Z.to_nat (d - clock e) |}.
  - intros [|c s] e H; done.
  - intros d e; unfold exec, result; cbn; lia.
  - intros d e; unfold exec; cbn; lia.
  - intros d n e; unfold exec; cbn. by destruct (inbox e).
Defined.
#[local] Instance script_traced : TracedPort ScriptPort out inlog.
Proof.
  split; try (by intros).
  - intros s e; unfold exec, result; cbn; split; [| done]. by rewrite str_take_ge.
  - intros n e; unfold exec, result; cbn. destruct (inbox e); cbn; by rewrite ?str_app_nil_r.
Defined.

(** A PDU is the text behind a mark; concatenated messages do not occur. *)
#[local] Instance toy_codec : Cellular :=
  {| encode_sms_submit := fun _ txt => Some ("11" +:+ txt, Z.of_nat (String.length txt));
     decode_sms_deliver := fun p =>
       if starts_with "07" p then Some (mkSms "+15550001111" (str_drop 2 p) "ts" 0 0) else None;
     parse_vendor := fun _ => VGeneric;
     SmsReassembler := unit; reasm_empty := tt; reasm_add := fun _ r => (r, None) |}.

Definition modem_on (chunks : list string) (rx : string) : ModemWorld ScriptPort :=
  mkModemWorld (mkScript chunks "" "" 0) (mkAtModem AtConfig_default 3 VGeneric tt rx).
Definition crlf : string := String cr (chr nl).

Lemma modem_operations_terminate_witness :
  returns (fun f => send_sms f "+15550001111" "hi") (modem_on ["> "; crlf; "OK"; crlf] "").
Proof.
  apply (modem_operations_terminate (LP := script_live) None ltac:(intros g [=])
           (modem_on ["> "; crlf; "OK"; crlf] "")).
Defined.

(** The same answer in two deliveries: in pieces with the echo, and in one. *)
Definition csq_pieces : list string :=
  ["AT+C"; "SQ" +:+ chr cr +:+ chr nl +:+ "+CSQ: 17,99" +:+ chr cr; chr nl +:+ "OK"; chr cr +:+ chr nl].

Lemma answer_depends_on_bytes_witness :
  exists r1 r2 w1 w2,
    run_at 20 "AT+CSQ" 3000 false (modem_on csq_pieces "") = (Some r1, w1) /\
    run_at 20 "AT+CSQ" 3000 false (modem_on [foldr String.append "" csq_pieces] "") = (Some r2, w2) /\
    r1 = r2 /\ reads_as "AT+CSQ" (foldr String.append "" csq_pieces) r1 "" /\ at_ok r1 = true.
Proof.
  destruct (run_at 20 "AT+CSQ" 3000 false (modem_on csq_pieces "")) as [[r1|] w1] eqn:E1;
    [| by vm_compute in E1].
  destruct (run_at 20 "AT+CSQ" 3000 false (modem_on [foldr String.append "" csq_pieces] ""))
    as [[r2|] w2] eqn:E2; [| by vm_compute in E2].
  destruct (answer_depends_on_bytes (TP := script_traced) (LP := script_live) "AT+CSQ" 3000 false
    (modem_on csq_pieces "")) as [_ H1]. destruct (H1 20 _ _ E1) as (x1 & b1 & _ & _ & Hb1 & _ & _ & A1).
  destruct (answer_depends_on_bytes (TP := script_traced) (LP := script_live) "AT+CSQ" 3000 false
    (modem_on [foldr String.append "" csq_pieces] "")) as [_ H2].
  destruct (H2 20 _ _ E2) as (x2 & b2 & _ & _ & Hb2 & _ & _ & A2).
  assert (b1 = foldr String.append "" csq_pieces) as ->.
  { vm_compute in E1. injection E1 as <- <-. by vm_compute in Hb1 |- *. }
  assert (b2 = foldr String.append "" csq_pieces) as ->.
  { vm_compute in E2. injection E2 as <- <-. by vm_compute in Hb2 |- *. }
  destruct (A1 ltac:(done)) as (_ & R1 & _). destruct (A2 ltac:(done)) as (_ & R2 & _).
  destruct (R1 (or_introl eq_refl)) as [R1a R1b]. destruct (R2 (or_introl eq_refl)) as [R2a _].
  exists r1, r2, w1, w2. split_and!; [done | done | by destruct (R1b _ _ R2a) | |].
  - vm_compute in E1. injection E1 as <- <-. exact R1a.
  - vm_compute in E1. by injection E1 as <- <-.
Defined.

Lemma send_sms_bytes_witness :
  exists w', send_sms 20 "+15550001111" "hi" (modem_on [crlf +:+ "OK" +:+ crlf; "> "; "OK" +:+ crlf] "")
               = (Some true, w') /\
  exists x1 x2 x3 x4, out (port w') = x1 +:+ x2 +:+ x3 +:+ x4 /\
    x3 = "AT+CMGS=2" +:+ chr cr /\ x4 = "11hi" +:+ chr ctrl_z.
Proof.
  destruct (send_sms 20 "+15550001111" "hi" (modem_on [crlf +:+ "OK" +:+ crlf; "> "; "OK" +:+ crlf] ""))
    as [[b|] w'] eqn:E; [| by vm_compute in E].
  destruct (send_sms_bytes (TP := script_traced) 20 "+15550001111" "hi" _ w' b E)
    as (x1 & x2 & x3 & x4 & Hw & _ & _ & _ & _ & _ & Hb).
  assert (Eb : b = true) by (vm_compute in E; by injection E as <- _).
  subst b. exists w'; split; [reflexivity |]. clear E.
  destruct (Hb eq_refl) as [-> ->]. eexists x1, x2, _, _; split; [exact Hw | by split].
Defined.

(** A new message, a read one with a name, one that does not decode, and chatter. *)
Definition demo_groups : list (list string * CmglEntry) :=
  [(["+CMTI: x"], mkCmgl 3 0 "" 24 "07hello"); ([], mkCmgl 7 1 "" 159 "junk");
   ([], mkCmgl 9 1 "bob" 7 "07bye")].

Lemma listing_reads_back_witness :
  let ls := ["+CMTI: x"; "+CMGL: 3,0,,24"; "07hello"; "+CMGL: 7,1,,159"; "junk";
             "+CMGL: 9,1,bob,7"; "07bye"] in
  take_lines "AT+CMGL=4" (unlines ((fun l => l +:+ chr cr) <$> ("" :: ls ++ [""]) ++ ["OK"]) +:+ "") [] =
    (Some true, ls, "") /\
  (drain_lines (E := ScriptPort) None ls [] (modem_on [] "")).1 = Some [3; 9]%Z.
Proof.
  destruct (listing_reads_back (E := ScriptPort) None demo_groups []
    ("" :: ((demo_groups ≫= fun g => g.1 ++ cmgl_entry g.2) ++ []) ++ [""]) "" []) as [H1 H2].
  - by vm_compute.
  - repeat constructor; by vm_compute.
  - constructor.
  - split; [exact H1 |]. etrans; [exact (f_equal fst (H2 (modem_on [] ""))) |]. by vm_compute.
Defined.

(** The receive buffer is not emptied before a command: the OK that arrives
    after a command timed out answers the next one, whatever the modem thinks of
    that next command. *)
Example late_answer_is_taken :
  let slow := run_at 20 "AT+CFUN=0" 1 false (modem_on [] "") in
  slow.1 = Some (mkAtResult false []) /\
  let w := mkModemWorld (mkScript ["OK" +:+ crlf; "ERROR" +:+ crlf] "" "" 0) (modem slow.2) in
  (run_at 20 "AT+CFUN=1" 3000 false w).1 = Some (mkAtResult true []).
Proof. by vm_compute. Qed.
