(* ===== verification/AtTalk.v ===== *)
(** * AtTalk: a modem that answers in time

    AtProofs says what an operation of AtModem does with whatever the port gives
    it.  Here the port leads to a modem that answers: the bytes it sends are a
    function of the bytes it got, and they arrive before the deadline.  Then a
    command returns that answer, read to its end, and a send goes through.  The
    answers are hypotheses about single exchanges; how they look for a modem with a
    SIM is SerialAppliance's. *)

From S2P Require Import Prelude CString Seams Config AtModem AtProofs.

(** ** The modem at the other end *)

(** [peer] is everything the modem has to say after it was told a text. Writes are
    taken, reads hand it over in pieces of any size, and what it still has to say
    is said before a deadline of a second or more: [soon d e] is that there is time
    up to [d], [wait] bounds the [select]s and reads in vain. *)
Class PromptModem (E : Type) `{SP : SerialPort E} (wr rd : E -> string) (peer : string -> string) := {
  #[global] pm_patient :: PatientPort E;
  #[global] pm_traced :: TracedPort E wr rd;
  pm_takes : forall s e, result (port_write s) e <> WriteError;
  pm_heard : forall e, exists t, peer (wr e) = rd e +:+ t;
  soon : Z -> E -> Prop;
  wait : E -> nat;
  soon_start : forall t e, (1000 <= t <= 60000)%Z ->
    soon (u64 (result port_now_ms e + u64 t)) (exec port_now_ms e);
  soon_now : forall d e, soon d e -> peer (wr e) <> rd e ->
    (result port_now_ms e < d)%Z /\ soon d (exec port_now_ms e) /\ (wait (exec port_now_ms e) <= wait e)%nat;
  soon_select : forall d e, soon d e -> peer (wr e) <> rd e ->
    soon d (exec port_select e) /\
    if result port_select e then (wait (exec port_select e) <= wait e)%nat
    else (wait (exec port_select e) < wait e)%nat;
  soon_read : forall d n e, soon d e -> peer (wr e) <> rd e ->
    soon d (exec (port_read n) e) /\
    match result (port_read n) e with
    | None | Some "" => (wait (exec (port_read n) e) < wait e)%nat
    | Some _ => True
    end
}.

(** Something of the world the port's calls do not touch. *)
Class PortKeeps {E : Type} `{SP : SerialPort E} {X : Type} (keep : E -> X) := {
  kp_write : forall s, frames keep (port_write s);
  kp_select : frames keep port_select;
  kp_read : forall n, frames keep (port_read n);
  kp_now : frames keep port_now_ms
}.

Lemma str_app_id a b : a +:+ b = a -> b = "".
Proof. intros E. apply (str_app_inj_l a). by rewrite str_app_nil_r. Qed.

Section Talk.
Context {E : Type} {SP : SerialPort E} {CE : Cellular} {wr rd : E -> string} {peer : string -> string}.
Context {PM : PromptModem E wr rd peer} {X : Type} (keep : E -> X) {PK : PortKeeps keep}.
Implicit Types w : ModemWorld E.
Notation wrote := (wrote (wr := wr)).
Notation heard := (heard (rd := rd)).

(** The modem has this left to say. *)
Definition awaits w (t : string) : Prop := peer (wrote w) = heard w +:+ t.

(** From [w] to [w'] the bytes [o] were written, [t] is left to be said, the
    receive buffer is [rx], and nothing else changed. *)
Record talked w w' (o t rx : string) : Prop := {
  tk_wrote : wrote w' = wrote w +:+ o;
  tk_awaits : awaits w' t;
  tk_modem : modem w' = with_rx (modem w) rx;
  tk_keep : keep (port w') = keep (port w)
}.

Lemma talked_trans w w1 w2 o1 o2 t1 t2 rx1 rx2 :
  talked w w1 o1 t1 rx1 -> talked w1 w2 o2 t2 rx2 -> talked w w2 (o1 +:+ o2) t2 rx2.
Proof.
  intros [W1 _ M1 K1] [W2 A2 M2 K2]. split; [by rewrite W2, W1, str_app_assoc | done | | congruence].
  by rewrite M2, M1.
Qed.

(** Reading on counts from where reading began. *)
Lemma talked_from w e m w' o t rx :
  wr e = wrote w -> keep e = keep (port w) -> (forall r, with_rx m r = with_rx (modem w) r) ->
  talked (mkModemWorld e m) w' o t rx -> talked w w' o t rx.
Proof.
  intros Ew Ek Em [W1 A1 M1 K1]. split; [| done | by rewrite M1, <- Em | by rewrite K1].
  rewrite W1. unfold AtProofs.wrote in *. cbn [port]. by rewrite Ew.
Qed.

Lemma converges_bind {A B} (m : nat -> Op E A) (k : nat -> A -> Op E B) w a w1 b w2 :
  converges m w a w1 -> converges (fun f => k f a) w1 b w2 ->
  converges (fun f => op_bind (m f) (k f)) w b w2.
Proof.
  intros [N1 H1] [N2 H2]. exists (N1 `max` N2)%nat. intros f Hf.
  rewrite op_bind_run, H1 by lia. apply H2. lia.
Qed.
Lemma converges_ret {A} (a : A) w : converges (fun _ => op_ret (E := E) a) w a w.
Proof. by exists 0%nat. Qed.
Lemma converges_unfold {A} (m m' : nat -> Op E A) w w1 a w' :
  (forall f, m (S f) w = m' f w1) -> converges m' w1 a w' -> converges m w a w'.
Proof. intros H [N HN]. exists (S N). intros [| f] Hf; [lia |]. rewrite H. apply HN. lia. Qed.
Lemma converges_port {A B} (m : ST E A) (k : nat -> A -> Op E B) w b w' :
  converges (fun f => k f (result m (port w))) (mkModemWorld (exec m (port w)) (modem w)) b w' ->
  converges (fun f => op_bind (on_port m) (k f)) w b w'.
Proof. intros [N HN]. exists N. intros f Hf. rewrite op_bind_run, on_port_run. by apply HN. Qed.

(** ** Writing *)

Lemma write_loop_true f s w b w' : write_loop f s w = (Some b, w') -> b = true.
Proof using PM.
  revert s w. induction f as [| f IH]; intros s w; [done |]. cbn [write_loop].
  destruct (String.eqb s ""); [by intros [= <- _] |]. intros (r & w1 & H1 & H)%op_bind_inv.
  apply on_port_inv in H1 as [-> _]. pose proof (pm_takes s (port w)) as Hok.
  destruct (result (port_write s) (port w)); [by eapply IH | by eapply IH | done].
Qed.

Lemma write_loop_keep f s w b w' : write_loop f s w = (Some b, w') -> keep (port w') = keep (port w).
Proof using PK.
  revert s w. induction f as [| f IH]; intros s w; [done |]. cbn [write_loop].
  destruct (String.eqb s ""); [by intros [= _ <-] |]. intros (r & w1 & H1 & H)%op_bind_inv.
  apply on_port_inv in H1 as [-> ->]. pose proof (kp_write s (port w)) as Hk. unfold same_view in Hk.
  destruct (result (port_write s) (port w)); [| | by apply op_ret_inv in H as [_ ->]];
    apply IH in H; cbn [port] in H; congruence.
Qed.

(** A text goes out whole. *)
Lemma write_all_talks s w : exists w', converges (fun f => write_all f s) w true w' /\
  wrote w' = wrote w +:+ s /\ heard w' = heard w /\ modem w' = modem w /\ keep (port w') = keep (port w).
Proof using PK PM.
  destruct (write_all_returns s w) as (b & w' & N & HN). pose proof (HN N ltac:(lia)) as Hrun.
  pose proof (write_loop_true _ _ _ _ _ Hrun) as ->. exists w'. split; [by exists N |].
  pose proof (write_loop_keep _ _ _ _ _ Hrun) as Hk.
  apply (write_all_bytes (wr := wr) (rd := rd)) in Hrun as (Hh & Hm & x & _ & Hw & Hb).
  by rewrite Hw, Hb by done.
Qed.

(** ** One round of the read loop *)

Lemma awaits_more w t : awaits w t -> t <> "" -> peer (wr (port w)) <> rd (port w).
Proof. unfold awaits, AtProofs.wrote, AtProofs.heard. intros -> Ht E0%str_app_id. done. Qed.

(** While something is left to be said a round waits, or takes the next piece. *)
Lemma round_talks cmd p d ls w t : soon d (port w) -> awaits w t -> t <> "" ->
  exists e, wr e = wrote w /\ keep e = keep (port w) /\ soon d e /\
  ((rd e = heard w /\ (wait e < wait (port w))%nat /\
    forall next, at_round cmd p d ls next w = next ls (mkModemWorld e (modem w))) \/
   (exists c t', c <> "" /\ t = c +:+ t' /\ rd e = heard w +:+ c /\
    forall next, at_round cmd p d ls next w = took cmd p ls c e (modem w) next)).
Proof using PK PM.
  intros Hs Ha Ht. pose proof (awaits_more w t Ha Ht) as Hm.
  destruct (soon_now d (port w) Hs Hm) as (Hlt & Hs1 & Hw1).
  destruct (now_traced (port w)) as [Nw Nr]. set (e1 := exec port_now_ms (port w)) in *.
  assert (keep e1 = keep (port w)) as K1 by apply (kp_now (keep := keep)).
  assert (peer (wr e1) <> rd e1) as Hm1 by congruence.
  destruct (soon_select d e1 Hs1 Hm1) as [Hs2 Hw2]. destruct (select_traced e1) as [Sw Sr].
  assert (keep (exec port_select e1) = keep e1) as K2 by apply (kp_select (keep := keep)).
  pose proof (fun next => at_round_run cmd p d ls next w) as Hround. cbv zeta in Hround.
  rewrite (proj2 (Z.ltb_lt _ _) Hlt) in Hround. fold e1 in Hround. cbn [negb] in Hround.
  set (e2 := exec port_select e1) in *. assert (peer (wr e2) <> rd e2) as Hm2 by congruence.
  destruct (result port_select e1) eqn:Esel; cbn [negb] in Hround; cycle 1.
  { exists e2. split_and!; [unfold AtProofs.wrote; congruence | congruence | done | left].
    split_and!; [unfold AtProofs.heard; congruence | lia | done]. }
  destruct (soon_read d 512 e2 Hs2 Hm2) as [Hs3 Hw3]. destruct (read_traced 512 e2) as [Rw Rr].
  assert (keep (exec (port_read 512) e2) = keep e2) as K3 by apply (kp_read (keep := keep)).
  exists (exec (port_read 512) e2).
  split_and!; [unfold AtProofs.wrote; congruence | congruence | done |].
  destruct (result (port_read 512) e2) as [[| a c] |] eqn:Er; cbn [from_option id] in Rr.
  1,3: left; rewrite str_app_nil_r in Rr; (split_and!; [unfold AtProofs.heard; congruence | lia | done]).
  right. destruct (pm_heard (exec (port_read 512) e2)) as [t' Ht'].
  exists (String a c), t'. split_and!; [done | | unfold AtProofs.heard; congruence | done].
  unfold awaits, AtProofs.wrote, AtProofs.heard in Ha. apply (str_app_inj_l (rd (port w))).
  rewrite <- str_app_assoc, <- Ha. rewrite Rw, Sw, Nw, Rr, Sr, Nr in Ht'. done.
Qed.

(** Induction on what is left to be said and on the looks in vain. *)
Lemma talk_ind (P : string -> ModemWorld E -> Prop) :
  (forall t w, (forall t' w', (String.length t' < String.length t)%nat -> P t' w') ->
     (forall w', (wait (port w') < wait (port w))%nat -> P t w') -> P t w) ->
  forall t w, P t w.
Proof.
  intros H t. remember (String.length t) as n eqn:Hn. revert t Hn.
  induction (lt_wf n) as [n _ IHn]. intros t -> w. remember (wait (port w)) as k eqn:Hk. revert w Hk.
  induction (lt_wf k) as [k _ IHk]. intros w ->. apply H.
  - intros t' w' Hlt. by apply (IHn _ Hlt).
  - intros w' Hlt. by apply (IHk _ Hlt).
Qed.

(** ** The answer of a command *)

Lemma no_nl_nonempty cmd rx t ls b ls' rx' :
  no_char nl rx = true -> take_lines cmd (rx +:+ t) ls = (Some b, ls', rx') -> t <> "".
Proof. intros Hn Ht ->. rewrite str_app_nil_r, take_lines_none in Ht; done. Qed.

(** An answer that ends in a final line is read to its end. *)
Lemma at_loop_hears cmd d b ls' t w : forall ls, soon d (port w) -> awaits w t ->
  no_char nl (m_rx (modem w)) = true ->
  take_lines cmd (m_rx (modem w) +:+ t) ls = (Some b, ls', "") ->
  exists w', converges (fun f => at_loop f cmd false d ls) w (mkAtResult b ls') w' /\ talked w w' "" "" "".
Proof using PK PM.
  induction t, w as [t w IHt IHw] using talk_ind. intros ls Hs Ha Hn Ht.
  pose proof (no_nl_nonempty _ _ _ _ _ _ _ Hn Ht) as Hne.
  destruct (round_talks cmd false d ls w t Hs Ha Hne) as (e & Ew & Ek & Hse & [(Er & Hw & Hr) | Hc]).
  - destruct (IHw (mkModemWorld e (modem w)) Hw ls) as (w' & Hcv & Htk); try done.
    { unfold awaits, AtProofs.wrote, AtProofs.heard. cbn [port]. by rewrite Ew, Er. }
    exists w'. split; [eapply converges_unfold; [| exact Hcv]; intros f; apply Hr |].
    by apply (talked_from w e (modem w)).
  - destruct Hc as (c & t' & Hcn & -> & Er & Hr).
    assert (Hex : forall next, at_round cmd false d ls next w = took cmd false ls c e (modem w) next) by done.
    unfold took in Hex. cbn [andb] in Hex. rewrite <- str_app_assoc, take_lines_app in Ht.
    destruct (take_lines cmd (m_rx (modem w) +:+ c) ls) as [[[b1 |] ls1] rx1] eqn:Et; cbv zeta in Hex;
      rewrite ?Et in Hex.
    + injection Ht as -> -> Hrx. assert (rx1 = "" /\ t' = "") as [-> ->].
      { destruct rx1; [done | by rewrite app_cons in Hrx]. }
      exists (mkModemWorld e (with_rx (modem w) "")).
      split; [exists 1%nat; intros [| f] Hf; [lia | apply Hex] |].
      split; [by rewrite str_app_nil_r | | done | done].
      unfold awaits in *. rewrite str_app_nil_r in Ha. unfold AtProofs.wrote, AtProofs.heard in *. cbn [port].
      rewrite str_app_nil_r. congruence.
    + destruct (IHt t' (mkModemWorld e (with_rx (modem w) rx1))) with (ls := ls1) as (w' & Hcv & Htk); try done.
      { rewrite length_app. destruct c; [done | cbn; lia]. }
      { unfold awaits, AtProofs.wrote, AtProofs.heard in *. cbn [port]. by rewrite Ew, Er, str_app_assoc. }
      { by eapply take_lines_rest. }
      exists w'. split; [eapply converges_unfold; [| exact Hcv]; intros f; apply Hex |].
      by apply (talked_from w e (with_rx (modem w) rx1)).
Qed.

(** The prompt for a message: reading stops in the piece that holds it. *)
Lemma at_loop_prompts cmd d post t w : forall q ls, soon d (port w) -> awaits w t ->
  t = q +:+ String ">" post -> no_char ">" (m_rx (modem w) +:+ q) = true ->
  (take_lines cmd (m_rx (modem w) +:+ q) ls).1.1 = None ->
  exists w' ls' p1 p2, converges (fun f => at_loop f cmd true d ls) w (mkAtResult true ls') w' /\
    post = p1 +:+ p2 /\ talked w w' "" p2 "".
Proof using PK PM.
  induction t, w as [t w IHt IHw] using talk_ind. intros q ls Hs Ha Ht Hq Hl.
  assert (t <> "") as Hne by (rewrite Ht; by destruct q).
  destruct (round_talks cmd true d ls w t Hs Ha Hne) as (e & Ew & Ek & Hse & [(Er & Hw & Hr) | Hc]).
  - destruct (IHw (mkModemWorld e (modem w)) Hw q ls) as (w' & ls' & p1 & p2 & Hcv & Hp & Htk); try done.
    { unfold awaits, AtProofs.wrote, AtProofs.heard. cbn [port]. by rewrite Ew, Er. }
    exists w', ls', p1, p2. split; [eapply converges_unfold; [| exact Hcv]; intros f; apply Hr |].
    split; [done |]. by apply (talked_from w e (modem w)).
  - destruct Hc as (c & t' & Hcn & Hct & Er & Hr). unfold took in Hr. cbv zeta in Hr.
    rewrite no_char_app in Hq. apply andb_true_iff in Hq as [Hrx Hq].
    rewrite no_char_app, Hrx in Hr. cbn [andb] in Hr.
    assert (awaits (mkModemWorld e (modem w)) t') as Ha'.
    { unfold awaits, AtProofs.wrote, AtProofs.heard in *. cbn [port]. by rewrite Ew, Er, Ha, str_app_assoc, Hct. }
    destruct (cut_around ">" q c t' post) as [(Hg & q' & -> & ->) | (Hg & p1 & -> & ->)];
      [congruence | done | |]; rewrite Hg in Hr; cbn [negb] in Hr.
    + rewrite <- str_app_assoc, take_lines_app in Hl.
      destruct (take_lines cmd (m_rx (modem w) +:+ c) ls) as [[[b |] ls1] rx1] eqn:Et; [done |].
      rewrite no_char_app in Hq. apply andb_true_iff in Hq as [_ Hq'].
      destruct (IHt (q' +:+ String ">" post)) with (w' := mkModemWorld e (with_rx (modem w) rx1))
        (q := q') (ls := ls1) as (w' & ls' & p1 & p2 & Hcv & Hp & Htk); try done.
      { rewrite Hct, (length_app c). destruct c; [done |]. cbn [String.length]. lia. }
      { cbn [modem m_rx with_rx]. rewrite no_char_app, Hq', andb_true_r.
        eapply take_lines_rest_char; [done |]. by rewrite no_char_app, Hrx. }
      exists w', ls', p1, p2. split; [eapply converges_unfold; [| exact Hcv]; intros f; apply Hr |].
      split; [done |]. by apply (talked_from w e (with_rx (modem w) rx1)).
    + exists (mkModemWorld e (with_rx (modem w) "")), ls, p1, t'.
      split; [exists 1%nat; intros [| f] Hf; [lia | apply Hr] |]. split; [done |].
      split; [by rewrite str_app_nil_r | done | done | done].
Qed.

(** A command goes out, and the loop starts with a deadline ahead. *)
Lemma run_at_opens cmd tmo p w t : (0 <= m_fd (modem w))%Z -> (1000 <= tmo <= 60000)%Z ->
  peer (wrote w +:+ command_line cmd) = heard w +:+ t ->
  exists d w1, awaits w1 t /\ soon d (port w1) /\ wrote w1 = wrote w +:+ command_line cmd /\
    modem w1 = modem w /\ keep (port w1) = keep (port w) /\
    forall r w', converges (fun f => at_loop f cmd p d []) w1 r w' ->
      converges (fun f => run_at f cmd tmo p) w r w'.
Proof using PK PM.
  intros Hfd Htmo Hp.
  assert (exists w1, converges (fun f => if String.eqb cmd "" then op_ret true else write_all f (cmd +:+ chr cr))
            w true w1 /\ wrote w1 = wrote w +:+ command_line cmd /\ heard w1 = heard w /\
            modem w1 = modem w /\ keep (port w1) = keep (port w)) as (w1 & Hcv & Ew & Eh & Em & Ek).
  { unfold command_line. destruct (String.eqb cmd ""); [| apply write_all_talks].
    exists w. split; [apply converges_ret |]. by rewrite str_app_nil_r. }
  destruct (now_traced (port w1)) as [Nw Nr].
  exists (u64 (result port_now_ms (port w1) + u64 tmo)), (mkModemWorld (exec port_now_ms (port w1)) (modem w1)).
  unfold awaits, AtProofs.wrote, AtProofs.heard in *. cbn [port modem].
  split_and!; [congruence | by apply soon_start | congruence | done | |].
  { rewrite <- Ek. apply (kp_now (keep := keep)). }
  intros r w' Hloop. unfold run_at.
  eapply (converges_bind (fun _ => get_modem)); [by exists 0%nat |]. cbn beta.
  rewrite (proj2 (Z.ltb_ge _ _) Hfd). eapply converges_bind; [exact Hcv |]. cbn [negb].
  by apply converges_port.
Qed.

(** A command whose answer ends in a final line: that answer, and silence. *)
Lemma run_at_hears cmd tmo w t b ls :
  (0 <= m_fd (modem w))%Z -> (1000 <= tmo <= 60000)%Z -> no_char nl (m_rx (modem w)) = true ->
  peer (wrote w +:+ command_line cmd) = heard w +:+ t ->
  take_lines cmd (m_rx (modem w) +:+ t) [] = (Some b, ls, "") ->
  exists w', converges (fun f => run_at f cmd tmo false) w (mkAtResult b ls) w' /\
    talked w w' (command_line cmd) "" "".
Proof using PK PM.
  intros Hfd Htmo Hn Hp Ht.
  destruct (run_at_opens cmd tmo false w t Hfd Htmo Hp) as (d & w1 & Ha & Hs & Ew & Em & Ek & Hgo).
  destruct (at_loop_hears cmd d b ls t w1 []) as (w' & Hcv & Htk); [done | done | by rewrite Em.. |].
  exists w'. split; [by apply Hgo |]. destruct Htk as [W1 A1 M1 K1].
  split; [by rewrite W1, Ew, str_app_nil_r | done | by rewrite M1, Em | congruence].
Qed.

Lemma run_at_prompts cmd tmo w q post :
  (0 <= m_fd (modem w))%Z -> (1000 <= tmo <= 60000)%Z ->
  peer (wrote w +:+ command_line cmd) = heard w +:+ q +:+ String ">" post ->
  no_char ">" (m_rx (modem w) +:+ q) = true -> (take_lines cmd (m_rx (modem w) +:+ q) []).1.1 = None ->
  exists w' ls p1 p2, converges (fun f => run_at f cmd tmo true) w (mkAtResult true ls) w' /\
    post = p1 +:+ p2 /\ talked w w' (command_line cmd) p2 "".
Proof using PK PM.
  intros Hfd Htmo Hp Hq Hl.
  destruct (run_at_opens cmd tmo true w _ Hfd Htmo Hp) as (d & w1 & Ha & Hs & Ew & Em & Ek & Hgo).
  destruct (at_loop_prompts cmd d post (q +:+ String ">" post) w1 q []) as (w' & ls & p1 & p2 & Hcv & Hpp & Htk);
    [done | done | done | by rewrite Em.. |].
  exists w', ls, p1, p2. split; [by apply Hgo |]. split; [done |]. destruct Htk as [W1 A1 M1 K1].
  split; [by rewrite W1, Ew, str_app_nil_r | done | by rewrite M1, Em | congruence].
Qed.

(** ** Sending a message *)

(** Three exchanges: PDU mode, the announcement with its prompt, the PDU with the
    verdict; [tm], [q > post] and [tv] are what the modem says. *)
Lemma send_sms_talks to txt pdu n w tm bm lm q post tv b :
  encode_sms_submit to txt = Some (pdu, n) -> (0 <= m_fd (modem w))%Z -> m_rx (modem w) = "" ->
  let t1 := wrote w +:+ chr esc +:+ command_line "AT+CMGF=0" in
  let t2 := t1 +:+ command_line ("AT+CMGS=" +:+ to_string n) in
  let t3 := t2 +:+ pdu +:+ chr ctrl_z in
  peer t1 = heard w +:+ tm -> take_lines "AT+CMGF=0" tm [] = (Some bm, lm, "") ->
  peer t2 = peer t1 +:+ q +:+ String ">" post -> no_char ">" q = true ->
  (take_lines ("AT+CMGS=" +:+ to_string n) q []).1.1 = None ->
  peer t3 = peer t2 +:+ tv ->
  (forall p1 p2, post = p1 +:+ p2 -> exists l, take_lines "" (p2 +:+ tv) [] = (Some b, l, "")) ->
  exists w', converges (fun f => send_sms f to txt) w b w' /\
    talked w w' (chr esc +:+ command_line "AT+CMGF=0" +:+ command_line ("AT+CMGS=" +:+ to_string n)
                 +:+ pdu +:+ chr ctrl_z) "" "".
Proof using PK PM.
  intros Henc Hfd Hrx t1 t2 t3 P1 T1 P2 Q2 T2 P3 T3. unfold send_sms. rewrite Henc.
  set (announce := "AT+CMGS=" +:+ to_string n) in *.
  destruct (write_all_talks (chr esc) w) as (w1 & C1 & W1 & H1 & M1 & K1).
  destruct (run_at_hears "AT+CMGF=0" 1000 w1 tm bm lm) as (w2 & C2 & D2);
    [by rewrite M1 | done | by rewrite M1, Hrx | by rewrite W1, H1, str_app_assoc | by rewrite M1, Hrx |].
  destruct D2 as [W2 A2 M2 K2]. unfold awaits in A2. rewrite str_app_nil_r in A2.
  assert (wrote w2 = t1) as E2 by (unfold t1; by rewrite W2, W1, str_app_assoc).
  assert (m_fd (modem w2) = m_fd (modem w) /\ m_rx (modem w2) = "") as [Hfd2 Hrx2]
    by (rewrite M2, M1; done).
  destruct (run_at_prompts announce 5000 w2 q post) as (w3 & ls & p1 & p2 & C3 & Hp & D3);
    [by rewrite Hfd2 | done | by rewrite E2, <- A2, E2 | by rewrite Hrx2 | by rewrite Hrx2 |].
  destruct D3 as [W3 A3 M3 K3]. rewrite E2 in W3. fold t2 in W3.
  destruct (write_all_talks (pdu +:+ chr ctrl_z) w3) as (w4 & C4 & W4 & H4 & M4 & K4).
  rewrite W3 in W4. fold t3 in W4. destruct (T3 p1 p2 Hp) as (l & Tl).
  destruct (run_at_hears "" 60000 w4 (p2 +:+ tv) b l) as (w5 & C5 & D5).
  { by rewrite M4, M3, <- Hfd2 in *. }
  { done. }
  { by rewrite M4, M3. }
  { unfold awaits in A3. rewrite W3 in A3. rewrite W4, H4. cbn [command_line String.eqb].
    by rewrite str_app_nil_r, P3, A3, str_app_assoc. }
  { by rewrite M4, M3. }
  destruct D5 as [W5 A5 M5 K5]. exists w5. split.
  - eapply converges_bind; [exact C1 |]. eapply converges_bind; [exact C2 |].
    eapply converges_bind; [exact C3 |]. cbn [at_ok negb]. eapply converges_bind; [exact C4 |]. cbn [negb].
    eapply converges_bind; [exact C5 |]. apply converges_ret.
  - split; [| done | by rewrite M5, M4, M3, M2, M1 | congruence].
    rewrite W5, W4. unfold t3, t2, t1. rewrite !str_app_assoc. by cbn [command_line String.eqb].
Qed.
End Talk.
