(* ===== verification/SmsModem.v ===== *)
(** * SmsModem: the SMS commands of a modem with a SIM (3GPP TS 27.005)

    What AtModem relies on of the other end of the line, as a class: in PDU mode a
    modem lists the messages of its SIM, deletes one by its index, prompts for a
    PDU and submits it.  On such a modem, when it answers in time (AtTalk), the
    operations of AtModem do to the SIM and the network what their names say. *)

From S2P Require Import Prelude CString Seams Config AtModem AtProofs AtTalk.

(** ** Answers *)

(** The text of an answer: lines ended by a carriage return and a newline, the
    last one OK. *)
Definition ok_text (ls : list string) : string :=
  unlines ((fun l => l +:+ chr cr) <$> ls ++ ["OK"]).
(** An answer begins with an empty line and may have others. *)
Definition ok_answer (cmd : string) (info : list string) (t : string) : Prop :=
  exists ls, t = ok_text ("" :: ls) /\ filter (fun l => l <> "") ls = info /\
    Forall (fun l => no_char nl l = true) ls /\ Forall (fun l => line_kind cmd l = Info) info.

(** What is in the buffer already becomes a line of its own. *)
Lemma ok_answer_read p cmd info t :
  cmd <> "OK" -> no_char nl p = true -> (forall b, line_kind cmd p <> Final b) -> ok_answer cmd info t ->
  take_lines cmd (p +:+ t) [] = (Some true, informational cmd [p +:+ chr cr] ++ info, "").
Proof.
  intros Hcmd Hp Hk (ls & -> & Hf & Hn & Hi).
  assert (p +:+ ok_text ("" :: ls) =
    unlines ((fun l => l +:+ chr cr) <$> (p :: ls)) +:+ ("OK" +:+ chr cr) +:+ String nl "") as ->.
  { unfold ok_text. rewrite <- app_comm_cons, !fmap_cons, fmap_app. cbn [unlines].
    by rewrite unlines_app, app_nil_l', !app_cr, !str_app_assoc, !app_cons. }
  assert (Hnf : Forall (fun l => forall b, line_kind cmd l <> Final b) ls).
  { apply Forall_forall. intros l Hl b. destruct (decide (l = "")) as [-> | Hne]; [by unfold line_kind |].
    rewrite Forall_forall in Hi. rewrite (Hi l); [done |]. rewrite <- Hf. by apply list_elem_of_filter. }
  rewrite take_lines_prefix, take_lines_line; cycle 1.
  - done.
  - apply Forall_fmap. constructor; [by apply no_nl_cr |]. by eapply Forall_impl; [| apply no_nl_cr].
  - apply Forall_fmap. constructor; cbn; [by rewrite strip_cr_snoc |].
    eapply Forall_impl; [done |]. cbn. intros l Hl. by rewrite strip_cr_snoc.
  - assert (line_kind cmd "OK" = Final true) as E.
    { unfold line_kind. by rewrite (proj2 (String.eqb_neq "OK" cmd)) by congruence. }
    rewrite strip_cr_snoc, E. f_equal. f_equal. rewrite app_nil_l.
    rewrite fmap_cons. change (?x :: ?l) with ([x] ++ l) at 1.
    rewrite informational_app. f_equal. by apply informational_lines.
Qed.

(** ** The modem *)

(** What the modem is told, and does, as functions of everything it was told.
    [idle t]: after [t] it waits for a command. *)
Class SmsModem `{CE : Cellular} (peer : string -> string) := {
  idle : string -> Prop;
  stored : string -> list (Z * string);     (* index and PDU *)
  submitted : string -> list string;        (* PDUs, in the order sent *)
  sm_index : forall t e, idle t -> e ∈ stored t -> (0 <= e.1 <= int_max)%Z;
  sm_mode : forall t, idle t ->
    let t' := t +:+ chr esc +:+ command_line "AT+CMGF=0" in
    idle t' /\ stored t' = stored t /\ submitted t' = submitted t /\
    exists a, peer t' = peer t +:+ a /\ ok_answer "AT+CMGF=0" [] a;
  sm_list : forall t, idle t ->
    let t' := t +:+ command_line "AT+CMGL=4" in
    idle t' /\ stored t' = stored t /\ submitted t' = submitted t /\
    exists a (rest : Z -> string), peer t' = peer t +:+ a /\ (forall i, starts_digit (rest i) = false) /\
      ok_answer "AT+CMGL=4"
        (stored t ≫= fun e => ["+CMGL: " +:+ to_string e.1 +:+ rest e.1; e.2]) a;
  sm_delete : forall t i, idle t ->
    let t' := t +:+ command_line ("AT+CMGD=" +:+ to_string i) in
    idle t' /\ stored t' = filter (fun e => e.1 <> i) (stored t) /\ submitted t' = submitted t /\
    exists a, peer t' = peer t +:+ a /\ ok_answer ("AT+CMGD=" +:+ to_string i) [] a;
  sm_send : forall t to txt pdu n, idle t -> encode_sms_submit to txt = Some (pdu, n) ->
    let t1 := t +:+ command_line ("AT+CMGS=" +:+ to_string n) in
    let t2 := t1 +:+ pdu +:+ chr ctrl_z in
    peer t1 = peer t +:+ crlf +:+ "> " /\
    idle t2 /\ stored t2 = stored t /\ submitted t2 = submitted t ++ [pdu] /\
    exists a ref, peer t2 = peer t1 +:+ a /\ ok_answer "" [ref] a
}.

Section Talk.
Context {E : Type} {SP : SerialPort E} {CE : Cellular} {wr rd : E -> string} {peer : string -> string}.
Context {PM : PromptModem E wr rd peer} {SM : SmsModem peer} {X : Type} (keep : E -> X) {PK : PortKeeps keep}.
Implicit Types w : ModemWorld E.
Notation told w := (wrote (wr := wr) w).
Notation heard := (heard (rd := rd)).

(** The port is open, nothing is left to be read, and the modem is idle. *)
Record quiet w : Prop := {
  qt_fd : (0 <= m_fd (modem w))%Z;
  qt_rx : m_rx (modem w) = "";
  qt_read : peer (told w) = heard w;
  qt_idle : idle (told w)
}.

(** An exchange after which the line is quiet again. *)
Record exchanged w w' : Prop := {
  ex_quiet : quiet w';
  ex_modem : modem w' = modem w;
  ex_keep : keep (port w') = keep (port w)
}.

Lemma talked_quiet w w' o : quiet w -> talked (wr := wr) (rd := rd) (peer := peer) keep w w' o "" "" ->
  idle (told w +:+ o) -> exchanged w w' /\ told w' = told w +:+ o.
Proof.
  intros [Hf Hr Hp Hi] [W A M K] Hi'. assert (modem w' = modem w) as Em.
  { rewrite M. destruct (modem w) as [c fd v r rx]. cbn in Hr. by subst rx. }
  split; [| done]. split; [| done | done]. split; rewrite ?Em; [done | done | | by rewrite W].
  unfold awaits in A. by rewrite str_app_nil_r in A.
Qed.

(** A command that is acknowledged. *)
Lemma command_talks w cmd tmo info : quiet w -> (1000 <= tmo <= 60000)%Z -> cmd <> "OK" ->
  idle (told w +:+ command_line cmd) ->
  (exists a, peer (told w +:+ command_line cmd) = peer (told w) +:+ a /\ ok_answer cmd info a) ->
  exists w', converges (fun f => run_at f cmd tmo false) w (mkAtResult true info) w' /\
    exchanged w w' /\ told w' = told w +:+ command_line cmd.
Proof using PK PM SM.
  intros Hq Htmo Hcmd Hi (a & Ha & Hok).
  assert (take_lines cmd a [] = (Some true, info, "")) as Ht
    by (apply (ok_answer_read "" cmd info a); [done | done | by unfold line_kind | done]).
  destruct (run_at_hears keep cmd tmo w a true info) as (w' & Hcv & Htk);
    [apply Hq | done | by rewrite (qt_rx w Hq) | by rewrite Ha, (qt_read w Hq) | by rewrite (qt_rx w Hq) |].
  exists w'. split; [done |]. by apply talked_quiet.
Qed.

(** ** The operations *)

Lemma listing_of_stored (rest : Z -> string) es :
  (forall e, e ∈ es -> (0 <= e.1 <= int_max)%Z) -> (forall i, starts_digit (rest i) = false) ->
  listing (es ≫= fun e => ["+CMGL: " +:+ to_string e.1 +:+ rest e.1; e.2]) = decodable es.
Proof using CE.
  intros He Hr. induction es as [| [n p] es IH]; [done |]. cbn [mbind list_bind app fst snd listing].
  rewrite cmgl_header; [| apply (He (n, p)); by left | done]. unfold decodable in *. cbn [omap list_omap fst snd].
  rewrite IH by (intros e Hin; apply He; by right). by destruct (decode_sms_deliver p).
Qed.

(** A listing gives the messages of the SIM. *)
Lemma list_talks w : quiet w -> exists w' ls,
  converges (fun f => at_cmd f "AT+CMGL=4") w (mkAtResult true ls) w' /\ exchanged w w' /\
  stored (told w') = stored (told w) /\ submitted (told w') = submitted (told w) /\
  listing ls = decodable (stored (told w)).
Proof using PK PM SM.
  intros Hq. destruct (sm_list (told w) (qt_idle w Hq)) as (Hi & Es & Eu & a & rest & Ha & Hr & Hok).
  set (ls := stored (told w) ≫= _) in Hok.
  destruct (command_talks w "AT+CMGL=4" 3000 ls Hq) as (w' & Hcv & Hex & Ew); [done | done | done | eauto |].
  exists w', ls.
  rewrite Ew. split_and!; [exact Hcv | done | done | done |].
  apply listing_of_stored; [| done]. intros e. apply sm_index, Hq.
Qed.

(** Deleting deletes. *)
Lemma delete_talks w is_ : quiet w -> exists w',
  converges (fun f => op_for (delete_sms f) is_) w tt w' /\ exchanged w w' /\
  stored (told w') = filter (fun e => e.1 ∉ is_) (stored (told w)) /\
  submitted (told w') = submitted (told w).
Proof using PK PM SM.
  revert w. induction is_ as [| i is_ IH]; intros w Hq.
  - exists w. split_and!; [apply converges_ret | by split | | done]. clear. induction (stored (told w)) as [| e es IH]; [done |].
    rewrite filter_cons, decide_True by apply not_elem_of_nil. by rewrite <- IH.
  - destruct (sm_delete (told w) i (qt_idle w Hq)) as (Hi & Es & Eu & Ha).
    destruct (command_talks w ("AT+CMGD=" +:+ to_string i) 3000 [] Hq) as (w1 & C1 & X1 & E1);
      [done | done | done | done |].
    destruct (IH w1 (ex_quiet _ _ X1)) as (w2 & C2 & X2 & Es2 & Eu2). exists w2.
    split; [| split; [| split]].
    + cbn [op_for]. eapply converges_bind; [exact C1 | exact C2].
    + destruct X1, X2. split; congruence.
    + rewrite Es2, E1, Es, list_filter_filter. apply list_filter_iff. intros e. cbn. set_solver.
    + by rewrite Eu2, E1.
Qed.

(** Sending submits. *)
Lemma send_talks w to txt pdu n : quiet w -> encode_sms_submit to txt = Some (pdu, n) -> exists w',
  converges (fun f => send_sms f to txt) w true w' /\ exchanged w w' /\
  stored (told w') = stored (told w) /\ submitted (told w') = submitted (told w) ++ [pdu].
Proof using PK PM SM.
  intros Hq Henc.
  destruct (sm_mode (told w) (qt_idle w Hq)) as (Hi1 & Es1 & Eu1 & am & Pm & Hm).
  destruct (sm_send _ to txt pdu n Hi1 Henc) as (P2 & Hi3 & Es3 & Eu3 & av & ref & P3 & Hv).
  destruct (send_sms_talks keep to txt pdu n w am true [] crlf " " av true) as (w' & Hcv & Htk);
    [done | apply Hq | apply Hq | by rewrite <- (qt_read w Hq) | | exact P2 | done | | exact P3 | |].
  - by apply (ok_answer_read "" "AT+CMGF=0" [] am).
  - change crlf with (unlines [chr cr] +:+ ""). by rewrite take_lines_prefix by (repeat constructor; done).
  - intros p1 p2 Hp. eexists. apply (ok_answer_read p2 "" [ref]); [done | | | done].
    all: destruct p1 as [| x [| y p1]]; rewrite ?app_cons, ?app_nil_l' in Hp;
      [by subst p2 | by injection Hp as _ <- | done].
  - exists w'. set (o := chr esc +:+ _) in Htk.
    assert (told w +:+ o = ((told w +:+ chr esc +:+ command_line "AT+CMGF=0") +:+
      command_line ("AT+CMGS=" +:+ to_string n)) +:+ pdu +:+ chr ctrl_z) as Eo
      by (unfold o; by rewrite !str_app_assoc).
    destruct (talked_quiet w w' o Hq Htk) as [Hex Ew]; [by rewrite Eo |].
    split_and!; [done | done | by rewrite Ew, Eo, Es3, Es1 | by rewrite Ew, Eo, Eu3, Eu1].
Qed.

(** A poll: the listing, whatever the deliveries do to a line they leave quiet, and
    the deletions. *)
Lemma poll_talks (cb : nat -> InboundSms -> Op E unit) (R : ModemWorld E -> Prop) w :
  quiet w -> let ms := decodable (stored (told w)) in
  (forall w1, exchanged w w1 -> stored (told w1) = stored (told w) ->
     submitted (told w1) = submitted (told w) ->
     exists w2, converges (fun f => op_for (deliver (Some (cb f))) ms.*2) w1 tt w2 /\ quiet w2 /\ R w2) ->
  exists w2 w', R w2 /\ converges (fun f => handle_timeout f (Some (cb f))) w 0%Z w' /\ exchanged w2 w' /\
    stored (told w') = filter (fun e => e.1 ∉ ms.*1) (stored (told w2)) /\
    submitted (told w') = submitted (told w2).
Proof using PK PM SM.
  intros Hq ms Hdel. destruct (list_talks w Hq) as (w1 & ls & C1 & X1 & Es1 & Eu1 & El).
  destruct (Hdel w1 X1 Es1 Eu1) as (w2 & C2 & Hq2 & HR).
  destruct (delete_talks w2 ms.*1 Hq2) as (w3 & C3 & X3 & Es3 & Eu3).
  exists w2, w3. split; [done |]. split; [| done]. unfold handle_timeout, drain_sms.
  eapply converges_bind; [| apply converges_ret]. eapply converges_bind; [exact C1 |]. cbn [at_ok negb].
  eapply (converges_bind _ _ _ ms.*1); [| exact C3].
  destruct C2 as [N HN]. exists N. intros f Hf. rewrite drain_lines_plan, op_bind_run. cbn [Seams.lines].
  by rewrite El, HN.
Qed.
End Talk.
