(* ===== verification/GnmiTree.v ===== *)
(** * GnmiTree: the config tree of the simulated device (sim/gnmi_tree.hpp).

    A flat xpath -> value map with subtree reads and deletes: an exact leaf
    wins, otherwise every leaf below the path is meant.  Proved: what a read
    returns in terms of the map, that a read and a delete agree on what a path
    denotes, and that sibling names sharing a prefix are never mixed up. *)

From Stdlib Require Import Sorted.
From S2P Require Import Prelude CString OrdMap.

(** ** The code *)

Record TreeEntry := mkEntry { e_xpath : string; e_value : string }.
Definition entry_of (kv : string * string) : TreeEntry := mkEntry kv.1 kv.2.

Definition GnmiTree : Type := OMap string.

Definition tree_set (x v : string) (m_kv : GnmiTree) : GnmiTree := put x v m_kv.

(** [(xpath == "/") ? "/" : xpath + "/"] *)
Definition subtree_prefix (x : string) : string :=
  if String.eqb x "/" then "/" else x +:+ "/".

Fixpoint entries_with (prefix : string) (m : GnmiTree) : list TreeEntry :=
  match m with
  | [] => []
  | (k, v) :: r =>
      if starts_with prefix k then mkEntry k v :: entries_with prefix r
      else entries_with prefix r
  end.

Definition tree_lookup (x : string) (m_kv : GnmiTree) : list TreeEntry :=
  match find x m_kv with
  | Some v => [mkEntry x v]
  | None => entries_with (subtree_prefix x) m_kv
  end.

(** The erasing loop: the remaining map and the count [n]. *)
Fixpoint erase_with (prefix : string) (n : nat) (m : GnmiTree) : GnmiTree * nat :=
  match m with
  | [] => ([], n)
  | (k, v) :: r =>
      if starts_with prefix k then erase_with prefix (S n) r
      else let '(r', n') := erase_with prefix n r in ((k, v) :: r', n')
  end.

Definition tree_erase (x : string) (m_kv : GnmiTree) : GnmiTree * nat :=
  match find x m_kv with
  | Some _ => (remove x m_kv, 1%nat)
  | None => erase_with (subtree_prefix x) 0 m_kv
  end.

Definition tree_size (m_kv : GnmiTree) : nat := length m_kv.

(** ** Specification vocabulary *)

(** [k] is a leaf strictly below [x]; the root has every absolute path below it. *)
Definition below (x k : string) : Prop :=
  exists r, k = (if String.eqb x "/" then "/" +:+ r else x +:+ "/" +:+ r).

(** The leaves a path denotes in a map. *)
Definition denotes (g : gmap string string) (x k : string) : Prop :=
  match g !! x with
  | Some _ => k = x
  | None => below x k
  end.

(** ** Lemmas *)

Lemma starts_with_below x k : starts_with (subtree_prefix x) k = true <-> below x k.
Proof.
  rewrite starts_with_spec; unfold subtree_prefix, below.
  destruct (String.eqb x "/"); [done |].
  split; intros [r ->]; exists r; by rewrite str_app_assoc.
Qed.

Lemma entries_with_filter prefix (m : list (string * string)) :
  entries_with prefix m = entry_of <$> filter (fun kv => starts_with prefix kv.1 = true) m.
Proof.
  induction m as [|[k v] m IH]; [done |]. rewrite filter_cons; simpl.
  destruct (starts_with prefix k); simpl; by rewrite IH.
Qed.
Lemma erase_with_filter prefix n (m : list (string * string)) :
  erase_with prefix n m =
  (filter (fun kv => starts_with prefix kv.1 <> true) m,
   (n + length (filter (fun kv => starts_with prefix kv.1 = true) m))%nat).
Proof.
  revert n; induction m as [|[k v] m IH]; intros n; [by simpl; rewrite Nat.add_0_r |].
  cbn [erase_with]. destruct (starts_with prefix k) eqn:E.
  - rewrite filter_cons_False, filter_cons_True by (simpl; rewrite E; naive_solver).
    rewrite IH; f_equal; simpl; lia.
  - rewrite filter_cons_True, filter_cons_False by (simpl; rewrite E; naive_solver).
    by rewrite IH.
Qed.

Lemma length_entries_with prefix m :
  length (entries_with prefix m) = (erase_with prefix 0 m).2.
Proof. rewrite entries_with_filter, erase_with_filter, length_fmap; simpl; lia. Qed.

Lemma tree_lookup_spec m x k v :
  ordered m ->
  mkEntry k v ∈ tree_lookup x m <-> to_gmap m !! k = Some v /\ denotes (to_gmap m) x k.
Proof.
  intros Ho; unfold tree_lookup, denotes; rewrite find_gmap.
  destruct (to_gmap m !! x) as [u|] eqn:E.
  - rewrite list_elem_of_singleton. split; [intros [= -> ->]; done |].
    intros [H ->]; congruence.
  - rewrite entries_with_filter, list_elem_of_fmap. rewrite <- starts_with_below.
    split.
    + intros ([k' v'] & [= -> ->] & Hin). apply list_elem_of_filter in Hin as [Hs Hin].
      split; [by apply elem_of_gmap | exact Hs].
    + intros [H Hs]. exists (k, v); split; [done |]. apply list_elem_of_filter; split; [done |].
      by apply elem_of_gmap.
Qed.

Lemma tree_erase_ordered x m : ordered m -> ordered (tree_erase x m).1.
Proof.
  intros H; unfold tree_erase; case_match; [by apply remove_ordered |].
  rewrite erase_with_filter; by apply filter_ordered.
Qed.

Lemma tree_erase_gmap m x k :
  ordered m ->
  to_gmap (tree_erase x m).1 !! k =
  match to_gmap m !! x with
  | Some _ => if decide (k = x) then None else to_gmap m !! k
  | None => if starts_with (subtree_prefix x) k then None else to_gmap m !! k
  end.
Proof.
  intros Ho; unfold tree_erase; rewrite find_gmap. destruct (to_gmap m !! x) eqn:E.
  - cbn [fst]. rewrite remove_gmap by done. rewrite lookup_delete.
    repeat case_decide; by subst.
  - rewrite erase_with_filter; cbn [fst].
    apply option_eq; intros v. rewrite <- elem_of_gmap by by apply filter_ordered.
    rewrite list_elem_of_filter; cbn [fst]. destruct (starts_with (subtree_prefix x) k).
    + split; [intros [H _]; by destruct H | done].
    + rewrite elem_of_gmap by done. split; [by intros [_ ?] | done].
Qed.

Lemma tree_size_gmap m : ordered m -> tree_size m = base.size (to_gmap m).
Proof.
  intros; unfold tree_size, to_gmap. rewrite map_size_list_to_map; [done | by apply ordered_NoDup].
Qed.

(** ** Properties *)

(** C37: reads and deletes mean the same thing by a path. Over any tree in key
    order a read returns exactly the leaves the path denotes (the leaf itself
    when there is one, else every leaf below it, which for "/" is every leaf with an
    absolute path unless there is one named "/"), each with its value; a delete removes exactly those leaves, keeps every other one and
    returns their number; and a write changes one leaf. *)
Theorem tree_read_delete_write (m : GnmiTree) (x : string) (Ho : ordered m) :
  (forall k v, mkEntry k v ∈ tree_lookup x m <->
     to_gmap m !! k = Some v /\ denotes (to_gmap m) x k) /\
  (forall k, to_gmap (tree_erase x m).1 !! k = None <->
     to_gmap m !! k = None \/ denotes (to_gmap m) x k) /\
  (forall k v, to_gmap (tree_erase x m).1 !! k = Some v -> to_gmap m !! k = Some v) /\
  (tree_erase x m).2 = length (tree_lookup x m) /\
  (forall v, to_gmap (tree_set x v m) = <[x := v]> (to_gmap m)) /\
  ordered (tree_erase x m).1 /\ forall v, ordered (tree_set x v m).
Proof.
  split_and!.
  - intros; by apply tree_lookup_spec.
  - intros k. rewrite tree_erase_gmap by done. unfold denotes.
    destruct (to_gmap m !! x) eqn:E; [case_decide; subst; naive_solver |].
    rewrite <- starts_with_below. destruct (starts_with (subtree_prefix x) k); naive_solver.
  - intros k v. rewrite tree_erase_gmap by done. repeat case_match; naive_solver.
  - unfold tree_erase, tree_lookup. case_match; [done |]. by rewrite length_entries_with.
  - intros; apply put_gmap.
  - by apply tree_erase_ordered.
  - intros; by apply put_ordered.
Qed.

Definition demo_tree : GnmiTree :=
  tree_set "/interfaces/interface[name=eth01]/mtu" "9000"
  (tree_set "/interfaces/interface[name=eth0]/mtu" "1500"
  (tree_set "/system/config/hostname" "demo-router" [])).

Lemma demo_tree_ordered : ordered demo_tree.
Proof. unfold demo_tree, tree_set. repeat apply put_ordered; constructor. Defined.

Lemma tree_read_delete_write_witness :
  (forall k, to_gmap (tree_erase "/interfaces/interface[name=eth0]" demo_tree).1 !! k = None <->
     to_gmap demo_tree !! k = None \/
     denotes (to_gmap demo_tree) "/interfaces/interface[name=eth0]" k) /\
  tree_lookup "/interfaces/interface[name=eth0]" demo_tree =
    [mkEntry "/interfaces/interface[name=eth0]/mtu" "1500"].
Proof.
  split; [| by vm_compute].
  apply (tree_read_delete_write demo_tree "/interfaces/interface[name=eth0]" demo_tree_ordered).
Defined.
