(* ===== verification/GnmiWire.v ===== *)
(** * GnmiWire: what the gNMI code of this repository relies on from outside it.

    grace-server's [gnmi_util] codecs, the protobuf messages generated from
    gnmi.proto and [gnmi_client::call] are not part of this repository: they are
    parameters.  A message is the record of the fields the source sets or reads
    through the generated accessors; its wire form is a parameter.  [WireLaws]
    states the documented behaviour the end-to-end theorems use: parsing what
    was serialized gives it back, and a path or a string value survives its
    codec.  [plain_wire] is a concrete instance that satisfies every law. *)

From S2P Require Import Prelude CString.

(** ** Parameters *)

(** [gnmi_util]: the xpath and TypedValue codecs. *)
Class GnmiUtil := {
  Path : Type;
  TypedValue : Type;
  parse_yang_path : string -> Path;
  path_to_string : Path -> string;
  set_typed_value : string -> TypedValue;
  typed_value_to_string : TypedValue -> string
}.

(** The message fields in use. *)
Inductive Encoding := JSON.
Inductive Operation := UPDATE | REPLACE | DELETE.

Section Messages.
Context `{GnmiUtil}.

Record GetRequest := mkGetRequest {
  gr_target : string; gr_encoding : Encoding; gr_path : list Path }.
Record Update := mkUpdate { u_path : Path; u_val : TypedValue }.
Record Notification := mkNotification { n_timestamp : Z; n_update : list Update }.
Record GetResponse := mkGetResponse { notification : list Notification }.

Record SetRequest := mkSetRequest {
  sr_target : string; sr_update : list Update; sr_replace : list Update;
  sr_delete : list Path }.
Record UpdateResult := mkUpdateResult { ur_path : Path; ur_op : Operation }.
Record SetResponse := mkSetResponse {
  s_timestamp : Z; s_response : list UpdateResult }.
End Messages.

(** [SerializeToString] and [ParseFromString] of the four messages. *)
Class GnmiProto `{GnmiUtil} := {
  ser_GetRequest : GetRequest -> string;
  par_GetRequest : string -> option GetRequest;
  ser_GetResponse : GetResponse -> string;
  par_GetResponse : string -> option GetResponse;
  ser_SetRequest : SetRequest -> string;
  par_SetRequest : string -> option SetRequest;
  ser_SetResponse : SetResponse -> string;
  par_SetResponse : string -> option SetResponse
}.

(** [gnmi_client::response], and [gnmi_client::call(host, port, method, pb, tls)]. *)
Record response := mkResponse {
  r_status : Z; r_message : string; body_pb : string }.

Class GnmiClient (W : Type) :=
  call : string -> Z -> string -> string -> ST W response.

(** Documented behaviour of the codecs: protobuf round trips for every message,
    string values survive a TypedValue, and the xpaths in [canonical] survive
    the path codec. *)
Class WireLaws `{GnmiProto} (canonical : string -> Prop) := {
  par_ser_GetRequest : forall m, par_GetRequest (ser_GetRequest m) = Some m;
  par_ser_GetResponse : forall m, par_GetResponse (ser_GetResponse m) = Some m;
  par_ser_SetRequest : forall m, par_SetRequest (ser_SetRequest m) = Some m;
  par_ser_SetResponse : forall m, par_SetResponse (ser_SetResponse m) = Some m;
  typed_value_roundtrip : forall v, typed_value_to_string (set_typed_value v) = v;
  path_roundtrip : forall x, canonical x -> path_to_string (parse_yang_path x) = x
}.

(** ** A concrete wire

    Paths and values are strings.  A message is numbered (every part of it is a
    string, an integer or a list) and the number is written in binary. *)

Fixpoint bits (p : positive) : string :=
  match p with
  | xH => ""
  | xO p => String "0" (bits p)
  | xI p => String "1" (bits p)
  end.
Fixpoint unbits (s : string) : positive :=
  match s with
  | "" => xH
  | String a r => if Ascii.eqb a "0" then xO (unbits r) else xI (unbits r)
  end.
Lemma unbits_bits p : unbits (bits p) = p.
Proof. induction p as [p IH | p IH |]; simpl; by rewrite ?IH. Qed.

Definition ser_num {A} `{Countable A} (a : A) : string := bits (encode a).
Definition par_num {A} `{Countable A} (s : string) : option A := decode (unbits s).
Lemma par_ser_num {A} `{Countable A} (a : A) : par_num (ser_num a) = Some a.
Proof. unfold par_num, ser_num; rewrite unbits_bits; apply decode_encode. Qed.

Definition plain_util : GnmiUtil :=
  {| Path := string; TypedValue := string; parse_yang_path := fun x => x;
     path_to_string := fun p => p; set_typed_value := fun v => v;
     typed_value_to_string := fun v => v |}.

(** A message as the tuple of its fields. *)
Section Tuples.
Local Existing Instance plain_util.

Definition of_upd (u : Update) : string * string := (u_path u, u_val u).
Definition to_upd (p : string * string) : Update := mkUpdate (p.1 : @Path plain_util) p.2.
Definition of_notif (n : Notification) : Z * list (string * string) :=
  (n_timestamp n, of_upd <$> n_update n).
Definition to_notif (p : Z * list (string * string)) : Notification :=
  mkNotification p.1 (to_upd <$> p.2).
Definition op_bits (o : Operation) : option bool :=
  match o with UPDATE => None | REPLACE => Some true | DELETE => Some false end.
Definition bits_op (b : option bool) : Operation :=
  match b with None => UPDATE | Some true => REPLACE | Some false => DELETE end.

Definition plain_proto : GnmiProto :=
  {| ser_GetRequest m := ser_num (gr_target m, gr_path m : list string);
     par_GetRequest s := (fun p => mkGetRequest p.1 JSON (p.2 : list (@Path plain_util)))
                           <$> par_num (A := string * list string) s;
     ser_GetResponse m := ser_num (of_notif <$> notification m);
     par_GetResponse s := (fun l => mkGetResponse (to_notif <$> l))
                            <$> par_num (A := list (Z * list (string * string))) s;
     ser_SetRequest m := ser_num (sr_target m, of_upd <$> sr_update m,
                                  of_upd <$> sr_replace m, sr_delete m : list string);
     par_SetRequest s := (fun p => mkSetRequest p.1.1.1 (to_upd <$> p.1.1.2)
                                     (to_upd <$> p.1.2) (p.2 : list (@Path plain_util)))
                           <$> par_num (A := string * list (string * string) *
                                             list (string * string) * list string) s;
     ser_SetResponse m := ser_num (s_timestamp m,
       (fun r => (ur_path r : string, op_bits (ur_op r))) <$> s_response m);
     par_SetResponse s := (fun p => mkSetResponse p.1
         ((fun q => mkUpdateResult (q.1 : @Path plain_util) (bits_op q.2)) <$> p.2))
       <$> par_num (A := Z * list (string * option bool)) s |}.

Lemma map_back {A B} (f : A -> B) (g : B -> A) (l : list A) :
  (forall a, g (f a) = a) -> g <$> (f <$> l) = l.
Proof. intros H; rewrite <- list_fmap_compose; induction l; simpl; [done |]; by f_equal. Qed.
Lemma to_of_upd u : to_upd (of_upd u) = u.
Proof. by destruct u. Qed.
Lemma to_of_notif n : to_notif (of_notif n) = n.
Proof. destruct n; unfold to_notif, of_notif; simpl. f_equal; apply map_back, to_of_upd. Qed.

Lemma plain_wire : @WireLaws plain_util plain_proto (fun _ => True).
Proof.
  split; try done; intros m; destruct m; cbn; rewrite ?par_ser_num; cbn.
  - by destruct gr_encoding0.
  - by rewrite map_back by apply to_of_notif.
  - by rewrite !map_back by apply to_of_upd.
  - rewrite map_back; [done | intros [p []]; done].
Qed.
End Tuples.
