(* ===== verification/LocalGnmiSink.v ===== *)
(** * LocalGnmiSink: the gNMI backend (src/local_gnmi_sink.cpp, local_gnmi_sink.hpp).

    [local_get] and [local_set] build a request, make one RPC over the client
    parameter and decode the answer.  The theorems say what can reach the wire,
    that the caller learns nothing about a secret leaf however the server
    answers, and what each outcome of the RPC turns into. *)

From S2P Require Import Prelude CString PathPolicy Seams GnmiWire.

(** ** The code *)

(** [LocalGnmiSink::Config] *)
Record SinkConfig := mkSinkConfig {
  host : string;
  port : Z;
  get_role : string;
  set_role : string;
  deny_tokens : list string
}.
Definition SinkConfig_default : SinkConfig :=
  mkSinkConfig "127.0.0.1" 50051 "VIEWER" "ADMIN" [].

(** The denylist in force: an empty configured list means the default one. *)
Definition deny_of (cfg : SinkConfig) : list string :=
  if bool_decide (deny_tokens cfg = []) then default_deny_tokens else deny_tokens cfg.

Definition denied_text : string := "sensitive path denied".

Section Sink.
Context `{GP : GnmiProto} {W : Type} `{GC : GnmiClient W}.

(** [rpc_ok(r, out)]: the returned flag and the updated [out]. *)
Definition rpc_ok (r : response) (out : GnmiResult) : bool * GnmiResult :=
  (Z.eqb (r_status r) 0,
   mkGnmiResult (ok out) (r_status r) (r_message r) (paths out)).

(** The pre-filter loop over the requested xpaths: [out.paths], the request's
    paths and [asked]. *)
Fixpoint screen (deny : list string) (xpaths : list string)
    (rows : list GnmiPathResult) (req : list Path) (asked : list string)
  : list GnmiPathResult * list Path * list string :=
  match xpaths with
  | [] => (rows, req, asked)
  | xp :: r =>
      if is_sensitive_path xp deny
      then screen deny r (rows ++ [mkRow xp "" denied_text]) req asked
      else screen deny r rows (req ++ [parse_yang_path xp]) (asked ++ [xp])
  end.

(** The row of one returned leaf, re-checked on the way out. *)
Definition leaf_row (deny : list string) (u : Update) : GnmiPathResult :=
  let xp := path_to_string (u_path u) in
  if is_sensitive_path xp deny then mkRow xp "" denied_text
  else mkRow xp (typed_value_to_string (u_val u)) "".

(** The nested loops over [resp.notification()] and [notif.update()]. *)
Fixpoint flatten (deny : list string) (ns : list Notification)
    (rows : list GnmiPathResult) : list GnmiPathResult :=
  match ns with
  | [] => rows
  | n :: r => flatten deny r (foldl (fun acc u => acc ++ [leaf_row deny u]) rows (n_update n))
  end.

Definition local_get (cfg : SinkConfig) (xpaths : list string) : ST W GnmiResult :=
  let deny := deny_of cfg in
  let '(rows, req, asked) := screen deny xpaths [] [] [] in
  if bool_decide (asked = []) then
    st_ret (mkGnmiResult (if bool_decide (rows = []) then false else true) 0 "" rows)
  else
    let pb := ser_GetRequest (mkGetRequest (get_role cfg) JSON req) in
    let* r := call (host cfg) (port cfg) "/gnmi.gNMI/Get" pb in
    let '(good, out) := rpc_ok r (mkGnmiResult false (-1) "" rows) in
    if negb good then st_ret out
    else match par_GetResponse (body_pb r) with
         | None => st_ret (mkGnmiResult (ok out) (grpc_status out)
                             "response parse failed" (paths out))
         | Some resp =>
             st_ret (mkGnmiResult true (grpc_status out) (grpc_message out)
                       (flatten deny (notification resp) (paths out)))
         end.

Definition local_set (cfg : SinkConfig) (updates : list (string * string))
  : ST W GnmiResult :=
  let req := mkSetRequest (set_role cfg)
               ((fun xv => mkUpdate (parse_yang_path xv.1) (set_typed_value xv.2)) <$> updates)
               [] [] in
  let pb := ser_SetRequest req in
  let* r := call (host cfg) (port cfg) "/gnmi.gNMI/Set" pb in
  let '(good, out) := rpc_ok r GnmiResult_default in
  if negb good then st_ret out
  else match par_SetResponse (body_pb r) with
       | None => st_ret (mkGnmiResult (ok out) (grpc_status out)
                           "response parse failed" (paths out))
       | Some resp =>
           st_ret (mkGnmiResult true (grpc_status out) (grpc_message out)
                     (paths out ++
                      ((fun ur => mkRow (path_to_string (ur_path ur)) "" "")
                         <$> s_response resp)))
       end.

Definition LocalGnmiSink (cfg : SinkConfig) : GnmiSink W :=
  {| sink_get := local_get cfg; sink_set := local_set cfg |}.

(** ** Specification vocabulary *)

Definition allowed (deny : list string) (xs : list string) : list string :=
  filter (fun x => is_sensitive_path x deny = false) xs.
Definition denied (deny : list string) (xs : list string) : list string :=
  filter (fun x => is_sensitive_path x deny = true) xs.
Definition denied_rows (deny : list string) (xs : list string) : list GnmiPathResult :=
  (fun x => mkRow x "" denied_text) <$> denied deny xs.

(** The request the allowed xpaths make. *)
Definition get_request (cfg : SinkConfig) (xs : list string) : GetRequest :=
  mkGetRequest (get_role cfg) JSON (parse_yang_path <$> allowed (deny_of cfg) xs).

(** Two leaves that differ at most in the value of a secret. *)
Definition leaf_alike (deny : list string) (u v : Update) : Prop :=
  u_path u = u_path v /\
  (is_sensitive_path (path_to_string (u_path u)) deny = false ->
   typed_value_to_string (u_val u) = typed_value_to_string (u_val v)).
Definition notif_alike (deny : list string) (m n : Notification) : Prop :=
  Forall2 (leaf_alike deny) (n_update m) (n_update n).
(** Two answers of a server that differ at most in the values of secrets. *)
Definition answer_alike (deny : list string) (r1 r2 : response) : Prop :=
  r_status r1 = r_status r2 /\ r_message r1 = r_message r2 /\
  match par_GetResponse (body_pb r1), par_GetResponse (body_pb r2) with
  | Some m1, Some m2 => Forall2 (notif_alike deny) (notification m1) (notification m2)
  | None, None => True
  | _, _ => False
  end.

(** ** Lemmas *)

Lemma screen_spec deny xs rows req asked :
  screen deny xs rows req asked =
  (rows ++ denied_rows deny xs,
   req ++ (parse_yang_path <$> allowed deny xs), asked ++ allowed deny xs).
Proof.
  revert rows req asked; induction xs as [|x xs IH]; intros rows req asked; simpl.
  - by unfold denied_rows, denied, allowed; rewrite !filter_nil, !app_nil_r.
  - unfold denied_rows, denied, allowed in *; rewrite !filter_cons.
    destruct (is_sensitive_path x deny); rewrite IH; simpl;
      by rewrite <- ?app_assoc.
Qed.

Lemma leaf_fold deny us rows :
  foldl (fun acc u => acc ++ [leaf_row deny u]) rows us = rows ++ (leaf_row deny <$> us).
Proof.
  revert rows; induction us as [|u us IH]; intros rows; simpl; [by rewrite app_nil_r |].
  by rewrite IH, <- app_assoc.
Qed.
Lemma flatten_spec deny ns rows :
  flatten deny ns rows = rows ++ (leaf_row deny <$> (ns ≫= n_update)).
Proof.
  revert rows; induction ns as [|n ns IH]; intros rows; cbn [flatten mbind list_bind].
  - by rewrite app_nil_r.
  - by rewrite IH, leaf_fold, fmap_app, <- app_assoc.
Qed.

(** The rows and the outcome in closed form. *)
Definition get_outcome (cfg : SinkConfig) (xs : list string) (r : response) : GnmiResult :=
  let rows := denied_rows (deny_of cfg) xs in
  if negb (Z.eqb (r_status r) 0) then mkGnmiResult false (r_status r) (r_message r) rows
  else match par_GetResponse (body_pb r) with
       | None => mkGnmiResult false (r_status r) "response parse failed" rows
       | Some resp =>
           mkGnmiResult true (r_status r) (r_message r)
             (rows ++ (leaf_row (deny_of cfg) <$> (notification resp ≫= n_update)))
       end.

Lemma local_get_run cfg xs w :
  local_get cfg xs w =
  if bool_decide (allowed (deny_of cfg) xs = []) then
    (mkGnmiResult (negb (bool_decide (xs = []))) 0 "" (denied_rows (deny_of cfg) xs), w)
  else
    let m := call (host cfg) (port cfg) "/gnmi.gNMI/Get"
               (ser_GetRequest (get_request cfg xs)) in
    (get_outcome cfg xs (result m w), exec m w).
Proof.
  unfold local_get; rewrite screen_spec; cbn [app].
  case_bool_decide as Ha.
  - unfold st_ret; do 3 f_equal. unfold denied_rows, denied, allowed in *.
    destruct xs as [|x xs]; [done |]. revert Ha; rewrite !filter_cons.
    by destruct (is_sensitive_path x _).
  - unfold st_bind. rewrite (run_split _ w); unfold get_request.
    destruct (result _ w) as [st msg body]; unfold get_outcome, rpc_ok; cbn.
    destruct (st =? 0)%Z; cbn; [| done].
    destruct (par_GetResponse body); cbn; [by rewrite flatten_spec | done].
Qed.

Lemma denied_rows_masked deny xs : Forall (row_masked deny) (denied_rows deny xs).
Proof. apply Forall_fmap, Forall_true; intros x; unfold row_masked; cbn; done. Qed.
Lemma leaf_row_masked deny u : row_masked deny (leaf_row deny u).
Proof.
  unfold leaf_row, row_masked; intros H1.
  destruct (is_sensitive_path (path_to_string (u_path u)) deny) eqn:E; cbn in *;
    [by split | congruence].
Qed.
Lemma leaf_row_alike deny u v : leaf_alike deny u v -> leaf_row deny u = leaf_row deny v.
Proof.
  unfold leaf_alike, leaf_row; intros [-> Hv].
  destruct (is_sensitive_path (path_to_string (u_path v)) deny); [done |]. by rewrite Hv.
Qed.
Lemma leaves_alike deny m1 m2 :
  Forall2 (notif_alike deny) m1 m2 ->
  leaf_row deny <$> (m1 ≫= n_update) = leaf_row deny <$> (m2 ≫= n_update).
Proof.
  induction 1 as [|n1 n2 l1 l2 Hn _ IH]; [done |]; cbn [mbind list_bind].
  rewrite !fmap_app; f_equal; [| exact IH].
  induction Hn as [|u v us vs Hu _ IHu]; [done |]; cbn.
  f_equal; [by apply leaf_row_alike | exact IHu].
Qed.

Lemma get_outcome_alike cfg xs r1 r2 :
  answer_alike (deny_of cfg) r1 r2 -> get_outcome cfg xs r1 = get_outcome cfg xs r2.
Proof.
  unfold answer_alike, get_outcome; intros (-> & -> & Ha).
  destruct (par_GetResponse (body_pb r1)), (par_GetResponse (body_pb r2)); try done.
  by rewrite (leaves_alike _ _ _ Ha).
Qed.

(** The interface's promise, for any server. *)
#[export] Instance LocalGnmiSink_safe cfg :
  @SafeSink W (LocalGnmiSink cfg) (deny_of cfg).
Proof.
  intros xs w; cbn; unfold result; rewrite local_get_run.
  case_bool_decide; cbn; [apply denied_rows_masked |]. unfold get_outcome.
  destruct (negb _); cbn; [apply denied_rows_masked |].
  destruct (par_GetResponse _); cbn; [| apply denied_rows_masked].
  apply Forall_app; split; [apply denied_rows_masked |].
  apply Forall_fmap, Forall_true; intros; apply leaf_row_masked.
Qed.
End Sink.

(** ** Properties *)

Section Wire.
Context `{GP : GnmiProto} {W : Type} `{GC : GnmiClient W}.
Context (canonical : string -> Prop) `{!WireLaws canonical}.

Lemma allowed_canonical deny xs :
  Forall canonical xs ->
  path_to_string <$> (parse_yang_path <$> allowed deny xs) = allowed deny xs.
Proof.
  unfold allowed; induction 1 as [|x xs Hx _ IH]; [done |]. rewrite !filter_cons.
  case_decide; [cbn; by rewrite path_roundtrip, IH | done].
Qed.
Lemma allowed_safe deny xs :
  Forall (fun x => is_sensitive_path x deny = false) (allowed deny xs).
Proof. apply Forall_forall; intros x Hx; by apply list_elem_of_filter in Hx as [? _]. Qed.

(** C19: a denied xpath never leaves the process. For every request of xpaths
    the path codec preserves: when all are denied (or there are none) no RPC
    is made; otherwise exactly one, a Get to the configured host and port whose
    body the server decodes to the configured role and to the allowed xpaths,
    in the order asked, none of them on the denylist. *)
Theorem local_get_request (cfg : SinkConfig) (xs : list string) (w : W)
    (Hc : Forall canonical xs) :
  if bool_decide (allowed (deny_of cfg) xs = []) then exec (local_get cfg xs) w = w
  else exists body req,
    exec (local_get cfg xs) w =
      exec (call (host cfg) (port cfg) "/gnmi.gNMI/Get" body) w /\
    par_GetRequest body = Some req /\ gr_target req = get_role cfg /\
    path_to_string <$> gr_path req =
      filter (fun x => is_sensitive_path x (deny_of cfg) = false) xs /\
    Forall (fun p => is_sensitive_path (path_to_string p) (deny_of cfg) = false)
           (gr_path req).
Proof.
  unfold exec at 1; rewrite local_get_run. case_bool_decide as Ha; [done |].
  exists (ser_GetRequest (get_request cfg xs)), (get_request cfg xs).
  unfold exec; rewrite local_get_run, bool_decide_eq_false_2 by done.
  split_and!; [done | by rewrite par_ser_GetRequest | done | by apply allowed_canonical |].
  apply (Forall_fmap path_to_string (fun x => is_sensitive_path x (deny_of cfg) = false)); cbn [gr_path get_request].
  rewrite allowed_canonical by done; apply allowed_safe.
Qed.

(** a SET sends exactly what was asked and reports what came back. It
    makes one RPC whatever the server does, to the configured host and port;
    the server decodes it to the configured role and the very xpath/value pairs
    of the command, in order, with no replace and no delete; the result is ok
    exactly when the status is 0 and the body decodes, and it then lists the
    paths of the answer without values. *)
Theorem local_set_request (cfg : SinkConfig) (us : list (string * string)) (w : W)
    (Hc : Forall canonical us.*1) :
  exists body req,
    let answer := result (call (host cfg) (port cfg) "/gnmi.gNMI/Set" body) w in
    let r := result (local_set cfg us) w in
    exec (local_set cfg us) w =
      exec (call (host cfg) (port cfg) "/gnmi.gNMI/Set" body) w /\
    par_SetRequest body = Some req /\ sr_target req = set_role cfg /\
    sr_replace req = [] /\ sr_delete req = [] /\
    (fun u => (path_to_string (u_path u), typed_value_to_string (u_val u)))
      <$> sr_update req = us /\
    grpc_status r = r_status answer /\
    (ok r = true <-> r_status answer = 0%Z /\ par_SetResponse (body_pb answer) <> None) /\
    Forall (fun p => value p = "" /\ error p = "") (paths r).
Proof.
  unfold local_set.
  set (req := mkSetRequest (set_role cfg) _ [] []); set (body := ser_SetRequest req).
  exists body, req; cbv zeta; st_run.
  destruct (result (call _ _ _ body) w) as [st msg b] eqn:Er; cbn [r_status r_message body_pb].
  split_and!; try done.
  - unfold rpc_ok; cbn; destruct (st =? 0)%Z; cbn; [| done].
    destruct (par_SetResponse b); done.
  - apply par_ser_SetRequest.
  - subst req; cbn. clear -Hc WireLaws0. induction us as [|[x v] us IH]; [done |].
    apply Forall_cons in Hc as [Hx Hc]; cbn in *.
    rewrite path_roundtrip, typed_value_roundtrip by done. by rewrite IH.
  - unfold rpc_ok; cbn; destruct (st =? 0)%Z; cbn; [| done].
    destruct (par_SetResponse b); done.
  - unfold rpc_ok; cbn; destruct (Z.eqb_spec st 0); cbn; [| naive_solver].
    destruct (par_SetResponse b); cbn; naive_solver.
  - unfold rpc_ok; cbn; destruct (st =? 0)%Z; cbn; [| done].
    destruct (par_SetResponse b); cbn; [| done].
    apply Forall_fmap, Forall_true; done.
Qed.
End Wire.

(** C8: nobody learns a secret from a read. Whatever two servers (each with its
    own hidden world) answer, when the two answers differ only in the values of
    leaves on the denylist the two results are equal, rows, status and message
    included. In particular a Get on a container that carries secrets renders
    the same text whatever the secrets are. *)
Theorem local_get_noninterference `{GnmiProto} {W1 W2 : Type}
    (C1 : GnmiClient W1) (C2 : GnmiClient W2)
    (cfg : SinkConfig) (xs : list string) (w1 : W1) (w2 : W2)
    (Halike : answer_alike (deny_of cfg)
       (result (call (host cfg) (port cfg) "/gnmi.gNMI/Get"
                  (ser_GetRequest (get_request cfg xs))) w1)
       (result (call (host cfg) (port cfg) "/gnmi.gNMI/Get"
                  (ser_GetRequest (get_request cfg xs))) w2)) :
  result (local_get cfg xs) w1 = result (local_get cfg xs) w2.
Proof.
  unfold result at 1 2; rewrite !local_get_run. case_bool_decide; [done |]; cbn.
  by apply get_outcome_alike.
Qed.

(** Every outcome of a Get. It is ok exactly when every xpath was denied
    (and there was one) or the server answered status 0 with a body that
    decodes; the status is the server's, the message too unless the body did
    not decode; the rows are the denied xpaths in the order asked, followed,
    on success only, by one row per returned leaf in the server's order; and a
    row on the denylist has an error and no value. *)
Theorem local_get_outcome `{GnmiProto} {W : Type} `{GnmiClient W}
    (cfg : SinkConfig) (xs : list string) (w : W) :
  let answer := result (call (host cfg) (port cfg) "/gnmi.gNMI/Get"
                          (ser_GetRequest (get_request cfg xs))) w in
  let asked := filter (fun x => is_sensitive_path x (deny_of cfg) = false) xs in
  let r := result (local_get cfg xs) w in
  (ok r = true <-> (asked = [] /\ xs <> []) \/
     (asked <> [] /\ r_status answer = 0%Z /\ par_GetResponse (body_pb answer) <> None)) /\
  grpc_status r = (if bool_decide (asked = []) then 0%Z else r_status answer) /\
  (exists leaves, xpath <$> paths r =
     filter (fun x => is_sensitive_path x (deny_of cfg) = true) xs ++ leaves /\
     (ok r = false -> leaves = []) /\
     forall m, asked <> [] -> r_status answer = 0%Z ->
       par_GetResponse (body_pb answer) = Some m ->
       leaves = (fun u => path_to_string (u_path u)) <$> (notification m ≫= n_update)) /\
  Forall (row_masked (deny_of cfg)) (paths r).
Proof.
  cbv zeta. set (answer := result (call _ _ _ _) w).
  assert (Hx : forall d ys, xpath <$> denied_rows d ys = denied d ys).
  { intros d ys; unfold denied_rows; rewrite <- list_fmap_compose. apply list_fmap_id. }
  assert (Hl : forall d (us : list Update), xpath <$> (leaf_row d <$> us) =
                            (fun u => path_to_string (u_path u)) <$> us).
  { intros d us; rewrite <- list_fmap_compose; apply list_fmap_ext; intros ? u _; cbn.
    unfold leaf_row; by destruct (is_sensitive_path _ d). }
  assert (Hm := LocalGnmiSink_safe cfg xs w); cbn in Hm; revert Hm.
  change (result (local_get cfg xs) w) with (local_get cfg xs w).1.
  rewrite local_get_run; cbv zeta; fold answer; clearbody answer. unfold allowed; case_bool_decide as Ha; cbn.
  { intros Hm; rewrite Ha, Hx. split_and!; [| done | | done].
    - rewrite negb_true_iff, bool_decide_eq_false.
      split; [by left | intros [[_ ?] | [? _]]; done].
    - exists []; rewrite app_nil_r; split_and!; done. }
  unfold get_outcome. destruct (Z.eqb_spec (r_status answer) 0) as [E | E]; cbn;
    [destruct (par_GetResponse (body_pb answer)) as [m|] eqn:Ep; cbn |]; intros Hm.
  - split_and!; [| done | | done].
    + split; [intros _; right; split_and!; [done | done | congruence] | done].
    + exists ((fun u => path_to_string (u_path u)) <$> (notification m ≫= n_update)).
      rewrite fmap_app, Hx, Hl; split_and!; [done | done | congruence].
  - split_and!; [| done | | done].
    + split; [done | intros [[? _] | (_ & _ & ?)]; congruence].
    + exists []; rewrite Hx, app_nil_r; split_and!; [done | done | congruence].
  - split_and!; [| done | | done].
    + split; [done | intros [[? _] | (_ & ? & _)]; congruence].
    + exists []; rewrite Hx, app_nil_r; split_and!; [done | done | congruence].
Qed.
