(* ===== verification/GnmiSimd.v ===== *)
(** * GnmiSimd: the simulated device's gNMI server (sim/zt_gnmi_simd.cpp).

    The two RPC handlers over the shared tree, the seed loader, and what they
    give together with the client side of LocalGnmiSink: a write an admin makes
    is what the next read returns, and the server's own role gate holds whoever
    calls.  The connections are in SimServer; here, what the
    client's call does with the two registered handlers is the hypothesis
    [Loopback]. *)

From S2P Require Import Prelude CString PathPolicy Seams OrdMap GnmiTree GnmiWire LocalGnmiSink.

(** ** The code *)

(** The process-wide tree and the realtime clock ([now_ns] reads it). *)
Record SimWorld := mkSim { g_tree : GnmiTree; ticks : nat; realtime : nat -> Z }.

Definition now_ns : ST SimWorld Z :=
  fun w => (realtime w (ticks w), mkSim (g_tree w) (S (ticks w)) (realtime w)).
Definition with_tree (f : GnmiTree -> GnmiTree) : ST SimWorld unit :=
  st_modify (fun w => mkSim (f (g_tree w)) (ticks w) (realtime w)).

Section Handlers.
Context `{GP : GnmiProto}.

Definition row_update (row : TreeEntry) : Update :=
  mkUpdate (parse_yang_path (e_xpath row)) (set_typed_value (e_value row)).

(** The loop over [req.path()]: the notifications so far and [found]. *)
Fixpoint get_paths (ps : list Path) (resp : list Notification) (found : nat)
  : ST SimWorld (list Notification * nat) :=
  match ps with
  | [] => st_ret (resp, found)
  | p :: r =>
      let x := path_to_string p in
      let* rows := st_gets (fun w => tree_lookup x (g_tree w)) in
      let* t := now_ns in
      get_paths r (resp ++ [mkNotification t (row_update <$> rows)])
                (found + length rows)
  end.

Definition handle_get (req_pb : string) : ST SimWorld (Z * string) :=
  match par_GetRequest req_pb with
  | None => st_ret (3%Z, "")
  | Some req =>
      let* out := get_paths (gr_path req) [] 0 in
      let '(resp, found) := out in
      if (0 <? length (gr_path req))%nat && (found =? 0)%nat then st_ret (5%Z, "")
      else st_ret (0%Z, ser_GetResponse (mkGetResponse resp))
  end.

Fixpoint set_updates (us : list Update) (resp : list UpdateResult)
  : ST SimWorld (list UpdateResult) :=
  match us with
  | [] => st_ret resp
  | u :: r =>
      let x := path_to_string (u_path u) in
      let v := typed_value_to_string (u_val u) in
      with_tree (tree_set x v) >>> set_updates r (resp ++ [mkUpdateResult (u_path u) UPDATE])
  end.
Fixpoint set_replaces (us : list Update) (resp : list UpdateResult)
  : ST SimWorld (list UpdateResult) :=
  match us with
  | [] => st_ret resp
  | u :: r =>
      let x := path_to_string (u_path u) in
      let v := typed_value_to_string (u_val u) in
      with_tree (fun t => (tree_erase x t).1) >>> with_tree (tree_set x v) >>>
      set_replaces r (resp ++ [mkUpdateResult (u_path u) REPLACE])
  end.
Fixpoint set_deletes (ds : list Path) (resp : list UpdateResult)
  : ST SimWorld (list UpdateResult) :=
  match ds with
  | [] => st_ret resp
  | d :: r =>
      let x := path_to_string d in
      with_tree (fun t => (tree_erase x t).1) >>>
      set_deletes r (resp ++ [mkUpdateResult d DELETE])
  end.

Definition handle_set (req_pb : string) : ST SimWorld (Z * string) :=
  match par_SetRequest req_pb with
  | None => st_ret (3%Z, "")
  | Some req =>
      let role := sr_target req in
      if negb (String.eqb role "ADMIN") then st_ret (7%Z, "")
      else
        let* t := now_ns in
        let* r1 := set_updates (sr_update req) [] in
        let* r2 := set_replaces (sr_replace req) r1 in
        let* r3 := set_deletes (sr_delete req) r2 in
        st_ret (0%Z, ser_SetResponse (mkSetResponse t r3))
  end.
End Handlers.

(** ** The seed file

    [lua_file] hands the loaded file over as tables of scalars; a Lua number is
    a C++ [double], of which the loader uses the casts and [std::to_string]. *)

Section Seed.
Context {double : Type} (to_llong : double -> Z) (of_llong : Z -> double)
        (double_eqb : double -> double -> bool) (double_to_string : double -> string).

Inductive LuaValue :=
| LuaNil | LuaString (s : string) | LuaBool (b : bool)
| LuaInt32 (z : Z) | LuaUint32 (z : Z) | LuaDouble (d : double).
Inductive LuaEntry := LuaScalar (v : LuaValue) | LuaTable (ms : list (string * LuaEntry)).

Definition scalar_to_string (v : LuaValue) : string :=
  match v with
  | LuaString s => s
  | LuaBool b => if b then "true" else "false"
  | LuaInt32 z | LuaUint32 z => to_string z
  | LuaDouble d =>
      if double_eqb d (of_llong (to_llong d)) then to_string (to_llong d)
      else double_to_string d
  | LuaNil => ""
  end.

(** The body of the loop over the members of the table. *)
Definition seed_entry (tree : GnmiTree) (m : string * LuaEntry) : GnmiTree :=
  match m with
  | (String "/" _ as x, LuaScalar v) => tree_set x (scalar_to_string v) tree
  | _ => tree
  end.

Fixpoint member (k : string) (ms : list (string * LuaEntry)) : option LuaEntry :=
  match ms with
  | [] => None
  | (j, e) :: r => if String.eqb j k then Some e else member k r
  end.

(** [load_seed] on what [lua_file] found under the path: nothing, or the
    members of the table the file returns. The new tree, the returned flag and
    [err]. *)
Definition load_seed (path : string) (loaded : option (list (string * LuaEntry)))
    (tree : GnmiTree) : GnmiTree * (bool * string) :=
  match loaded with
  | None => (tree, (false, "cannot load Lua seed: " +:+ path))
  | Some members =>
      match member "tree" members with
      | None => (tree, (false, "seed has no `tree` table (expected: return { tree = { … } })"))
      | Some (LuaScalar _) => (tree, (false, "`tree` is not a table"))
      | Some (LuaTable tbl) => (foldl seed_entry tree tbl, (true, ""))
      end
  end.

Lemma seed_entry_ordered t m : ordered t -> ordered (seed_entry t m).
Proof.
  destruct m as [x [v | ms]]; [| by destruct x as [|[[] [] [] [] [] [] [] []] ?]].
  destruct x as [|[[] [] [] [] [] [] [] []] ?]; cbn; try done; apply put_ordered.
Qed.
Lemma load_seed_ordered path loaded t : ordered t -> ordered (load_seed path loaded t).1.
Proof.
  intros Ho; unfold load_seed; destruct loaded as [ms|]; [| done].
  destruct (member "tree" ms) as [[v | tbl]|]; cbn; [done | | done].
  revert t Ho; induction tbl as [|m tbl IH]; intros t Ho; cbn; [done |].
  by apply IH, seed_entry_ordered.
Qed.
End Seed.

(** ** Lemmas *)

Section HandlerLemmas.
Context `{GP : GnmiProto}.

Lemma exec_with_tree f w :
  g_tree (exec (with_tree f) w) = f (g_tree w).
Proof. done. Qed.

(** What a list of notifications answers, path by path. *)
Definition answers (t : GnmiTree) (p : Path) (n : Notification) : Prop :=
  n_update n = row_update <$> tree_lookup (path_to_string p) t.

Lemma get_paths_spec ps resp found w :
  exists ns, result (get_paths ps resp found) w =
    (resp ++ ns, (found + length (ps ≫= fun p => tree_lookup (path_to_string p) (g_tree w)))%nat)
    /\ Forall2 (answers (g_tree w)) ps ns
    /\ g_tree (exec (get_paths ps resp found) w) = g_tree w.
Proof.
  revert resp found w; induction ps as [|p ps IH]; intros resp found w; cbn [get_paths].
  - exists []; st_run; rewrite app_nil_r, Nat.add_0_r; by repeat constructor.
  - set (rows := tree_lookup (path_to_string p) (g_tree w)).
    set (n := mkNotification (realtime w (ticks w)) (row_update <$> rows)).
    set (w1 := mkSim (g_tree w) (S (ticks w)) (realtime w)).
    destruct (IH (resp ++ [n]) (found + length rows)%nat w1) as (ns & E & Hf & Hg).
    change (exists ns', result (get_paths ps (resp ++ [n]) (found + length rows)) w1 =
      (resp ++ ns', (found + length ((p :: ps) ≫=
         fun p => tree_lookup (path_to_string p) (g_tree w)))%nat)
      /\ Forall2 (answers (g_tree w)) (p :: ps) ns'
      /\ g_tree (exec (get_paths ps (resp ++ [n]) (found + length rows)) w1) = g_tree w).
    exists (n :: ns); rewrite E; split_and!; [| by constructor | exact Hg].
    rewrite <- app_assoc; cbn [app mbind list_bind]. f_equal.
    rewrite List.length_app; fold rows; cbn [g_tree w1]; lia.
Qed.
End HandlerLemmas.

Section SetLemmas.
Context `{GP : GnmiProto}.

Definition decoded (u : Update) : string * string :=
  (path_to_string (u_path u), typed_value_to_string (u_val u)).
Definition apply_update (t : GnmiTree) (u : Update) : GnmiTree :=
  tree_set (decoded u).1 (decoded u).2 t.
Definition apply_delete (t : GnmiTree) (p : Path) : GnmiTree :=
  (tree_erase (path_to_string p) t).1.
Definition apply_replace (t : GnmiTree) (u : Update) : GnmiTree :=
  apply_update (apply_delete t (u_path u)) u.

(** The tree and the answer of an accepted SetRequest. *)
Definition tree_after (req : SetRequest) (t : GnmiTree) : GnmiTree :=
  foldl apply_delete (foldl apply_replace (foldl apply_update t (sr_update req))
                        (sr_replace req)) (sr_delete req).
Definition results_of (req : SetRequest) : list UpdateResult :=
  ((fun u => mkUpdateResult (u_path u) UPDATE) <$> sr_update req) ++
  ((fun u => mkUpdateResult (u_path u) REPLACE) <$> sr_replace req) ++
  ((fun d => mkUpdateResult d DELETE) <$> sr_delete req).

Lemma set_updates_spec us resp w :
  result (set_updates us resp) w = resp ++ ((fun u => mkUpdateResult (u_path u) UPDATE) <$> us) /\
  g_tree (exec (set_updates us resp) w) = foldl apply_update (g_tree w) us.
Proof.
  revert resp w; induction us as [|u us IH]; intros resp w; cbn [set_updates].
  - st_run; by rewrite app_nil_r.
  - st_run. destruct (IH (resp ++ [mkUpdateResult (u_path u) UPDATE])
      (exec (with_tree (tree_set (path_to_string (u_path u)) (typed_value_to_string (u_val u)))) w))
      as [-> ->]. by rewrite <- app_assoc.
Qed.
Lemma set_replaces_spec us resp w :
  result (set_replaces us resp) w = resp ++ ((fun u => mkUpdateResult (u_path u) REPLACE) <$> us) /\
  g_tree (exec (set_replaces us resp) w) = foldl apply_replace (g_tree w) us.
Proof.
  revert resp w; induction us as [|u us IH]; intros resp w; cbn [set_replaces].
  - st_run; by rewrite app_nil_r.
  - st_run. match goal with |- context [set_replaces us ?r] => 
      match goal with |- context [result (set_replaces us r) ?w'] => destruct (IH r w') as [-> ->] end end.
    by rewrite <- app_assoc.
Qed.
Lemma set_deletes_spec ds resp w :
  result (set_deletes ds resp) w = resp ++ ((fun d => mkUpdateResult d DELETE) <$> ds) /\
  g_tree (exec (set_deletes ds resp) w) = foldl apply_delete (g_tree w) ds.
Proof.
  revert resp w; induction ds as [|d ds IH]; intros resp w; cbn [set_deletes].
  - st_run; by rewrite app_nil_r.
  - st_run. match goal with |- context [result (set_deletes ds ?r) ?w'] =>
      destruct (IH r w') as [-> ->] end. by rewrite <- app_assoc.
Qed.

Lemma handle_set_accepted pb req w :
  par_SetRequest pb = Some req -> sr_target req = "ADMIN" ->
  result (handle_set pb) w =
    (0%Z, ser_SetResponse (mkSetResponse (realtime w (ticks w)) (results_of req))) /\
  g_tree (exec (handle_set pb) w) = tree_after req (g_tree w).
Proof.
  intros E Er; unfold handle_set; rewrite E, Er; cbn [String.eqb negb Ascii.eqb Bool.eqb].
  st_run. set (w1 := exec now_ns w).
  destruct (set_updates_spec (sr_update req) [] w1) as [-> E1].
  destruct (set_replaces_spec (sr_replace req)
    ([] ++ ((fun u => mkUpdateResult (u_path u) UPDATE) <$> sr_update req))
    (exec (set_updates (sr_update req) []) w1)) as [-> E2].
  match goal with |- context [result (set_deletes ?ds ?r) ?w'] =>
    destruct (set_deletes_spec ds r w') as [-> E3] end.
  rewrite E3, E2, E1. unfold results_of; rewrite <- !app_assoc; done.
Qed.

Lemma apply_updates_gmap us t :
  to_gmap (foldl apply_update t us) =
  foldl (fun g u => <[(decoded u).1 := (decoded u).2]> g) (to_gmap t) us.
Proof.
  revert t; induction us as [|u us IH]; intros t; cbn [foldl]; [done |].
  rewrite IH; unfold apply_update, tree_set; by rewrite put_gmap.
Qed.

Lemma tree_after_ordered req t : ordered t -> ordered (tree_after req t).
Proof.
  assert (Hd : forall t p, ordered t -> ordered (apply_delete t p))
    by (intros; by apply tree_erase_ordered).
  assert (Hu : forall t u, ordered t -> ordered (apply_update t u))
    by (intros; by apply put_ordered).
  assert (Hr : forall t u, ordered t -> ordered (apply_replace t u))
    by (intros; by apply Hu, Hd).
  assert (Hf : forall A (f : GnmiTree -> A -> GnmiTree) l t,
    (forall t a, ordered t -> ordered (f t a)) -> ordered t -> ordered (foldl f t l)).
  { intros A f l; induction l; cbn; auto. }
  intros Ho; unfold tree_after; auto.
Qed.
(** A deleted path holds no leaf afterwards. *)
Lemma apply_deletes_none ds t p :
  ordered t -> p ∈ ds -> to_gmap (foldl apply_delete t ds) !! path_to_string p = None.
Proof.
  assert (Hno : forall ds t k, ordered t -> to_gmap t !! k = None ->
            to_gmap (foldl apply_delete t ds) !! k = None).
  { clear; intros ds; induction ds as [|d ds IH]; intros t k Ho Hk; cbn; [done |].
    apply IH; [by apply tree_erase_ordered |]. unfold apply_delete.
    rewrite tree_erase_gmap by done. repeat case_match; done. }
  revert t; induction ds as [|d ds IH]; intros t Ho Hp; [by apply elem_of_nil in Hp |]; cbn.
  assert (ordered (apply_delete t d)) by by apply tree_erase_ordered.
  apply elem_of_cons in Hp as [-> | Hp]; [| by apply IH].
  apply Hno; [done |]. unfold apply_delete; rewrite tree_erase_gmap by done.
  destruct (to_gmap t !! path_to_string d) eqn:E; [by rewrite decide_True |].
  by case_match.
Qed.
End SetLemmas.

(** ** Properties of the handlers *)

(** what a Get request answers. A body that does not decode is INVALID_ARGUMENT
    (3); a request for at least one path of which none denotes a leaf is
    NOT_FOUND (5); any other answer has status 0 and decodes to one notification
    per requested path, in order, carrying exactly the leaves the tree holds for
    that path, in key order. The tree is never changed. *)
Theorem handle_get_answers `{GP : GnmiProto} (canonical : string -> Prop)
    `{!WireLaws canonical} (pb : string) (w : SimWorld) :
  g_tree (exec (handle_get pb) w) = g_tree w /\
  match par_GetRequest pb with
  | None => result (handle_get pb) w = (3%Z, "")
  | Some req =>
      let found := gr_path req ≫= fun p => tree_lookup (path_to_string p) (g_tree w) in
      if bool_decide (gr_path req <> [] /\ found = [])
      then result (handle_get pb) w = (5%Z, "")
      else exists body ns, result (handle_get pb) w = (0%Z, body) /\
        par_GetResponse body = Some (mkGetResponse ns) /\
        Forall2 (answers (g_tree w)) (gr_path req) ns
  end.
Proof.
  unfold handle_get. destruct (par_GetRequest pb) as [req|]; [| done].
  destruct (get_paths_spec (gr_path req) [] 0 w) as (ns & E & Hf & Hg).
  st_run; rewrite E; cbn [app Nat.add]. split.
  { destruct (_ && _); st_run; done. }
  set (found := gr_path req ≫= _).
  destruct (gr_path req) as [|p ps] eqn:Ep.
  - cbn [length Nat.ltb Nat.leb andb]. rewrite bool_decide_eq_false_2 by (intros [? _]; done).
    exists (ser_GetResponse (mkGetResponse ns)), ns.
    by rewrite par_ser_GetResponse.
  - cbn [length Nat.ltb Nat.leb andb]. destruct found as [|e es]; cbn [length Nat.eqb].
    + by rewrite bool_decide_eq_true_2.
    + rewrite bool_decide_eq_false_2 by (intros [_ ?]; done).
      exists (ser_GetResponse (mkGetResponse ns)), ns.
      by rewrite par_ser_GetResponse.
Qed.

(** what a Set request does. Nothing but the exact role ADMIN changes the tree:
    a body that does not decode answers 3, any other role 7, and both leave the
    whole server untouched. An accepted request answers status 0 with one result
    per operation, updates then replaces then deletes, each in the request's
    order; afterwards no deleted path is a leaf, and when the request only
    updates the tree is the old one overwritten by the updates in order. *)
Theorem handle_set_effect `{GP : GnmiProto} (canonical : string -> Prop)
    `{!WireLaws canonical} (pb : string) (w : SimWorld) (Ho : ordered (g_tree w)) :
  let w' := exec (handle_set pb) w in
  let r := result (handle_set pb) w in
  ordered (g_tree w') /\
  match par_SetRequest pb with
  | None => w' = w /\ r = (3%Z, "")
  | Some req =>
      if String.eqb (sr_target req) "ADMIN" then
        r.1 = 0%Z /\
        par_SetResponse r.2 = Some (mkSetResponse (realtime w (ticks w)) (results_of req)) /\
        (forall p, p ∈ sr_delete req -> to_gmap (g_tree w') !! path_to_string p = None) /\
        (sr_replace req = [] -> sr_delete req = [] ->
         to_gmap (g_tree w') =
         foldl (fun g u => <[(decoded u).1 := (decoded u).2]> g) (to_gmap (g_tree w))
               (sr_update req))
      else w' = w /\ r = (7%Z, "")
  end.
Proof.
  cbv zeta. destruct (par_SetRequest pb) as [req|] eqn:E;
    [| unfold handle_set; rewrite E; st_run; done].
  destruct (String.eqb_spec (sr_target req) "ADMIN") as [Er | Er].
  - destruct (handle_set_accepted pb req w E Er) as [-> ->]; cbn [fst snd].
    assert (Ht := fun r => tree_after_ordered r (g_tree w) Ho).
    split_and!; [apply Ht | done | apply par_ser_SetResponse | |].
    + intros p Hp. unfold tree_after. apply apply_deletes_none; [| done].
      apply (Ht (mkSetRequest "" (sr_update req) (sr_replace req) [])).
    + intros Hr Hd; unfold tree_after; rewrite Hr, Hd; apply apply_updates_gmap.
  - unfold handle_set; rewrite E. apply String.eqb_neq in Er; rewrite Er; st_run; done.
Qed.

(** ** Client and server together *)

(** The client's RPCs reach the two registered handlers and their status and
    bytes come back; [send_unary_response] sends no grpc-message. *)
Class Loopback `{GP : GnmiProto} `{GC : GnmiClient SimWorld} (h : string) (p : Z) := {
  loop_get : forall pb, call h p "/gnmi.gNMI/Get" pb ≋
    (let* a := handle_get pb in st_ret (mkResponse a.1 "" a.2));
  loop_set : forall pb, call h p "/gnmi.gNMI/Set" pb ≋
    (let* a := handle_set pb in st_ret (mkResponse a.1 "" a.2))
}.

Section EndToEnd.
Context `{GP : GnmiProto} {GC : GnmiClient SimWorld}.
Context (canonical : string -> Prop) `{!WireLaws canonical}.
Context (cfg : SinkConfig) `{!Loopback (host cfg) (port cfg)}.

Definition set_body (us : list (string * string)) : SetRequest :=
  mkSetRequest (set_role cfg)
    ((fun xv => mkUpdate (parse_yang_path xv.1) (set_typed_value xv.2)) <$> us) [] [].

Lemma decoded_mk x v :
  canonical x -> decoded (mkUpdate (parse_yang_path x) (set_typed_value v)) = (x, v).
Proof.
  intros; unfold decoded; cbn. by rewrite path_roundtrip, typed_value_roundtrip.
Qed.
Lemma decoded_updates (us : list (string * string)) g :
  Forall canonical us.*1 ->
  foldl (fun (g : gmap string string) u => <[(decoded u).1 := (decoded u).2]> g) g
    ((fun xv => mkUpdate (parse_yang_path xv.1) (set_typed_value xv.2)) <$> us) =
  foldl (fun g xv => <[xv.1 := xv.2]> g) g us.
Proof.
  revert g; induction us as [|[x v] us IH]; intros g Hc; [done |].
  apply Forall_cons in Hc as [Hx Hc]; rewrite fmap_cons; cbn [foldl].
  rewrite decoded_mk by done. by apply IH.
Qed.

Lemma loop_get_out pb w :
  let a := result (handle_get pb) w in
  result (call (host cfg) (port cfg) "/gnmi.gNMI/Get" pb) w = mkResponse a.1 "" a.2 /\
  exec (call (host cfg) (port cfg) "/gnmi.gNMI/Get" pb) w = exec (handle_get pb) w.
Proof.
  unfold result at 2, exec at 1; rewrite (loop_get pb w). unfold st_bind, result, exec.
  by destruct (handle_get pb w).
Qed.
Lemma loop_set_out pb w :
  let a := result (handle_set pb) w in
  result (call (host cfg) (port cfg) "/gnmi.gNMI/Set" pb) w = mkResponse a.1 "" a.2 /\
  exec (call (host cfg) (port cfg) "/gnmi.gNMI/Set" pb) w = exec (handle_set pb) w.
Proof.
  unfold result at 2, exec at 1; rewrite (loop_set pb w). unfold st_bind, result, exec.
  by destruct (handle_set pb w).
Qed.

Lemma loop_set_run us w :
  let r := result (local_set cfg us) w in
  let w' := exec (local_set cfg us) w in
  Forall canonical us.*1 ->
  if String.eqb (set_role cfg) "ADMIN" then
    ok r = true /\ to_gmap (g_tree w') =
      foldl (fun g xv => <[xv.1 := xv.2]> g) (to_gmap (g_tree w)) us
  else r = mkGnmiResult false 7 "" [] /\ w' = w.
Proof.
  cbv zeta; intros Hc. unfold local_set. fold (set_body us).
  set (pb := ser_SetRequest (set_body us)).
  assert (E : par_SetRequest pb = Some (set_body us)) by apply par_ser_SetRequest.
  st_run. destruct (loop_set_out pb w) as [-> ->].
  destruct (String.eqb_spec (set_role cfg) "ADMIN") as [Er | Er].
  - destruct (handle_set_accepted pb (set_body us) w E Er) as [-> Hw]; cbn.
    rewrite par_ser_SetResponse; cbn; split; [done |].
    st_run; rewrite Hw; unfold tree_after, set_body; cbn [sr_update sr_replace sr_delete foldl].
    by rewrite apply_updates_gmap, decoded_updates.
  - apply String.eqb_neq in Er. unfold handle_set; rewrite E; cbn; rewrite Er; cbn. done.
Qed.

Lemma lookup_leaf t x v : to_gmap t !! x = Some v -> tree_lookup x t = [mkEntry x v].
Proof. unfold tree_lookup; rewrite find_gmap; by intros ->. Qed.

(** A write is what the next read returns, end to end through the request
    bytes, the server's handlers and the answer bytes. When the client is
    configured with the server's admin role, a SET of any list of canonical
    paths is ok, and a GET of a path off the denylist then answers the one row
    with the last value written to it. With any other role the SET fails with
    PERMISSION_DENIED and the server is untouched. *)
Theorem set_then_get (us a b : list (string * string)) (x v : string) (w : SimWorld)
    (Hc : Forall canonical us.*1)
    (Hus : us = a ++ (x, v) :: b) (Hlast : x ∉ b.*1)
    (Hpub : is_sensitive_path x (deny_of cfg) = false) :
  let w1 := exec (local_set cfg us) w in
  if String.eqb (set_role cfg) "ADMIN" then
    ok (result (local_set cfg us) w) = true /\
    result (local_get cfg [x]) w1 = mkGnmiResult true 0 "" [mkRow x v ""]
  else result (local_set cfg us) w = mkGnmiResult false 7 "" [] /\ w1 = w.
Proof.
  cbv zeta. assert (Hset := loop_set_run us w Hc); cbv zeta in Hset.
  destruct (String.eqb (set_role cfg) "ADMIN"); [| exact Hset].
  destruct Hset as [Hok Hg]; split; [exact Hok |].
  set (w1 := exec (local_set cfg us) w) in *.
  assert (Hx : canonical x).
  { rewrite Forall_forall in Hc; apply Hc. subst us; rewrite fmap_app; cbn; set_solver. }
  assert (Hl := lookup_leaf (g_tree w1) x v
    ltac:(rewrite Hg; by apply (last_write_wins us a b))).
  assert (Ha : allowed (deny_of cfg) [x] = [x]).
  { unfold allowed; rewrite filter_cons_True, filter_nil; done. }
  unfold result at 1; rewrite local_get_run, Ha, bool_decide_eq_false_2 by done; cbn [fst].
  set (pb := ser_GetRequest (get_request cfg [x])).
  assert (Hd : denied_rows (deny_of cfg) [x] = []).
  { unfold denied_rows, denied; rewrite filter_cons_False, filter_nil; [done |]. by rewrite Hpub. }
  destruct (loop_get_out pb w1) as [-> _]. unfold handle_get; subst pb.
  rewrite par_ser_GetRequest; unfold get_request; rewrite Ha; cbn [gr_path fmap list_fmap].
  unfold get_outcome, result; cbn [get_paths]; rewrite Hd.
  unfold st_bind, st_gets, now_ns, st_ret; cbn. rewrite path_roundtrip, Hl by done; cbn.
  rewrite par_ser_GetResponse; cbn. unfold leaf_row; cbn.
  by rewrite path_roundtrip, typed_value_roundtrip, Hpub by done.
Qed.
End EndToEnd.

(** ** Concrete runs: the plain wire, and a client wired to the handlers *)

#[local] Existing Instance plain_util.
#[local] Existing Instance plain_proto.
#[local] Existing Instance plain_wire.

Definition pp (s : string) : Path := s.
Definition tv (s : string) : TypedValue := s.

Definition loop_client : GnmiClient SimWorld :=
  fun _ _ m pb =>
    if String.eqb m "/gnmi.gNMI/Get" then
      let* a := handle_get pb in st_ret (mkResponse a.1 "" a.2)
    else if String.eqb m "/gnmi.gNMI/Set" then
      let* a := handle_set pb in st_ret (mkResponse a.1 "" a.2)
    else st_ret (mkResponse 12 "" "").
#[local] Existing Instance loop_client.

Definition loop_client_loops h p : Loopback h p.
Proof. by split. Defined.

Definition demo_world : SimWorld := mkSim demo_tree 0 (fun n => Z.of_nat n).
Definition demo_writes : list (string * string) :=
  [("/a/mtu", "1500"); ("/a/mtu", "9000"); ("/b", "x")].

Lemma set_then_get_witness :
  ok (result (local_set SinkConfig_default demo_writes) demo_world) = true /\
  result (local_get SinkConfig_default ["/a/mtu"])
    (exec (local_set SinkConfig_default demo_writes) demo_world) =
  mkGnmiResult true 0 "" [mkRow "/a/mtu" "9000" ""].
Proof.
  apply (set_then_get (fun _ => True) SinkConfig_default (Loopback0 := loop_client_loops _ _)
           demo_writes [("/a/mtu", "1500")] [("/b", "x")] "/a/mtu" "9000" demo_world);
    [repeat constructor | reflexivity | | by vm_compute].
  cbn; set_solver.
Defined.

Lemma handle_get_answers_witness :
  g_tree (exec (handle_get (ser_GetRequest (mkGetRequest "VIEWER" JSON [pp "/nope"]))) demo_world)
    = demo_tree.
Proof.
  apply (handle_get_answers (fun _ => True)
           (ser_GetRequest (mkGetRequest "VIEWER" JSON [pp "/nope"])) demo_world).
Defined.

Lemma handle_set_effect_witness :
  ordered (g_tree (exec (handle_set
    (ser_SetRequest (mkSetRequest "ADMIN" [mkUpdate (pp "/a") (tv "1")] [] [pp "/a"]))) demo_world)).
Proof.
  apply (handle_set_effect (fun _ => True)
    (ser_SetRequest (mkSetRequest "ADMIN" [mkUpdate (pp "/a") (tv "1")] [] [pp "/a"])) demo_world
    demo_tree_ordered).
Defined.

(** The client's own properties at this server. *)

Lemma local_get_request_witness :
  exists body req,
    exec (local_get SinkConfig_default ["/a"; "/user/password"]) demo_world =
      exec (call "127.0.0.1" 50051 "/gnmi.gNMI/Get" body) demo_world /\
    par_GetRequest body = Some req /\ gr_path req = [pp "/a"].
Proof.
  assert (H := local_get_request (fun _ => True) SinkConfig_default ["/a"; "/user/password"]
                 demo_world ltac:(repeat constructor)).
  rewrite bool_decide_eq_false_2 in H by by vm_compute.
  destruct H as (body & req & H1 & H2 & _ & H4 & _).
  exists body, req; split; [exact H1 | split; [exact H2 |]].
  rewrite <- (list_fmap_id (gr_path req)). etrans; [exact H4 |]. by vm_compute.
Defined.

Lemma local_set_request_witness :
  exists body req,
    par_SetRequest body = Some req /\ sr_target req = "ADMIN" /\
    (fun u => (path_to_string (u_path u), typed_value_to_string (u_val u))) <$> sr_update req =
      [("/a", "1")].
Proof.
  destruct (local_set_request (fun _ => True) SinkConfig_default [("/a", "1")] demo_world
              ltac:(repeat constructor)) as (body & req & _ & H2 & H3 & _ & _ & H6 & _).
  exists body, req; split; [exact H2 | split; [exact H3 | exact H6]].
Defined.

(** Two devices whose trees differ in a password only. *)
Definition secret_world (pw : string) : SimWorld :=
  mkSim (tree_set "/system/user[name=admin]/password" pw demo_tree) 0 (fun n => Z.of_nat n).

Lemma local_get_noninterference_witness :
  result (local_get SinkConfig_default ["/system"]) (secret_world "hunter2") =
  result (local_get SinkConfig_default ["/system"]) (secret_world "letmein").
Proof.
  apply local_get_noninterference.
  set (r1 := result _ (secret_world "hunter2")).
  set (r2 := result _ (secret_world "letmein")).
  split; [by vm_compute | split; [by vm_compute |]].
  assert (E1 : par_GetResponse (body_pb r1) = Some (mkGetResponse [mkNotification 0
    [mkUpdate (pp "/system/config/hostname") (tv "demo-router");
     mkUpdate (pp "/system/user[name=admin]/password") (tv "hunter2")]]))
    by by vm_compute.
  assert (E2 : par_GetResponse (body_pb r2) = Some (mkGetResponse [mkNotification 0
    [mkUpdate (pp "/system/config/hostname") (tv "demo-router");
     mkUpdate (pp "/system/user[name=admin]/password") (tv "letmein")]]))
    by by vm_compute.
  rewrite E1, E2. repeat constructor. intros H; by vm_compute in H.
Defined.
