(* ===== verification/SmsToDevice.v ===== *)
(** * SmsToDevice: from an SMS to the device and back

    The bridge of src/bridge.cpp, the engine, the sink of local_gnmi_sink.cpp and
    the simulated device of zt_gnmi_simd.cpp put together: what an operator's two
    messages, a SET and a GET, do and answer. *)

From S2P Require Import Prelude CString Text PathPolicy Seams GnmiCommand GnmiReply GnmiExecutor Bridge OrdMap GnmiTree GnmiWire LocalGnmiSink GnmiSimd.

(** A world that has the device in it, beside the phone network and whatever
    else a daemon has. *)
Class DeviceIn (W : Type) := {
  device : W -> SimWorld;
  set_device : SimWorld -> W -> W;
  device_set_device : forall w d, device (set_device w d) = w;
  set_device_device : forall d, set_device (device d) d = d;
  set_set_device : forall w w' d, set_device w' (set_device w d) = set_device w' d
}.

#[export] Instance pair_device {O} : DeviceIn (O * SimWorld).
Proof. refine {| device := snd; set_device := fun w d => (d.1, w) |}; [done | by intros [] | done]. Defined.

Section Device.
Context `{GP : GnmiProto} {GC : GnmiClient SimWorld}.
Context (cfg : SinkConfig) {W : Type} `{DeviceIn W}.

Definition at_device {A} (m : ST SimWorld A) : ST W A :=
  fun d => let '(a, w) := m (device d) in (a, set_device w d).
Definition device_client : GnmiClient W := fun h p m pb => at_device (call h p m pb).
Definition device_sink : GnmiSink W := @LocalGnmiSink _ _ W device_client cfg.

Lemma at_device_run {A} (m : ST SimWorld A) d :
  at_device m d = (result m (device d), set_device (exec m (device d)) d).
Proof. unfold at_device, result, exec. by destruct (m (device d)). Qed.

Lemma at_device_ret {A} (a : A) d : st_ret a d = at_device (st_ret a) d.
Proof. unfold at_device, st_ret. by rewrite set_device_device. Qed.

Lemma at_device_bind {A B} (m : ST SimWorld A) (k : A -> ST W B) (h : A -> ST SimWorld B) d :
  (forall a d, k a d = at_device (h a) d) -> st_bind (at_device m) k d = at_device (st_bind m h) d.
Proof.
  intros E. unfold st_bind, at_device. destruct (m (device d)) as [a w]. rewrite E.
  unfold at_device. rewrite device_set_device. destruct (h a w) as [b w']. by rewrite set_set_device.
Qed.

Lemma device_get xs d : @sink_get W device_sink xs d = at_device (local_get cfg xs) d.
Proof.
  cbn. unfold local_get. destruct (screen _ _ _ _ _) as [[rows req] asked].
  case_bool_decide; [apply at_device_ret |]. apply at_device_bind. intros r d'.
  destruct (rpc_ok r _) as [[] out]; cbn [negb]; [| apply at_device_ret].
  destruct (par_GetResponse (body_pb r)); apply at_device_ret.
Qed.

Lemma device_set us d : @sink_set W device_sink us d = at_device (local_set cfg us) d.
Proof.
  cbn. unfold local_set. apply at_device_bind. intros r d'.
  destruct (rpc_ok r _) as [[] out]; cbn [negb]; [| apply at_device_ret].
  destruct (par_SetResponse (body_pb r)); apply at_device_ret.
Qed.
End Device.

(** In the worlds of [I] the sink is the device's, reached with [cfg]. *)
Class SinkOn `{GP : GnmiProto} {GC : GnmiClient SimWorld} {W : Type} `{DeviceIn W}
    (cfg : SinkConfig) (I : W -> Prop) (GN : GnmiSink W) := {
  so_get : forall xs d, I d -> @sink_get W GN xs d = at_device (local_get cfg xs) d;
  so_set : forall us d, I d -> @sink_set W GN us d = at_device (local_set cfg us) d
}.
#[export] Instance device_sink_on `{GP : GnmiProto} {GC : GnmiClient SimWorld} {W : Type} `{DeviceIn W}
    (cfg : SinkConfig) (I : W -> Prop) : SinkOn cfg I (device_sink cfg).
Proof. split; intros; [apply device_get | apply device_set]. Qed.

Lemma clamp_not_empty s : s <> "" -> clamp s <> "".
Proof.
  intros Hs. unfold clamp, clamp_sms, kMaxReply. destruct (Nat.leb _ _); [done |].
  cbn [Nat.leb]. by destruct (str_take (160 - 3) s).
Qed.

(** ** One message *)

Section Line.
Context {W : Type} `{DeviceIn W} (I : W -> Prop) (out : W -> list (string * string)).

(** From a world of [I], a computation that returns [v] and touches neither the
    outbox nor the device. *)
Definition aside {A} (m : ST W A) (v : A) : Prop :=
  forall d, I d -> result m d = v /\ out (exec m d) = out d /\ device (exec m d) = device d /\ I (exec m d).

(** What stands between an operator and the device on the way in, in the worlds of
    [I]: a gate that is open to [s], and sessions that give [s] the access [a],
    neither of which reaches the device. *)
Record way_in (b : Bridge W) (s : string) (a : Access) : Prop := {
  wi_dev : forall w d, I d -> I (set_device w d) /\ out (set_device w d) = out d;
  wi_gate : aside (gate b s) true;
  wi_auth : aside (resolve_access (m_gex b) s) a
}.

(** And on the way out: a network that takes every answer that fits an SMS. *)
Record line_to {TX : ISmsTransport W} (b : Bridge W) (s : string) (a : Access) : Prop := {
  ln_in : way_in b s a;
  ln_send : forall t d, (String.length t <= kMaxReply)%nat -> I d ->
    out (exec (tx_send s t) d) = out d ++ [(s, t)] /\
    device (exec (tx_send s t) d) = device d /\ I (exec (tx_send s t) d)
}.

(** What the engine does past the session lookup: the reply and the device. *)
Definition answers_with {GN : GnmiSink W} (s : string) (a : Access) (cmd : GnmiCommand)
    (w : SimWorld) (reply : string) (w' : SimWorld) : Prop :=
  forall d, I d -> device d = w ->
    let m := handle (Some (fun _ => st_ret a)) cmd s in
    result m d = reply /\ out (exec m d) = out d /\ device (exec m d) = w' /\ I (exec m d).

Context {GN : GnmiSink W} (b : Bridge W) (s : string) (a : Access).

(** A gnmi message, over any network and whatever the fallback: what is left to do
    is to send the reply. *)
Lemma on_sms_reply (Hway : way_in b s a) i cmd reply w' d :
  sender i = s -> parse_gnmi (tokens_of b (text i)) = cmd -> kind cmd <> NotGnmi ->
  answers_with s a cmd (device d) reply w' -> reply <> "" -> I d ->
  exists d', out d' = out d /\ device d' = w' /\ I d' /\
    forall (TX : ISmsTransport W) fb,
      exec (@on_sms W TX GN (mkBridge (m_gex b) (m_tok b) fb (m_allow b)) i) d =
      exec (tx_send s reply) d'.
Proof.
  intros Hs Hp Hk Ha Hr Hi.
  destruct (wi_gate _ _ _ Hway d Hi) as (Eg & Hg1 & Hg2 & Hi1). set (d1 := exec (gate b s) d) in *.
  destruct (wi_auth _ _ _ Hway d1 Hi1) as (Hacc & Hl1 & Hl2 & Hi2).
  set (d2 := exec (resolve_access (m_gex b) s) d1) in *.
  assert (handle (m_gex b) cmd s d1 = handle (Some (fun _ => st_ret a)) cmd s d2) as Hh.
  { rewrite (handle_run (m_gex b) cmd s d1 a d2), (handle_run _ cmd s d2 a d2); [done | done |].
    by rewrite (run_split (resolve_access (m_gex b) s)), Hacc. }
  destruct (Ha d2 Hi2 ltac:(congruence)) as (E1 & E2 & E3 & Hi3). cbv zeta in *.
  exists (exec (handle (Some (fun _ => st_ret a)) cmd s) d2).
  split_and!; [congruence | done | done |]. intros TX fb. set (b' := mkBridge _ _ fb _).
  unfold on_sms. change (tokens_of b') with (tokens_of b). change (gate b') with (gate b).
  change (m_gex b') with (m_gex b). rewrite Hs, Hp. st_run. rewrite Eg. fold d1. cbn [negb].
  rewrite bool_decide_false by done. cbn [negb]. st_run.
  assert (result (handle (m_gex b) cmd s) d1 = reply) as -> by (unfold result in *; by rewrite Hh).
  assert (exec (handle (m_gex b) cmd s) d1 = exec (handle (Some (fun _ => st_ret a)) cmd s) d2) as ->
    by (unfold exec; by rewrite Hh).
  unfold send_nonempty. rewrite (proj2 (String.eqb_neq reply "") Hr). by st_run.
Qed.

Lemma on_sms_turn {TX : ISmsTransport W} (Hline : line_to b s a) i cmd reply w' d :
  sender i = s -> parse_gnmi (tokens_of b (text i)) = cmd -> kind cmd <> NotGnmi ->
  answers_with s a cmd (device d) reply w' -> reply <> "" -> (String.length reply <= kMaxReply)%nat -> I d ->
  out (exec (on_sms b i) d) = out d ++ [(s, reply)] /\ device (exec (on_sms b i) d) = w'
  /\ I (exec (on_sms b i) d).
Proof.
  intros Hs Hp Hk Ha Hr Hl Hi.
  destruct (on_sms_reply (ln_in _ _ _ Hline) i cmd reply w' d) as (d' & <- & <- & Hi' & E); try done.
  specialize (E TX (m_fallback b)). destruct b as [g tk fb al]. cbn [m_gex m_tok m_allow m_fallback] in E.
  rewrite E. by destruct (ln_send _ _ _ Hline reply d' Hl Hi').
Qed.
End Line.

(** ** The engine's answers *)

Section Answers.
Context `{GP : GnmiProto} {GC : GnmiClient SimWorld} (cfg : SinkConfig).
Context {W : Type} `{DeviceIn W} (I : W -> Prop) (out : W -> list (string * string)) (s : string).
Context {GN : GnmiSink W} `{SO : !SinkOn cfg I GN}.
Context (Hdev : forall w d, I d -> I (set_device w d) /\ out (set_device w d) = out d).

Lemma at_device_aside {A} (m : ST SimWorld A) d :
  I d -> out (exec (at_device m) d) = out d /\ device (exec (at_device m) d) = exec m (device d) /\
  I (exec (at_device m) d).
Proof using Hdev.
  intros Hi. unfold exec at 1 2 4. rewrite at_device_run. cbn. rewrite device_set_device.
  by destruct (Hdev (exec m (device d)) d Hi).
Qed.

Lemma set_answers us w :
  answers_with I out s Admin (mkCommand Set_ [] us "") w
    (format_set (result (local_set cfg us) w) (length us)) (exec (local_set cfg us) w).
Proof using Hdev SO.
  intros d Hi <- m. destruct (at_device_aside (local_set cfg us) d Hi) as (E1 & E2 & E3).
  assert (m d = (format_set (result (local_set cfg us) (device d)) (length us),
                 exec (at_device (local_set cfg us)) d)) as E.
  { unfold m. rewrite (handle_run _ _ s d Admin d) by done. cbn [kind updates].
    rewrite decide_True by done. unfold result at 1, exec at 1. rewrite (so_set us d Hi), at_device_run. cbn.
    unfold exec at 2. by rewrite at_device_run. }
  unfold result at 1, exec at 1 2 4. rewrite E. by split_and!.
Qed.

Lemma get_answers x w a :
  a <> AccessNone ->
  answers_with I out s a (mkCommand Get [x] [] "") w
    (format_get (result (local_get cfg [x]) w)) (exec (local_get cfg [x]) w).
Proof using Hdev SO.
  intros Ha d Hi <- m. destruct (at_device_aside (local_get cfg [x]) d Hi) as (E1 & E2 & E3).
  assert (m d = (format_get (result (local_get cfg [x]) (device d)),
                 exec (at_device (local_get cfg [x])) d)) as E.
  { unfold m. rewrite (handle_run _ _ s d a d) by done. cbn [kind xpaths].
    rewrite decide_False by done. unfold result at 1, exec at 1. rewrite (so_get [x] d Hi), at_device_run. cbn.
    unfold exec at 2. by rewrite at_device_run. }
  unfold result at 1, exec at 1 2 4. rewrite E. by split_and!.
Qed.

Lemma set_refused us w a :
  a <> Admin ->
  answers_with I out s a (mkCommand Set_ [] us "") w
    (clamp "ERR GNMI SET admin login required") w.
Proof.
  intros Ha d Hi <- m.
  assert (m d = (clamp "ERR GNMI SET admin login required", d)) as E.
  { unfold m. rewrite (handle_run _ _ s d a d) by done. cbn [kind updates]. by rewrite decide_False. }
  unfold result, exec. rewrite E. by split_and!.
Qed.
End Answers.

(** ** Two messages *)

(** The replies an admin gets to a SET and then a GET of one of its paths. *)
Definition set_reply (us : list (string * string)) : string :=
  clamp ("OK GNMI SET " +:+ to_string (Z.of_nat (length us)) +:+ " path(s) updated").
Definition get_reply (x v : string) : string := clamp ("OK GNMI GET " +:+ x +:+ "=" +:+ v).

Lemma admin_answers `{GP : GnmiProto} {GC : GnmiClient SimWorld} {canonical : string -> Prop}
    `{!WireLaws canonical} (cfg : SinkConfig) `{!Loopback (host cfg) (port cfg)}
    (us us1 us2 : list (string * string)) (x v : string) (w : SimWorld)
    (Hc : Forall canonical us.*1) (Hus : us = us1 ++ (x, v) :: us2) (Hlast : x ∉ us2.*1)
    (Hpub : is_sensitive_path x (deny_of cfg) = false) (Hrole : set_role cfg = "ADMIN") :
  exists w1 w2, forall (W : Type) (HW : DeviceIn W) (I : W -> Prop) (out : W -> list (string * string)) (s : string)
      (GN : GnmiSink W), SinkOn cfg I GN ->
    (forall w d, I d -> I (set_device w d) /\ out (set_device w d) = out d) ->
    answers_with I out s Admin (mkCommand Set_ [] us "") w (set_reply us) w1 /\
    answers_with I out s Admin (mkCommand Get [x] [] "") w1 (get_reply x v) w2.
Proof.
  pose proof (set_then_get canonical cfg us us1 us2 x v w Hc Hus Hlast Hpub) as Hr.
  cbv zeta in Hr. rewrite (proj2 (String.eqb_eq _ _) Hrole) in Hr. destruct Hr as [Hok Hrow].
  exists (exec (local_set cfg us) w), (exec (local_get cfg [x]) (exec (local_set cfg us) w)).
  intros W HW I out s GN SO Hdev. pose proof (set_answers cfg I out s Hdev us w) as H1.
  pose proof (get_answers cfg I out s Hdev x (exec (local_set cfg us) w) Admin ltac:(done)) as H2.
  unfold format_set in H1. rewrite Hok in H1. by rewrite Hrow in H2.
Qed.

(** A line to the device is enough for the two messages. *)
Lemma line_set_then_get `{GP : GnmiProto} {GC : GnmiClient SimWorld} {canonical : string -> Prop}
    `{!WireLaws canonical} (cfg : SinkConfig) `{!Loopback (host cfg) (port cfg)}
    {W : Type} `{DeviceIn W} {I : W -> Prop} {out : W -> list (string * string)} {TX : ISmsTransport W}
    {GN : GnmiSink W} `{SO : !SinkOn cfg I GN}
    (b : Bridge W) (s : string) (a : Access) (Hline : line_to I out b s a)
    (i1 i2 : InboundSms) (us us1 us2 : list (string * string)) (x v : string) (d : W) (Hi : I d)
    (Hs1 : sender i1 = s) (Hs2 : sender i2 = s)
    (Hset : gnmi_msg (tokens_of b (text i1)) (mkCommand Set_ [] us ""))
    (Hget : gnmi_msg (tokens_of b (text i2)) (mkCommand Get [x] [] ""))
    (Hc : Forall canonical us.*1) (Hus : us = us1 ++ (x, v) :: us2) (Hlast : x ∉ us2.*1)
    (Hpub : is_sensitive_path x (deny_of cfg) = false) (Hrole : set_role cfg = "ADMIN") :
  let d1 := exec (on_sms b i1) d in
  let d2 := exec (on_sms b i2) d1 in
  if decide (a = Admin) then
    out d2 = out d ++
      [(s, clamp ("OK GNMI SET " +:+ to_string (Z.of_nat (length us)) +:+ " path(s) updated"));
       (s, clamp ("OK GNMI GET " +:+ x +:+ "=" +:+ v))]
  else device d1 = device d /\ out d1 = out d ++ [(s, clamp "ERR GNMI SET admin login required")].
Proof.
  intros d1 d2. apply parse_gnmi_grammar in Hset, Hget.
  pose proof (on_sms_turn I out b s a Hline) as Hturn.
  pose proof (wi_dev _ _ _ _ _ (ln_in _ _ _ _ _ Hline)) as Hdev.
  case_decide as Ha.
  - subst a. destruct (admin_answers cfg us us1 us2 x v (device d) Hc Hus Hlast Hpub Hrole) as (w1 & w2 & A).
    destruct (A W _ I out s GN SO Hdev) as [A1 A2].
    destruct (Hturn i1 _ _ _ d Hs1 Hset ltac:(done) A1 ltac:(by apply clamp_not_empty) (length_clamp _) Hi)
      as (E1 & E2 & Hi1). fold d1 in E1, E2, Hi1. rewrite <- E2 in A2.
    destruct (Hturn i2 _ _ _ d1 Hs2 Hget ltac:(done) A2 ltac:(by apply clamp_not_empty) (length_clamp _) Hi1)
      as (E3 & _). unfold d2. by rewrite E3, E1, <- app_assoc.
  - by destruct (Hturn i1 _ _ _ d Hs1 Hset ltac:(done) (set_refused I out s us (device d) a Ha)
      ltac:(by apply clamp_not_empty) (length_clamp _) Hi) as (E1 & E2 & _).
Qed.

(** C2: Provisioning by SMS works. Over any network, tokenizer and session store
    that do what their interfaces say, any codecs that round-trip and the
    device's own handlers: when an admin texts a SET of any list of paths and
    then a GET of one of them that is not on the denylist, the two replies are
    that so many paths were updated and that the path has the last value the
    first message gave it, the sink's role for SETs being the one the device asks
    for, as it is by default. When the sender is no admin the SET is refused by
    SMS and the device is as it was. *)
Theorem sms_set_then_get `{GP : GnmiProto} {GC : GnmiClient SimWorld} {canonical : string -> Prop}
    `{!WireLaws canonical} (cfg : SinkConfig) `{!Loopback (host cfg) (port cfg)}
    {W : Type} `{DeviceIn W} {I : W -> Prop} {out : W -> list (string * string)} {TX : ISmsTransport W}
    (b : Bridge W) (s : string) (a : Access) (Hline : line_to I out b s a)
    (i1 i2 : InboundSms) (us us1 us2 : list (string * string)) (x v : string) (d : W) (Hi : I d)
    (Hs1 : sender i1 = s) (Hs2 : sender i2 = s)
    (Hset : gnmi_msg (tokens_of b (text i1)) (mkCommand Set_ [] us ""))
    (Hget : gnmi_msg (tokens_of b (text i2)) (mkCommand Get [x] [] ""))
    (Hc : Forall canonical us.*1) (Hus : us = us1 ++ (x, v) :: us2) (Hlast : x ∉ us2.*1)
    (Hpub : is_sensitive_path x (deny_of cfg) = false) (Hrole : set_role cfg = "ADMIN") :
  let d1 := exec (@on_sms _ TX (device_sink cfg) b i1) d in
  let d2 := exec (@on_sms _ TX (device_sink cfg) b i2) d1 in
  if decide (a = Admin) then
    out d2 = out d ++
      [(s, clamp ("OK GNMI SET " +:+ to_string (Z.of_nat (length us)) +:+ " path(s) updated"));
       (s, clamp ("OK GNMI GET " +:+ x +:+ "=" +:+ v))]
  else device d1 = device d /\ out d1 = out d ++ [(s, clamp "ERR GNMI SET admin login required")].
Proof. by apply (line_set_then_get (GN := device_sink cfg) cfg b s a Hline i1 i2 us us1 us2 x v d). Qed.

(** ** A conversation *)

#[local] Existing Instance plain_util.
#[local] Existing Instance plain_proto.
#[local] Existing Instance plain_wire.
#[local] Existing Instance loop_client.

(** A network that records, and an admin's session. *)
Definition demo_net : ISmsTransport (list (string * string) * SimWorld) :=
  {| tx_send := fun to t d => (true, (d.1 ++ [(to, t)], d.2)); tx_start := fun _ => st_ret tt |}.
Definition demo_bridge : Bridge (list (string * string) * SimWorld) :=
  mkBridge (Some (fun _ => st_ret Admin)) (Some ws_tokenize) None None.
Definition demo_sms (t : string) : InboundSms := mkInboundSms "+15551230000" t "0".

Lemma demo_line : line_to (TX := demo_net) (fun _ => True) fst demo_bridge "+15551230000" Admin.
Proof. by split. Qed.

Lemma sms_set_then_get_witness :
  let run t := exec (@on_sms _ demo_net (device_sink SinkConfig_default) demo_bridge (demo_sms t)) in
  (run "iot gnmi get /a/mtu" (run "IOT GNMI SET /a/mtu,/b 9000,x" ([], demo_world))).1 =
  [("+15551230000", "OK GNMI SET 2 path(s) updated"); ("+15551230000", "OK GNMI GET /a/mtu=9000")].
Proof.
  intros run.
  apply (sms_set_then_get SinkConfig_default (Loopback0 := loop_client_loops _ _) demo_bridge
           "+15551230000" Admin demo_line (demo_sms "IOT GNMI SET /a/mtu,/b 9000,x")
           (demo_sms "iot gnmi get /a/mtu") [("/a/mtu", "9000"); ("/b", "x")] [] [("/b", "x")]
           "/a/mtu" "9000" ([], demo_world) I); try done.
  - apply parse_gnmi_grammar. reflexivity.
  - apply parse_gnmi_grammar. reflexivity.
  - by repeat constructor.
  - cbn. set_solver.
Defined.
