(* ===== verification/Secrets.v ===== *)
(** * Secrets: what an operator can learn of a device's secrets

    Two devices (sim/zt_gnmi_simd.cpp) whose trees differ in nothing but the values
    of leaves on the sink's denylist, behind the same bridge (src/bridge.cpp), engine
    (src/gnmi_executor.cpp) and sink (src/local_gnmi_sink.cpp): no conversation by SMS
    tells them apart.  [blind] is the two-run property that makes the proof
    compositional; the handlers, the sink, the engine and the bridge have it one
    after the other. *)

From S2P Require Import Prelude CString PathPolicy Seams GnmiCommand GnmiReply GnmiExecutor Bridge OrdMap GnmiTree GnmiWire LocalGnmiSink GnmiSimd SmsToDevice.

(** ** Computations that cannot tell two worlds apart *)

(** From worlds [R] does not tell apart the same result, and again such worlds. *)
Definition blind {W A : Type} (R : relation W) (m : ST W A) : Prop :=
  forall w1 w2, R w1 w2 -> result m w1 = result m w2 /\ R (exec m w1) (exec m w2).

Section Blind.
Context {W : Type} (R : relation W).

Lemma blind_ret {A} (a : A) : blind R (st_ret a).
Proof. by intros w1 w2. Qed.
Lemma blind_bind {A B} (m : ST W A) (k : A -> ST W B) :
  blind R m -> (forall a, blind R (k a)) -> blind R (st_bind m k).
Proof.
  intros Hm Hk w1 w2 Hw. destruct (Hm w1 w2 Hw) as [E Hw']. rewrite !result_bind, !exec_bind, <- E.
  by apply Hk.
Qed.
(** A sequence of actions. *)
Lemma blind_for {A} (f : A -> ST W unit) l : (forall a, blind R (f a)) -> blind R (st_for f l).
Proof.
  intros Hf. induction l as [| a l IH]; cbn [st_for]; [apply blind_ret |].
  apply blind_bind; [apply Hf | by intros _].
Qed.
End Blind.

Create HintDb blind.
#[export] Hint Resolve blind_ret blind_bind blind_for : blind.

(** ** Trees that differ in secrets *)

(** The path of a leaf as the device reports it. *)
Definition reported `{GnmiUtil} (x : string) : string := path_to_string (parse_yang_path x).

(** The same leaf, and the same value unless it is on the denylist. *)
Definition leaf_same `{GnmiUtil} (deny : list string) (a b : string * string) : Prop :=
  a.1 = b.1 /\ (is_sensitive_path (reported a.1) deny = false -> a.2 = b.2).
Definition tree_same `{GnmiUtil} (deny : list string) : relation GnmiTree := Forall2 (leaf_same deny).
(** Two devices that differ in the values of secrets only. *)
Definition world_same `{GnmiUtil} (deny : list string) (w1 w2 : SimWorld) : Prop :=
  tree_same deny (g_tree w1) (g_tree w2) /\ ticks w1 = ticks w2 /\ realtime w1 = realtime w2.

Section Trees.
Context `{GU : GnmiUtil} (deny : list string).

(** The same rows, as [tree_lookup] returns them. *)
Definition entry_same (a b : TreeEntry) : Prop :=
  leaf_same deny (e_xpath a, e_value a) (e_xpath b, e_value b).

Lemma put_same x v t1 t2 : tree_same deny t1 t2 -> tree_same deny (put x v t1) (put x v t2).
Proof.
  unfold tree_same. induction 1 as [| [k1 v1] [k2 v2] t1 t2 [Hk Hv] Ht IH]; cbn; [by repeat constructor |].
  cbn in Hk. subst k2. destruct (String.compare x k1); repeat constructor; done.
Qed.
Lemma find_same x t1 t2 : tree_same deny t1 t2 ->
  match find x t1, find x t2 with
  | Some v1, Some v2 => leaf_same deny (x, v1) (x, v2)
  | None, None => True
  | _, _ => False
  end.
Proof.
  induction 1 as [| [k1 v1] [k2 v2] t1 t2 [Hk Hv] Ht IH]; cbn; [done |]. cbn in Hk, Hv. subst k2.
  destruct (String.eqb_spec k1 x) as [-> |]; [done | exact IH].
Qed.
Lemma remove_same x t1 t2 : tree_same deny t1 t2 -> tree_same deny (remove x t1) (remove x t2).
Proof.
  unfold tree_same. induction 1 as [| [k1 v1] [k2 v2] t1 t2 [Hk Hv] Ht IH]; cbn; [constructor |].
  cbn in Hk. subst k2. destruct (String.eqb k1 x); [done | by constructor].
Qed.
Lemma entries_same p t1 t2 : tree_same deny t1 t2 -> Forall2 entry_same (entries_with p t1) (entries_with p t2).
Proof.
  induction 1 as [| [k1 v1] [k2 v2] t1 t2 [Hk Hv] Ht IH]; cbn; [constructor |].
  cbn in Hk. subst k2. destruct (starts_with p k1); [by constructor | done].
Qed.
Lemma erase_same p t1 t2 : tree_same deny t1 t2 -> forall n,
  tree_same deny (erase_with p n t1).1 (erase_with p n t2).1.
Proof.
  unfold tree_same. induction 1 as [| [k1 v1] [k2 v2] t1 t2 [Hk Hv] Ht IH]; intros n; cbn; [constructor |].
  cbn in Hk. subst k2. destruct (starts_with p k1); [apply IH |]. specialize (IH n).
  destruct (erase_with p n t1), (erase_with p n t2). by constructor.
Qed.

Lemma tree_lookup_same x t1 t2 : tree_same deny t1 t2 ->
  Forall2 entry_same (tree_lookup x t1) (tree_lookup x t2).
Proof.
  intros Ht. unfold tree_lookup. pose proof (find_same x t1 t2 Ht) as H.
  destruct (find x t1), (find x t2); [constructor; [exact H | constructor] | done | done | by apply entries_same].
Qed.
Lemma tree_erase_same x t1 t2 : tree_same deny t1 t2 ->
  tree_same deny (tree_erase x t1).1 (tree_erase x t2).1.
Proof.
  intros Ht. unfold tree_erase. pose proof (find_same x t1 t2 Ht) as H.
  destruct (find x t1), (find x t2); [by apply remove_same | done | done | by apply erase_same].
Qed.
End Trees.

(** ** The device *)

Section Handlers.
Context `{GP : GnmiProto} (deny : list string).
Notation same := (world_same deny).

Lemma blind_now : blind same now_ns.
Proof. intros w1 w2 (Ht & Ek & Er). unfold result, exec, now_ns, world_same. cbn. by rewrite Ek, Er. Qed.
Lemma blind_tree f : (forall t1 t2, tree_same deny t1 t2 -> tree_same deny (f t1) (f t2)) ->
  blind same (with_tree f).
Proof. intros Hf w1 w2 (Ht & Ek & Er). split; [done |]. split; [by apply Hf | done]. Qed.
Hint Resolve blind_now : blind.

Lemma blind_updates us resp : blind same (set_updates us resp).
Proof.
  revert resp. induction us as [| u us IH]; intros resp; cbn [set_updates]; [apply blind_ret |].
  apply blind_bind; [| by intros _]. apply blind_tree. intros t1 t2. apply put_same.
Qed.
Lemma blind_replaces us resp : blind same (set_replaces us resp).
Proof.
  revert resp. induction us as [| u us IH]; intros resp; cbn [set_replaces]; [apply blind_ret |].
  apply blind_bind; [apply blind_tree; intros; by apply tree_erase_same | intros _].
  apply blind_bind; [| by intros _]. apply blind_tree. intros t1 t2. apply put_same.
Qed.
Lemma blind_deletes ds resp : blind same (set_deletes ds resp).
Proof.
  revert resp. induction ds as [| d ds IH]; intros resp; cbn [set_deletes]; [apply blind_ret |].
  apply blind_bind; [apply blind_tree; intros; by apply tree_erase_same | by intros _].
Qed.
Hint Resolve blind_updates blind_replaces blind_deletes : blind.

(** A Set answers the same and leaves the devices as alike as they were. *)
Lemma blind_handle_set pb : blind same (handle_set pb).
Proof.
  unfold handle_set. destruct (par_SetRequest pb) as [req |]; [| apply blind_ret].
  destruct (negb _); [apply blind_ret |]. auto 10 with blind.
Qed.

Lemma get_paths_cons p ps resp found w :
  let rows := tree_lookup (path_to_string p) (g_tree w) in
  get_paths (p :: ps) resp found w =
  get_paths ps (resp ++ [mkNotification (realtime w (ticks w)) (row_update <$> rows)])
    (found + length rows) (mkSim (g_tree w) (S (ticks w)) (realtime w)).
Proof. done. Qed.

(** The leaves a Get finds are the same, their values too unless they are secret. *)
Lemma get_paths_same ps : forall resp1 resp2 found w1 w2, same w1 w2 ->
  Forall2 (notif_alike deny) resp1 resp2 ->
  let r1 := result (get_paths ps resp1 found) w1 in
  let r2 := result (get_paths ps resp2 found) w2 in
  Forall2 (notif_alike deny) r1.1 r2.1 /\ r1.2 = r2.2 /\
  same (exec (get_paths ps resp1 found) w1) (exec (get_paths ps resp2 found) w2).
Proof.
  induction ps as [| p ps IH]; intros resp1 resp2 found w1 w2 Hw Hr; cbv zeta; [done |].
  unfold result, exec. rewrite !get_paths_cons. destruct Hw as (Ht & Ek & Er).
  pose proof (tree_lookup_same deny (path_to_string p) _ _ Ht) as Hl.
  rewrite (Forall2_length _ _ _ Hl). apply IH; [by split_and!; cbn; rewrite ?Ek |].
  apply Forall2_app; [done |]. constructor; [| constructor]. unfold notif_alike. cbn [n_update].
  apply Forall2_fmap. eapply Forall2_impl; [exact Hl |]. intros a b [Ea Hv]. cbn in Ea, Hv.
  unfold leaf_alike, row_update. cbn [u_path u_val]. rewrite <- Ea. split; [done |].
  intros Hs. by rewrite Hv.
Qed.

Lemma notif_alike_refl n : notif_alike deny n n.
Proof. apply Forall_Forall2_diag, Forall_true. intros u. by split. Qed.

Lemma answer_alike_refl r : answer_alike deny r r.
Proof.
  split_and!; [done | done |]. destruct (par_GetResponse (body_pb r)); [| done].
  apply Forall_Forall2_diag, Forall_true, notif_alike_refl.
Qed.

(** A Get says the same of both devices, but for the values of secrets. *)
Lemma handle_get_same `{!WireLaws canonical} pb w1 w2 : same w1 w2 ->
  let a1 := result (handle_get pb) w1 in
  let a2 := result (handle_get pb) w2 in
  answer_alike deny (mkResponse a1.1 "" a1.2) (mkResponse a2.1 "" a2.2) /\
  same (exec (handle_get pb) w1) (exec (handle_get pb) w2).
Proof.
  intros Hw. cbv zeta. unfold handle_get. destruct (par_GetRequest pb) as [req |]; cycle 1.
  { split; [apply answer_alike_refl | done]. }
  rewrite !result_bind, !exec_bind.
  pose proof (get_paths_same (gr_path req) [] [] 0 w1 w2 Hw ltac:(constructor)) as Hg. cbv zeta in Hg.
  destruct (result (get_paths (gr_path req) [] 0) w1) as [n1 f1].
  destruct (result (get_paths (gr_path req) [] 0) w2) as [n2 f2]. cbn [fst snd] in Hg.
  destruct Hg as (Hn & -> & Hs). destruct (_ && _); (split; [| exact Hs]); cbn.
  - apply answer_alike_refl.
  - split_and!; [done | done |]. unfold result, st_ret. cbn [fst snd body_pb]. by rewrite !par_ser_GetResponse.
Qed.
End Handlers.

(** ** The sink, the engine and the bridge *)

Section Sink.
Context `{GP : GnmiProto} {GC : GnmiClient SimWorld} {canonical : string -> Prop} `{!WireLaws canonical}.
Context (cfg : SinkConfig) `{!Loopback (host cfg) (port cfg)}.
Notation deny := (deny_of cfg).
Notation same := (world_same deny).

Lemma blind_get xs : blind same (local_get cfg xs).
Proof.
  intros w1 w2 Hw. unfold result, exec. rewrite !local_get_run. case_bool_decide; [done |]. cbn [fst snd].
  set (pb := ser_GetRequest (get_request cfg xs)).
  destruct (loop_get_out cfg pb w1) as [-> ->]. destruct (loop_get_out cfg pb w2) as [-> ->].
  destruct (handle_get_same deny pb w1 w2 Hw) as [Ha Hs]. split; [by apply get_outcome_alike | done].
Qed.
Lemma blind_set us : blind same (local_set cfg us).
Proof.
  unfold local_set. apply blind_bind.
  - intros w1 w2 Hw. set (pb := ser_SetRequest _).
    destruct (loop_set_out cfg pb w1) as [-> ->]. destruct (loop_set_out cfg pb w2) as [-> ->].
    destruct (blind_handle_set deny pb w1 w2 Hw) as [-> Hs]. done.
  - intros r. destruct (rpc_ok r _) as [good out]. destruct (negb good); [apply blind_ret |].
    destruct (par_SetResponse _); apply blind_ret.
Qed.

(** Beside a device there is the rest of a daemon: the same in both runs. *)
Context {W : Type} `{DI : DeviceIn W}.
Definition twins (d1 d2 : W) : Prop := same (device d1) (device d2) /\ d2 = set_device (device d2) d1.

Lemma blind_at_device {A} (m : ST SimWorld A) : blind same m -> blind twins (at_device m).
Proof.
  intros Hm d1 d2 [Hd Ed]. destruct (Hm _ _ Hd) as [Er Hs].
  unfold result, exec in *. rewrite !at_device_run. cbn [fst snd] in *. split; [done |].
  split; rewrite !device_set_device; [done |]. rewrite Ed at 2. by rewrite !set_set_device.
Qed.

(** A part of the daemon that does not look at the device, nor change it: with
    another device beside it, it does the same. *)
Definition oblivious {A} (m : ST W A) : Prop :=
  forall w d, m (set_device w d) = (result m d, set_device w (exec m d)).
Lemma blind_oblivious {A} (m : ST W A) : oblivious m -> blind twins m.
Proof.
  intros Hm d1 d2 [Hd Ed].
  assert (device (exec m d1) = device d1) as E1.
  { pose proof (Hm (device d1) d1) as E. rewrite set_device_device in E.
    unfold exec at 1. rewrite E. cbn [snd]. by rewrite device_set_device. }
  pose proof (Hm (device d2) d1) as E2. rewrite <- Ed in E2.
  unfold result at 2, exec at 2. rewrite E2. cbn [fst snd]. split; [done |].
  unfold twins. by rewrite device_set_device, E1.
Qed.

Lemma blind_sms {TX : ISmsTransport W} (b : Bridge W) i :
  (forall to t, oblivious (tx_send to t)) ->
  (forall f s, m_gex b = Some f -> oblivious (f s)) ->
  (forall f s, m_allow b = Some f -> oblivious (f s)) ->
  (forall f s t, m_fallback b = Some f -> oblivious (f s t)) ->
  blind twins (@on_sms W TX (device_sink cfg) b i).
Proof.
  intros Htx Hauth Hallow Hfb.
  assert (forall to r, blind twins (send_nonempty (H := TX) to r)) as Hsend.
  { intros to r. unfold send_nonempty. destruct (String.eqb r ""); [apply blind_ret |].
    apply blind_bind; [by apply blind_oblivious | intros _; apply blind_ret]. }
  assert (forall xs, blind twins (@sink_get W (device_sink cfg) xs)) as Hget.
  { intros xs d1 d2 Hd. unfold result, exec. rewrite !device_get.
    apply (blind_at_device (local_get cfg xs) (blind_get xs) d1 d2 Hd). }
  assert (forall us, blind twins (@sink_set W (device_sink cfg) us)) as Hset.
  { intros us d1 d2 Hd. unfold result, exec. rewrite !device_set.
    apply (blind_at_device (local_set cfg us) (blind_set us) d1 d2 Hd). }
  unfold on_sms. apply blind_bind.
  { unfold gate. destruct (m_allow b) as [f |] eqn:E; [apply blind_oblivious; eauto | apply blind_ret]. }
  intros allowed. destruct (negb allowed); [apply blind_ret |].
  destruct (negb (bool_decide _)).
  - apply blind_bind; [| done]. unfold handle. apply blind_bind.
    { unfold resolve_access. destruct (m_gex b) as [f |] eqn:E; [apply blind_oblivious; eauto | apply blind_ret]. }
    intros a. destruct (kind _); [apply blind_ret | apply blind_ret | |].
    + case_decide; [apply blind_ret | apply blind_bind; [done | intros; apply blind_ret]].
    + destruct (negb _); [apply blind_ret | apply blind_bind; [done | intros; apply blind_ret]].
  - destruct (m_fallback b) as [f |] eqn:E; [| apply blind_ret].
    apply blind_bind; [apply blind_oblivious; eauto | done].
Qed.
End Sink.

(** C30: An operator cannot tell two devices apart by their secrets. Take two runs of
    a daemon whose devices differ in nothing but the values of leaves on the sink's
    denylist. Whatever is texted and by whomever, reads and writes of those leaves
    included, everything sent is the same in both runs, message by message, with
    every value, status and error text in it; and so is all else of the daemon,
    while the devices still differ in nothing but such values. The daemon's own
    parts, its network, sessions, gate and other engine, do not look at the device. *)
Theorem operators_learn_no_secret `{GP : GnmiProto} {GC : GnmiClient SimWorld}
    {canonical : string -> Prop} `{!WireLaws canonical} (cfg : SinkConfig)
    `{!Loopback (host cfg) (port cfg)} {W : Type} `{DeviceIn W} {TX : ISmsTransport W} (b : Bridge W)
    (out : W -> list (string * string)) (Hout : forall w d, out (set_device w d) = out d)
    (Htx : forall to t, oblivious (tx_send to t))
    (Hauth : forall f s, m_gex b = Some f -> oblivious (f s))
    (Hallow : forall f s, m_allow b = Some f -> oblivious (f s))
    (Hfallback : forall f s t, m_fallback b = Some f -> oblivious (f s t))
    (sms : list InboundSms) (d : W) (w1 w2 : SimWorld) (Hsame : world_same (deny_of cfg) w1 w2) :
  let run w := exec (st_for (@on_sms W TX (device_sink cfg) b) sms) (set_device w d) in
  out (run w1) = out (run w2) /\
  (forall w, set_device w (run w1) = set_device w (run w2)) /\
  world_same (deny_of cfg) (device (run w1)) (device (run w2)).
Proof.
  intros run.
  assert (twins cfg (run w1) (run w2)) as [Hd He].
  { apply (blind_for (twins cfg) _ sms (fun i => blind_sms cfg b i Htx Hauth Hallow Hfallback)).
    unfold twins. by rewrite !device_set_device, set_set_device. }
  split_and!; [by rewrite He, Hout | intros w; by rewrite He, set_set_device | done].
Qed.

(** ** Two devices with different passwords *)

#[local] Existing Instance plain_util.
#[local] Existing Instance plain_proto.
#[local] Existing Instance plain_wire.
#[local] Existing Instance loop_client.

(** An admin asks for all of /system, for the password, and sets it. *)
Definition curious : list InboundSms :=
  demo_sms <$> ["IOT GNMI GET /system"; "IOT GNMI GET /system/user[name=admin]/password,/nope";
                "IOT GNMI SET /system/user[name=admin]/password p4ss"; "IOT STATUS"].

Lemma secret_worlds_same : world_same default_deny_tokens (secret_world "hunter2") (secret_world "letmein").
Proof. split; [| done]. repeat (constructor; [split; [done | by vm_compute] |]). constructor. Defined.

Lemma operators_learn_no_secret_witness :
  let run pw := exec (st_for (@on_sms _ demo_net (device_sink SinkConfig_default) demo_bridge) curious)
                  ([], secret_world pw) in
  (run "hunter2").1 = (run "letmein").1 /\ length (run "hunter2").1 = 3.
Proof.
  split; [| by vm_compute].
  destruct (operators_learn_no_secret SinkConfig_default (Loopback0 := loop_client_loops _ _) (TX := demo_net)
           demo_bridge fst) with (sms := curious) (d := ([] : list (string * string), demo_world))
    (w1 := secret_world "hunter2") (w2 := secret_world "letmein") as [Eq _];
    [done | done | | done | done | exact secret_worlds_same | exact Eq].
  by intros f s [= <-].
Defined.
