(* ===== verification/SmsCtl.v ===== *)
(** * SmsCtl: what the daemons rely on from the smsctl engine.

    smsctl is a submodule: the session store, the command parser, the tokenizer
    and the executor are parameters, with the data the daemons' own code builds
    or inspects. *)

From S2P Require Import Prelude CString Seams.

(** [smsctl::Account], [smsctl::Config]: the fields the daemons set or read. *)
Record Account := mkAccount { acc_id : string; acc_hash : string; acc_access : string }.
Record SmsConfig := mkSmsConfig {
  sc_session_ttl_sec : Z; sc_lockout_failures : Z; sc_lockout_sec : Z;
  sc_allowed_numbers : list string }.

(** [smsctl::Kind]: the enumerators the daemons compare with, and the others. *)
Inductive Kind := NotACommand | Wifi | FactoryReset | OtherKind (n : nat).

#[export] Instance Kind_eq_dec : EqDecision Kind.
Proof. solve_decision. Defined.

Class SmsCtl := {
  Command : Type;
  cmd_kind : Command -> Kind;
  keyword : Command -> string;
  smsctl_parse : string -> Command;
  tokenize : string -> list string;
  SessionStore : Type;
  store_empty : SessionStore;
  set_config : SmsConfig -> SessionStore -> SessionStore;
  session : string -> Z -> ST SessionStore (option Account);
  sender_allowed : string -> SessionStore -> bool;
  sweep : Z -> ST SessionStore unit;
  session_count : SessionStore -> Z;
  kRebootTrigger : string;
  (** [Executor(sink, sessions, lookup).handle(cmd, sender, now, seed)]: the
      executor works on the store inside its owner's world. *)
  executor_handle : forall (W : Type), DsSink W ->
    (W -> SessionStore) -> (SessionStore -> W -> W) ->
    (string -> ST W (option Account)) -> Command -> string -> Z -> Z -> ST W string
}.

(** ** A toy engine

    Enough to run the daemons' wiring on concrete messages: whoever is in the
    store has a session, commands are classified by their first words, and the
    executor answers with the keyword. *)

Fixpoint toy_session (who : string) (s : list (string * Account)) : option Account :=
  match s with
  | [] => None
  | (k, a) :: r => if String.eqb k who then Some a else toy_session who r
  end.
Definition toy_kind (t : string) : Kind :=
  if starts_with "IOT WIFI" t then Wifi
  else if starts_with "IOT FACTORY-RESET" t then FactoryReset
  else if starts_with "IOT" t then OtherKind 0
  else NotACommand.

Definition toy_ctl (tok : string -> list string) : SmsCtl :=
  {| Command := string; cmd_kind := toy_kind;
     keyword := fun t => if starts_with "IOT WIFI" t then "WIFI" else "CMD";
     smsctl_parse := fun t => t; tokenize := tok;
     SessionStore := list (string * Account); store_empty := [];
     set_config := fun _ s => s;
     session := fun who _ s => (toy_session who s, s);
     sender_allowed := fun _ _ => true;
     sweep := fun _ s => (tt, s);
     session_count := fun s => Z.of_nat (length s);
     kRebootTrigger := "/run/iot/reboot.request";
     executor_handle := fun W _ _ _ _ cmd _ _ _ => st_ret ("OK " +:+ cmd) |}.
