(* ===== verification/Standalone.v ===== *)
(** * Standalone: the ds-free appliance (daemon/zerotouchd_standalone.cpp).

    [run] loads the configuration and the users from files, builds the backends
    behind the seams and starts the bridge.  Here its lambdas are definitions
    over the daemon's members, the bridge is the one [run] wires, and the
    theorems are about a whole inbound SMS: what it can cause on a disabled
    appliance, without rights, and where rights come from. *)

From S2P Require Import Prelude CString Text PathPolicy Seams OrdMap GnmiCommand GnmiReply GnmiExecutor Bridge Config Users DirectAction GnmiWire LocalGnmiSink SmsCtl AtModem.

(** ** The code *)

(** The members of [StandaloneClient], and the world outside the process. *)
Record StandaloneClient `{SmsCtl} (O : Type) := mkStandalone {
  m_config_path : string;
  m_config : AppConfig;
  m_users : UserStore;
  m_sessions : SessionStore;
  m_handled : Z;
  outside : O
}.
Arguments mkStandalone {_ O} _ _ _ _ _ _.
Arguments m_config_path {_ O} _.
Arguments m_config {_ O} _.
Arguments m_users {_ O} _.
Arguments m_sessions {_ O} _.
Arguments m_handled {_ O} _.
Arguments outside {_ O} _.

Section Standalone.
Context `{SC : SmsCtl} `{GP : GnmiProto} {O : Type}.
Notation D := (StandaloneClient O).
(** The modem and the gNMI client, [std::time], a file's contents (empty when it
    cannot be opened) and [::sync(); ::reboot(RB_AUTOBOOT)]. *)
Context `{IM : IModem D} `{GC : GnmiClient D}.
Context (time_s : ST D Z) (read_file : string -> ST D string) (sync_reboot : ST D unit).

Definition now_s : ST D Z := let* t := time_s in st_ret (u64 t).

Definition on_sessions {A} (m : ST SessionStore A) : ST D A := fun d =>
  let '(a, s) := m (m_sessions d) in
  (a, mkStandalone (m_config_path d) (m_config d) (m_users d) s (m_handled d) (outside d)).
Definition put_sessions (s : SessionStore) (d : D) : D :=
  mkStandalone (m_config_path d) (m_config d) (m_users d) s (m_handled d) (outside d).

Definition standalone_timeout : ST D Z :=
  let* now := now_s in on_sessions (sweep now) >>> st_ret 0%Z.

(** The first lines of [run]: configuration, users, session limits. *)
Definition sms_config (c : AppConfig) : SmsConfig :=
  mkSmsConfig (Config.session_ttl_sec c) (Config.lockout_failures c) (Config.lockout_sec c)
              (Config.allowed_numbers c).
Definition load_files : ST D unit :=
  let* path := st_gets m_config_path in
  let* conf := read_file path in
  let c := parse_config conf in
  let* ufile := read_file (users_file c) in
  let u := Users.parse ufile in
  st_modify (fun d =>
    mkStandalone (m_config_path d) c u (set_config (sms_config c) (m_sessions d))
                 (m_handled d) (outside d)).

(** The reboot function handed to [DirectActionSink]. *)
Definition reboot_fn : ST D bool := sync_reboot >>> st_ret true.

Definition lookup_user (i : string) : ST D (option Account) :=
  st_gets (fun d =>
    match Users.lookup (m_users d) i with
    | None => None
    | Some u => Some (mkAccount (id u) (hash u) (access u))
    end).

Definition authfn (sender : string) : ST D Access :=
  let* now := now_s in
  let* a := on_sessions (session sender now) in
  st_ret match a with
         | None => AccessNone
         | Some a => if String.eqb (acc_access a) "Admin" then Admin else Viewer
         end.

Definition allow (sender : string) : ST D bool :=
  st_gets (fun d => Config.enabled (m_config d) && sender_allowed sender (m_sessions d)).

Definition count_handled : ST D Z := fun d =>
  let h := u64 (m_handled d + 1) in
  (h, mkStandalone (m_config_path d) (m_config d) (m_users d) (m_sessions d) h (outside d)).

Definition fallback (sender txt : string) : ST D string :=
  let cmd := smsctl_parse txt in
  if bool_decide (cmd_kind cmd = NotACommand) then st_ret ""
  else if bool_decide (cmd_kind cmd = Wifi) || bool_decide (cmd_kind cmd = FactoryReset) then
    st_ret ("ERR " +:+ keyword cmd +:+ ": not supported on this device")
  else
    let* now := now_s in
    let* h := count_handled in
    let seed := u64 (u64 (now * 2654435761) + h) in
    executor_handle D (DirectActionSink kRebootTrigger (Some reboot_fn)) m_sessions put_sessions
      lookup_user cmd sender now seed.

(** The wiring of [run], with the configuration it loaded. *)
Definition standalone_bridge : Bridge D :=
  mkBridge (Some authfn) (Some tokenize) (Some fallback) (Some allow).
Definition sink_config (c : AppConfig) : SinkConfig :=
  mkSinkConfig (gnmi_host c) (gnmi_port c) (get_role SinkConfig_default)
               (set_role SinkConfig_default) [].

Definition standalone_sms (c : AppConfig) (i : InboundSms) : ST D unit :=
  @on_sms D AtModemTransport (LocalGnmiSink (sink_config c)) standalone_bridge i.
Definition standalone_run : ST D unit :=
  load_files >>>
  let* c := st_gets m_config in
  @bridge_start D AtModemTransport (LocalGnmiSink (sink_config c)) standalone_bridge.
End Standalone.

(** ** Properties *)

Section StandaloneSpec.
Context `{SC : SmsCtl} `{GP : GnmiProto} {O : Type}.
Notation D := (StandaloneClient O).
Context `{IM : IModem D} `{GC : GnmiClient D}.
Context (time_s : ST D Z) (read_file : string -> ST D string) (sync_reboot : ST D unit).
Notation sms := (standalone_sms time_s sync_reboot).

Lemma allow_run s (d : D) :
  allow s d = (Config.enabled (m_config d) && sender_allowed s (m_sessions d), d).
Proof. done. Qed.

(** Past the gate, a message is the executor's or the classic engine's. *)
Lemma standalone_sms_run c i (d : D) :
  sms c i d =
  if Config.enabled (m_config d) && sender_allowed (sender i) (m_sessions d) then
    (let g := parse_gnmi (tokenize (text i)) in
     if negb (bool_decide (kind g = NotGnmi)) then
       let* reply := @handle D (LocalGnmiSink (sink_config c)) (Some (authfn time_s)) g (sender i) in
       @send_nonempty D AtModemTransport (sender i) reply
     else
       let* reply := fallback time_s sync_reboot (sender i) (text i) in
       @send_nonempty D AtModemTransport (sender i) reply) d
  else (tt, d).
Proof.
  unfold standalone_sms, on_sms, gate; cbn [m_allow standalone_bridge].
  unfold st_bind at 1; rewrite allow_run. by destruct (_ && _).
Qed.

(** C23: inert until enabled. While the configuration does not enable the
    appliance, or for a sender the session store does not allow, an inbound SMS
    of any content changes nothing at all: no AT command, no RPC, no session
    access, no reply. *)
Theorem standalone_inert (c : AppConfig) (i : InboundSms) (d : D)
    (Hoff : Config.enabled (m_config d) = false \/
            sender_allowed (sender i) (m_sessions d) = false) :
  standalone_sms time_s sync_reboot c i d = (tt, d).
Proof.
  rewrite standalone_sms_run. destruct Hoff as [-> | ->]; [done |].
  by rewrite andb_false_r.
Qed.

(** C24: rights on the appliance. Past the gate, the session store alone decides
    at the time of the message: a SET from a sender whose session is missing or
    not an Admin's makes no RPC and is answered with the refusal, a GET
    likewise unless some session is live; and WIFI and FACTORY-RESET never
    reach the executor, whoever sends them. *)
Theorem standalone_rights (c : AppConfig) (i : InboundSms) (d : D) (acc : option Account)
    (d1 : D)
    (Hgate : Config.enabled (m_config d) && sender_allowed (sender i) (m_sessions d) = true)
    (Hauth : (let* now := now_s time_s in on_sessions (session (sender i) now)) d = (acc, d1)) :
  let g := parse_gnmi (tokenize (text i)) in
  let say r := exec (@modem_send_sms D IM (sender i) r) in
  (kind g = Set_ -> (forall a, acc = Some a -> acc_access a <> "Admin") ->
   sms c i d = (tt, say "ERR GNMI SET admin login required" d1)) /\
  (kind g = Get -> acc = None -> sms c i d = (tt, say "ERR GNMI GET login required" d1)) /\
  (kind g = NotGnmi ->
   cmd_kind (smsctl_parse (text i)) = Wifi \/ cmd_kind (smsctl_parse (text i)) = FactoryReset ->
   sms c i d =
     (tt, say ("ERR " +:+ keyword (smsctl_parse (text i)) +:+ ": not supported on this device") d)).
Proof.
  cbv zeta.
  assert (Ha : authfn time_s (sender i) d =
    (match acc with
     | None => AccessNone
     | Some a => if String.eqb (acc_access a) "Admin" then Admin else Viewer
     end, d1)).
  { unfold authfn, st_bind in *. destruct (now_s time_s d) as [t d'].
    by rewrite Hauth. }
  assert (Hsay : forall r d', r <> "" ->
    @send_nonempty D AtModemTransport (sender i) r d' = (tt, exec (modem_send_sms (sender i) r) d')).
  { intros r d' Hr; unfold send_nonempty; rewrite (proj2 (String.eqb_neq _ _) Hr).
    unfold st_bind; cbn [tx_send AtModemTransport]. by rewrite (run_split _ d'). }
  rewrite standalone_sms_run, Hgate; cbv zeta. split_and!.
  - intros Hk Hacc. rewrite Hk, bool_decide_eq_false_2 by done; cbn [negb]. unfold st_bind.
    rewrite (handle_run (Some (authfn time_s)) _ _ _ _ _ Ha), Hk.
    destruct acc as [a|]; [| rewrite decide_False by done; by apply Hsay].
    rewrite (proj2 (String.eqb_neq _ _) (Hacc a eq_refl)), decide_False by done. by apply Hsay.
  - intros Hk ->. rewrite Hk, bool_decide_eq_false_2 by done; cbn [negb]. unfold st_bind.
    rewrite (handle_run (Some (authfn time_s)) _ _ _ _ _ Ha), Hk, decide_True by done. by apply Hsay.
  - intros Hk Hc. rewrite Hk, bool_decide_eq_true_2 by done; cbn [negb].
    unfold fallback. rewrite bool_decide_eq_false_2 by (destruct Hc; congruence).
    replace (_ || _) with true by (destruct Hc as [-> | ->]; done).
    unfold st_bind, st_ret at 1. by apply Hsay.
Qed.

(** C36: where accounts come from. After the start-up over any files, the
    configuration and the session limits are those of the configuration file
    and the login lookup is the users file: an account it returns carries the
    id asked for, a non-empty hash and one of the two access levels, and it is
    an Admin's only when a line of that file declares it so. *)
Theorem standalone_accounts (files : string -> string)
    (Hread : forall p d, read_file p d = (files p, d)) (d : D) (i : string) (a : Account) :
  let d' := exec (load_files read_file) d in
  let conf := parse_config (files (m_config_path d)) in
  m_config d' = conf /\ m_sessions d' = set_config (sms_config conf) (m_sessions d) /\
  outside d' = outside d /\
  (result (lookup_user i) d' = Some a ->
   acc_id a = i /\ acc_hash a <> "" /\
   (acc_access a = "Admin" \/ acc_access a = "Viewer") /\
   exists l, l ∈ getlines (files (users_file conf)) /\
     user_of_line l = Some (mkUser i (acc_hash a) (acc_access a))).
Proof.
  cbv zeta. set (conf := parse_config _).
  assert (E : exec (load_files read_file) d =
    mkStandalone (m_config_path d) conf (Users.parse (files (users_file conf)))
      (set_config (sms_config conf) (m_sessions d)) (m_handled d) (outside d)).
  { unfold load_files, exec, st_bind, st_gets; rewrite !Hread. done. }
  rewrite E; cbn [m_config m_sessions outside]. split_and!; [done | done | done |].
  unfold lookup_user, result, st_gets; cbn [fst m_users].
  destruct (Users.lookup _ i) as [u|] eqn:Eu; [| done]. intros [= <-]; cbn.
  unfold Users.lookup in Eu; rewrite find_gmap in Eu.
  destruct (parse_well_formed (files (users_file conf))) as [_ Hwf].
  destruct (Hwf i u Eu) as (Hi & _ & _ & _ & Hh & Ha).
  split_and!; [done | done | done |].
  unfold Users.parse in Eu. apply parse_lines_origin in Eu as [Eu | (l & Hl & Hu & _)];
    [cbn in Eu; by rewrite lookup_empty in Eu |].
  exists l; split; [done |]. rewrite Hu; destruct u; cbn in *; by subst.
Qed.
End StandaloneSpec.

(** ** A concrete appliance *)

#[local] Existing Instance plain_util.
#[local] Existing Instance plain_proto.
#[local] Instance demo_ctl : SmsCtl := toy_ctl ws_tokenize.

(** What leaves the process: AT commands, messages, RPCs. *)
Record DemoOut := mkOut { at_out : list string; sms_out : list (string * string); rpcs : nat }.
Definition upd (f : DemoOut -> DemoOut) (d : StandaloneClient DemoOut) : StandaloneClient DemoOut :=
  mkStandalone (m_config_path d) (m_config d) (m_users d) (m_sessions d) (m_handled d)
               (f (outside d)).
#[local] Instance demo_modem : IModem (StandaloneClient DemoOut) :=
  {| modem_at := fun c d => (mkAtResult true [],
       upd (fun o => mkOut (at_out o ++ [c]) (sms_out o) (rpcs o)) d);
     modem_send_sms := fun to t d => (true,
       upd (fun o => mkOut (at_out o) (sms_out o ++ [(to, t)]) (rpcs o)) d);
     modem_start := fun _ d => (tt, d) |}.
#[local] Instance demo_client : GnmiClient (StandaloneClient DemoOut) :=
  fun _ _ _ _ d => (mkResponse 5 "" "", upd (fun o => mkOut (at_out o) (sms_out o) (S (rpcs o))) d).

Definition demo_time : ST (StandaloneClient DemoOut) Z := st_ret 1700000000%Z.
Definition demo_appliance (on : bool) : StandaloneClient DemoOut :=
  mkStandalone "/etc/zerotouch/zerotouch.conf"
    (mkAppConfig on "127.0.0.1" 50051 [] 600 5 900 "/dev/ttyUSB2" 115200 Auto "/etc/users")
    [] [("+1", mkAccount "bob" "h" "Viewer")] 0 (mkOut [] [] 0).

Lemma standalone_inert_witness :
  standalone_sms demo_time (st_ret tt) AppConfig_default
    (mkInboundSms "+1" "IOT GNMI SET /a 1" "t") (demo_appliance false) =
  (tt, demo_appliance false).
Proof. apply standalone_inert; by left. Defined.

Lemma standalone_rights_witness :
  sms_out (outside (standalone_sms demo_time (st_ret tt) AppConfig_default
    (mkInboundSms "+1" "IOT GNMI SET /a 1" "t") (demo_appliance true)).2) =
  [("+1", "ERR GNMI SET admin login required")] /\
  rpcs (outside (standalone_sms demo_time (st_ret tt) AppConfig_default
    (mkInboundSms "+1" "IOT GNMI SET /a 1" "t") (demo_appliance true)).2) = 0%nat.
Proof.
  destruct (standalone_rights demo_time (st_ret tt) AppConfig_default
    (mkInboundSms "+1" "IOT GNMI SET /a 1" "t") (demo_appliance true)
    (Some (mkAccount "bob" "h" "Viewer")) (demo_appliance true) eq_refl eq_refl) as (H & _ & _).
  rewrite H; [by split | by vm_compute | by intros a [= <-]].
Defined.

Lemma standalone_accounts_witness :
  let files p := if String.eqb p "/etc/users" then "alice:abc:Admin" else "users.file = /etc/users" in
  let d' := exec (load_files (fun p => st_ret (files p))) (demo_appliance true) in
  result (lookup_user "alice") d' = Some (mkAccount "alice" "abc" "Admin") /\
  acc_id (mkAccount "alice" "abc" "Admin") = "alice".
Proof.
  set (files := fun p => if String.eqb p "/etc/users" then "alice:abc:Admin"
                         else "users.file = /etc/users"); cbv zeta.
  assert (E : result (lookup_user "alice") (exec (load_files (fun p => st_ret (files p)))
    (demo_appliance true)) = Some (mkAccount "alice" "abc" "Admin")) by by vm_compute.
  split; [exact E |].
  apply (standalone_accounts (fun p => st_ret (files p)) files (fun p d => eq_refl)
           (demo_appliance true) "alice" _), E.
Defined.
