(* ===== verification/Appliance.v ===== *)
(** * Appliance: provisioning through the standalone daemon

    The wiring of daemon/zerotouchd_standalone.cpp has what SmsToDevice asks of a
    line: its gate, its sessions and its modem.  So the two messages of an
    operator work on the daemon itself, talking to the simulated device. *)

From S2P Require Import Prelude CString Text PathPolicy Seams GnmiCommand GnmiReply GnmiExecutor Bridge OrdMap Config Users GnmiTree GnmiWire LocalGnmiSink GnmiSimd SmsToDevice SmsCtl AtModem Standalone.

Section Appliance.
Context `{SC : SmsCtl} `{GP : GnmiProto} {GC : GnmiClient SimWorld} {O : Type} `{DO : DeviceIn O}.
Notation D := (StandaloneClient O).

Definition with_outside (o : O) (d : D) : D :=
  mkStandalone (m_config_path d) (m_config d) (m_users d) (m_sessions d) (m_handled d) o.
#[export] Instance appliance_device : DeviceIn D.
Proof.
  refine {| device := fun d => device (outside d);
            set_device := fun w d => with_outside (set_device w (outside d)) d |}.
  - intros w d. apply device_set_device.
  - intros []. unfold with_outside. cbn. by rewrite set_device_device.
  - intros w w' d. unfold with_outside. cbn. by rewrite set_set_device.
Defined.
(** The gNMI client of the daemon reaches the device. *)
#[local] Instance appliance_client : GnmiClient D := device_client.

Context (time_s : ST D Z) (sync_reboot : ST D unit).
Context (out : O -> list (string * string)) (s : string) (acc : Account).
(** The times at which [s] is logged in as [acc], the stores that say so, and the
    states of the outside in which the modem works. *)
Context (logged : SessionStore -> Prop) (now_ok : Z -> Prop) (fine : O -> Prop).

(** A computation of the outside world that leaves outbox, device and daemon
    alone. *)
Definition leaves_alone {A} (m : ST D A) : Prop :=
  forall d, exists o, exec m d = with_outside o d /\ out o = out (outside d) /\
    device o = device (outside d) /\ (fine (outside d) -> fine o).

Record live_session : Prop := {
  ls_time : leaves_alone time_s;
  ls_now : forall d, now_ok (u64 (result time_s d));
  ls_session : forall now st, now_ok now -> logged st ->
    exists st', session s now st = (Some acc, st') /\ logged st';
  ls_allowed : forall st, logged st -> sender_allowed s st = true;
  ls_dev : forall w o, out (set_device w o) = out o /\ (fine o -> fine (set_device w o))
}.

(** The modem sends what it is given, when it fits an SMS. *)
Definition live_modem {IM : IModem D} : Prop :=
  forall t d, (String.length t <= kMaxReply)%nat -> fine (outside d) ->
    exists o, exec (modem_send_sms s t) d = with_outside o d /\
      out o = out (outside d) ++ [(s, t)] /\ device o = device (outside d) /\ fine o.

Definition serving (d : D) : Prop :=
  Config.enabled (m_config d) = true /\ logged (m_sessions d) /\ fine (outside d).
Definition granted : Access := if String.eqb (acc_access acc) "Admin" then Admin else Viewer.

Lemma appliance_way_in {IM : IModem D} : live_session ->
  way_in serving (fun d => out (outside d)) (standalone_bridge time_s sync_reboot) s granted.
Proof using.
  intros [Ht Hn Hs Ha Hd]. split.
  - intros w d (He & Hl & Hf). destruct (Hd w (outside d)). split; [| done]. by split_and!; auto.
  - intros d (He & Hl & Hf). cbn. unfold allow, st_gets, result, exec. cbn.
    rewrite He, (Ha _ Hl). by split_and!.
  - intros d (He & Hl & Hf). cbn. destruct (Ht d) as (o & Eo & E1 & E2 & E3).
    destruct (Hs (u64 (result time_s d)) (m_sessions d) (Hn d) Hl) as (st' & Es & Hl').
    assert (authfn time_s s d = (granted,
              mkStandalone (m_config_path d) (m_config d) (m_users d) st' (m_handled d) o)) as E.
    { unfold authfn, now_s, st_bind, on_sessions. rewrite (run_split time_s), Eo. cbn. by rewrite Es. }
    unfold result, exec. rewrite E. cbn. split_and!; try done. split_and!; auto.
Qed.

Lemma appliance_line {IM : IModem D} : live_session -> live_modem ->
  line_to (TX := AtModemTransport) serving (fun d => out (outside d))
    (standalone_bridge time_s sync_reboot) s granted.
Proof using.
  intros Hl Hm. split; [by apply appliance_way_in |].
  intros t d Ht (He & Hg & Hf). cbn. destruct (Hm t d Ht Hf) as (o & -> & E1 & E2 & E3). by split_and!.
Qed.
End Appliance.

(** C3: Provisioning works on the appliance: while it is enabled and the sender is
    logged in as a user whose access is Admin, a SET texted to the daemon and a
    GET of one of its paths are answered as SmsToDevice says; logged in as anyone
    else, the SET is refused and the device is as it was. The hypotheses are on
    the modem, which sends what it is given, on the clock, and on the session
    store while the login lasts. *)
Theorem appliance_provisions `{SC : SmsCtl} `{GP : GnmiProto} {GC : GnmiClient SimWorld}
    {canonical : string -> Prop} `{!WireLaws canonical} {O : Type} `{DO : DeviceIn O}
    {IM : IModem (StandaloneClient O)} (time_s : ST (StandaloneClient O) Z)
    (sync_reboot : ST (StandaloneClient O) unit) (out : O -> list (string * string)) (s : string)
    (acc : Account) (logged : SessionStore -> Prop) (now_ok : Z -> Prop) (fine : O -> Prop)
    (Hlive : live_session time_s out s acc logged now_ok fine) (Hmodem : live_modem out s fine)
    (c : AppConfig) `{!Loopback (gnmi_host c) (gnmi_port c)}
    (i1 i2 : InboundSms) (us us1 us2 : list (string * string)) (x v : string)
    (d : StandaloneClient O) (Hserving : serving logged fine d)
    (Hs1 : sender i1 = s) (Hs2 : sender i2 = s)
    (Hset : gnmi_msg (tokenize (text i1)) (mkCommand Set_ [] us ""))
    (Hget : gnmi_msg (tokenize (text i2)) (mkCommand Get [x] [] ""))
    (Hc : Forall canonical us.*1) (Hus : us = us1 ++ (x, v) :: us2) (Hlast : x ∉ us2.*1)
    (Hpub : is_sensitive_path x default_deny_tokens = false) :
  let run i := exec (standalone_sms (GC := device_client) time_s sync_reboot c i) in
  let d1 := run i1 d in let d2 := run i2 d1 in
  if decide (acc_access acc = "Admin") then
    out (outside d2) = out (outside d) ++
      [(s, clamp ("OK GNMI SET " +:+ to_string (Z.of_nat (length us)) +:+ " path(s) updated"));
       (s, clamp ("OK GNMI GET " +:+ x +:+ "=" +:+ v))]
  else device d1 = device d /\
       out (outside d1) = out (outside d) ++ [(s, clamp "ERR GNMI SET admin login required")].
Proof.
  intros run d1 d2.
  pose proof (line_set_then_get (GN := device_sink (sink_config c)) (sink_config c) (standalone_bridge time_s sync_reboot) s _
    (appliance_line time_s sync_reboot out s acc logged now_ok fine Hlive Hmodem) i1 i2 us us1 us2 x v d Hserving
    Hs1 Hs2 Hset Hget Hc Hus Hlast Hpub eq_refl) as Hr.
  cbv zeta in Hr. unfold granted in Hr. destruct (String.eqb_spec (acc_access acc) "Admin") as [E | E].
  - rewrite decide_True by done. exact Hr.
  - rewrite decide_False by done. exact Hr.
Qed.

(** ** A concrete appliance *)

#[local] Existing Instance plain_util.
#[local] Existing Instance plain_proto.
#[local] Existing Instance plain_wire.
#[local] Existing Instance loop_client.
#[local] Existing Instance demo_ctl.

(** The phone network, recorded, and the device. *)
Definition Town : Type := list (string * string) * SimWorld.
#[local] Instance town_modem : IModem (StandaloneClient Town) :=
  {| modem_at := fun _ => st_ret (mkAtResult true []);
     modem_send_sms := fun to t d =>
       (true, with_outside ((outside d).1 ++ [(to, t)], (outside d).2) d);
     modem_start := fun _ => st_ret tt |}.
Definition town_clock : ST (StandaloneClient Town) Z := st_ret 1700000000%Z.
Definition root : Account := mkAccount "root" "h" "Admin".
Definition town : StandaloneClient Town :=
  mkStandalone "/etc/zerotouch/zerotouch.conf"
    (mkAppConfig true "127.0.0.1" 50051 [] 600 5 900 "/dev/ttyUSB2" 115200 Auto "/etc/users")
    [] [("+1", root)] 0 ([], demo_world).

Lemma town_live :
  live_session town_clock fst "+1" root (fun st => st = [("+1", root)]) (fun _ => True) (fun _ => True).
Proof.
  split; try done.
  - intros []. by eexists.
  - intros now st _ ->. by exists [("+1", root)].
Qed.
Lemma town_modem_live : live_modem fst "+1" (fun _ : Town => True).
Proof. intros t []. by eexists. Qed.

Lemma appliance_provisions_witness :
  let run t := exec (standalone_sms (GC := device_client) town_clock (st_ret tt) AppConfig_default
                       (mkInboundSms "+1" t "0")) in
  (outside (run "iot gnmi get /a/mtu" (run "IOT GNMI SET /a/mtu,/b 9000,x" town))).1 =
  [("+1", "OK GNMI SET 2 path(s) updated"); ("+1", "OK GNMI GET /a/mtu=9000")].
Proof.
  intros run.
  apply (appliance_provisions town_clock (st_ret tt) fst "+1" root _ _ _ town_live town_modem_live AppConfig_default
           (Loopback0 := loop_client_loops _ _) (mkInboundSms "+1" "IOT GNMI SET /a/mtu,/b 9000,x" "0")
           (mkInboundSms "+1" "iot gnmi get /a/mtu" "0") [("/a/mtu", "9000"); ("/b", "x")] []
           [("/b", "x")] "/a/mtu" "9000" town); try done.
  - apply parse_gnmi_grammar. reflexivity.
  - apply parse_gnmi_grammar. reflexivity.
  - by repeat constructor.
  - cbn. set_solver.
Defined.
