(* ===== verification/SerialAppliance.v ===== *)
(** * SerialAppliance: the standalone daemon on its serial port

    The modem of daemon/zerotouchd_standalone.cpp is the AtModem of at_modem.cpp:
    a poll of the port lists the SIM, hands each message to the bridge, whose reply
    goes out on the same port in the middle of the poll, and deletes what was
    handled.  Here the pieces are put together down to the bytes of the line, with
    the device at the other side: SMS on the SIM to leaves of the tree and back. *)

From S2P Require Import Prelude CString Text PathPolicy Seams GnmiCommand GnmiReply GnmiExecutor Bridge OrdMap Config Users GnmiTree GnmiWire LocalGnmiSink GnmiSimd SmsToDevice SmsCtl AtModem AtProofs AtTalk SmsModem Standalone Appliance.

(** ** The wiring *)

(** A port beside something else. *)
Section Beside.
Context {E C : Type} `{SP : SerialPort E}.
Definition beside {A} (m : ST E A) : ST (E * C) A := fun x => let '(a, e) := m x.1 in (a, (e, x.2)).
#[export] Instance beside_port : SerialPort (E * C) :=
  {| port_open d := beside (port_open d); port_tcgetattr := beside port_tcgetattr;
     port_tcsetattr b := beside (port_tcsetattr b); port_write s := beside (port_write s);
     port_select := beside port_select; port_read n := beside (port_read n);
     port_now_ms := beside port_now_ms; schedule_timer t := beside (schedule_timer t) |}.

Lemma beside_run {A} (m : ST E A) x : beside m x = (result m x.1, (exec m x.1, x.2)).
Proof. unfold beside. by rewrite (run_split m). Qed.
Lemma beside_result {A} (m : ST E A) x : result (beside m) x = result m x.1.
Proof. unfold result at 1. by rewrite beside_run. Qed.
Lemma beside_exec {A} (m : ST E A) x : exec (beside m) x = (exec m x.1, x.2).
Proof. unfold exec at 1. by rewrite beside_run. Qed.

#[export] Instance beside_keeps : PortKeeps (snd : E * C -> C).
Proof. split; intros; intros x; unfold same_view; cbn; by rewrite beside_exec. Qed.

Context {wr rd : E -> string} {peer : string -> string} {PM : PromptModem E wr rd peer}.
#[export] Instance beside_prompt : PromptModem (E * C) (fun x => wr x.1) (fun x => rd x.1) peer.
Proof using PM.
  refine {|
    pm_patient := {| patience := fun x : E * C => patience x.1 |};
    pm_traced := _; soon := fun d (x : E * C) => soon d x.1; wait := fun x : E * C => wait x.1 |}; cbn.
  - intros s x. rewrite beside_result, beside_exec. apply write_patience.
  - split; cbn; intros; rewrite ?beside_result, beside_exec; cbn; [apply write_traced | apply read_traced | apply select_traced | apply now_traced].
  - intros s x. rewrite beside_result. apply pm_takes.
  - intros x. apply pm_heard.
  - intros t x. rewrite beside_result, beside_exec. apply soon_start.
  - intros d x. rewrite beside_result, beside_exec. apply soon_now.
  - intros d x. rewrite beside_result, beside_exec. apply soon_select.
  - intros d n x. rewrite beside_result, beside_exec. apply soon_read.
Defined.
End Beside.

Section Serial.
Context `{SC : SmsCtl} `{GP : GnmiProto} {GC : GnmiClient SimWorld}.
Context {E : Type} {SP : SerialPort E} {CE : Cellular}.

(** The daemon with its modem outside, and the modem with the rest of the daemon
    beside its port. *)
Notation D := (StandaloneClient (ModemWorld E * SimWorld)).
Notation M := (ModemWorld (E * StandaloneClient SimWorld)).

Definition to_daemon (w : M) : D :=
  let d := (port w).2 in
  mkStandalone (m_config_path d) (m_config d) (m_users d) (m_sessions d) (m_handled d)
               (mkModemWorld (port w).1 (modem w), outside d).
Definition of_daemon (d : D) : M :=
  mkModemWorld (port (outside d).1,
    mkStandalone (m_config_path d) (m_config d) (m_users d) (m_sessions d) (m_handled d) (outside d).2)
    (modem (outside d).1).

(** The callback [run] has the transport give to the modem. *)
Definition callback (cb : MessageFn D) : InboundSms -> Op (E * StandaloneClient SimWorld) unit :=
  fun i w => (Some tt, of_daemon (exec (cb i) (to_daemon w))).

(** [AtModem] behind [IModem]; the defaults stand for a lack of fuel. *)
Definition on_modem {A} (lacking : A) (m : Op (E * StandaloneClient SimWorld) A) : ST D A :=
  fun d => let '(o, w) := m (of_daemon d) in (default lacking o, to_daemon w).
Definition serial_modem (fuel : nat) : IModem D :=
  {| modem_at cmd := on_modem AtResult_default (at_cmd fuel cmd);
     modem_send_sms to t := on_modem false (send_sms fuel to t);
     modem_start cb := on_modem tt (at_start fuel (Some (callback cb))) |}.

Context (time_s : ST D Z) (sync_reboot : ST D unit).
Definition received (c : AppConfig) (fuel : nat) : InboundSms -> Op (E * StandaloneClient SimWorld) unit :=
  callback (standalone_sms (IM := serial_modem fuel) (GC := device_client) time_s sync_reboot c).
(** The timer of the modem, every [poll_sec]. *)
Definition serial_poll (c : AppConfig) (fuel : nat) : Op (E * StandaloneClient SimWorld) Z :=
  AtModem.handle_timeout fuel (Some (received c fuel)).

Lemma to_of_daemon d : to_daemon (of_daemon d) = d.
Proof. by destruct d as [? ? ? ? ? [[? ?] ?]]. Qed.
Lemma of_to_daemon w : of_daemon (to_daemon w) = w.
Proof. by destruct w as [[? []] ?]. Qed.
Lemma on_modem_exec {A} lacking (m : Op _ A) d : exec (on_modem lacking m) d = to_daemon (exec m (of_daemon d)).
Proof. unfold on_modem, exec. by destruct (m (of_daemon d)). Qed.

(** ** The line and the network *)

Context {wr rd : E -> string} {peer : string -> string} {PM : PromptModem E wr rd peer} {SM : SmsModem peer}.

(** What the modem was told, the SMS the network read off the PDUs it was given,
    and the states of the outside at [t] with the line quiet. *)
Definition said_to (w : ModemWorld E) : string := wr (port w).
Definition sms_out (read_submit : string -> string * string) (o : ModemWorld E * SimWorld)
  : list (string * string) := read_submit <$> submitted (said_to o.1).
Definition at_line (t : string) (o : ModemWorld E * SimWorld) : Prop :=
  quiet (wr := wr) (rd := rd) (peer := peer) o.1 /\ said_to o.1 = t.

Context (read_submit : string -> string * string) (s : string) (acc : Account)
  (logged : SessionStore -> Prop) (now_ok : Z -> Prop).
Notation out := (sms_out read_submit).
Context (Hlive : forall t, live_session time_s out s acc logged now_ok (at_line t)).

(** The codec takes every reply to [s], and the network reads it back. *)
Definition network_reads : Prop := forall t, (String.length t <= kMaxReply)%nat ->
  exists pdu n, encode_sms_submit s t = Some (pdu, n) /\ read_submit pdu = (s, t).
Context (Hnet : network_reads).

(** The port is the same seen from both sides. *)
Lemma at_line_of d t : at_line t (outside d) <->
  quiet (wr := fun x : E * StandaloneClient SimWorld => wr x.1) (rd := fun x => rd x.1) (peer := peer)
    (of_daemon d) /\ wr (port (of_daemon d)).1 = t.
Proof.
  unfold at_line, said_to. destruct d as [? ? ? ? ? [[e m] x]]. cbn.
  split; intros [[H1 H2 H3 H4] <-]; (split; [by split | done]).
Qed.
Lemma at_line_to w t : at_line t (outside (to_daemon w)) <->
  quiet (wr := fun x : E * StandaloneClient SimWorld => wr x.1) (rd := fun x => rd x.1) (peer := peer) w /\
  wr (port w).1 = t.
Proof. by rewrite at_line_of, of_to_daemon. Qed.

(** One gnmi message of [s], delivered in the middle of a poll. *)
Lemma turn_talks c i cmd reply w1 (w : M) t :
  serving logged (at_line t) (to_daemon w) -> sender i = s ->
  parse_gnmi (tokenize (text i)) = cmd -> kind cmd <> NotGnmi ->
  answers_with (GN := device_sink (sink_config c)) (serving logged (at_line t)) (fun d : D => out (outside d))
    s (granted acc) cmd (device (to_daemon w)) reply w1 ->
  reply <> "" -> (String.length reply <= kMaxReply)%nat ->
  exists w' t', converges (fun f => received c f i) w tt w' /\
    serving logged (at_line t') (to_daemon w') /\ device (to_daemon w') = w1 /\
    stored t' = stored t /\ out (outside (to_daemon w')) = out (outside (to_daemon w)) ++ [(s, reply)].
Proof using Hlive Hnet PM SM.
  intros Hsv Hs Hp Hk Ha Hne Hlen.
  pose proof (appliance_way_in time_s sync_reboot out s acc logged now_ok (at_line t) (IM := serial_modem 0)
                (Hlive t)) as Hway.
  destruct (on_sms_reply (GN := device_sink (sink_config c)) _ _ _ s _ Hway i cmd reply w1 (to_daemon w)
              Hs Hp Hk Ha Hne Hsv) as (d' & Ho & Hd & Hi & Hrun).
  destruct Hi as (He & Hl & Hline). pose proof (proj1 (at_line_of d' t) Hline) as [Hq Et].
  destruct (Hnet reply Hlen) as (pdu & n & Henc & Hread).
  destruct (send_talks (wr := fun x => wr x.1) (rd := fun x => rd x.1) snd (of_daemon d') s reply pdu n Hq Henc)
    as (w' & [N HN] & [Hq' Em Ek] & Est & Esu).
  exists w', (wr (port w').1). unfold wrote in Est, Esu. cbn in Ek.
  assert (at_line (wr (port w').1) (outside (to_daemon w'))) as Hline' by (apply at_line_to; done).
  split_and!.
  - exists N. intros f Hf. unfold received, callback. f_equal.
    specialize (Hrun (AtModemTransport (H := serial_modem f))
      (Some (fallback (IM := serial_modem f) time_s sync_reboot))).
    unfold standalone_sms. transitivity (of_daemon (exec (@tx_send D (@AtModemTransport D (serial_modem f)) s reply) d')).
    { f_equal. exact Hrun. }
    cbn. rewrite on_modem_exec, of_to_daemon. unfold exec. by rewrite (HN f Hf).
  - unfold serving. split_and!; [| | done]; cbn; rewrite Ek; [exact He | exact Hl].
  - rewrite <- Hd. cbn. by rewrite Ek.
  - rewrite Est. by rewrite Et.
  - rewrite <- Ho. unfold sms_out, said_to. cbn. rewrite Esu, fmap_app. cbn. by rewrite Hread.
Qed.

(** ** A poll *)

Lemma deliver_whole (cb : InboundSms -> Op (E * StandaloneClient SimWorld) unit) m w :
  total m = 0%Z -> deliver (Some cb) m w = cb (mkInboundSms (msg_sender m) (msg_text m) (scts m)) w.
Proof. intros Ht. unfold deliver. by rewrite op_bind_run, Ht. Qed.

End Serial.

(** C4: Provisioning works down to the wire. The modem is AtModem on a port; at the
    other end is a modem with a SIM that answers in time and in pieces of any size.
    When a poll finds on the SIM a SET and a GET of a logged-in admin, each decoded
    from its PDU, the path read being off the denylist, the poll comes to an end, and: the network was given the two
    answers, the second with the value the first message set, as PDUs it reads
    back; the two messages, and no others, are deleted from the SIM; and the line is
    left as it was found, so that the next poll starts from the same place. *)
Theorem serial_provisions `{SC : SmsCtl} `{GP : GnmiProto} {GC : GnmiClient SimWorld}
    {canonical : string -> Prop} `{!WireLaws canonical} {E : Type} {SP : SerialPort E} {CE : Cellular}
    {wr rd : E -> string} {peer : string -> string} {PM : PromptModem E wr rd peer} {SM : SmsModem peer}
    (time_s : ST (StandaloneClient (ModemWorld E * SimWorld)) Z)
    (sync_reboot : ST (StandaloneClient (ModemWorld E * SimWorld)) unit)
    (read_submit : string -> string * string) (s : string) (acc : Account)
    (logged : SessionStore -> Prop) (now_ok : Z -> Prop)
    (Hlive : forall t, live_session time_s (sms_out (wr := wr) read_submit) s acc logged now_ok
                         (at_line (wr := wr) (rd := rd) t))
    (Hnet : network_reads read_submit s) (Hadmin : acc_access acc = "Admin")
    (c : AppConfig) `{!Loopback (gnmi_host c) (gnmi_port c)}
    (j1 j2 : Z) (m1 m2 : SmsMessage) (us us1 us2 : list (string * string)) (x v t : string)
    (w : ModemWorld (E * StandaloneClient SimWorld))
    (Hserving : serving logged (at_line (wr := wr) (rd := rd) t) (to_daemon w))
    (Hstored : decodable (stored t) = [(j1, m1); (j2, m2)])
    (Hm1 : msg_sender m1 = s /\ total m1 = 0%Z) (Hm2 : msg_sender m2 = s /\ total m2 = 0%Z)
    (Hset : gnmi_msg (tokenize (msg_text m1)) (mkCommand Set_ [] us ""))
    (Hget : gnmi_msg (tokenize (msg_text m2)) (mkCommand Get [x] [] ""))
    (Hc : Forall canonical us.*1) (Hus : us = us1 ++ (x, v) :: us2) (Hlast : x ∉ us2.*1)
    (Hpub : is_sensitive_path x default_deny_tokens = false) :
  exists w' t',
    converges (fun fuel => serial_poll time_s sync_reboot c fuel) w 0%Z w' /\
    serving logged (at_line (wr := wr) (rd := rd) t') (to_daemon w') /\
    sms_out (wr := wr) read_submit (outside (to_daemon w')) =
      sms_out (wr := wr) read_submit (outside (to_daemon w)) ++
      [(s, clamp ("OK GNMI SET " +:+ to_string (Z.of_nat (length us)) +:+ " path(s) updated"));
       (s, clamp ("OK GNMI GET " +:+ x +:+ "=" +:+ v))] /\
    stored t' = filter (fun e => e.1 ∉ [j1; j2]) (stored t).
Proof.
  destruct Hm1 as [Hs1 Ht1], Hm2 as [Hs2 Ht2]. apply parse_gnmi_grammar in Hset, Hget.
  assert (granted acc = Admin) as Hg by (unfold granted; by rewrite Hadmin).
  pose proof (fun t i cmd reply w1 w => turn_talks time_s sync_reboot read_submit s acc logged now_ok Hlive Hnet
                c i cmd reply w1 w t) as Hturn. rewrite Hg in Hturn.
  destruct Hserving as (He & Hl & Hline). pose proof (proj1 (at_line_to w t) Hline) as [Hq Et].
  destruct (admin_answers (sink_config c) us us1 us2 x v (device (to_daemon w)) Hc Hus Hlast Hpub eq_refl)
    as (v1 & v2 & A).
  assert (forall t, _) as Hdev by exact (fun t => wi_dev _ _ _ _ _ (appliance_way_in time_s sync_reboot
    (sms_out (wr := wr) read_submit) s acc logged now_ok _ (IM := serial_modem 0) (Hlive t))).
  destruct (poll_talks (wr := fun x => wr x.1) (rd := fun x => rd x.1) snd
    (received (E := E) time_s sync_reboot c)
    (fun w2 => exists t2, serving logged (at_line (wr := wr) (rd := rd) t2) (to_daemon w2) /\
       stored t2 = stored t /\
       sms_out (wr := wr) read_submit (outside (to_daemon w2)) =
       sms_out (wr := wr) read_submit (outside (to_daemon w)) ++ [(s, set_reply us); (s, get_reply x v)]) w Hq)
    as (w2 & w' & (t2 & (He2 & Hl2 & Hline2) & Est2 & Eo2) & Hcv & [Hq' Em Ek] & Est & Esu).
  - intros w1 [Hq1 Em1 Ek1] Es1 Eu1. unfold wrote in Es1, Eu1. rewrite Et in Es1. unfold wrote. rewrite Et, Hstored.
    assert (serving logged (at_line (wr := wr) (rd := rd) (wr (port w1).1)) (to_daemon w1)) as Hsv1.
    { split_and!; [cbn; by rewrite Ek1 .. | by apply at_line_to]. }
    assert (device (to_daemon w1) = device (to_daemon w)) as Ed1 by (cbn; by rewrite Ek1).
    destruct (A _ _ _ _ s (device_sink (sink_config c)) _ (Hdev (wr (port w1).1))) as [A1 _]. rewrite <- Ed1 in A1.
    destruct (Hturn _ (mkInboundSms (msg_sender m1) (msg_text m1) (scts m1)) _ _ v1 w1 Hsv1 Hs1 Hset ltac:(done)
      A1 ltac:(by apply clamp_not_empty) (length_clamp _)) as (w2 & t2 & C2 & Hsv2 & Ed2 & Est2 & Eo2).
    destruct (A _ _ _ _ s (device_sink (sink_config c)) _ (Hdev t2)) as [_ A2]. rewrite <- Ed2 in A2.
    destruct (Hturn _ (mkInboundSms (msg_sender m2) (msg_text m2) (scts m2)) _ _ v2 w2 Hsv2 Hs2 Hget ltac:(done)
      A2 ltac:(by apply clamp_not_empty) (length_clamp _)) as (w3 & t3 & C3 & Hsv3 & Ed3 & Est3 & Eo3).
    exists w3. split; [| split].
    + cbn [fmap list_fmap snd op_for]. destruct C2 as [N2 H2], C3 as [N3 H3]. exists (N2 `max` N3)%nat.
      intros f Hf. rewrite op_bind_run, deliver_whole, H2 by lia || done.
      by rewrite op_bind_run, deliver_whole, H3 by lia || done.
    + destruct Hsv3 as (_ & _ & Hl3). by apply at_line_to in Hl3 as [Hq3 _].
    + exists t3. split; [done |]. split; [congruence |]. rewrite Eo3, Eo2, <- app_assoc. cbn. f_equal.
      unfold sms_out, said_to. cbn. by rewrite Eu1.
  - pose proof (proj1 (at_line_to w2 t2) Hline2) as [_ Et2]. unfold wrote in *. rewrite Et, Et2, Hstored in *.
    exists w', (wr (port w').1). split; [done |]. split; [| split].
    + split_and!; [cbn; by rewrite Ek .. | by apply at_line_to].
    + etrans; [| exact Eo2]. unfold sms_out, said_to. cbn. by rewrite Esu, Et2.
    + by rewrite Est, Est2.
Qed.
