(* ===== verification/SerialDemo.v ===== *)
(** * SerialDemo: a concrete modem, and a poll of it

    A modem with a SIM as an automaton over the characters it is told, a port that
    hands its answers over in pieces of seven characters, and a hexadecimal codec:
    instances of what AtTalk and SmsModem ask for, on which the theorem of
    SerialAppliance is applied. *)

From S2P Require Import Prelude CString Text PathPolicy Seams GnmiCommand GnmiReply GnmiExecutor Bridge OrdMap Config Users GnmiTree GnmiWire LocalGnmiSink GnmiSimd SmsToDevice SmsCtl AtModem AtProofs AtTalk SmsModem Standalone Appliance SerialAppliance.

(** ** Hexadecimal text *)

Definition hex_digit (n : nat) : ascii := ascii_of_nat (if Nat.ltb n 10 then 48 + n else 55 + n).
Definition hex_val (c : ascii) : nat :=
  let n := nat_of_ascii c in if Nat.ltb n 58 then n - 48 else n - 55.
Fixpoint to_hex (s : string) : string :=
  match s with
  | "" => ""
  | String c r => String (hex_digit (nat_of_ascii c / 16)) (String (hex_digit (nat_of_ascii c mod 16)) (to_hex r))
  end.
Fixpoint of_hex (s : string) : string :=
  match s with
  | String a (String b r) => String (ascii_of_nat (16 * hex_val a + hex_val b)) (of_hex r)
  | _ => ""
  end.

Lemma hex_char c :
  ascii_of_nat (16 * hex_val (hex_digit (nat_of_ascii c / 16)) + hex_val (hex_digit (nat_of_ascii c mod 16))) = c.
Proof. destruct c as [[] [] [] [] [] [] [] []]; reflexivity. Qed.
Lemma of_to_hex s : of_hex (to_hex s) = s.
Proof. induction s as [| c s IH]; [done |]. cbn [to_hex of_hex]. by rewrite hex_char, IH. Qed.

(** Characters that are typed, not commands to the modem. *)
Definition typed_char (c : ascii) : bool := negb (Ascii.eqb c esc || Ascii.eqb c cr || Ascii.eqb c ctrl_z).
Lemma hex_typed s : all_chars typed_char (to_hex s) = true.
Proof.
  induction s as [| c s IH]; [done |]. cbn [to_hex all_chars]. rewrite IH.
  destruct c as [[] [] [] [] [] [] [] []]; reflexivity.
Qed.

(** The codec knows one number, and its PDUs are the text. *)
Definition phone : string := "+1".
#[local] Instance hex_codec : Cellular :=
  {| encode_sms_submit := fun to txt =>
       if String.eqb to phone then Some (to_hex txt, Z.of_nat (String.length txt)) else None;
     decode_sms_deliver := fun p =>
       if starts_with "07" p then Some (mkSms phone (of_hex (str_drop 2 p)) "ts" 0 0) else None;
     parse_vendor := fun _ => VGeneric;
     SmsReassembler := unit; reasm_empty := tt; reasm_add := fun _ r => (r, None) |}.
Definition read_hex (pdu : string) : string * string := (phone, of_hex pdu).

(** ** The modem *)

Record Handset := mkHandset {
  hs_line : string; hs_prompt : bool; hs_sim : list (Z * string); hs_out : list string; hs_said : string }.

Definition hs_say (t : string) (h : Handset) : Handset :=
  mkHandset "" (hs_prompt h) (hs_sim h) (hs_out h) (hs_said h +:+ t).
Definition cmgl_line (e : Z * string) : string := "+CMGL: " +:+ to_string e.1 +:+ ",1,,24".
Definition hs_run (h : Handset) : Handset :=
  let l := hs_line h in
  if String.eqb l "AT+CMGL=4" then
    hs_say (ok_text ("" :: (hs_sim h ≫= fun e => [cmgl_line e; e.2]))) h
  else if starts_with "AT+CMGS=" l then
    mkHandset "" true (hs_sim h) (hs_out h) (hs_said h +:+ crlf +:+ "> ")
  else hs_say (ok_text [""])
    (mkHandset "" false (filter (fun e => l <> "AT+CMGD=" +:+ to_string e.1) (hs_sim h)) (hs_out h) (hs_said h)).
Definition hs_key (c : ascii) (h : Handset) : Handset :=
  if Ascii.eqb c esc then mkHandset "" false (hs_sim h) (hs_out h) (hs_said h)
  else if hs_prompt h && Ascii.eqb c ctrl_z then
    hs_say (ok_text [""; "+CMGS: 1"; ""]) (mkHandset "" false (hs_sim h) (hs_out h ++ [hs_line h]) (hs_said h))
  else if negb (hs_prompt h) && Ascii.eqb c cr then hs_run h
  else mkHandset (hs_line h +:+ chr c) (hs_prompt h) (hs_sim h) (hs_out h) (hs_said h).
Fixpoint hs_keys (s : string) (h : Handset) : Handset :=
  match s with "" => h | String c r => hs_keys r (hs_key c h) end.

Lemma hs_keys_app a b h : hs_keys (a +:+ b) h = hs_keys b (hs_keys a h).
Proof. revert h. induction a as [| c a IH]; intros h; [done |]. rewrite app_cons. cbn. apply IH. Qed.

Lemma hs_keys_typed s h : all_chars typed_char s = true ->
  hs_keys s h = mkHandset (hs_line h +:+ s) (hs_prompt h) (hs_sim h) (hs_out h) (hs_said h).
Proof.
  revert h. induction s as [| c s IH]; intros h Hs; [by destruct h; cbn; rewrite str_app_nil_r |].
  cbn in Hs. apply andb_true_iff in Hs as [Hc Hs]. unfold typed_char in Hc.
  apply negb_true_iff, orb_false_iff in Hc as [[Hc1 Hc2]%orb_false_iff Hc3].
  cbn [hs_keys]. rewrite IH by done. unfold hs_key. rewrite Hc1, Hc2, Hc3, !andb_false_r.
  cbn. by rewrite str_app_assoc.
Qed.

(** It only ever says more. *)
Lemma hs_key_more c h : exists x, hs_said (hs_key c h) = hs_said h +:+ x.
Proof.
  unfold hs_key, hs_run, hs_say. repeat case_match; cbn; eauto; exists ""; by rewrite str_app_nil_r.
Qed.
Lemma hs_keys_more s h : exists x, hs_said (hs_keys s h) = hs_said h +:+ x.
Proof.
  revert h. induction s as [| c s IH]; intros h; [exists ""; by rewrite str_app_nil_r |]. cbn.
  destruct (IH (hs_key c h)) as [x ->], (hs_key_more c h) as [y ->]. exists (y +:+ x). by rewrite str_app_assoc.
Qed.

(** A statement about each character. *)
Ltac each_char c := destruct c as [[] [] [] [] [] [] [] []]; vm_compute; congruence.
Lemma digit_typed c : is_digit c = true -> typed_char c = true.
Proof. each_char c. Qed.
Lemma digit_no_nl c : is_digit c = true -> negb (Ascii.eqb c nl) = true.
Proof. each_char c. Qed.

(** Entries a listing can show. *)
Definition good_entry (e : Z * string) : Prop :=
  (0 <= e.1 <= int_max)%Z /\ no_char nl e.2 = true /\ line_kind "AT+CMGL=4" e.2 = Info.
Definition hs_idle (h : Handset) : Prop :=
  hs_line h = "" /\ hs_prompt h = false /\ Forall good_entry (hs_sim h).

Lemma hs_command cmd h : hs_idle h -> all_chars typed_char cmd = true -> cmd <> "" ->
  hs_keys (command_line cmd) h = hs_run (mkHandset cmd false (hs_sim h) (hs_out h) (hs_said h)).
Proof.
  intros (El & Ep & _) Hc Hne. unfold command_line. rewrite (proj2 (String.eqb_neq _ _) Hne).
  rewrite hs_keys_app, (hs_keys_typed cmd) by done. rewrite El, Ep, app_nil_l'. done.
Qed.

Lemma typed_number n : all_chars typed_char (to_string n) = true.
Proof.
  assert (forall m, (0 <= m)%Z -> all_chars typed_char (to_string m) = true) as Hpos.
  { intros m Hm. eapply all_chars_impl; [| by apply to_string_chars].
    intros c. destruct c as [[] [] [] [] [] [] [] []]; done. }
  destruct (Z.ltb_spec n 0) as [Hn |]; [| by apply Hpos].
  specialize (Hpos (- n)%Z ltac:(lia)). revert Hpos. unfold to_string.
  rewrite (proj2 (Z.ltb_lt _ _) Hn), (proj2 (Z.ltb_ge (- n) 0)) by lia. done.
Qed.

Lemma ok_entries es : Forall good_entry es ->
  ok_answer "AT+CMGL=4" (es ≫= fun e => ["+CMGL: " +:+ to_string e.1 +:+ ",1,,24"; e.2])
    (ok_text ("" :: (es ≫= fun e => [cmgl_line e; e.2]))).
Proof.
  intros He. exists (es ≫= fun e => [cmgl_line e; e.2]). split; [done |].
  induction He as [| [n p] es (Hn & Hp & Hk) He (IH1 & IH2 & IH3)]; [by repeat constructor |].
  cbn [mbind list_bind app fst snd] in *. unfold cmgl_line at 1 3. cbn [fst].
  assert (no_char nl ("+CMGL: " +:+ to_string n +:+ ",1,,24") = true) as Hl.
  { rewrite no_char_app, no_char_app. apply andb_true_iff. split; [done |]. rewrite andb_true_r.
    eapply all_chars_impl; [apply digit_no_nl | apply to_string_chars; cbn in Hn; lia]. }
  assert (p <> "") as Hpe by (by intros ->).
  split; [| split].
  - rewrite !filter_cons, !decide_True by done. by rewrite IH1.
  - by repeat constructor.
  - by repeat constructor.
Qed.

Lemma ok_nothing cmd : ok_answer cmd [] (ok_text [""]).
Proof. by exists []. Qed.

(** The commands on an idle handset. *)
Lemma hs_other cmd h : hs_idle h -> all_chars typed_char cmd = true -> cmd <> "" ->
  cmd <> "AT+CMGL=4" -> starts_with "AT+CMGS=" cmd = false ->
  hs_keys (command_line cmd) h =
  mkHandset "" false (filter (fun e => cmd <> "AT+CMGD=" +:+ to_string e.1) (hs_sim h)) (hs_out h)
    (hs_said h +:+ ok_text [""]).
Proof.
  intros Hi Hc Hne H1 H2. rewrite hs_command by done. unfold hs_run. cbn [hs_line].
  by rewrite (proj2 (String.eqb_neq _ _) H1), H2.
Qed.
Lemma hs_list h : hs_idle h ->
  hs_keys (command_line "AT+CMGL=4") h =
  mkHandset "" false (hs_sim h) (hs_out h)
    (hs_said h +:+ ok_text ("" :: (hs_sim h ≫= fun e => [cmgl_line e; e.2]))).
Proof. intros Hi. by rewrite hs_command. Qed.
Lemma hs_announce n h : hs_idle h ->
  hs_keys (command_line ("AT+CMGS=" +:+ to_string n)) h =
  mkHandset "" true (hs_sim h) (hs_out h) (hs_said h +:+ crlf +:+ "> ").
Proof.
  intros Hi. rewrite hs_command; [done | done | | done]. rewrite all_chars_app. by rewrite typed_number.
Qed.
Lemma hs_submit pdu h : hs_line h = "" -> hs_prompt h = true -> all_chars typed_char pdu = true ->
  hs_keys (pdu +:+ chr ctrl_z) h =
  mkHandset "" false (hs_sim h) (hs_out h ++ [pdu]) (hs_said h +:+ ok_text [""; "+CMGS: 1"; ""]).
Proof.
  intros El Ep Hp. rewrite hs_keys_app, (hs_keys_typed pdu) by done. by rewrite El, Ep.
Qed.
Lemma hs_escape h : hs_idle h -> hs_keys (chr esc) h = h.
Proof. intros (El & Ep & _). destruct h. cbn in *. by subst. Qed.
Lemma hs_idle_at (l : list (Z * string)) o sd : Forall good_entry l -> hs_idle (mkHandset "" false l o sd).
Proof. done. Qed.

Section Handset.
Context (sim : list (Z * string)).
Definition after (t : string) : Handset := hs_keys t (mkHandset "" false sim [] "").
Definition handset (t : string) : string := hs_said (after t).

Lemma after_app t o : after (t +:+ o) = hs_keys o (after t).
Proof. apply hs_keys_app. Qed.

Lemma filter_all {A} (P : A -> Prop) `{!forall x, Decision (P x)} (l : list A) :
  (forall x, P x) -> filter P l = l.
Proof. intros HP. induction l as [| x l IH]; [done |]. by rewrite filter_cons, decide_True, IH. Qed.

#[export] Instance handset_modem : SmsModem handset.
Proof.
  refine {| idle := fun t => hs_idle (after t); stored := fun t => hs_sim (after t);
            submitted := fun t => hs_out (after t) |}; unfold handset.
  - intros t e (_ & _ & Hg) He. rewrite Forall_forall in Hg. by apply Hg.
  - intros t Hi. cbv zeta. rewrite after_app, hs_keys_app, hs_escape, hs_other, filter_all by done. cbn.
    split_and!; [by apply hs_idle_at, Hi | done | done |]. eexists. split; [done | apply ok_nothing].
  - intros t Hi. cbv zeta. rewrite after_app, hs_list by done. cbn.
    split_and!; [by apply hs_idle_at, Hi | done | done |]. eexists _, (fun _ => ",1,,24").
    split_and!; [done | done | by apply ok_entries, Hi].
  - intros t i Hi. cbv zeta. rewrite after_app, hs_other; [| done | | done..].
    + cbn. split_and!; [| | done |].
      * destruct Hi as (_ & _ & Hg). apply hs_idle_at, Forall_forall. rewrite Forall_forall in Hg.
        intros e [_ He]%list_elem_of_filter. by apply Hg.
      * apply list_filter_iff. intros e. split.
        -- intros Hn E. apply Hn. by rewrite E.
        -- intros Hn E%str_app_inj_l%to_string_inj. congruence.
      * eexists. split; [done | apply ok_nothing].
    + rewrite all_chars_app. by rewrite typed_number.
  - intros t to txt pdu n Hi Henc. cbv zeta. rewrite !after_app, hs_announce by done.
    rewrite hs_submit; [| done | done |]; cycle 1.
    { cbn in Henc. destruct (String.eqb to phone); [| done]. injection Henc as <- _. apply hex_typed. }
    cbn. split_and!; [done | by apply hs_idle_at, Hi | done | done |].
    eexists _, "+CMGS: 1". split; [done |]. exists ["+CMGS: 1"; ""]. by repeat constructor.
Defined.

(** ** The port *)

(** What was written, and how much of the answers was read. *)
Record Wire := mkWire { wi_told : string; wi_read : nat }.
Definition wi_got (e : Wire) : nat := wi_read e `min` String.length (handset (wi_told e)).
Definition wi_heard (e : Wire) : string := str_take (wi_got e) (handset (wi_told e)).
Definition wi_left (e : Wire) : string := str_drop (wi_got e) (handset (wi_told e)).

#[export] Instance wire_port : SerialPort Wire :=
  {| port_open := fun _ e => (3%Z, e); port_tcgetattr := fun e => (true, e);
     port_tcsetattr := fun _ e => (true, e);
     port_write := fun s e => (Wrote (String.length s), mkWire (wi_told e +:+ s) (wi_got e));
     port_select := fun e => (negb (String.eqb (wi_left e) ""), e);
     port_read := fun _ e =>
       if String.eqb (wi_left e) "" then (None, e)
       else (Some (str_take 7 (wi_left e)), mkWire (wi_told e) (wi_got e + 7));
     port_now_ms := fun e => (0%Z, e); schedule_timer := fun _ e => (tt, e) |}.

Lemma wi_split e : handset (wi_told e) = wi_heard e +:+ wi_left e.
Proof. symmetry. apply str_take_drop. Qed.
Lemma handset_more t o : exists x, handset (t +:+ o) = handset t +:+ x.
Proof. unfold handset. rewrite after_app. apply hs_keys_more. Qed.

Lemma wi_write s e : wi_heard (mkWire (wi_told e +:+ s) (wi_got e)) = wi_heard e.
Proof.
  unfold wi_heard. destruct (handset_more (wi_told e) s) as [x Hx]. unfold wi_got at 1. cbn [wi_told wi_read].
  rewrite Hx, length_app. rewrite Nat.min_l by (unfold wi_got; lia).
  apply str_take_app_le. unfold wi_got. lia.
Qed.
Lemma wi_piece e : wi_heard (mkWire (wi_told e) (wi_got e + 7)) = wi_heard e +:+ str_take 7 (wi_left e).
Proof.
  unfold wi_heard, wi_left. rewrite str_take_split. unfold wi_got at 1. cbn [wi_told wi_read].
  destruct (Nat.le_gt_cases (wi_got e + 7) (String.length (handset (wi_told e)))) as [Hle | Hgt].
  - by rewrite Nat.min_l.
  - rewrite Nat.min_r by lia. by rewrite !str_take_ge by lia.
Qed.

#[export] Instance wire_prompt : PromptModem Wire wi_told wi_heard handset.
Proof.
  refine {| pm_patient := {| patience := fun _ => 0%nat |}; pm_traced := _;
            soon := fun d _ => (0 < d)%Z; wait := fun _ => 0%nat |}; cbn.
  - intros [| c s] e Hs; done.
  - split; unfold exec, result; cbn.
    + intros s e. rewrite str_take_ge by done. split; [done | apply wi_write].
    + intros _ e. destruct (String.eqb_spec (wi_left e) "") as [E | E]; cbn; [by rewrite str_app_nil_r |].
      split; [done | apply wi_piece].
    + done.
    + done.
  - done.
  - intros e. eexists. apply wi_split.
  - intros t e Ht. unfold result; cbn. unfold u64. rewrite !Z.mod_small by (rewrite ?Z.mod_small by lia; lia). lia.
  - done.
  - intros d e Hd Hne. split; [done |]. unfold result; cbn.
    destruct (String.eqb_spec (wi_left e) "") as [E | E]; cbn; [| done].
    destruct Hne. by rewrite wi_split, E, str_app_nil_r.
  - intros d n e Hd Hne. split; [done |]. unfold result; cbn.
    destruct (String.eqb_spec (wi_left e) "") as [E | E]; cbn; [| by destruct (wi_left e)].
    destruct Hne. by rewrite wi_split, E, str_app_nil_r.
Defined.
End Handset.

(** ** A poll *)

#[local] Existing Instance plain_util.
#[local] Existing Instance plain_proto.
#[local] Existing Instance plain_wire.
#[local] Existing Instance loop_client.
#[local] Existing Instance demo_ctl.

(** The SIM of an appliance that was told to set two leaves and to read one back,
    with an entry that does not decode in between. *)
Definition demo_sim : list (Z * string) :=
  [(3%Z, "07" +:+ to_hex "IOT GNMI SET /a/mtu,/b 9000,x"); (5%Z, "00FF");
   (9%Z, "07" +:+ to_hex "iot gnmi get /a/mtu")].
#[local] Existing Instance wire_port.
Notation Line := (StandaloneClient (ModemWorld Wire * SimWorld)).
#[local] Instance demo_port : SerialPort Wire := wire_port demo_sim.
Definition line_clock : ST Line Z := st_ret 1700000000%Z.
Definition line_up : ModemWorld (Wire * StandaloneClient SimWorld) :=
  mkModemWorld
    (mkWire "" 0,
     mkStandalone "/etc/zerotouch/zerotouch.conf"
       (mkAppConfig true "127.0.0.1" 50051 [] 600 5 900 "/dev/ttyUSB2" 115200 Auto "/etc/users")
       [] [("+1", root)] 0 demo_world)
    (mkAtModem AtConfig_default 3 VGeneric tt "").

Lemma line_live t :
  live_session line_clock (sms_out (SM := handset_modem demo_sim) (wr := wi_told) read_hex) phone root
    (fun st => st = [("+1", root)]) (fun _ => True)
    (at_line (SM := handset_modem demo_sim) (wr := wi_told) (rd := wi_heard demo_sim) t).
Proof.
  split; try done.
  - intros []. by eexists.
  - intros now st _ ->. by exists [("+1", root)].
Qed.

Lemma hex_reads : network_reads read_hex phone.
Proof. intros t _. eexists _, _. split; [done |]. unfold read_hex. by rewrite of_to_hex. Qed.

Lemma serial_provisions_witness : exists w' t',
  converges (fun fuel => serial_poll line_clock (st_ret tt) AppConfig_default fuel) line_up 0%Z w' /\
  serving (fun st => st = [("+1", root)])
    (at_line (SM := handset_modem demo_sim) (wr := wi_told) (rd := wi_heard demo_sim) t') (to_daemon w') /\
  sms_out (SM := handset_modem demo_sim) (wr := wi_told) read_hex (outside (to_daemon w')) =
    [("+1", "OK GNMI SET 2 path(s) updated"); ("+1", "OK GNMI GET /a/mtu=9000")] /\
  hs_sim (after demo_sim t') = [(5%Z, "00FF")].
Proof.
  apply (serial_provisions (SM := handset_modem demo_sim) (PM := wire_prompt demo_sim) line_clock (st_ret tt)
           read_hex phone root (fun st => st = [("+1", root)]) (fun _ => True) line_live hex_reads eq_refl
           AppConfig_default (Loopback0 := loop_client_loops _ _) 3 9
           (mkSms phone "IOT GNMI SET /a/mtu,/b 9000,x" "ts" 0 3) (mkSms phone "iot gnmi get /a/mtu" "ts" 0 9)
           [("/a/mtu", "9000"); ("/b", "x")] [] [("/b", "x")] "/a/mtu" "9000" "" line_up).
  - split_and!; [done | done |]. split; [| done].
    split; [done | done | done |]. split_and!; [done | done |].
    cbn. repeat constructor; done.
  - by vm_compute.
  - done.
  - done.
  - apply parse_gnmi_grammar. reflexivity.
  - apply parse_gnmi_grammar. reflexivity.
  - by repeat constructor.
  - done.
  - cbn. set_solver.
  - done.
Defined.
