(* ===== verification/ZeroTouchd.v ===== *)
(** * ZeroTouchd: the ds daemon (daemon/zerotouchd.cpp, zerotouchd.hpp).

    [ZeroTouchClient] wires the SMS-over-store transport, the gnmi executor and
    the classic engine over one data store.  Its members are a record, its
    methods computations over it; the JSON library, the store's value
    conversions and the file system are parameters. *)

From S2P Require Import Prelude CString Text PathPolicy Seams GnmiCommand GnmiReply GnmiExecutor Bridge GnmiWire LocalGnmiSink SmsUtil SmsCtl DsTransport.

(** ** Parameters *)

Class DsValues (E : Type) `{DsClient E} := {
  value_to_int32 : Value -> option Z;
  value_to_bool : Value -> option bool;
  dsc_set_volatile : list (string * Value) -> ST E bool;
  (** [std::ofstream(path, trunc)]: whether it opened; [<< content]: [good()]. *)
  trig_open : string -> ST E bool;
  trig_write : string -> string -> ST E bool
}.

(** nlohmann::json as [lookup_account] uses it; [None] is an exception. *)
Class Json := {
  json : Type;
  json_parse : string -> option json;
  json_array : json -> option (list json);
  is_object : json -> bool;
  json_value : json -> string -> string -> option string
}.

(** ** The code *)

Record ZeroTouchClient `{SmsCtl} (E : Type) := mkZt {
  z_ds : E;
  z_sessions : SessionStore;
  z_sink : SinkConfig;
  z_transport : DsSmsTransport;
  z_enabled : bool;
  z_gnmi_port : Z;
  z_cfg_dirty : bool;
  z_handled : Z
}.
Arguments mkZt {_ E} _ _ _ _ _ _ _ _.
Arguments z_ds {_ E} _.
Arguments z_sessions {_ E} _.
Arguments z_sink {_ E} _.
Arguments z_transport {_ E} _.
Arguments z_enabled {_ E} _.
Arguments z_gnmi_port {_ E} _.
Arguments z_cfg_dirty {_ E} _.
Arguments z_handled {_ E} _.

Section Daemon.
Context `{SC : SmsCtl} `{GP : GnmiProto} {E : Type} `{DV : DsValues E} `{JS : Json}.
Notation D := (ZeroTouchClient E).
Context `{GC : GnmiClient D}.

(** *** The store, as the daemon reads it *)

(** [m_ds.get({key}, got).ok && !got.empty() && got[0].has_value] *)
Definition get_value (key : string) : ST E (option Value) :=
  let* got := dsc_get [key] in
  st_ret match got with Some (Some v :: _) => Some v | _ => None end.

Definition get_str (key : string) : ST E string :=
  let* v := get_value key in
  st_ret match v with Some v => default "" (value_to_string v) | None => "" end.
Definition get_u32 (key : string) (dflt : Z) : ST E Z :=
  let* v := get_value key in
  st_ret match v with
         | Some v => match value_to_int32 v with
                     | Some n => if (0 <? n)%Z then u32 n else dflt
                     | None => dflt end
         | None => dflt end.
Definition get_bool (key : string) (dflt : bool) : ST E bool :=
  let* v := get_value key in
  st_ret match v with Some v => default dflt (value_to_bool v) | None => dflt end.

Definition on_ds {A} (m : ST E A) : ST D A := fun d =>
  let '(a, e) := m (z_ds d) in
  (a, mkZt e (z_sessions d) (z_sink d) (z_transport d) (z_enabled d) (z_gnmi_port d)
           (z_cfg_dirty d) (z_handled d)).
Definition on_sessions {A} (m : ST SessionStore A) : ST D A := fun d =>
  let '(a, s) := m (z_sessions d) in
  (a, mkZt (z_ds d) s (z_sink d) (z_transport d) (z_enabled d) (z_gnmi_port d)
           (z_cfg_dirty d) (z_handled d)).
Definition put_sessions (s : SessionStore) (d : D) : D :=
  mkZt (z_ds d) s (z_sink d) (z_transport d) (z_enabled d) (z_gnmi_port d)
       (z_cfg_dirty d) (z_handled d).
Definition on_transport {A} (m : ST (DsWorld E) A) : ST D A := fun d =>
  let '(a, w) := m (mkDsWorld (z_ds d) (z_transport d)) in
  (a, mkZt (env w) (z_sessions d) (z_sink d) (tr w) (z_enabled d) (z_gnmi_port d)
           (z_cfg_dirty d) (z_handled d)).

(** *** LiveSink *)

Definition live_set (key v : string) : ST D bool := on_ds (dsc_set [(key, mk_value v)]).
Definition live_get (key : string) : ST D (option string) :=
  let* v := on_ds (get_value key) in
  st_ret match v with Some v => value_to_string v | None => None end.
Definition live_arm (path content : string) : ST D bool :=
  let* up := on_ds (trig_open path) in
  if negb up then st_ret false else on_ds (trig_write path content).
Definition LiveSink : DsSink D :=
  {| ds_set := live_set; ds_get := live_get; arm_trigger := live_arm |}.

(** *** Configuration *)

Definition load_config_from_ds : ST D unit :=
  let* en := on_ds (get_bool "zerotouch.enabled" false) in
  let* port := on_ds (get_u32 "zerotouch.gnmi.port" 50051) in
  let* _ := st_modify (fun d : D =>
    let gc := z_sink d in
    mkZt (z_ds d) (z_sessions d)
         (mkSinkConfig (host gc) (u16 port) (get_role gc) (set_role gc) (deny_tokens gc))
         (z_transport d) en (u16 port) (z_cfg_dirty d) (z_handled d)) in
  let* ttl := on_ds (get_u32 "zerotouch.session.ttl.sec" 600) in
  let* lf := on_ds (get_u32 "zerotouch.lockout.failures" 5) in
  let* ls := on_ds (get_u32 "zerotouch.lockout.sec" 900) in
  let* nums := on_ds (get_str "zerotouch.allowed.numbers") in
  on_sessions (st_modify (set_config (mkSmsConfig ttl lf ls (split_csv nums)))).

(** *** Accounts *)

Fixpoint find_account (i : string) (us : list json) : option Account :=
  match us with
  | [] => None
  | u :: r =>
      if negb (is_object u) then find_account i r
      else match json_value u "id" "" with
           | None => None
           | Some j =>
               if negb (String.eqb j i) then find_account i r
               else match json_value u "hash" "", json_value u "access" "Viewer" with
                    | Some h, Some a => if String.eqb h "" then None else Some (mkAccount i h a)
                    | _, _ => None
                    end
           end
  end.

Definition lookup_account (i : string) : ST E (option Account) :=
  if String.eqb i "admin" then
    let* v := get_value "auth.users.admin.password.hash" in
    match v with
    | None => st_ret None
    | Some v =>
        match value_to_string v with
        | None | Some "" => st_ret None
        | Some h =>
            let* a := get_value "auth.users.admin.access" in
            st_ret (Some (mkAccount "admin" h
              match a with
              | Some a => match value_to_string a with
                          | Some s => if String.eqb s "Viewer" then "Viewer" else "Admin"
                          | None => "Admin" end
              | None => "Admin" end))
        end
    end
  else
    let* v := get_value "auth.users.accounts" in
    st_ret match v with
           | None => None
           | Some v =>
               match value_to_string v with
               | None | Some "" => None
               | Some s =>
                   match json_parse s with
                   | None => None
                   | Some j => match json_array j with
                               | None => None
                               | Some us => find_account i us end
                   end
               end
           end.

(** *** Bridge callbacks *)

Definition sec_now : ST D Z := on_ds (let* tv := gettimeofday in st_ret (u64 tv.1)).

Definition sender_access (sender : string) : ST D Access :=
  let* now := sec_now in
  let* acc := on_sessions (session sender now) in
  st_ret match acc with
         | None => AccessNone
         | Some a => if String.eqb (acc_access a) "Admin" then Admin else Viewer
         end.

Definition zt_allowed (sender : string) : ST D bool :=
  st_gets (fun d => z_enabled d && sender_allowed sender (z_sessions d)).

Definition count_handled : ST D Z := fun d =>
  let h := u64 (z_handled d + 1) in
  (h, mkZt (z_ds d) (z_sessions d) (z_sink d) (z_transport d) (z_enabled d) (z_gnmi_port d)
           (z_cfg_dirty d) h).

(** The telemetry of one classic command. *)
Definition telemetry (sender : string) (cmd : Command) (ok : bool) (now count handled : Z)
  : list (string * Value) :=
  [("zerotouch.last.sender", mk_value sender);
   ("zerotouch.last.cmd", mk_value (keyword cmd));
   ("zerotouch.last.result", mk_value (if ok then "ok" else "err"));
   ("zerotouch.last.ts", mk_value (to_string now));
   ("zerotouch.sessions", mk_value (to_string count));
   ("zerotouch.version", mk_value (to_string handled))].

Definition classic_reply (sender txt : string) : ST D string :=
  let cmd := smsctl_parse txt in
  if bool_decide (cmd_kind cmd = NotACommand) then st_ret ""
  else
    let* tv := on_ds gettimeofday in
    let now := u64 tv.1 in
    let* h := count_handled in
    let seed := u64 (u64 (u64 tv.2 * 2654435761) + h) in
    let* reply := executor_handle D LiveSink z_sessions put_sessions
                    (fun i => on_ds (lookup_account i)) cmd sender now seed in
    let ok := starts_with "OK" reply in
    let* count := st_gets (fun d => session_count (z_sessions d)) in
    let* handled := st_gets z_handled in
    let* _ := on_ds (dsc_set_volatile (telemetry sender cmd ok now count handled)) in
    st_ret reply.

Definition publish_state : ST D unit :=
  let* en := st_gets z_enabled in
  let* count := st_gets (fun d => session_count (z_sessions d)) in
  let* _ := on_ds (dsc_set_volatile
    [("zerotouch.state", mk_value (if en : bool then "listening" else "disabled"));
     ("zerotouch.sessions", mk_value (to_string count))]) in
  st_ret tt.

Definition zt_handle_timeout : ST D Z :=
  let* now := sec_now in
  let* before := st_gets (fun d => session_count (z_sessions d)) in
  on_sessions (sweep now) >>>
  let* after := st_gets (fun d => session_count (z_sessions d)) in
  (if negb (Z.eqb after before) then publish_state else st_ret tt) >>> st_ret 0%Z.

Definition take_cfg_dirty : ST D bool := fun d =>
  (z_cfg_dirty d, mkZt (z_ds d) (z_sessions d) (z_sink d) (z_transport d) (z_enabled d)
                       (z_gnmi_port d) false (z_handled d)).
Definition zt_handle_exception : ST D Z :=
  let* dirty := take_cfg_dirty in
  (if dirty then load_config_from_ds >>> publish_state else st_ret tt) >>> st_ret 0%Z.
(** The config watch, on the listener thread. *)
Definition flag_cfg_dirty : ST D unit := st_modify (fun d =>
  mkZt (z_ds d) (z_sessions d) (z_sink d) (z_transport d) (z_enabled d) (z_gnmi_port d)
       true (z_handled d)).

(** *** The wiring *)

Definition ZtTransport : ISmsTransport D :=
  {| tx_send := fun to t => on_transport (ds_send to t);
     tx_start := fun _ => on_transport ds_start |}.
Definition ZtSink : GnmiSink D :=
  {| sink_get := fun xs d => local_get (z_sink d) xs d;
     sink_set := fun us d => local_set (z_sink d) us d |}.
Definition zt_bridge : Bridge D :=
  mkBridge (Some sender_access) (Some tokenize) (Some classic_reply) (Some zt_allowed).

Definition zt_sms (i : InboundSms) : ST D unit := @on_sms D ZtTransport ZtSink zt_bridge i.

(** [run] up to the event loop, once the store is connected. *)
Definition zt_run : ST D unit :=
  load_config_from_ds >>>
  @bridge_start D ZtTransport ZtSink zt_bridge >>>
  publish_state >>>
  let* _ := on_ds (dsc_set [("services.zerotouch.state", mk_value "running")]) in
  st_ret tt.
End Daemon.

(** ** Lemmas *)

Section DaemonLemmas.
Context `{SC : SmsCtl} {E : Type} `{DV : DsValues E} `{!PureReads E}.
Notation D := (ZeroTouchClient E).

(** What the store holds under a key. *)
Definition held (key : string) (e : E) : option Value := result (get_value key) e.
(** A number read from it: its value when a positive 32-bit integer. *)
Definition held_u32 (key : string) (dflt : Z) (e : E) : Z :=
  match held key e with
  | Some v => match value_to_int32 v with
              | Some n => if (0 <? n)%Z then n else dflt
              | None => dflt end
  | None => dflt
  end.
Definition held_str (key : string) (e : E) : string :=
  match held key e with Some v => default "" (value_to_string v) | None => "" end.
(** The range of [std::int32_t]. *)
Definition int32_range : Prop := forall v n, value_to_int32 v = Some n -> (int_min <= n <= int_max)%Z.

Lemma get_value_run key e : get_value key e = (held key e, e).
Proof.
  rewrite (run_split (get_value key) e). unfold held; f_equal.
  unfold get_value; st_run; apply read_pure.
Qed.
Lemma get_bool_run key dflt e :
  get_bool key dflt e =
  (match held key e with Some v => default dflt (value_to_bool v) | None => dflt end, e).
Proof. unfold get_bool, st_bind; by rewrite get_value_run. Qed.
Lemma get_str_run key e : get_str key e = (held_str key e, e).
Proof. unfold get_str, st_bind; by rewrite get_value_run. Qed.

Lemma get_u32_run key dflt e : int32_range -> get_u32 key dflt e = (held_u32 key dflt e, e).
Proof.
  intros Hr; unfold get_u32, st_bind; rewrite get_value_run. unfold st_ret, held_u32; f_equal.
  destruct (held key e) as [v|]; [| done]. destruct (value_to_int32 v) as [n|] eqn:En; [| done].
  destruct (Z.ltb_spec 0 n); [| done]. apply Hr in En. unfold u32, int_max in *.
  apply Z.mod_small; lia.
Qed.

Lemma held_u32_range key dflt e :
  int32_range -> (0 < dflt <= int_max)%Z -> (0 < held_u32 key dflt e <= int_max)%Z.
Proof.
  intros Hr Hd; unfold held_u32. destruct (held key e) as [v|]; [| done].
  destruct (value_to_int32 v) as [n|] eqn:En; [| done].
  destruct (Z.ltb_spec 0 n); [| done]. apply Hr in En; lia.
Qed.

Lemma load_config_run (d : D) : int32_range ->
  exec load_config_from_ds d =
  let e := z_ds d in
  let port := u16 (held_u32 "zerotouch.gnmi.port" 50051 e) in
  mkZt e
    (set_config (mkSmsConfig (held_u32 "zerotouch.session.ttl.sec" 600 e)
       (held_u32 "zerotouch.lockout.failures" 5 e) (held_u32 "zerotouch.lockout.sec" 900 e)
       (split_csv (held_str "zerotouch.allowed.numbers" e))) (z_sessions d))
    (mkSinkConfig (host (z_sink d)) port (get_role (z_sink d)) (set_role (z_sink d))
                  (deny_tokens (z_sink d)))
    (z_transport d)
    (match held "zerotouch.enabled" e with Some v => default false (value_to_bool v) | None => false end)
    port (z_cfg_dirty d) (z_handled d).
Proof.
  intros Hr; unfold load_config_from_ds, exec, st_bind, on_ds.
  rewrite get_bool_run. repeat (rewrite get_u32_run by done; cbn [z_ds st_modify]).
  by rewrite get_str_run.
Qed.
End DaemonLemmas.

Lemma find_account_spec `{JS : Json} i (us : list json) a :
  find_account i us = Some a ->
  exists pre u post, us = pre ++ u :: post /\
    Forall (fun x => is_object x = false \/ exists k, json_value x "id" "" = Some k /\ k <> i) pre /\
    is_object u = true /\ json_value u "id" "" = Some i /\
    json_value u "hash" "" = Some (acc_hash a) /\
    json_value u "access" "Viewer" = Some (acc_access a) /\ acc_id a = i /\ acc_hash a <> "".
Proof.
  intros Ha; induction us as [|u us IH]; [done |]; cbn [find_account] in Ha.
  assert (Hskip : find_account i us = Some a ->
    is_object u = false \/ (exists k, json_value u "id" "" = Some k /\ k <> i) ->
    exists pre v post, u :: us = pre ++ v :: post /\
      Forall (fun x => is_object x = false \/ exists k, json_value x "id" "" = Some k /\ k <> i) pre /\
      is_object v = true /\ json_value v "id" "" = Some i /\
      json_value v "hash" "" = Some (acc_hash a) /\
      json_value v "access" "Viewer" = Some (acc_access a) /\ acc_id a = i /\ acc_hash a <> "").
  { intros Hr Hu; destruct (IH Hr) as (pre & v & post & -> & Hp & Hv).
    exists (u :: pre), v, post; split; [done |]. split; [by constructor | exact Hv]. }
  destruct (is_object u) eqn:Eo; cbn [negb] in Ha; [| by apply Hskip; [| left]].
  destruct (json_value u "id" "") as [k|] eqn:Ek; [| done].
  destruct (String.eqb_spec k i) as [-> | Hk]; cbn [negb] in Ha; [| by apply Hskip; [| right; exists k]].
  destruct (json_value u "hash" "") as [h|] eqn:Eh; [| done].
  destruct (json_value u "access" "Viewer") as [x|] eqn:Ex; [| done].
  destruct (String.eqb_spec h "") as [| Hh]; [done |]. injection Ha as <-; cbn.
  exists [], u, us; split_and!; done.
Qed.

(** ** Properties *)

(** the configuration hot-applied from the store. Whatever the keys hold, the
    daemon is enabled exactly when the store holds the boolean true; every limit
    is the stored number when that is a positive 32-bit integer and its default
    otherwise, hence always positive; the allowlist entries are non-empty and
    free of commas and blanks; the gNMI port is the stored number modulo 2^16,
    and nothing else of the backend's configuration can be changed from the
    store. While it is not enabled, an SMS changes nothing at all. *)
Theorem zt_config_from_store `{SC : SmsCtl} `{GP : GnmiProto} {E : Type} `{DV : DsValues E}
    `{JS : Json} `{GC : GnmiClient (ZeroTouchClient E)} `{!PureReads E} (Hr : int32_range (E := E))
    (d : ZeroTouchClient E) :
  let d' := exec load_config_from_ds d in
  (z_enabled d' = true <->
     exists v, held "zerotouch.enabled" (z_ds d) = Some v /\ value_to_bool v = Some true) /\
  (exists ttl lf ls nums, z_sessions d' = set_config (mkSmsConfig ttl lf ls nums) (z_sessions d) /\
     (0 < ttl /\ 0 < lf /\ 0 < ls)%Z /\ Forall (fun x => csv_field x = true) nums) /\
  (port (z_sink d') = z_gnmi_port d' /\ (0 <= z_gnmi_port d' < 2 ^ 16)%Z) /\
  (host (z_sink d') = host (z_sink d) /\ get_role (z_sink d') = get_role (z_sink d) /\
   set_role (z_sink d') = set_role (z_sink d) /\ deny_tokens (z_sink d') = deny_tokens (z_sink d)) /\
  (z_enabled d' = false -> forall i, zt_sms i d' = (tt, d')).
Proof.
  cbv zeta. split_and!.
  - rewrite load_config_run by done; cbn.
    destruct (held "zerotouch.enabled" (z_ds d)) as [v|]; [| by split; [| intros (? & ? & ?)]].
    split; [| by intros (? & [= <-] & ->)].
    intros Hv; exists v; split; [done |]. by destruct (value_to_bool v) as [[]|].
  - rewrite load_config_run by done; cbn. eexists _, _, _, _; split; [done |].
    split; [| apply split_csv_fields].
    assert (Hi := fun k x => held_u32_range k x (z_ds d) Hr). unfold int_max in Hi.
    split_and!; apply Hi; lia.
  - rewrite load_config_run by done; done.
  - rewrite load_config_run by done; cbn. apply Z.mod_pos_bound; lia.
  - rewrite load_config_run by done; cbn. apply Z.mod_pos_bound; lia.
  - by rewrite load_config_run.
  - by rewrite load_config_run.
  - by rewrite load_config_run.
  - by rewrite load_config_run.
  - intros Hoff i. unfold zt_sms, on_sms, gate; cbn [m_allow zt_bridge].
    unfold st_bind, zt_allowed, st_gets. by rewrite Hoff.
Qed.

(** C35: whom the daemon lets log in. Resolving an account only reads the store,
    and an account found carries the id asked for and a non-empty hash. For
    "admin" it is the hash of the store and the level is Admin unless the store
    says exactly Viewer; for any other id hash and level are those of the first
    object of the accounts array with that id, provided everything before it is
    well typed, and text that is no JSON array yields nobody. *)
Theorem zt_lookup_account {E : Type} `{DV : DsValues E} `{JS : Json} `{!PureReads E}
    (i : string) (e : E) :
  exec (lookup_account i) e = e /\
  forall a, result (lookup_account i) e = Some a ->
    acc_id a = i /\ acc_hash a <> "" /\
    if String.eqb i "admin" then
      acc_hash a = held_str "auth.users.admin.password.hash" e /\
      acc_access a = if String.eqb (held_str "auth.users.admin.access" e) "Viewer"
                     then "Viewer" else "Admin"
    else exists j us pre u, json_parse (held_str "auth.users.accounts" e) = Some j /\
      json_array j = Some us /\ (exists post, us = pre ++ u :: post) /\
      Forall (fun x => is_object x = false \/
                       exists k, json_value x "id" "" = Some k /\ k <> i) pre /\
      is_object u = true /\ json_value u "id" "" = Some i /\
      json_value u "hash" "" = Some (acc_hash a) /\
      json_value u "access" "Viewer" = Some (acc_access a).
Proof.
  unfold lookup_account. destruct (String.eqb_spec i "admin") as [-> | Hi].
  - unfold exec, result, st_bind; rewrite get_value_run. unfold held_str.
    destruct (held "auth.users.admin.password.hash" e) as [v|]; [| done].
    destruct (value_to_string v) as [[|c h]|]; [done | | done].
    rewrite get_value_run; split; [done |]. intros a [= <-]; cbn.
    split_and!; [done | done | done |].
    destruct (held "auth.users.admin.access" e) as [x|]; [| done].
    by destruct (value_to_string x).
  - unfold exec, result, st_bind; rewrite get_value_run; split; [done |]. unfold held_str; cbn [fst].
    destruct (held "auth.users.accounts" e) as [v|]; [| done].
    destruct (value_to_string v) as [[|c s]|]; [done | | done]; cbn [default from_option id].
    destruct (json_parse (String c s)) as [j|]; [| done].
    destruct (json_array j) as [us|] eqn:Eus; [| done].
    intros a Ha. change (find_account i us = Some a) in Ha.
    destruct (find_account_spec i us a Ha) as (pre & u & post & Hus & Hp & H1 & H2 & H3 & H4 & H5 & H6).
    split_and!; [done | done |]. exists j, us, pre, u; split_and!; eauto.
Qed.

(** ** A concrete daemon *)

Inductive DemoValue := DStr (s : string) | DInt (n : Z) | DBool (b : bool).
Fixpoint demo_find (k : string) (s : list (string * DemoValue)) : option DemoValue :=
  match s with
  | [] => None
  | (j, v) :: r => if String.eqb j k then Some v else demo_find k r
  end.
#[local] Instance demo_ds : DsClient (list (string * DemoValue)) :=
  {| Value := DemoValue; mk_value := DStr;
     value_to_string v := match v with DStr s => Some s | _ => None end;
     dsc_get := fun ks e => (Some ((fun k => demo_find k e) <$> ks), e);
     dsc_set := fun kvs e => (true, kvs ++ e);
     gettimeofday := fun e => ((1700000000, 5)%Z, e) |}.
#[local] Instance demo_values : DsValues (list (string * DemoValue)) :=
  {| value_to_int32 v := match v with
       | DInt n => if in_range int_min int_max n then Some n else None | _ => None end;
     value_to_bool v := match v with DBool b => Some b | _ => None end;
     dsc_set_volatile := fun kvs e => (true, kvs ++ e);
     trig_open := fun _ e => (true, e); trig_write := fun _ _ e => (true, e) |}.
(** A document is the list of the objects in it; this one knows a single user. *)
#[local] Instance demo_json : Json :=
  {| json := list (string * string) + list (list (string * string));
     json_parse s := Some (inr [[("id", "bob"); ("hash", s); ("access", "Admin")]]);
     json_array j := match j with inr l => Some (inl <$> l) | inl _ => None end;
     is_object j := match j with inl _ => true | inr _ => false end;
     json_value j k d := match j with
       | inl o => Some (default d (snd <$> List.find (fun kv => String.eqb kv.1 k) o))
       | inr _ => None end |}.
Definition demo_pure : PureReads (list (string * DemoValue)).
Proof. done. Defined.
Definition demo_int32 : int32_range (E := list (string * DemoValue)).
Proof.
  intros [s | z | b] n; cbn; try done. destruct (in_range int_min int_max z) eqn:E; [| done].
  intros [= <-]. unfold in_range in E; boolify; lia.
Defined.

#[local] Existing Instance plain_util.
#[local] Existing Instance plain_proto.
#[local] Instance demo_ctl : SmsCtl := toy_ctl (fun _ => []).
#[local] Instance demo_rpc : GnmiClient (ZeroTouchClient (list (string * DemoValue))) :=
  fun _ _ _ _ d => (mkResponse 14 "" "", d).

Definition demo_zt (s : list (string * DemoValue)) : ZeroTouchClient (list (string * DemoValue)) :=
  mkZt s [] SinkConfig_default DsSmsTransport_init false 50051 false 0.

Lemma zt_config_from_store_witness :
  let d' := exec load_config_from_ds
    (demo_zt [("zerotouch.enabled", DStr "true"); ("zerotouch.gnmi.port", DInt 70000)]) in
  (port (z_sink d') = z_gnmi_port d' /\ (0 <= z_gnmi_port d' < 2 ^ 16)%Z) /\
  zt_sms (mkInboundSms "+1" "IOT STATUS" "t") d' = (tt, d').
Proof.
  destruct (zt_config_from_store (PureReads0 := demo_pure) demo_int32
    (demo_zt [("zerotouch.enabled", DStr "true"); ("zerotouch.gnmi.port", DInt 70000)]))
    as (_ & _ & Hp & _ & Hoff).
  split; [exact Hp |]. apply Hoff. by vm_compute.
Defined.

Lemma zt_lookup_account_witness :
  let a := mkAccount "bob" "abc" "Admin" in
  result (lookup_account "bob") [("auth.users.accounts", DStr "abc")] = Some a /\ acc_id a = "bob".
Proof.
  split; [by vm_compute |].
  apply (zt_lookup_account (PureReads0 := demo_pure) "bob" [("auth.users.accounts", DStr "abc")]).
  by vm_compute.
Defined.
