(* ===== verification/ZtDaemon.v ===== *)
(** * ZtDaemon: the ds daemon running (daemon/zerotouchd.cpp, src/ds_sms_transport.cpp)

    [run] ends in the reactor's event loop.  From then on two threads share the
    client: the store's listener, which runs the two watch callbacks, and the
    reactor, which runs [handle_exception] of the transport and of the client and
    the timer.  They are a step relation here, cut where a mutex is released and, in
    [load_config_from_ds], where the store is read; other processes change the
    store at any moment.  Then: what the store, the session store and the engine
    promise, as two classes, and what one SMS does under them.  ZtRuns has the
    theorems about every run. *)

From S2P Require Import Prelude CString Text PathPolicy Seams GnmiCommand GnmiReply GnmiExecutor Bridge GnmiWire LocalGnmiSink SmsUtil SmsCtl DsTransport ZeroTouchd.

(** ** The code *)

(** The two watches, [sms.version] and the [zerotouch.*] keys; also the handler
    each wakes. *)
Inductive Watch := WSms | WCfg.
#[export] Instance Watch_eq_dec : EqDecision Watch.
Proof. solve_decision. Defined.

Inductive ListenerPc := LIdle | LTell (w : Watch).
(** [load_config_from_ds] between two reads of the store, with its locals. *)
Inductive LoadPc :=
| LdEnabled | LdPort | LdTtl | LdFailures (ttl : Z) | LdSec (ttl lf : Z) | LdNumbers (ttl lf ls : Z).
Inductive ReactorPc := RIdle | RDrain | RLoad (p : LoadPc) | RPublish.

Section Running.
Context `{SC : SmsCtl} `{GP : GnmiProto} {E : Type} `{DV : DsValues E} `{JS : Json}.
Notation D := (ZeroTouchClient E).
Context `{GC : GnmiClient D}.

Definition set_enabled (b : bool) : ST D unit := st_modify (fun d =>
  mkZt (z_ds d) (z_sessions d) (z_sink d) (z_transport d) b (z_gnmi_port d) (z_cfg_dirty d) (z_handled d)).
Definition set_port (p : Z) : ST D unit := st_modify (fun d =>
  let gc := z_sink d in
  mkZt (z_ds d) (z_sessions d) (mkSinkConfig (host gc) p (get_role gc) (set_role gc) (deny_tokens gc))
       (z_transport d) (z_enabled d) p (z_cfg_dirty d) (z_handled d)).

(** One read of [load_config_from_ds] and what is done with it; [None] at the end. *)
Definition load_act (p : LoadPc) : ST D (option LoadPc) :=
  match p with
  | LdEnabled => let* en := on_ds (get_bool "zerotouch.enabled" false) in
      set_enabled en >>> st_ret (Some LdPort)
  | LdPort => let* port := on_ds (get_u32 "zerotouch.gnmi.port" 50051) in
      set_port (u16 port) >>> st_ret (Some LdTtl)
  | LdTtl => let* ttl := on_ds (get_u32 "zerotouch.session.ttl.sec" 600) in st_ret (Some (LdFailures ttl))
  | LdFailures ttl => let* lf := on_ds (get_u32 "zerotouch.lockout.failures" 5) in
      st_ret (Some (LdSec ttl lf))
  | LdSec ttl lf => let* ls := on_ds (get_u32 "zerotouch.lockout.sec" 900) in
      st_ret (Some (LdNumbers ttl lf ls))
  | LdNumbers ttl lf ls => let* nums := on_ds (get_str "zerotouch.allowed.numbers") in
      on_sessions (st_modify (set_config (mkSmsConfig ttl lf ls (split_csv nums)))) >>> st_ret None
  end.

(** [drain_inbound], with the bridge as its [m_on_message]. *)
Definition zt_take : ST D (option InboundSms) := on_transport take_last.
Definition zt_drain : ST D unit :=
  let* m := zt_take in
  match m with Some i => zt_sms i | None => st_ret tt end.

(** The client, the watch events the listener has not handled, the notifications
    the reactor has not, where both threads are, and the messages handed to the
    bridge. *)
Record Sys := mkSys {
  zt : D; queue : list Watch; notes : list Watch; lpc : ListenerPc; rpc : ReactorPc;
  handled : list InboundSms
}.

(** What the daemon's watches look at. *)
Definition wanted (e : E) : bool * Z * SmsConfig :=
  (match held "zerotouch.enabled" e with Some v => default false (value_to_bool v) | None => false end,
   u16 (result (get_u32 "zerotouch.gnmi.port" 50051) e),
   mkSmsConfig (result (get_u32 "zerotouch.session.ttl.sec" 600) e)
     (result (get_u32 "zerotouch.lockout.failures" 5) e) (result (get_u32 "zerotouch.lockout.sec" 900) e)
     (split_csv (held_str "zerotouch.allowed.numbers" e))).
(** The store tells of every change to what is watched; it may tell more. *)
Definition told (e e' : E) (evs : list Watch) : Prop :=
  (last_of e' <> last_of e -> WSms ∈ evs) /\ (wanted e' <> wanted e -> WCfg ∈ evs).

Definition watched_keys : list string :=
  ["zerotouch.enabled"; "zerotouch.gnmi.port"; "zerotouch.allowed.numbers"; "zerotouch.session.ttl.sec";
   "zerotouch.lockout.failures"; "zerotouch.lockout.sec"; "sms.version"] ++ sms_last_keys.
Definition watched (e : E) : (bool * Z * SmsConfig) * option InboundSms := (wanted e, last_of e).

Definition flag (w : Watch) : ST D unit :=
  match w with WSms => on_transport flag_dirty | WCfg => flag_cfg_dirty end.
(** The locked block at the top of a [handle_exception], and what follows. *)
Definition take (w : Watch) : ST D bool :=
  match w with WSms => on_transport take_dirty | WCfg => take_cfg_dirty end.
Definition dispatched (w : Watch) (dirty : bool) : ReactorPc :=
  if dirty then match w with WSms => RDrain | WCfg => RLoad LdEnabled end else RIdle.

(** [others] is what other processes do to the store; the daemon's own writes are
    told to it as well. *)
Context (others : relation E).

Inductive sys_step : Sys -> Sys -> Prop :=
| sys_others s e' evs :
    others (z_ds (zt s)) e' -> told (z_ds (zt s)) e' evs ->
    sys_step s (mkSys (exec (on_ds (fun _ => (tt, e'))) (zt s)) (queue s ++ evs) (notes s) (lpc s) (rpc s)
                      (handled s))
| sys_flag s w q :
    lpc s = LIdle -> queue s = w :: q ->
    sys_step s (mkSys (exec (flag w) (zt s)) q (notes s) (LTell w) (rpc s) (handled s))
| sys_tell s w :
    lpc s = LTell w ->
    sys_step s (mkSys (zt s) (queue s) (notes s ++ [w]) LIdle (rpc s) (handled s))
| sys_take s w n :
    rpc s = RIdle -> notes s = w :: n ->
    sys_step s (mkSys (exec (take w) (zt s)) (queue s) n (lpc s)
                      (dispatched w (result (take w) (zt s))) (handled s))
| sys_drain s evs :
    rpc s = RDrain -> told (z_ds (zt s)) (z_ds (exec zt_drain (zt s))) evs ->
    sys_step s (mkSys (exec zt_drain (zt s)) (queue s ++ evs) (notes s) (lpc s) RIdle
                      (handled s ++ match result zt_take (zt s) with Some i => [i] | None => [] end))
| sys_load s p :
    rpc s = RLoad p ->
    sys_step s (mkSys (exec (load_act p) (zt s)) (queue s) (notes s) (lpc s)
                      (match result (load_act p) (zt s) with Some p' => RLoad p' | None => RPublish end)
                      (handled s))
| sys_publish s evs :
    rpc s = RPublish -> told (z_ds (zt s)) (z_ds (exec publish_state (zt s))) evs ->
    sys_step s (mkSys (exec publish_state (zt s)) (queue s ++ evs) (notes s) (lpc s) RIdle (handled s))
| sys_timer s evs :
    rpc s = RIdle -> told (z_ds (zt s)) (z_ds (exec zt_handle_timeout (zt s))) evs ->
    sys_step s (mkSys (exec zt_handle_timeout (zt s)) (queue s ++ evs) (notes s) (lpc s) RIdle (handled s)).

(** The event loop starts. *)
Definition sys_start (d : D) : Sys := mkSys d [] [] LIdle RIdle [].
Definition sys_reach (d : D) : Sys -> Prop := rtc sys_step (sys_start d).
End Running.
Arguments Sys {SC} E.

(** ** What the parameters promise *)

Section Laws.
Context `{SC : SmsCtl} `{GP : GnmiProto} {E : Type} `{DV : DsValues E} `{JS : Json}.
Notation D := (ZeroTouchClient E).
Context `{GC : GnmiClient D}.

(** [cf] reads the limits a session store works by, [out] the messages
    cellular-client was asked to send. *)
Context (cf : SessionStore -> SmsConfig) (out : E -> list (string * string)).

(** The configuration in force. *)
Definition in_force (d : D) : bool * Z * SmsConfig := (z_enabled d, port (z_sink d), cf (z_sessions d)).
(** What an SMS, once delivered, leaves alone. *)
Definition kept (d : D) : DsSmsTransport * bool * (bool * Z * SmsConfig) :=
  (z_transport d, z_cfg_dirty d, in_force d).

(** The session store, the gNMI client and the classic engine: only [set_config]
    changes the limits, and none of them sends an SMS, reaches into the daemon or
    writes what it watches. *)
Class EngineLaws := {
  el_config : forall c st, cf (set_config c st) = c;
  el_session : forall s n st, cf (exec (session s n) st) = cf st;
  el_sweep : forall n st, cf (exec (sweep n) st) = cf st;
  el_call : forall h p m b, frames kept (call h p m b : ST D response);
  el_call_out : forall h p m b, frames (fun d => out (z_ds d)) (call h p m b : ST D response);
  el_call_watch : forall h p m b, frames (fun d => watched (z_ds d)) (call h p m b : ST D response);
  el_handle_watch : forall cmd s now seed,
    frames (fun d => watched (z_ds d))
      (executor_handle D LiveSink z_sessions put_sessions (fun i => on_ds (lookup_account i)) cmd s now seed);
  el_handle : forall cmd s now seed,
    frames kept (executor_handle D LiveSink z_sessions put_sessions (fun i => on_ds (lookup_account i))
                   cmd s now seed);
  el_handle_out : forall cmd s now seed,
    frames (fun d => out (z_ds d))
      (executor_handle D LiveSink z_sessions put_sessions (fun i => on_ds (lookup_account i)) cmd s now seed)
}.

(** The store: a write that succeeds is read back, one that does not name the
    request token asks for no message, one of other keys changes nothing that is
    watched, and the token, once written, asks for the message the two other keys
    describe. *)
Class StoreLaws := {
  sl_value : forall s, value_to_string (mk_value s) = Some s;
  sl_clock : forall e, exec gettimeofday e = e;
  sl_reads_back : forall kvs e k s, result (dsc_set kvs) e = true -> NoDup kvs.*1 -> (k, mk_value s) ∈ kvs ->
    held_str k (exec (dsc_set kvs) e) = s;
  sl_other : forall kvs e, "sms.send.request" ∉ kvs.*1 -> out (exec (dsc_set kvs) e) = out e;
  sl_volatile : forall kvs e, "sms.send.request" ∉ kvs.*1 -> out (exec (dsc_set_volatile kvs) e) = out e;
  sl_watched : forall kvs e, Forall (fun k => k ∉ watched_keys) kvs.*1 ->
    watched (exec (dsc_set kvs) e) = watched e;
  sl_watched_volatile : forall kvs e, Forall (fun k => k ∉ watched_keys) kvs.*1 ->
    watched (exec (dsc_set_volatile kvs) e) = watched e;
  sl_request : forall v e, let e' := exec (dsc_set [("sms.send.request", v)]) e in
    let sent := out e ++ [(held_str "sms.send.to" e, held_str "sms.send.text" e)] in
    if result (dsc_set [("sms.send.request", v)]) e then out e' = sent else out e' = out e \/ out e' = sent
}.
End Laws.
Arguments in_force {_ _} cf d.
Arguments kept {_ _} cf d.

(** ** Lemmas *)

(** A batch of named keys is not the request token. *)
Ltac no_request := cbn; repeat (apply not_elem_of_cons; split; [done |]); apply not_elem_of_nil.

(** A batch of named keys is not watched. *)
Ltac unwatched := cbn; repeat (constructor; [no_request |]); constructor.

Section Views.
Context `{SC : SmsCtl} `{GP : GnmiProto} {E : Type} `{DV : DsValues E} `{JS : Json} `{!PureReads E}.
Notation D := (ZeroTouchClient E).
Context `{GC : GnmiClient D}.
Context {cf : SessionStore -> SmsConfig} {out : E -> list (string * string)}.
Context `{EL : !EngineLaws cf out} `{SL : !StoreLaws out}.

Lemma on_ds_run {A} (m : ST E A) (d : D) :
  on_ds m d = (result m (z_ds d),
    mkZt (exec m (z_ds d)) (z_sessions d) (z_sink d) (z_transport d) (z_enabled d) (z_gnmi_port d)
         (z_cfg_dirty d) (z_handled d)).
Proof. unfold on_ds. by rewrite (run_split m). Qed.

Lemma on_sessions_run {A} (m : ST SessionStore A) (d : D) :
  on_sessions m d = (result m (z_sessions d), put_sessions (exec m (z_sessions d)) d).
Proof. unfold on_sessions, put_sessions. by rewrite (run_split m). Qed.

Lemma on_transport_run {A} (m : ST (DsWorld E) A) (d : D) :
  on_transport m d = (result m (mkDsWorld (z_ds d) (z_transport d)),
    let w := exec m (mkDsWorld (z_ds d) (z_transport d)) in
    mkZt (env w) (z_sessions d) (z_sink d) (tr w) (z_enabled d) (z_gnmi_port d) (z_cfg_dirty d) (z_handled d)).
Proof. unfold on_transport. by rewrite (run_split m). Qed.

Lemma on_ds_kept {A} (m : ST E A) : frames (kept cf) (on_ds m).
Proof. intros d. unfold exec. by rewrite on_ds_run. Qed.
Lemma on_ds_out {A} (m : ST E A) : frames out m -> frames (fun d : D => out (z_ds d)) (on_ds m).
Proof. intros Hm d. unfold exec. rewrite on_ds_run. apply Hm. Qed.
Lemma on_sessions_kept {A} (m : ST SessionStore A) :
  (forall st, cf (exec m st) = cf st) -> frames (kept cf) (on_sessions (E := E) m).
Proof.
  intros Hm d. unfold exec, same_view, kept, in_force. rewrite on_sessions_run. cbn. by rewrite Hm.
Qed.
Lemma on_sessions_out {A} (m : ST SessionStore A) : frames (fun d : D => out (z_ds d)) (on_sessions m).
Proof. intros d. unfold exec. by rewrite on_sessions_run. Qed.

Lemma clock_out : frames out (gettimeofday (E := E)).
Proof using SL. intros e. unfold same_view. by rewrite (sl_clock out). Qed.

Lemma exec_sec_now (d : D) : exec sec_now d = exec (on_ds (gettimeofday (E := E))) d.
Proof. unfold exec at 1 2. unfold sec_now. rewrite !on_ds_run. by st_run. Qed.
Lemma sec_now_kept : frames (kept cf) (sec_now (E := E)).
Proof. apply on_ds_kept. Qed.
Lemma sec_now_out : frames (fun d : D => out (z_ds d)) sec_now.
Proof using SL. apply on_ds_out. apply st_rel_bind; [apply _ | apply clock_out | intros; apply st_rel_ret, _]. Qed.

Lemma sender_access_out s : frames (fun d : D => out (z_ds d)) (sender_access s).
Proof using SL.
  unfold sender_access. apply st_rel_bind; [apply _ | apply sec_now_out | intros now].
  apply st_rel_bind; [apply _ | apply on_sessions_out | intros; apply st_rel_ret, _].
Qed.

(** A sink over a client that keeps a view keeps it. *)
Lemma ZtSink_view {X} (f : D -> X) : (forall h p m b, frames f (call h p m b : ST D response)) ->
  (forall xs, frames f (@sink_get D ZtSink xs)) /\ (forall us, frames f (@sink_set D ZtSink us)).
Proof.
  intros Hc.
  assert (forall cfg xs, frames f (local_get cfg xs)) as Hg.
  { intros cfg xs. unfold local_get. destruct (screen _ _ _ _ _) as [[rows req] asked].
    case_bool_decide; [apply st_rel_ret, _ |].
    apply st_rel_bind; [apply _ | apply Hc | intros r].
    destruct (rpc_ok r _) as [[] o]; cbn [negb]; [| apply st_rel_ret, _].
    destruct (par_GetResponse _); apply st_rel_ret, _. }
  assert (forall cfg us, frames f (local_set cfg us)) as Hs.
  { intros cfg us. unfold local_set. apply st_rel_bind; [apply _ | apply Hc | intros r].
    destruct (rpc_ok r _) as [[] o]; cbn [negb]; [| apply st_rel_ret, _].
    destruct (par_SetResponse _); apply st_rel_ret, _. }
  split; intros l d; [apply (Hg (z_sink d) l d) | apply (Hs (z_sink d) l d)].
Qed.

Lemma telemetry_no_request s c ok now n h : "sms.send.request" ∉ (telemetry s c ok now n h).*1.
Proof. no_request. Qed.

(** A computation of the classic engine's, of the pieces it is made of. *)
Lemma classic_view {X} (f : D -> X) s t :
  frames f (on_ds (gettimeofday (E := E))) -> frames f (count_handled (E := E)) ->
  (forall cmd s now seed, frames f (executor_handle D LiveSink z_sessions put_sessions
     (fun i => on_ds (lookup_account i)) cmd s now seed)) ->
  (forall s c ok now n h, frames f (on_ds (dsc_set_volatile (telemetry s c ok now n h)))) ->
  frames f (classic_reply s t).
Proof.
  intros H1 H2 H3 H4. unfold classic_reply. case_bool_decide; [apply st_rel_ret, _ |].
  repeat (apply st_rel_bind; [apply _ | | intros ?]); auto;
    try apply st_rel_gets; try apply st_rel_ret; apply _.
Qed.

Lemma classic_out s t : frames (fun d : D => out (z_ds d)) (classic_reply s t).
Proof using EL SL.
  apply classic_view; [apply on_ds_out, clock_out | done | apply (el_handle_out cf out) |].
  intros. apply on_ds_out. intros e. apply (sl_volatile out), telemetry_no_request.
Qed.

(** *** Sending *)

Lemma now_ms_run e : exec now_ms (e : E) = e.
Proof using SL. unfold now_ms. st_run. apply (sl_clock out). Qed.

Lemma ds_send_out to txt (w : DsWorld E) :
  let e := env w in let e' := env (exec (ds_send to txt) w) in
  (out e' = out e \/ out e' = out e ++ [(to, txt)]) /\
  (result (ds_send to txt) w = true -> out e' = out e ++ [(to, txt)]).
Proof using SL.
  clear - SL. cbv zeta. unfold ds_send. destruct (is_reachable_sender to); cbn [negb]; [| st_run; by split; [left |]].
  set (kvs := [("sms.send.to", mk_value to); ("sms.send.text", mk_value txt)]).
  assert ("sms.send.request" ∉ kvs.*1) as Hk.
  { no_request. }
  assert (NoDup kvs.*1) as Hn by (cbn; repeat constructor; set_solver).
  st_run. rewrite exec_on_store, result_on_store. cbn [env].
  pose proof (sl_other out kvs (env w) Hk) as Eo.
  pose proof (fun k s => sl_reads_back out kvs (env w) k s) as Hb.
  destruct (result (dsc_set kvs) (env w)); cbn [negb]; [| st_run; cbn [env]; by split; [left |]].
  set (e1 := exec (dsc_set kvs) (env w)) in *.
  assert (held_str "sms.send.to" e1 = to) as E1 by (apply Hb; try done; unfold kvs; set_solver).
  assert (held_str "sms.send.text" e1 = txt) as E2 by (apply Hb; try done; unfold kvs; set_solver).
  st_run. rewrite !exec_on_store, !result_on_store. cbn [env]. rewrite now_ms_run.
  pose proof (sl_request out (mk_value (to_string (result now_ms e1))) e1) as Hr. cbv zeta in Hr.
  rewrite E1, E2, Eo in Hr. destruct (result (dsc_set [_]) e1); [split; auto |]. by split.
Qed.

#[export] Instance zt_outbox : OutboxTransport (H := ZtTransport) D (fun d => out (z_ds d)).
Proof using SL SC.
  clear - SL. split; intros to t d; cbn; unfold exec, result; rewrite on_transport_run; cbn;
    destruct (ds_send_out to t (mkDsWorld (z_ds d) (z_transport d))) as [Ho Hok]; tauto.
Qed.

Lemma ds_send_tr to txt (w : DsWorld E) : tr (exec (ds_send to txt) w) = tr w.
Proof.
  unfold ds_send. destruct (is_reachable_sender to); cbn [negb]; [| done]. st_run.
  rewrite result_on_store. destruct (result (dsc_set _) (env w)); cbn [negb]; st_run;
    by rewrite !exec_on_store.
Qed.

(** *** One message *)

(** A view that every piece of the bridge's work keeps is kept by all of it. *)
Lemma zt_sms_view {X} (f : D -> X) i :
  (forall h p m b, frames f (call h p m b : ST D response)) ->
  (forall cmd s now seed, frames f (executor_handle D LiveSink z_sessions put_sessions
     (fun i => on_ds (lookup_account i)) cmd s now seed)) ->
  (forall s c ok now n h, frames f (on_ds (dsc_set_volatile (telemetry s c ok now n h)))) ->
  frames f (on_ds (gettimeofday (E := E))) -> frames f (count_handled (E := E)) ->
  (forall s n, frames f (on_sessions (E := E) (session s n))) ->
  (forall to t, frames f (on_transport (E := E) (ds_send to t))) ->
  frames f (zt_sms i).
Proof.
  intros Hc He Hv Hg Hn Hs Ht. destruct (ZtSink_view f Hc) as [Hget Hset].
  assert (forall to r, frames f (@send_nonempty D ZtTransport to r)) as Hsend.
  { intros to r. unfold send_nonempty. destruct (String.eqb r ""); [apply st_rel_ret, _ |].
    apply st_rel_bind; [apply _ | apply Ht | intros; apply st_rel_ret, _]. }
  assert (forall s, frames f (sender_access (E := E) s)) as Ha.
  { intros s. unfold sender_access. apply st_rel_bind; [apply _ | | intros now].
    - intros d. unfold same_view. rewrite exec_sec_now. apply Hg.
    - apply st_rel_bind; [apply _ | apply Hs | intros; apply st_rel_ret, _]. }
  unfold zt_sms, on_sms. apply st_rel_bind; [apply _ | apply st_rel_gets, _ | intros b].
  destruct b; cbn [negb]; [| apply st_rel_ret, _]. case_bool_decide; cbn [negb m_fallback zt_bridge].
  - apply st_rel_bind; [apply _ | by apply classic_view | intros; apply Hsend].
  - apply st_rel_bind; [apply _ | | intros; apply Hsend].
    apply handle_rel; [apply _ | intros; apply Ha | done | done].
Qed.

Lemma zt_sms_kept i : frames (kept cf) (zt_sms i).
Proof using EL.
  apply zt_sms_view; try (intros; apply on_ds_kept); try done.
  - apply (el_call cf out).
  - apply (el_handle cf out).
  - intros. apply on_sessions_kept. intros. apply (el_session cf out).
  - intros to r d. unfold same_view, exec. rewrite on_transport_run. unfold kept, in_force. cbn.
    by rewrite ds_send_tr.
Qed.

Lemma send_watch to t (w : DsWorld E) : watched (env (exec (ds_send to t) w)) = watched (env w).
Proof using SL.
  clear - SL. unfold ds_send. destruct (is_reachable_sender to); cbn [negb]; [| done]. st_run.
  rewrite result_on_store. destruct (result (dsc_set _) (env w)); cbn [negb]; st_run;
    rewrite !exec_on_store; cbn [env]; [| apply (sl_watched out); unwatched].
  rewrite (sl_watched out), now_ms_run, (sl_watched out) by unwatched. done.
Qed.

Lemma on_ds_watch {A} (m : ST E A) : frames watched m -> frames (fun d : D => watched (z_ds d)) (on_ds m).
Proof. intros Hm d. unfold exec. rewrite on_ds_run. apply Hm. Qed.

Lemma zt_sms_watch i : frames (fun d : D => watched (z_ds d)) (zt_sms i).
Proof using EL SL.
  apply zt_sms_view; try done.
  - apply (el_call_watch cf out).
  - apply (el_handle_watch cf out).
  - intros. apply on_ds_watch. intros e. apply (sl_watched_volatile out). unwatched.
  - apply on_ds_watch. intros e. unfold same_view. by rewrite (sl_clock out).
  - intros s n d. unfold exec. by rewrite on_sessions_run.
  - intros to t d. unfold exec. rewrite on_transport_run. apply send_watch.
Qed.

Lemma zt_sms_out i (d : D) : exists l, out (z_ds (exec (zt_sms i) d)) = out (z_ds d) ++ l /\
  (l = [] \/ exists r, l = [(sender i, r)] /\ r <> "" /\
     (kind (parse_gnmi (tokenize (text i))) <> NotGnmi -> String.length r <= kMaxReply)%nat).
Proof using EL SL.
  destruct (ZtSink_view (fun d : D => out (z_ds d)) (el_call_out cf out)) as [Hg Hs].
  apply (@on_sms_sends D ZtSink (fun d : D => out (z_ds d)) ZtTransport zt_outbox zt_bridge); try done.
  - intros s. apply sender_access_out.
  - intros fb s t [= <-]. apply classic_out.
Qed.
End Views.
