(* ===== verification/ZtRuns.v ===== *)
(** * ZtRuns: every run of the ds daemon

    Invariants of the two threads of ZtDaemon, for any store and engine that keep
    its two classes: no change of the store that the daemon watches goes unnoticed,
    what [load_config_from_ds] has read so far is what the store holds unless an
    event is pending, and the messages sent are the answers to the SMS handed to the
    bridge.  Then the two properties, a daemon on a concrete store, and what a change
    of the store while the daemon comes up can do. *)

From Stdlib Require Import Sorting.Sorted.
From S2P Require Import Prelude CString Text PathPolicy Seams GnmiCommand GnmiReply GnmiExecutor Bridge GnmiWire LocalGnmiSink SmsUtil SmsCtl DsTransport ZeroTouchd ZtDaemon.

#[export] Instance SmsConfig_eq_dec : EqDecision SmsConfig.
Proof. solve_decision. Defined.

(** ** Every run *)

Section Runs.
Context `{SC : SmsCtl} `{GP : GnmiProto} {E : Type} `{DV : DsValues E} `{JS : Json} `{!PureReads E}.
Notation D := (ZeroTouchClient E).
Context `{GC : GnmiClient D}.
Context {cf : SessionStore -> SmsConfig} {out : E -> list (string * string)}.
Context `{EL : !EngineLaws cf out} `{SL : !StoreLaws out}.
Context {others : relation E}.
Notation step := (sys_step (JS := JS) others).

(** The flag a watch callback sets. *)
Definition dirty (w : Watch) (d : D) : bool :=
  match w with WSms => m_sms_dirty (z_transport d) | WCfg => z_cfg_dirty d end.
(** A watch has work under way that has not reached its handler. *)
Definition pending (w : Watch) (s : Sys E) : Prop :=
  w ∈ queue s \/ (dirty w (zt s) = true /\ (w ∈ notes s \/ lpc s = LTell w)).

Definition seeing (i : InboundSms) (d : D) : D :=
  mkZt (z_ds d) (z_sessions d) (z_sink d) (see i (z_transport d)) (z_enabled d) (z_gnmi_port d)
       (z_cfg_dirty d) (z_handled d).

Lemma zt_take_run (d : D) :
  zt_take d = match last_of (z_ds d) with
              | Some i => if fresh i (z_transport d) then (Some i, seeing i d) else (None, d)
              | None => (None, d) end.
Proof.
  unfold zt_take, on_transport. rewrite take_last_run. cbn [env tr]. destruct d; cbn.
  destruct (last_of _) as [i |]; [| done]. by destruct (fresh i _).
Qed.

Lemma drain_run (d : D) : zt_drain d =
  match last_of (z_ds d) with
  | Some i => if fresh i (z_transport d) then zt_sms i (seeing i d) else (tt, d)
  | None => (tt, d) end.
Proof.
  unfold zt_drain, st_bind. rewrite zt_take_run. destruct (last_of (z_ds d)) as [i |]; [| done].
  by destruct (fresh i (z_transport d)).
Qed.

(** The reactor's other work leaves [kept] alone. *)
Lemma publish_kept : frames (kept cf) (publish_state (E := E)).
Proof.
  unfold publish_state. repeat (apply st_rel_bind; [apply _ | | intros ?]);
    try (apply st_rel_gets || apply st_rel_ret); try apply _. apply on_ds_kept.
Qed.
Lemma timeout_kept : frames (kept cf) (zt_handle_timeout (E := E)).
Proof using EL.
  unfold zt_handle_timeout. repeat (apply st_rel_bind; [apply _ | | intros ?]);
    try (apply st_rel_gets || apply st_rel_ret); try apply _.
  - apply sec_now_kept.
  - apply on_sessions_kept. intros st. apply (el_sweep cf out).
  - case_match; [apply publish_kept | apply st_rel_ret, _].
Qed.
Lemma publish_out : frames (fun d : D => out (z_ds d)) publish_state.
Proof using SL.
  unfold publish_state. repeat (apply st_rel_bind; [apply _ | | intros ?]);
    try (apply st_rel_gets || apply st_rel_ret); try apply _.
  apply on_ds_out. intros e. apply (sl_volatile out). no_request.
Qed.
Lemma timeout_out : frames (fun d : D => out (z_ds d)) zt_handle_timeout.
Proof using SL.
  unfold zt_handle_timeout. repeat (apply st_rel_bind; [apply _ | | intros ?]);
    try (apply st_rel_gets || apply st_rel_ret); try apply _.
  - apply sec_now_out.
  - apply on_sessions_out.
  - case_match; [apply publish_out | apply st_rel_ret, _].
Qed.

(** A drain: the message it hands on, and what the daemon is afterwards. *)
Lemma drain_kept (d : D) : let d' := exec zt_drain d in
  kept cf d' = kept cf (exec zt_take d).
Proof using EL PureReads0.
  cbv zeta. unfold exec. rewrite drain_run, zt_take_run.
  destruct (last_of (z_ds d)) as [i |]; [| done]. destruct (fresh i (z_transport d)); [| done].
  apply zt_sms_kept.
Qed.

(** The reads of the configuration. *)
Lemma get_u32_pure k x (e : E) : get_u32 k x e = (result (get_u32 k x) e, e).
Proof.
  rewrite (run_split (get_u32 k x) e). f_equal. unfold get_u32. st_run. unfold exec. by rewrite get_value_run.
Qed.

Lemma load_act_run p (d : D) : load_act p d =
  let w := wanted (z_ds d) in
  match p with
  | LdEnabled => (Some LdPort, exec (set_enabled w.1.1) d)
  | LdPort => (Some LdTtl, exec (set_port w.1.2) d)
  | LdTtl => (Some (LdFailures (sc_session_ttl_sec w.2)), d)
  | LdFailures ttl => (Some (LdSec ttl (sc_lockout_failures w.2)), d)
  | LdSec ttl lf => (Some (LdNumbers ttl lf (sc_lockout_sec w.2)), d)
  | LdNumbers ttl lf ls =>
      (None, put_sessions (set_config (mkSmsConfig ttl lf ls (sc_allowed_numbers w.2)) (z_sessions d)) d)
  end.
Proof.
  destruct d as [e ? ? ? ? ? ? ?]. destruct p; cbn [load_act]; unfold st_bind, on_ds; cbn [z_ds];
    rewrite ?get_bool_run, ?get_u32_pure, ?get_str_run; done.
Qed.

(** Uninterrupted, the reads are [load_config_from_ds]. *)
Fixpoint load_from (n : nat) (p : LoadPc) : ST D unit :=
  match n with
  | O => st_ret tt
  | S n => let* o := load_act p in match o with Some p' => load_from n p' | None => st_ret tt end
  end.
Lemma load_from_S n p (d : D) : load_from (S n) p d =
  match load_act p d with (Some p', d') => load_from n p' d' | (None, d') => (tt, d') end.
Proof. cbn [load_from]. unfold st_bind. by destruct (load_act p d) as [[p' |] d']. Qed.

Lemma load_config_acts : load_from 6 LdEnabled ≋ load_config_from_ds (E := E).
Proof.
  intros d. do 6 (rewrite load_from_S, load_act_run; cbv beta iota zeta).
  destruct d as [e ss sk t en pt cd hd]. unfold load_config_from_ds, st_bind, on_ds, on_sessions. cbn [z_ds].
  rewrite get_bool_run. cbn. rewrite (get_u32_pure "zerotouch.gnmi.port"). cbn.
  rewrite (get_u32_pure "zerotouch.session.ttl.sec"). cbn. rewrite (get_u32_pure "zerotouch.lockout.failures"). cbn.
  rewrite (get_u32_pure "zerotouch.lockout.sec"). cbn. by rewrite get_str_run.
Qed.

(** *** No event of the store is lost *)

Lemma flag_run w (d : D) : let d' := exec (flag w) d in
  z_ds d' = z_ds d /\ seen_of (z_transport d') = seen_of (z_transport d) /\
  in_force cf d' = in_force cf d /\ forall x, dirty x d' = if decide (x = w) then true else dirty x d.
Proof. cbv zeta. by destruct w; (split_and!; [done .. | intros []]). Qed.

Lemma take_run w (d : D) : result (take w) d = dirty w d /\ let d' := exec (take w) d in
  z_ds d' = z_ds d /\ seen_of (z_transport d') = seen_of (z_transport d) /\
  in_force cf d' = in_force cf d /\ forall x, dirty x d' = if decide (x = w) then false else dirty x d.
Proof. cbv zeta. by destruct w; (split_and!; [done .. | intros []]). Qed.

Lemma kept_dirty w (d d' : D) : kept cf d' = kept cf d -> dirty w d' = dirty w d.
Proof. unfold kept. intros [= E1 E2 _ _ _]. destruct w; cbn; congruence. Qed.

Lemma zt_take_dirty w (d : D) : dirty w (exec zt_take d) = dirty w d.
Proof.
  unfold exec. rewrite zt_take_run. destruct (last_of (z_ds d)) as [i |]; [| done].
  destruct (fresh i (z_transport d)); [| done]. by destruct w.
Qed.

Lemma load_dirty w p (d : D) : dirty w (exec (load_act p) d) = dirty w d.
Proof. unfold exec. rewrite load_act_run. by destruct p, w. Qed.

(** A step that keeps the flags and loses neither events nor notifications. *)
Lemma pending_keep w (s s' : Sys E) :
  dirty w (zt s') = dirty w (zt s) -> queue s ⊆ queue s' -> notes s' = notes s -> lpc s' = lpc s ->
  pending w s -> pending w s'.
Proof. unfold pending. intros -> Hq -> ->. intros [? | ?]; auto. Qed.

Lemma pending_step w s s' : step s s' -> pending w s -> pending w s' \/ rpc s' = dispatched w true.
Proof using EL PureReads0 SL.
  intros Hs Hp.
  destruct Hs as [s e' evs _ _ | s x q Hl Hq | s x Hl | s x n Hr Hn | s evs Hr _ | s p Hr | s evs Hr _ | s evs Hr _].
  - left. apply (pending_keep w s); [by destruct w | cbn; set_solver | done | done | done].
  - left. destruct (flag_run x (zt s)) as (_ & _ & _ & Hd). unfold pending. cbn. rewrite Hd.
    destruct (decide (w = x)) as [-> | Hne]; [right; auto |].
    destruct Hp as [Hp | [Hd0 [? | ?]]]; [left | by right; auto | congruence].
    rewrite Hq in Hp. apply elem_of_cons in Hp as [? | ?]; done.
  - left. destruct Hp as [? | [? Hp]]; [by left | right]. cbn. split; [done | left].
    rewrite elem_of_app, list_elem_of_singleton. destruct Hp as [? | ?]; [by left | right; congruence].
  - destruct (take_run x (zt s)) as (Er & _ & _ & _ & Hd).
    destruct (decide (w = x)) as [-> | Hne].
    + destruct Hp as [? | [Hdx _]]; [by left; left | right]. cbn. by rewrite Er, Hdx.
    + left. unfold pending. cbn. rewrite Hd, decide_False by done.
      destruct Hp as [? | [Hdx [Hin | ?]]]; [by left | right | by right; auto].
      split; [done | left]. rewrite Hn in Hin. apply elem_of_cons in Hin as [? | ?]; done.
  - left. apply (pending_keep w s); [| cbn; set_solver | done | done | done]. cbn.
    rewrite (kept_dirty w _ _ (drain_kept (zt s))). apply zt_take_dirty.
  - left. apply (pending_keep w s); [apply load_dirty | done | done | done | done].
  - left. apply (pending_keep w s); [| cbn; set_solver | done | done | done].
    apply kept_dirty, publish_kept.
  - left. apply (pending_keep w s); [| cbn; set_solver | done | done | done].
    apply kept_dirty, timeout_kept.
Qed.

(** *** The configuration *)

(** What [load_config_from_ds] has read so far is what the store holds. *)
Definition loaded (p : LoadPc) (d : D) : Prop :=
  let w := wanted (z_ds d) in
  match p with
  | LdEnabled => True
  | LdPort => z_enabled d = w.1.1
  | _ => z_enabled d = w.1.1 /\ port (z_sink d) = w.1.2 /\
      match p with
      | LdFailures ttl => ttl = sc_session_ttl_sec w.2
      | LdSec ttl lf => ttl = sc_session_ttl_sec w.2 /\ lf = sc_lockout_failures w.2
      | LdNumbers ttl lf ls =>
          ttl = sc_session_ttl_sec w.2 /\ lf = sc_lockout_failures w.2 /\ ls = sc_lockout_sec w.2
      | _ => True
      end
  end.
Definition matches (s : Sys E) : Prop :=
  match rpc s with
  | RLoad p => loaded p (zt s)
  | _ => in_force cf (zt s) = wanted (z_ds (zt s))
  end.

Lemma matches_ext (s s' : Sys E) : rpc s' = rpc s ->
  in_force cf (zt s') = in_force cf (zt s) -> wanted (z_ds (zt s')) = wanted (z_ds (zt s)) ->
  matches s -> matches s'.
Proof.
  unfold matches. intros -> Ef Ew. destruct (rpc s); rewrite ?Ef, ?Ew; try done.
  unfold loaded, in_force in *. rewrite Ew. injection Ef as -> -> _. done.
Qed.

#[local] Arguments wanted : simpl never.
Lemma loaded_act p (d : D) : loaded p d ->
  match result (load_act p) d with
  | Some p' => loaded p' (exec (load_act p) d)
  | None => in_force cf (exec (load_act p) d) = wanted (z_ds (exec (load_act p) d))
  end.
Proof using EL PureReads0 SL.
  unfold result, exec. rewrite load_act_run. destruct (wanted (z_ds d)) as [[en pt] [ttl lf ls nums]] eqn:Ew.
  destruct p; unfold loaded, st_modify, exec; cbn; rewrite ?Ew; cbn; try naive_solver.
  unfold in_force. cbn. rewrite (el_config cf out). by intros (-> & -> & -> & -> & ->).
Qed.

(** The store told of what it changed: either the change is pending or there was none. *)
Lemma matches_told (s s' : Sys E) evs :
  told (z_ds (zt s)) (z_ds (zt s')) evs -> evs ⊆ queue s' ->
  (wanted (z_ds (zt s')) = wanted (z_ds (zt s)) -> matches s') -> pending WCfg s' \/ matches s'.
Proof.
  intros [_ Ht] Hq Hm. destruct (decide (wanted (z_ds (zt s')) = wanted (z_ds (zt s)))) as [E0 | Hn]; [auto |].
  left. left. by apply Hq, Ht.
Qed.

Lemma config_step s s' : step s s' -> pending WCfg s \/ matches s -> pending WCfg s' \/ matches s'.
Proof using EL PureReads0 SL.
  intros Hs [Hp | Hm].
  { destruct (pending_step WCfg s s' Hs Hp) as [? | Hr]; [by left | right]. unfold matches. by rewrite Hr. }
  assert (forall d d' : D, kept cf d' = kept cf d -> in_force cf d' = in_force cf d) as Hk.
  { intros d d' E1. exact (f_equal snd E1). }
  destruct Hs as [s e' evs _ Ht | s x q Hl Hq | s x Hl | s x n Hr Hn | s evs Hr Ht | s p Hr | s evs Hr Ht | s evs Hr Ht].
  - eapply matches_told; [exact Ht | cbn; set_solver |]. intros Ew. by apply (matches_ext s).
  - right. destruct (flag_run x (zt s)) as (Ez & _ & Ef & _). apply (matches_ext s); cbn; congruence.
  - by right.
  - right. destruct (take_run x (zt s)) as (_ & Ez & _ & Ef & _). unfold matches in *. rewrite Hr in Hm.
    rewrite <- Ez, <- Ef in Hm. cbn. by destruct (result (take x) (zt s)), x.
  - eapply matches_told; [exact Ht | cbn; set_solver |]. intros Ew. unfold matches in *. rewrite Hr in Hm. cbn in *.
    rewrite (Hk _ _ (drain_kept (zt s))), Ew, <- Hm. unfold exec. rewrite zt_take_run.
    destruct (last_of (z_ds (zt s))) as [i |]; [| done]. by destruct (fresh i (z_transport (zt s))).
  - right. unfold matches in *. rewrite Hr in Hm. pose proof (loaded_act p (zt s) Hm) as Hl. cbn.
    by destruct (result (load_act p) (zt s)).
  - eapply matches_told; [exact Ht | cbn; set_solver |]. intros Ew. unfold matches in *. rewrite Hr in Hm. cbn in *.
    by rewrite (Hk _ _ (publish_kept (zt s))), Ew.
  - eapply matches_told; [exact Ht | cbn; set_solver |]. intros Ew. unfold matches in *. rewrite Hr in Hm. cbn in *.
    by rewrite (Hk _ _ (timeout_kept (zt s))), Ew.
Qed.

(** *** The messages *)

(** Nothing newer than what was seen is in the store. *)
Definition current (d : D) : Prop :=
  forall i, last_of (z_ds d) = Some i -> deliverable i = true -> seen_of (z_transport d) = i.

Lemma current_ext (d d' : D) :
  seen_of (z_transport d') = seen_of (z_transport d) -> last_of (z_ds d') = last_of (z_ds d) ->
  current d -> current d'.
Proof. unfold current. by intros -> ->. Qed.

Lemma kept_seen (d d' : D) : kept cf d' = kept cf d -> z_transport d' = z_transport d.
Proof. intros E1. exact (f_equal (fun x => x.1.1) E1). Qed.

Lemma drain_current (d : D) :
  last_of (z_ds (exec zt_drain d)) = last_of (z_ds d) -> current (exec zt_drain d).
Proof using EL PureReads0.
  intros El i. rewrite El, (kept_seen _ _ (drain_kept d)). unfold exec. rewrite zt_take_run.
  intros Hi Hd. rewrite Hi. unfold fresh. rewrite Hd. cbn [andb]. case_bool_decide as Hn; cbn.
  - by destruct i.
  - destruct (decide (i = seen_of (z_transport d))) as [E1 | E1]; [done | by destruct Hn].
Qed.

Lemma current_told (s s' : Sys E) evs :
  told (z_ds (zt s)) (z_ds (zt s')) evs -> evs ⊆ queue s' ->
  (last_of (z_ds (zt s')) = last_of (z_ds (zt s)) -> current (zt s')) ->
  pending WSms s' \/ rpc s' = RDrain \/ current (zt s').
Proof.
  intros [Ht _] Hq Hc. destruct (decide (last_of (z_ds (zt s')) = last_of (z_ds (zt s)))) as [E0 | Hn]; [auto |].
  left. left. by apply Hq, Ht.
Qed.

Lemma newest_step s s' : step s s' -> pending WSms s \/ rpc s = RDrain \/ current (zt s) ->
  pending WSms s' \/ rpc s' = RDrain \/ current (zt s').
Proof using EL PureReads0 SL.
  intros Hs [Hp | Hc].
  { destruct (pending_step WSms s s' Hs Hp) as [? | Hr]; auto. }
  destruct Hs as [s e' evs _ Ht | s x q Hl Hq | s x Hl | s x n Hr Hn | s evs Hr Ht | s p Hr | s evs Hr Ht | s evs Hr Ht].
  - destruct Hc as [Hr | Hc]; [by right; left |].
    eapply current_told; [exact Ht | cbn; set_solver |]. intros El. by apply (current_ext (zt s)).
  - destruct Hc as [Hr | Hc]; [by right; left | right; right]. destruct (flag_run x (zt s)) as (Ez & Es & _).
    apply (current_ext (zt s)); cbn; [done | by rewrite Ez | done].
  - destruct Hc as [Hr | Hc]; auto.
  - destruct Hc as [? | Hc]; [congruence | right; right]. destruct (take_run x (zt s)) as (_ & Ez & Es & _).
    apply (current_ext (zt s)); cbn; [done | by rewrite Ez | done].
  - eapply current_told; [exact Ht | cbn; set_solver |]. apply drain_current.
  - destruct Hc as [? | Hc]; [congruence | right; right]. revert Hc. apply current_ext; cbn; unfold exec;
      rewrite load_act_run; by destruct p.
  - destruct Hc as [? | Hc]; [congruence |]. eapply current_told; [exact Ht | cbn; set_solver |].
    intros El. apply (current_ext (zt s)); cbn; [by rewrite (kept_seen _ _ (publish_kept (zt s))) | done | done].
  - destruct Hc as [? | Hc]; [congruence |]. eapply current_told; [exact Ht | cbn; set_solver |].
    intros El. apply (current_ext (zt s)); cbn; [by rewrite (kept_seen _ _ (timeout_kept (zt s))) | done | done].
Qed.

(** What a step hands to the bridge, and what the transport remembers of it. *)
Lemma handled_step s s' : step s s' ->
  (handled s' = handled s /\ seen_of (z_transport (zt s')) = seen_of (z_transport (zt s))) \/
  (exists i, handled s' = handled s ++ [i] /\ seen_of (z_transport (zt s')) = i /\
     deliverable i = true /\ i <> seen_of (z_transport (zt s))).
Proof using EL PureReads0 SL.
  intros Hs.
  destruct Hs as [s e' evs _ Ht | s x q Hl Hq | s x Hl | s x n Hr Hn | s evs Hr Ht | s p Hr | s evs Hr Ht | s evs Hr Ht];
    cbn; try (by left).
  - left. by destruct (flag_run x (zt s)) as (_ & -> & _).
  - left. by destruct (take_run x (zt s)) as (_ & _ & -> & _).
  - rewrite (kept_seen _ _ (drain_kept (zt s))). unfold exec, result. rewrite zt_take_run.
    destruct (last_of (z_ds (zt s))) as [i |]; [| left; by rewrite app_nil_r].
    destruct (fresh i (z_transport (zt s))) eqn:Hf; [right | left; by rewrite app_nil_r].
    apply andb_true_iff in Hf as [Hd Hne%bool_decide_eq_true]. exists i. split_and!; try done. by destruct i.
  - left. split; [done |]. unfold exec. rewrite load_act_run. by destruct p.
  - left. by rewrite (kept_seen _ _ (publish_kept (zt s))).
  - left. by rewrite (kept_seen _ _ (timeout_kept (zt s))).
Qed.

Definition in_order (b : InboundSms) (s : Sys E) : Prop :=
  Sorted (fun a b => a <> b) (b :: handled s) /\
  Forall (fun i => deliverable i = true) (handled s) /\
  last (b :: handled s) = Some (seen_of (z_transport (zt s))).

Lemma order_step b s s' : step s s' -> in_order b s -> in_order b s'.
Proof using EL PureReads0 SL.
  intros Hs (H1 & H2 & H3).
  destruct (handled_step s s' Hs) as [[Eh Es] | (i & Eh & Es & Hd & Hn)]; unfold in_order; rewrite Eh, Es; [done |].
  split_and!.
  - eapply Sorted_snoc; [done | exact H3 | by apply not_eq_sym].
  - by apply Forall_app; split; [| constructor].
  - by rewrite app_comm_cons, last_snoc.
Qed.

(** *** The replies *)

(** [rs] is what each message was answered. *)
Definition answers (i : InboundSms) (r : option string) : Prop :=
  forall t, r = Some t -> t <> "" /\
    (kind (parse_gnmi (tokenize (text i))) <> NotGnmi -> (String.length t <= kMaxReply)%nat).
Definition replies (is_ : list InboundSms) (rs : list (option string)) : list (string * string) :=
  concat (zip_with (fun i r => match r with Some t => [(sender i, t)] | None => [] end) is_ rs).

#[local] Arguments replies : simpl never.

Definition answered (o : list (string * string)) (s : Sys E) : Prop :=
  exists rs, Forall2 answers (handled s) rs /\ out (z_ds (zt s)) = o ++ replies (handled s) rs.

Lemma replies_snoc is_ rs i r : length is_ = length rs ->
  replies (is_ ++ [i]) (rs ++ [r]) = replies is_ rs ++ match r with Some t => [(sender i, t)] | None => [] end.
Proof.
  intros El. unfold replies. rewrite zip_with_app by done. rewrite concat_app. cbn. by rewrite app_nil_r.
Qed.

Lemma answered_same o s s' :
  handled s' = handled s -> out (z_ds (zt s')) = out (z_ds (zt s)) -> answered o s -> answered o s'.
Proof. unfold answered. by intros -> ->. Qed.

(** A drain answers the message it hands on, or stays silent. *)
Lemma drain_out (d : D) : exists l, out (z_ds (exec zt_drain d)) = out (z_ds d) ++ l /\
  match result zt_take d with
  | Some i => exists r, answers i r /\ l = match r with Some t => [(sender i, t)] | None => [] end
  | None => l = [] end.
Proof using EL PureReads0 SL.
  unfold exec, result. rewrite drain_run, zt_take_run.
  destruct (last_of (z_ds d)) as [i |]; [| exists []; by rewrite app_nil_r].
  destruct (fresh i (z_transport d)); [| exists []; by rewrite app_nil_r]. cbn [fst].
  destruct (zt_sms_out i (seeing i d)) as (l & El & Hl). exists l. split; [exact El |].
  destruct Hl as [-> | (r & -> & Hr & Hk)]; [by exists None | exists (Some r)].
  split; [| done]. by intros t [= <-].
Qed.

Lemma answered_step o s s' : (forall e e', others e e' -> out e' = out e) ->
  step s s' -> answered o s -> answered o s'.
Proof using EL PureReads0 SL.
  intros Ho Hs Ha.
  destruct Hs as [s e' evs Hoth Ht | s x q Hl Hq | s x Hl | s x n Hr Hn | s evs Hr Ht | s p Hr | s evs Hr Ht | s evs Hr Ht].
  - apply (answered_same o s); [done | by apply Ho | done].
  - apply (answered_same o s); [done | | done]. cbn. by destruct (flag_run x (zt s)) as (-> & _).
  - done.
  - apply (answered_same o s); [done | | done]. cbn. by destruct (take_run x (zt s)) as (_ & -> & _).
  - destruct Ha as (rs & Hrs & Eo). destruct (drain_out (zt s)) as (l & El & Hm).
    pose proof (Forall2_length _ _ _ Hrs) as Hlen. unfold answered. cbn. rewrite El, Eo.
    destruct (result zt_take (zt s)) as [i |].
    + destruct Hm as (r & Hr' & ->). exists (rs ++ [r]). split; [by apply Forall2_app; [| constructor] |].
      by rewrite replies_snoc, <- app_assoc.
    + exists rs. by rewrite Hm, !app_nil_r.
  - apply (answered_same o s); [done | | done]. cbn. unfold exec. rewrite load_act_run. by destruct p.
  - apply (answered_same o s); [done | | done]. apply publish_out.
  - apply (answered_same o s); [done | | done]. apply timeout_out.
Qed.

(** *** The start, and coming to rest *)

Lemma publish_watch : frames (fun d : D => watched (z_ds d)) publish_state.
Proof using SL.
  unfold publish_state. repeat (apply st_rel_bind; [apply _ | | intros ?]);
    try (apply st_rel_gets || apply st_rel_ret); try apply _.
  apply on_ds_watch. intros e. apply (sl_watched_volatile out). unwatched.
Qed.

(** [run], up to the event loop, puts the store's configuration in force and
    takes what the store holds as seen. *)
Lemma zt_run_starts (d : D) : let d' := exec zt_run d in
  in_force cf d' = wanted (z_ds d') /\ current d' /\ out (z_ds d') = out (z_ds d).
Proof using EL PureReads0 SL.
  cbv zeta. set (d1 := exec load_config_from_ds d).
  assert (z_ds d1 = z_ds d /\ in_force cf d1 = wanted (z_ds d)) as [Ez1 Ef1].
  { unfold d1, exec. rewrite <- load_config_acts. do 6 (rewrite load_from_S, load_act_run; cbv beta iota zeta).
    cbn. unfold exec, set_enabled, set_port, st_modify. cbn. split; [done |]. unfold in_force. cbn.
    rewrite (el_config cf out). by destruct (wanted (z_ds d)) as [[] []]. }
  set (d2 := exec (on_transport ds_start) d1).
  assert (z_ds d2 = z_ds d1 /\ in_force cf d2 = in_force cf d1 /\ current d2) as (Ez2 & Ef2 & Hc2).
  { unfold d2, exec. rewrite on_transport_run. rewrite ds_start_run. cbn. split_and!; [done | done |].
    intros i. cbn. intros -> _. by destruct i. }
  set (d3 := exec publish_state d2).
  set (kvs := [("services.zerotouch.state", mk_value "running")]).
  assert (exec zt_run d = exec (on_ds (dsc_set kvs)) d3) as ->.
  { unfold zt_run, bridge_start. st_run. done. }
  unfold exec. rewrite on_ds_run. cbn.
  assert (watched (exec (dsc_set kvs) (z_ds d3)) = watched (z_ds d)) as Ew.
  { rewrite (sl_watched out) by unwatched. rewrite <- Ez1, <- Ez2. apply publish_watch. }
  pose proof (publish_kept d2) as Ek. fold d3 in Ek.
  pose proof (f_equal fst Ew) as Ewa. pose proof (f_equal snd Ew) as El. cbn in Ewa, El. split_and!.
  - rewrite Ewa, <- Ef1, <- Ef2. exact (f_equal snd Ek).
  - revert Hc2. apply current_ext; cbn.
    + by rewrite (kept_seen _ _ Ek).
    + by rewrite El, Ez2, Ez1.
  - rewrite (sl_other out) by no_request. unfold d3. by rewrite publish_out, Ez2, Ez1.
Qed.

Definition resting (s : Sys E) : Prop :=
  queue s = [] /\ notes s = [] /\ lpc s = LIdle /\ rpc s = RIdle.
Definition backlog (s : Sys E) : nat :=
  12 * length (queue s) + (match lpc s with LTell _ => 11 | LIdle => 0 end) + 10 * length (notes s) +
  match rpc s with
  | RIdle => 0 | RDrain | RPublish => 1
  | RLoad p => match p with LdEnabled => 7 | LdPort => 6 | LdTtl => 5 | LdFailures _ => 4 | LdSec _ _ => 3
               | LdNumbers _ _ _ => 2 end
  end.

(** Until it rests, one of the threads can move and leave less to do. *)
Lemma progress (s : Sys E) :
  resting s \/ exists s', sys_step (JS := JS) (fun _ _ => False) s s' /\ (backlog s' < backlog s)%nat.
Proof using EL PureReads0 SL.
  destruct (rpc s) as [| | p |] eqn:Er.
  - destruct (lpc s) as [| w] eqn:El.
    + destruct (queue s) as [| w q] eqn:Eq.
      * destruct (notes s) as [| w n] eqn:En; [by left | right].
        eexists. split; [by eapply sys_take |]. unfold backlog. cbn. rewrite Er, El, Eq, En. cbn.
        unfold dispatched. destruct (result (take w) (zt s)), w; cbn; lia.
      * right. eexists. split; [by eapply sys_flag |]. unfold backlog. cbn. rewrite Er, El, Eq. cbn. lia.
    + right. eexists. split; [by eapply sys_tell |]. unfold backlog. cbn.
      rewrite Er, El, List.length_app. cbn. lia.
  - right. eexists. split; [apply (sys_drain _ _ []); [done |] |].
    + unfold exec. rewrite drain_run. destruct (last_of (z_ds (zt s))) as [i |] eqn:Ei; [| by split].
      destruct (fresh i (z_transport (zt s))); [| by split].
      pose proof (zt_sms_watch i (seeing i (zt s))) as Ew. unfold same_view, exec in Ew. cbn in Ew.
      split; intros Hn; destruct Hn; [exact (f_equal snd Ew) | exact (f_equal fst Ew)].
    + unfold backlog. cbn. rewrite Er, app_nil_r. lia.
  - right. eexists. split; [by apply sys_load |]. unfold backlog. cbn. rewrite Er.
    unfold result. rewrite load_act_run. destruct p; cbn; lia.
  - right. eexists. split; [apply (sys_publish _ _ []); [done |] |].
    + pose proof (publish_watch (zt s)) as Ew.
      split; intros Hn; destruct Hn; [exact (f_equal snd Ew) | exact (f_equal fst Ew)].
    + unfold backlog. cbn. rewrite Er, app_nil_r. lia.
Qed.

Lemma comes_to_rest (s : Sys E) : exists n s', (n <= backlog s)%nat /\
  nsteps (sys_step (JS := JS) (fun _ _ => False)) n s s' /\ resting s'.
Proof using EL PureReads0 SL.
  remember (backlog s) as b eqn:Eb. revert s Eb. induction (lt_wf b) as [b _ IH]. intros s ->.
  destruct (progress s) as [Hr | (s1 & Hs & Hlt)]; [exists 0%nat, s; split_and!; [lia | constructor | done] |].
  destruct (IH (backlog s1) Hlt s1 eq_refl) as (n & s' & Hn & Hrun & Hr).
  exists (S n), s'. split_and!; [lia | by econstructor | done].
Qed.

Lemma run_inv (P : Sys E -> Prop) (d : D) s :
  P (sys_start d) -> (forall s s', step s s' -> P s -> P s') -> sys_reach (JS := JS) others d s -> P s.
Proof.
  intros H1 Hs Hr. apply (rtc_ind_r P (sys_start d)) in Hr; [done | done |]. intros y z _ Hyz. by apply Hs.
Qed.

(** What every run of the daemon keeps. *)
Context (d0 : D) (s : Sys E) (Hr : sys_reach (JS := JS) others (exec zt_run d0) s).

Lemma reach_config : pending WCfg s \/ matches s.
Proof using EL PureReads0 SL Hr.
  apply (run_inv (fun s => pending WCfg s \/ matches s) (exec zt_run d0)); [| apply config_step | exact Hr].
  right. apply zt_run_starts.
Qed.
Lemma reach_newest : pending WSms s \/ rpc s = RDrain \/ current (zt s).
Proof using EL PureReads0 SL Hr.
  apply (run_inv (fun s => pending WSms s \/ rpc s = RDrain \/ current (zt s)) (exec zt_run d0));
    [| apply newest_step | exact Hr].
  right; right. apply zt_run_starts.
Qed.
Lemma reach_order : in_order (seen_of (z_transport (exec zt_run d0))) s.
Proof using EL PureReads0 SL Hr.
  apply (run_inv (in_order _) (exec zt_run d0)); [| apply order_step | exact Hr].
  repeat split; repeat constructor.
Qed.
Lemma reach_answered : (forall e e', others e e' -> out e' = out e) -> answered (out (z_ds d0)) s.
Proof using EL PureReads0 SL Hr.
  intros Ho. apply (run_inv (answered _) (exec zt_run d0)); [| intros s1 s2; by apply answered_step | exact Hr].
  exists []. split; [constructor |]. destruct (zt_run_starts d0) as (_ & _ & E1). cbn. by rewrite E1, app_nil_r.
Qed.
End Runs.

(** ** Properties *)

Section Properties.
Context `{SC : SmsCtl} `{GP : GnmiProto} {E : Type} `{DV : DsValues E} `{JS : Json} `{!PureReads E}.
Notation D := (ZeroTouchClient E).
Context `{GC : GnmiClient D}.

(** C6: The daemon keeps up with the store. Whatever other processes write and however
    the listener, the reactor and the timer interleave with them, also between the
    reads of [load_config_from_ds]: from every state of a run of the daemon its two
    threads can come to rest within [backlog] critical sections; and whenever they
    rest, the configuration in force - the flag, the port of the gNMI sink, the
    limits and numbers of the session store - is the one the store holds, and the
    newest complete SMS of the store is the last one handed to the bridge, or was
    there when the daemon started. *)
Theorem daemon_follows_store (cf : SessionStore -> SmsConfig) (out : E -> list (string * string))
    {EL : EngineLaws cf out} {SL : StoreLaws out} (others : relation E) (d0 : D) (s : Sys E)
    (Hr : sys_reach others (exec zt_run d0) s) :
  (exists n s', (n <= backlog s)%nat /\ nsteps (sys_step (fun _ _ => False)) n s s' /\ resting s') /\
  (resting s ->
     in_force cf (zt s) = wanted (z_ds (zt s)) /\
     forall i, last_of (z_ds (zt s)) = Some i -> sender i <> "" -> text i <> "" ->
       last (seen_of (z_transport (exec zt_run d0)) :: handled s) = Some i).
Proof.
  split; [apply (comes_to_rest (out := out) (cf := cf)) |]. intros (Hq & Hn & Hl & Hp).
  assert (forall w, ~ pending w s) as Hidle.
  { intros w [Hw | [_ [Hw | Hw]]]; [| | congruence]; rewrite ?Hq, ?Hn in Hw; by apply elem_of_nil in Hw. }
  split.
  - destruct (reach_config (cf := cf) (out := out) d0 s Hr) as [Hw | Hm]; [by destruct (Hidle WCfg) |].
    unfold matches in Hm. by rewrite Hp in Hm.
  - intros i Hi H1 H2.
    destruct (reach_order (cf := cf) (out := out) d0 s Hr) as (_ & _ & ->). f_equal.
    destruct (reach_newest (cf := cf) (out := out) d0 s Hr) as [Hw | [Hw | Hc]];
      [by destruct (Hidle WSms) | congruence |].
    apply Hc; [done |]. unfold deliverable.
    by rewrite (proj2 (String.eqb_neq _ _) H1), (proj2 (String.eqb_neq _ _) H2).
Qed.

(** C7: Each SMS is answered at most once, in order and to its sender. Whatever the
    interleaving, the messages the daemon has asked the network to send are the
    answers to the SMS it handed to the bridge, in that order, each to its own
    sender, none empty, at most one per SMS and within one SMS when it answers a
    gnmi command; and no SMS was handed on twice in a row, nor one that was there
    when the daemon started. The other processes send nothing. *)
Theorem daemon_answers_in_order (cf : SessionStore -> SmsConfig) (out : E -> list (string * string))
    {EL : EngineLaws cf out} {SL : StoreLaws out} (others : relation E)
    (Hothers : forall e e', others e e' -> out e' = out e) (d0 : D) (s : Sys E)
    (Hr : sys_reach others (exec zt_run d0) s) :
  Sorted (fun a b => a <> b) (seen_of (z_transport (exec zt_run d0)) :: handled s) /\
  exists rs, Forall2 answers (handled s) rs /\
    out (z_ds (zt s)) = out (z_ds d0) ++ replies (handled s) rs.
Proof.
  split; [apply (reach_order (cf := cf) (out := out) d0 s Hr) |].
  by apply (reach_answered (cf := cf) (out := out) d0 s Hr).
Qed.
End Properties.

(** ** A concrete daemon *)

(** A store that keeps its keys in a map, and the messages it was asked to send. *)
Record Shop := mkShop { kv : gmap string DemoValue; sent : list (string * string) }.
Definition shop_str (k : string) (m : gmap string DemoValue) : string :=
  match m !! k with Some (DStr s) => s | _ => "" end.
Definition shop_set (kvs : list (string * DemoValue)) (e : Shop) : Shop :=
  let m := list_to_map kvs ∪ kv e in
  mkShop m (sent e ++ if bool_decide ("sms.send.request" ∈ kvs.*1)
                      then [(shop_str "sms.send.to" m, shop_str "sms.send.text" m)] else []).
#[local] Instance shop_client : DsClient Shop :=
  {| Value := DemoValue; mk_value := DStr;
     value_to_string v := match v with DStr s => Some s | _ => None end;
     dsc_get := fun ks e => (Some ((fun k => kv e !! k) <$> ks), e);
     dsc_set := fun kvs e => (true, shop_set kvs e);
     gettimeofday := fun e => ((1700000000, 5)%Z, e) |}.
#[local] Instance shop_values : DsValues Shop :=
  {| value_to_int32 v := match v with
       | DInt n => if in_range int_min int_max n then Some n else None | _ => None end;
     value_to_bool v := match v with DBool b => Some b | _ => None end;
     dsc_set_volatile := fun kvs e => (true, shop_set kvs e);
     trig_open := fun _ e => (true, e); trig_write := fun _ _ e => (true, e) |}.
Definition shop_pure : PureReads Shop.
Proof. done. Defined.

(** A session store that keeps its limits beside who is logged in. *)
#[local] Instance shop_ctl : SmsCtl :=
  {| Command := string; cmd_kind := toy_kind; keyword := fun _ => "CMD";
     smsctl_parse := fun t => t; tokenize := ws_tokenize;
     SessionStore := SmsConfig * list (string * Account); store_empty := (mkSmsConfig 0 0 0 [], []);
     set_config := fun c s => (c, s.2);
     session := fun who _ s => (toy_session who s.2, s);
     sender_allowed := fun _ _ => true;
     sweep := fun _ s => (tt, s);
     session_count := fun s => Z.of_nat (length s.2);
     kRebootTrigger := "/run/iot/reboot.request";
     executor_handle := fun W _ _ _ _ cmd _ _ _ => st_ret ("OK " +:+ cmd) |}.
#[local] Existing Instance plain_util.
#[local] Existing Instance plain_proto.
#[local] Existing Instance demo_json.
#[local] Instance shop_rpc : GnmiClient (ZeroTouchClient Shop) := fun _ _ _ _ d => (mkResponse 14 "" "down", d).

Lemma shop_watched (e e' : Shop) :
  (forall k, k ∈ watched_keys -> kv e' !! k = kv e !! k) -> watched e' = watched e.
Proof.
  intros Hk. unfold watched, wanted, held_str, held, last_of, get_u32, get_value, read_last.
  st_run. cbn. unfold result. cbn. by rewrite !Hk by (unfold watched_keys; set_solver).
Qed.

Lemma shop_other kvs (e : Shop) k : k ∉ kvs.*1 -> kv (shop_set kvs e) !! k = kv e !! k.
Proof. intros Hk. cbn. by rewrite lookup_union_r by by apply not_elem_of_list_to_map. Qed.

Lemma shop_set_watched kvs (e : Shop) :
  Forall (fun k => k ∉ watched_keys) kvs.*1 -> watched (shop_set kvs e) = watched e.
Proof.
  intros Hf. apply shop_watched. intros k Hk. apply shop_other. intros Hin.
  rewrite Forall_forall in Hf. by apply (Hf k).
Qed.

Lemma shop_quiet kvs (e : Shop) : "sms.send.request" ∉ kvs.*1 -> sent (shop_set kvs e) = sent e.
Proof. intros Hk. cbn. by rewrite bool_decide_false, app_nil_r. Qed.

#[local] Instance shop_laws : StoreLaws sent.
Proof.
  split; try done.
  - intros kvs e k s _ Hn Hin. unfold held_str, held, get_value, result, exec. cbn.
    by rewrite (lookup_union_Some_l _ _ k (DStr s)) by by apply elem_of_list_to_map.
  - intros kvs e. apply shop_quiet.
  - intros kvs e. apply shop_quiet.
  - intros kvs e. apply shop_set_watched.
  - intros kvs e. apply shop_set_watched.
  - intros v e. change (sent (shop_set [("sms.send.request", v)] e) =
      sent e ++ [(held_str "sms.send.to" e, held_str "sms.send.text" e)]).
    unfold held_str, held, get_value, result, shop_set, shop_str. cbn [sent dsc_get shop_client fst st_bind].
    rewrite !lookup_union_r by (apply not_elem_of_list_to_map; no_request). cbn.
    destruct (kv e !! "sms.send.to") as [[] |], (kv e !! "sms.send.text") as [[] |]; done.
Qed.
Definition shop_limits : @SessionStore shop_ctl -> SmsConfig := fst.
#[local] Instance shop_engine : EngineLaws (E := Shop) shop_limits sent.
Proof. by split. Qed.

Definition shop_zt : ZeroTouchClient Shop :=
  mkZt (mkShop {["zerotouch.enabled" := DBool true; "zerotouch.gnmi.port" := DInt 50052]} [])
    (mkSmsConfig 0 0 0 [], [("+15551230000", mkAccount "bob" "h" "Viewer")]) SinkConfig_default
    DsSmsTransport_init false 50051 false 0.
(** Other processes write any keys; here cellular-client publishes an SMS. *)
Definition shop_others (e e' : Shop) : Prop := sent e' = sent e.
Definition shop_sms (t : string) (e : Shop) : Shop :=
  mkShop (list_to_map [("sms.last.sender", DStr "+15551230000"); ("sms.last.text", DStr t);
                       ("sms.last.ts", DStr "1")] ∪ kv e) (sent e).

(** The daemon once it is up, and the store after an SMS came in. *)
Definition shop_up : ZeroTouchClient Shop := Eval vm_compute in exec zt_run shop_zt.
Lemma shop_up_eq : exec zt_run shop_zt = shop_up.
Proof. by vm_compute. Qed.
Definition shop_in : Shop := Eval vm_compute in shop_sms "iot gnmi get /a" (z_ds shop_up).

Ltac told_by := split; intros Hn; first [by left | destruct Hn; by vm_compute].
Lemma shop_run : exists s, sys_reach shop_others (exec zt_run shop_zt) s /\ resting s /\
  handled s = [mkInboundSms "+15551230000" "iot gnmi get /a" "1"] /\
  sent (z_ds (zt s)) = [("+15551230000", "ERR GNMI GET unavailable")] /\
  last_of (z_ds (zt s)) = Some (mkInboundSms "+15551230000" "iot gnmi get /a" "1") /\
  wanted (z_ds (zt s)) = (true, 50052, mkSmsConfig 600 5 900 [])%Z.
Proof.
  rewrite shop_up_eq. eexists. split.
  - eapply rtc_l; [apply (sys_others _ _ shop_in [WSms]); [by vm_compute | told_by] |].
    eapply rtc_l; [by apply (sys_flag _ _ WSms []) |].
    eapply rtc_l; [by apply (sys_tell _ _ WSms) |].
    eapply rtc_l; [by apply (sys_take _ _ WSms []) |].
    eapply rtc_l; [apply (sys_drain _ _ []); [by vm_compute | told_by] | apply rtc_refl].
  - by vm_compute.
Qed.

Lemma daemon_follows_store_witness :
  exists s : Sys Shop, resting s /\ in_force shop_limits (zt s) = (true, 50052, mkSmsConfig 600 5 900 [])%Z /\
    last (handled s) = Some (mkInboundSms "+15551230000" "iot gnmi get /a" "1").
Proof.
  destruct shop_run as (s & Hr & Hrest & Hh & _ & Hl & Hw). exists s.
  destruct (daemon_follows_store (PureReads0 := shop_pure) shop_limits sent shop_others shop_zt s Hr) as [_ Hf].
  destruct (Hf Hrest) as [Ec Ei]. split_and!; [done | by rewrite Ec |].
  specialize (Ei _ Hl ltac:(done) ltac:(done)). by rewrite Hh in *.
Defined.

Lemma daemon_answers_in_order_witness :
  exists (s : Sys Shop) rs, Forall2 answers (handled s) rs /\ replies (handled s) rs = sent (z_ds (zt s)) /\
    sent (z_ds (zt s)) = [("+15551230000", "ERR GNMI GET unavailable")].
Proof.
  destruct shop_run as (s & Hr & _ & _ & Hs & _). exists s.
  destruct (daemon_answers_in_order (PureReads0 := shop_pure) shop_limits sent shop_others (fun e e' E => E) shop_zt s Hr)
    as (_ & rs & Ha & Eo). exists rs. split_and!; [done | by rewrite Eo | done].
Defined.

(** ** While the daemon comes up *)

Section Boot.
Context `{SC : SmsCtl} {E : Type} `{DV : DsValues E} `{GP : GnmiProto} `{GC : GnmiClient (ZeroTouchClient E)}.

(** [run] with what other processes do to the store between the read of the
    configuration and the registration of its watch. *)
Definition zt_boot (meanwhile : ST E unit) : ST (ZeroTouchClient E) unit :=
  load_config_from_ds >>>
  @bridge_start (ZeroTouchClient E) ZtTransport ZtSink zt_bridge >>>
  on_ds meanwhile >>>
  publish_state >>>
  let* _ := on_ds (dsc_set [("services.zerotouch.state", mk_value "running")]) in
  st_ret tt.

Lemma zt_boot_alone : zt_boot (st_ret tt) ≋ zt_run.
Proof. intros d. unfold zt_boot, zt_run, bridge_start. st_run. by destruct d. Qed.
End Boot.

(** With a store that tells only of what changes after the registration: zero-touch
    is disabled in the window, no event is under way, and the daemon stays enabled. *)
Definition shop_disabled (e : Shop) : unit * Shop := (tt, shop_set [("zerotouch.enabled", DBool false)] e).
Lemma boot_window : let s := sys_start (exec (zt_boot shop_disabled) shop_zt) in
  resting s /\ (in_force shop_limits (zt s)).1.1 = true /\ (wanted (z_ds (zt s))).1.1 = false.
Proof. by vm_compute. Qed.
