(* ===== verification/ZtDevice.v ===== *)
(** * ZtDevice: provisioning through the ds daemon

    The daemon of daemon/zerotouchd.cpp with the simulated device behind its sink.
    cellular-client puts an operator's SMS into the store, the reactor drains it, the
    bridge, the engine and the sink run, and the answer goes back through the store:
    the daemon has what SmsToDevice asks of a line, so the two messages of an operator
    work here too, one drain each. *)

From S2P Require Import Prelude CString Text PathPolicy Seams GnmiCommand GnmiReply GnmiExecutor Bridge OrdMap GnmiTree GnmiWire LocalGnmiSink GnmiSimd SmsToDevice SmsUtil SmsCtl Appliance DsTransport ZeroTouchd ZtDaemon ZtRuns.

Section ZtDevice.
Context `{SC : SmsCtl} `{GP : GnmiProto} {GC : GnmiClient SimWorld} {E : Type} `{DV : DsValues E} `{JS : Json}.
Context `{!PureReads E} `{DO : DeviceIn E}.
Notation D := (ZeroTouchClient E).

Definition with_ds (e : E) (d : D) : D :=
  mkZt e (z_sessions d) (z_sink d) (z_transport d) (z_enabled d) (z_gnmi_port d) (z_cfg_dirty d) (z_handled d).
#[export] Instance zt_device : DeviceIn D.
Proof.
  refine {| device := fun d => device (z_ds d); set_device := fun w d => with_ds (set_device w (z_ds d)) d |}.
  - intros w d. apply device_set_device.
  - intros []. unfold with_ds. cbn. by rewrite set_device_device.
  - intros w w' d. unfold with_ds. cbn. by rewrite set_set_device.
Defined.
(** The gNMI client of the daemon reaches the device. *)
#[local] Instance zt_client : GnmiClient D := device_client.

Context (out : E -> list (string * string)) (s : string) (acc : Account).
(** The times at which [s] is logged in as [acc], the stores that say so, and the
    states of the data store in which it takes every write. *)
Context (logged : SessionStore -> Prop) (now_ok : Z -> Prop) (fine : E -> Prop).

Record live_store : Prop := {
  lv_now : forall e, now_ok (u64 (result gettimeofday e).1);
  lv_session : forall now st, now_ok now -> logged st ->
    exists st', session s now st = (Some acc, st') /\ logged st';
  lv_allowed : forall st, logged st -> sender_allowed s st = true;
  lv_dev : forall w e, out (set_device w e) = out e /\ (fine e -> fine (set_device w e));
  lv_set : forall kvs e, fine e ->
    result (dsc_set kvs) e = true /\ fine (exec (dsc_set kvs) e) /\ device (exec (dsc_set kvs) e) = device e
}.
Context `{SL : !StoreLaws out} (Hlive : live_store) (Hs : is_reachable_sender s = true).

(** Enabled, with [s] logged in and the sink configured as [cfg]. *)
Definition listening (cfg : SinkConfig) (d : D) : Prop :=
  z_enabled d = true /\ logged (z_sessions d) /\ z_sink d = cfg /\ fine (z_ds d).

Context (cfg : SinkConfig).

#[export] Instance zt_sink_on : SinkOn cfg (listening cfg) ZtSink.
Proof using.
  split; intros l d (_ & _ & <- & _); [apply (device_get (z_sink d)) | apply (device_set (z_sink d))].
Qed.

Lemma ds_send_fine t (w : DsWorld E) : fine (env w) ->
  result (ds_send s t) w = true /\ fine (env (exec (ds_send s t) w)) /\
  device (env (exec (ds_send s t) w)) = device (env w).
Proof using Hlive Hs SL.
  intros Hf. unfold ds_send. rewrite Hs. cbn [negb]. st_run.
  rewrite result_on_store. destruct (lv_set Hlive [("sms.send.to", mk_value s); ("sms.send.text", mk_value t)] _ Hf)
    as (-> & Hf1 & Hd1). cbn [negb]. st_run. rewrite !exec_on_store, !result_on_store. cbn [env].
  rewrite (now_ms_run (out := out)). set (e1 := exec (dsc_set _) (env w)) in *.
  destruct (lv_set Hlive [("sms.send.request", mk_value (to_string (result now_ms e1)))] e1 Hf1) as (-> & Hf2 & Hd2).
  split_and!; [done | done | congruence].
Qed.

Lemma zt_line : line_to (TX := ZtTransport) (listening cfg) (fun d => out (z_ds d)) zt_bridge s (granted acc).
Proof using Hlive Hs SL.
  split; [split |].
  - intros w d (He & Hl & Hc & Hf). destruct (lv_dev Hlive w (z_ds d)). split; [| done]. by split_and!; auto.
  - intros d (He & Hl & Hc & Hf). cbn. unfold zt_allowed, st_gets, result, exec. cbn.
    rewrite He, (lv_allowed Hlive _ Hl). by split_and!.
  - intros d (He & Hl & Hc & Hf). cbn.
    destruct (lv_session Hlive (u64 (result gettimeofday (z_ds d)).1) (z_sessions d) (lv_now Hlive _) Hl)
      as (st & Es & Hl').
    assert (sender_access s d = (granted acc, put_sessions st d)) as Ea.
    { unfold sender_access, sec_now, st_bind, on_ds, on_sessions. rewrite (run_split gettimeofday).
      rewrite (sl_clock out). cbn. by rewrite Es. }
    unfold result, exec. rewrite Ea. by split_and!.
  - intros t d Ht (He & Hl & Hc & Hf). cbn. unfold exec. rewrite on_transport_run. cbn.
    set (w := mkDsWorld (z_ds d) (z_transport d)).
    destruct (ds_send_fine t w Hf) as (Hok & Hf' & Hd). destruct (ds_send_out (out := out) s t w) as [_ Ho].
    split_and!; [by apply Ho | done |]. by split_and!.
Qed.

(** A drain that finds a message hands it to the bridge. *)
Lemma zt_drain_found i (d : D) : result zt_take d = Some i ->
  exec zt_drain d = exec (zt_sms i) (seeing i d).
Proof using PureReads0.
  unfold result, exec. rewrite drain_run, zt_take_run. destruct (last_of (z_ds d)) as [j |]; [| done].
  destruct (fresh j (z_transport d)); [| done]. by intros [= ->].
Qed.

(** One drain that finds a message of [s]. *)
Lemma drain_turn i cmd reply w' (d : D) :
  result zt_take d = Some i -> sender i = s -> parse_gnmi (tokenize (text i)) = cmd -> kind cmd <> NotGnmi ->
  answers_with (GN := ZtSink) (listening cfg) (fun d => out (z_ds d)) s (granted acc) cmd (device d) reply w' ->
  reply <> "" -> (String.length reply <= kMaxReply)%nat -> listening cfg d ->
  out (z_ds (exec zt_drain d)) = out (z_ds d) ++ [(s, reply)] /\
  device (z_ds (exec zt_drain d)) = w' /\ listening cfg (exec zt_drain d).
Proof using Hlive Hs SL PureReads0.
  intros Ht Hi Hp Hk Ha Hr Hl Hd. rewrite (zt_drain_found _ _ Ht).
  by apply (on_sms_turn (TX := ZtTransport) (GN := ZtSink) (listening cfg) (fun d => out (z_ds d)) zt_bridge s
    (granted acc) zt_line i cmd reply w' (seeing i d)).
Qed.

Lemma zt_dev_ok w (d : D) : listening cfg d ->
  listening cfg (set_device w d) /\ out (z_ds (set_device w d)) = out (z_ds d).
Proof using Hlive Hs SL JS. apply (wi_dev _ _ _ _ _ (ln_in _ _ _ _ _ zt_line)). Qed.
End ZtDevice.
#[local] Existing Instance zt_client.

(** C5: Provisioning works through the ds daemon. Over any store that keeps its
    laws and takes the writes, with the simulated device behind the sink: while
    zero-touch is enabled and the sender, who can be answered, is logged in as a user
    whose access is Admin, the drain that finds a SET in the store and the drain that
    finds a GET of one of its paths off the denylist, put there by cellular-client after it, ask for
    two messages - that so many paths were updated, and the last value the SET gave
    that path. Logged in as anyone else, the SET is refused by SMS and the device is
    as it was. *)
Theorem daemon_provisions `{SC : SmsCtl} `{GP : GnmiProto} {GC : GnmiClient SimWorld} {canonical : string -> Prop}
    `{!WireLaws canonical} {E : Type} `{DV : DsValues E} `{JS : Json} `{!PureReads E} `{DO : DeviceIn E}
    (out : E -> list (string * string)) `{SL : !StoreLaws out} (s : string) (acc : Account)
    (logged : SessionStore -> Prop) (now_ok : Z -> Prop) (fine : E -> Prop)
    (Hlive : live_store out s acc logged now_ok fine) (Hs : is_reachable_sender s = true)
    (cfg : SinkConfig) `{!Loopback (host cfg) (port cfg)}
    (i1 i2 : InboundSms) (us us1 us2 : list (string * string)) (x v : string)
    (d : ZeroTouchClient E) (e : E) (Hd : listening logged fine cfg d)
    (Hs1 : sender i1 = s) (Hs2 : sender i2 = s)
    (Hset : gnmi_msg (tokenize (text i1)) (mkCommand Set_ [] us ""))
    (Hget : gnmi_msg (tokenize (text i2)) (mkCommand Get [x] [] ""))
    (Hc : Forall canonical us.*1) (Hus : us = us1 ++ (x, v) :: us2) (Hlast : x ∉ us2.*1)
    (Hpub : is_sensitive_path x (deny_of cfg) = false) (Hrole : set_role cfg = "ADMIN") :
  let drain := exec zt_drain in
  let d1 := drain d in let d2 := drain (with_ds e d1) in
  result zt_take d = Some i1 ->
  out e = out (z_ds d1) /\ device e = device (z_ds d1) /\ fine e -> result zt_take (with_ds e d1) = Some i2 ->
  if decide (acc_access acc = "Admin") then
    out (z_ds d2) = out (z_ds d) ++ [(s, set_reply us); (s, get_reply x v)]
  else device (z_ds d1) = device (z_ds d) /\
       out (z_ds d1) = out (z_ds d) ++ [(s, clamp "ERR GNMI SET admin login required")].
Proof.
  intros drain d1 d2 H1 (Eo & Ed & Hf) H2. apply parse_gnmi_grammar in Hset, Hget.
  pose proof (drain_turn out s acc logged now_ok fine Hlive Hs cfg) as Hturn.
  pose proof (zt_dev_ok out s acc logged now_ok fine Hlive Hs cfg) as Hdev.
  unfold granted in Hturn. destruct (String.eqb_spec (acc_access acc) "Admin") as [E1 | N1].
  - rewrite decide_True by done.
    destruct (admin_answers cfg us us1 us2 x v (device d) Hc Hus Hlast Hpub Hrole) as (w1 & w2 & A).
    destruct (A _ _ (listening logged fine cfg) (fun d => out (z_ds d)) s ZtSink _ (fun w d => Hdev w d)) as [A1 A2].
    destruct (Hturn i1 _ _ _ d H1 Hs1 Hset ltac:(done) A1 ltac:(by apply clamp_not_empty) (length_clamp _) Hd)
      as (O1 & D1 & (L1 & L2 & L3 & _)).
    assert (device (with_ds e d1) = w1) as E2 by (etrans; [exact Ed | exact D1]). rewrite <- E2 in A2.
    destruct (Hturn i2 _ _ _ (with_ds e d1) H2 Hs2 Hget ltac:(done) A2 ltac:(by apply clamp_not_empty)
      (length_clamp _)) as (O2 & _); [by split_and! |].
    unfold d2, drain. rewrite O2. cbn. rewrite Eo. unfold d1, drain. by rewrite O1, <- app_assoc.
  - rewrite decide_False by done.
    destruct (Hturn i1 _ _ _ d H1 Hs1 Hset ltac:(done)
      (set_refused (GN := ZtSink) _ (fun d => out (z_ds d)) s us (device d) Viewer ltac:(done))
      ltac:(by apply clamp_not_empty) (length_clamp _) Hd) as (O1 & D1 & _).
    split; [exact D1 | exact O1].
Qed.

(** ** A concrete daemon *)

#[local] Existing Instance plain_util.
#[local] Existing Instance plain_proto.
#[local] Existing Instance plain_wire.
#[local] Existing Instance loop_client.
#[local] Existing Instance shop_client.
#[local] Existing Instance shop_values.
#[local] Existing Instance shop_pure.
#[local] Existing Instance shop_ctl.
#[local] Existing Instance shop_laws.

(** The store of ZtRuns, and the device beside it. *)
Definition Site : Type := Shop * SimWorld.
Definition at_shop {A} (m : ST Shop A) : ST Site A := fun e => (result m e.1, (exec m e.1, e.2)).
#[local] Instance site_client : DsClient Site :=
  {| Value := DemoValue; mk_value := DStr; value_to_string := value_to_string (E := Shop);
     dsc_get := fun ks => at_shop (dsc_get ks); dsc_set := fun kvs => at_shop (dsc_set (E := Shop) kvs);
     gettimeofday := at_shop gettimeofday |}.
#[local] Instance site_values : DsValues Site :=
  @Build_DsValues Site site_client (value_to_int32 (E := Shop)) (value_to_bool (E := Shop))
    (fun kvs => at_shop (dsc_set_volatile (E := Shop) kvs))
    (fun p => at_shop (trig_open (E := Shop) p)) (fun p c => at_shop (trig_write (E := Shop) p c)).
#[local] Instance site_pure : PureReads Site.
Proof. by intros ks []. Defined.
Definition site_sent (e : Site) : list (string * string) := sent e.1.
#[local] Instance site_laws : StoreLaws (E := Site) site_sent.
Proof.
  destruct shop_laws as [_ _ Lb Lo Lv Lw Lx Lr]. split.
  - done.
  - by intros [].
  - intros kvs [e w] k s. exact (Lb kvs e k s).
  - intros kvs [e w]. exact (Lo kvs e).
  - intros kvs [e w]. exact (Lv kvs e).
  - intros kvs [e w]. exact (Lw kvs e).
  - intros kvs [e w]. exact (Lx kvs e).
  - intros v [e w]. exact (Lr v e).
Qed.
#[local] Existing Instance demo_json.

Definition site_user : string := "+15551230000".
Definition site : ZeroTouchClient Site :=
  mkZt (shop_sms "IOT GNMI SET /a/mtu,/b 9000,x" (mkShop ∅ []), demo_world)
    (mkSmsConfig 600 5 900 [], [(site_user, root)]) SinkConfig_default DsSmsTransport_init true 50051 false 0.
(** The first drain, and cellular-client's next SMS. *)
Definition site_1 : ZeroTouchClient Site := exec zt_drain site.
Definition site_next : Site := (shop_sms "iot gnmi get /a/mtu" (z_ds site_1).1, (z_ds site_1).2).

Lemma site_live : live_store (E := Site) site_sent site_user root
  (fun st => st.2 = [(site_user, root)]) (fun _ => True) (fun _ => True).
Proof.
  split; try done.
  intros now [c st] _ E. cbn in E. subst st. by eexists.
Qed.

Lemma daemon_provisions_witness :
  sent (z_ds (exec zt_drain (with_ds site_next site_1))).1 =
  [(site_user, "OK GNMI SET 2 path(s) updated"); (site_user, "OK GNMI GET /a/mtu=9000")].
Proof.
  apply (daemon_provisions site_sent site_user root _ _ _ site_live eq_refl SinkConfig_default
           (Loopback0 := loop_client_loops _ _)
           (mkInboundSms site_user "IOT GNMI SET /a/mtu,/b 9000,x" "1")
           (mkInboundSms site_user "iot gnmi get /a/mtu" "1") [("/a/mtu", "9000"); ("/b", "x")] []
           [("/b", "x")] "/a/mtu" "9000" site site_next); try done.
  - apply parse_gnmi_grammar. reflexivity.
  - apply parse_gnmi_grammar. reflexivity.
  - by repeat constructor.
  - cbn. set_solver.
Defined.
