(* ===== verification/Log.v ===== *)
(** * Log: lines on standard error (grpc-tunnel/src/log.h, sim/zt_gnmi_simd.cpp)

    Both ends of the tunnel write one transcript: a time stamp, who is talking, the
    message.  A [LOG] is several writes under one mutex, so the threads of the
    tunnel are a step relation here, cut between the writes: whatever they do, no
    line is torn. *)

From S2P Require Import Prelude CString.

(** ** The stamp *)

(** [timespec], and the fields of [tm] that are printed; [localtime_r] knows the
    time zone. *)
Record timespec := mkTimespec { tv_sec : Z; tv_nsec : Z }.
Record tm := mkTm { tm_hour : Z; tm_min : Z; tm_sec : Z }.
Class LocalTime := { localtime_r : Z -> tm }.

(** [%0<k>ld] of a number that is not negative. *)
Fixpoint zeros (k : nat) : string := match k with O => "" | S k => String "0" (zeros k) end.
Definition padded (k : nat) (n : Z) : string :=
  let d := to_string n in zeros (k - String.length d) +:+ d.
(** [strftime(buf, size, "%H:%M:%S", &t)]: nothing when it does not fit with its
    NUL; [snprintf]: what fits. *)
Definition strftime_hms (size : nat) (t : tm) : string :=
  let s := padded 2 (tm_hour t) +:+ ":" +:+ padded 2 (tm_min t) +:+ ":" +:+ padded 2 (tm_sec t) in
  if Nat.ltb (String.length s) size then s else "".
Definition snprintf (size : nat) (s : string) : string := str_take (size - 1) s.

Section Lines.
Context `{LT : LocalTime}.

Definition Now (ts : timespec) : string :=
  let hms := strftime_hms 32 (localtime_r (tv_sec ts)) in
  hms +:+ snprintf (32 - String.length hms) ("." +:+ padded 3 (Z.quot (tv_nsec ts) 1000000)).

(** The line of zt_gnmi_simd, which has one thread and no fractions. *)
Definition simd_log (g_verbose : bool) (t : Z) (line : string) : string :=
  if negb g_verbose then ""
  else "[" +:+ strftime_hms 16 (localtime_r t) +:+ "] " +:+ line +:+ chr nl.

(** ** The macro *)

Definition log_head (tag : string) (ts : timespec) : string := Now ts +:+ " [" +:+ tag +:+ "] ".
Definition log_line (tag : string) (x : timespec * string) : string := log_head tag x.1 +:+ x.2 +:+ chr nl.

(** Between which writes of [LOG(m)] a thread is; [LgHead] is with the mutex just
    taken, [LgFlush] with all written. *)
Inductive LogPc := LgIdle | LgHead (m : string) | LgBody (m : string) | LgNewline (m : string) | LgFlush (m : string).
#[export] Instance LogPc_eq_dec : EqDecision LogPc.
Proof. solve_decision. Defined.
Record Logger := mkLogger { lg_pc : LogPc; lg_todo : list string }.
Record LogWorld := mkLogWorld { err : string; LogMutex : option nat; threads : list Logger }.

Definition with_pc (w : LogWorld) (e : string) (mu : option nat) (i : nat) (p : LogPc) (todo : list string) : LogWorld :=
  mkLogWorld e mu (<[i := mkLogger p todo]> (threads w)).

(** Thread [i] does the next thing: [ts] is what the clock shows it. *)
Inductive log_step (tag : string) (w : LogWorld) : LogWorld -> Prop :=
| lg_lock i m r :
    threads w !! i = Some (mkLogger LgIdle (m :: r)) -> LogMutex w = None ->
    log_step tag w (with_pc w (err w) (Some i) i (LgHead m) r)
| lg_head i m r ts :
    threads w !! i = Some (mkLogger (LgHead m) r) ->
    log_step tag w (with_pc w (err w +:+ log_head tag ts) (LogMutex w) i (LgBody m) r)
| lg_body i m r :
    threads w !! i = Some (mkLogger (LgBody m) r) ->
    log_step tag w (with_pc w (err w +:+ m) (LogMutex w) i (LgNewline m) r)
| lg_newline i m r :
    threads w !! i = Some (mkLogger (LgNewline m) r) ->
    log_step tag w (with_pc w (err w +:+ chr nl) (LogMutex w) i (LgFlush m) r)
| lg_unlock i m r :
    threads w !! i = Some (mkLogger (LgFlush m) r) ->
    log_step tag w (with_pc w (err w) None i LgIdle r).

Definition log_start (ms : list (list string)) : LogWorld := mkLogWorld "" None (mkLogger LgIdle <$> ms).

(** ** Whole lines *)

(** The message a thread is writing, and what of its line is out. *)
Definition unwritten (p : LogPc) : list string :=
  match p with LgHead m | LgBody m | LgNewline m => [m] | _ => [] end.
Definition partial (tag : string) (p : LogPc) (x : string) : Prop :=
  match p with
  | LgBody _ => exists ts, x = log_head tag ts
  | LgNewline m => exists ts, x = log_head tag ts +:+ m
  | _ => x = ""
  end.
Definition transcript (tag : string) (done : list (nat * (timespec * string))) : string :=
  foldr (fun l r => log_line tag l.2 +:+ r) "" done.
(** What thread [i] has said, in order. *)
Definition said_by (i : nat) (done : list (nat * (timespec * string))) : list string :=
  (filter (fun l => l.1 = i) done).*2.*2.

Record log_inv (tag : string) (ms : list (list string)) (w : LogWorld)
    (done : list (nat * (timespec * string))) (x : string) : Prop := {
  li_err : err w = transcript tag done +:+ x;
  li_free : LogMutex w = None -> x = "" ;
  li_idle : forall i t, threads w !! i = Some t -> lg_pc t = LgIdle <-> LogMutex w <> Some i;
  li_held : forall i, LogMutex w = Some i -> exists t, threads w !! i = Some t /\ partial tag (lg_pc t) x;
  li_order : forall i, said_by i done ++
    match threads w !! i with Some t => unwritten (lg_pc t) ++ lg_todo t | None => [] end = default [] (ms !! i)
}.

Lemma transcript_snoc tag done l : transcript tag (done ++ [l]) = transcript tag done +:+ log_line tag l.2.
Proof.
  unfold transcript. induction done as [| k done IH]; cbn [foldr app]; [by rewrite str_app_nil_r |].
  by rewrite IH, str_app_assoc.
Qed.
Lemma said_by_snoc i done j l : said_by i (done ++ [(j, l)]) = said_by i done ++ (if decide (j = i) then [l.2] else []).
Proof.
  unfold said_by. rewrite filter_app, !fmap_app. f_equal. rewrite filter_cons. cbn. by destruct (decide (j = i)).
Qed.

Lemma log_inv_start tag ms : log_inv tag ms (log_start ms) [] "".
Proof.
  split; cbn; try done.
  - intros i t. rewrite list_lookup_fmap. destruct (ms !! i); [| done]. by intros [= <-].
  - intros i. rewrite list_lookup_fmap. by destruct (ms !! i).
Qed.

(** Thread [i] moves on; it holds the mutex, or takes it. *)
Lemma log_inv_move tag ms w done x i p r e p' r' done' x' :
  log_inv tag ms w done x -> threads w !! i = Some (mkLogger p r) ->
  (p = LgIdle -> LogMutex w = None) -> e = transcript tag done' +:+ x' -> partial tag p' x' ->
  (forall j, i <> j -> said_by j done' = said_by j done) ->
  said_by i done' ++ unwritten p' ++ r' = said_by i done ++ unwritten p ++ r ->
  log_inv tag ms (with_pc w e (match p' with LgIdle => None | _ => Some i end) i p' r') done' x'.
Proof.
  intros [I1 I2 I3 I4 I5] Hi Hp -> Hx Ho Hs.
  assert (forall j t, i <> j -> threads w !! j = Some t -> lg_pc t = LgIdle) as Hothers.
  { intros j t Hne Hj. apply (I3 j t Hj). pose proof (I3 i _ Hi) as Hii. cbn in Hii.
    destruct (decide (p = LgIdle)) as [E | E]; [rewrite (Hp E); done |].
    intros Em. apply E, Hii. rewrite Em. congruence. }
  assert (i < length (threads w))%nat as Hlt by (by eapply lookup_lt_Some).
  split; cbn.
  - done.
  - destruct p'; done.
  - intros j t Hj. destruct (decide (i = j)) as [<- | Hne].
    + rewrite list_lookup_insert_eq in Hj by done. injection Hj as <-. cbn. destruct p'; split; congruence.
    + rewrite list_lookup_insert_ne in Hj by done. rewrite (Hothers j t Hne Hj). destruct p'; split; congruence.
  - intros j Hj. assert (j = i) as -> by (destruct p'; congruence). rewrite list_lookup_insert_eq by done. eauto.
  - intros j. destruct (decide (i = j)) as [<- | Hne].
    + rewrite list_lookup_insert_eq by done. cbn. rewrite Hs, <- (I5 i), Hi. done.
    + by rewrite list_lookup_insert_ne, Ho.
Qed.

Lemma log_inv_step tag ms w w' done x :
  log_inv tag ms w done x -> log_step tag w w' -> exists done' x', log_inv tag ms w' done' x'.
Proof.
  intros Hinv Hs.
  assert (forall i t, threads w !! i = Some t -> lg_pc t <> LgIdle -> LogMutex w = Some i /\ partial tag (lg_pc t) x)
    as Hheld.
  { intros i t Hi Hne. destruct (decide (LogMutex w = Some i)) as [E | E].
    - destruct (li_held _ _ _ _ _ Hinv i E) as (t' & Ht' & Hp). by assert (t' = t) as -> by congruence.
    - by apply (li_idle _ _ _ _ _ Hinv i t Hi) in E. }
  pose proof (li_err _ _ _ _ _ Hinv) as He.
  destruct Hs as [i m r Hi Hm | i m r ts Hi | i m r Hi | i m r Hi | i m r Hi].
  - exists done, "". apply (log_inv_move _ _ _ _ _ i LgIdle (m :: r) _ (LgHead m)) with (2 := Hi) (1 := Hinv); try done.
    by rewrite He, (li_free _ _ _ _ _ Hinv Hm).
  - destruct (Hheld _ _ Hi) as [-> ->]; [done |]. exists done, (log_head tag ts).
    apply (log_inv_move _ _ _ _ _ i _ _ _ (LgBody m)) with (2 := Hi) (1 := Hinv); try done; [| by exists ts].
    by rewrite He, str_app_nil_r.
  - destruct (Hheld _ _ Hi) as [-> [ts ->]]; [done |]. exists done, (log_head tag ts +:+ m).
    apply (log_inv_move _ _ _ _ _ i _ _ _ (LgNewline m)) with (2 := Hi) (1 := Hinv); try done; [| by exists ts].
    by rewrite He, str_app_assoc.
  - destruct (Hheld _ _ Hi) as [-> [ts ->]]; [done |]. exists (done ++ [(i, (ts, m))]), "".
    apply (log_inv_move _ _ _ _ _ i _ _ _ (LgFlush m)) with (2 := Hi) (1 := Hinv); try done.
    + rewrite He, transcript_snoc, str_app_nil_r. unfold log_line. cbn. by rewrite !str_app_assoc.
    + intros j Hne. rewrite said_by_snoc, decide_False by done. by rewrite app_nil_r.
    + rewrite said_by_snoc, decide_True by done. cbn. by rewrite <- app_assoc.
  - destruct (Hheld _ _ Hi) as [_ ->]; [done |]. exists done, "".
    by apply (log_inv_move _ _ _ _ _ i _ _ _ LgIdle) with (2 := Hi) (1 := Hinv).
Qed.

Lemma log_inv_run tag ms w : rtc (log_step tag) (log_start ms) w -> exists done x, log_inv tag ms w done x.
Proof.
  intros Hr. assert (exists done x, log_inv tag ms (log_start ms) done x) as H0
    by (exists [], ""; apply log_inv_start).
  revert H0. induction Hr as [| y z u Hs _ IH]; [done |]. intros (done & x & Hi). apply IH.
  by eapply log_inv_step.
Qed.

(** ** Every message gets out *)

(** The writes a thread has before it. *)
Definition writes_left (t : Logger) : nat :=
  5 * length (lg_todo t) +
  match lg_pc t with LgIdle => 0 | LgHead _ => 4 | LgBody _ => 3 | LgNewline _ => 2 | LgFlush _ => 1 end.
Definition log_left (w : LogWorld) : nat := sum_list_with writes_left (threads w).

Lemma log_left_move w e mu i p r p' r' :
  threads w !! i = Some (mkLogger p r) -> (writes_left (mkLogger p' r') < writes_left (mkLogger p r))%nat ->
  (log_left (with_pc w e mu i p' r') < log_left w)%nat.
Proof.
  unfold log_left, with_pc. cbn. generalize (threads w). clear. intros l.
  revert i. induction l as [| t l IH]; intros [| i] Hi Hlt; [done | done | |]; cbn [sum_list_with list_insert insert].
  - injection Hi as ->. cbn [insert list_insert sum_list_with]. apply Nat.add_lt_mono_r, Hlt.
  - specialize (IH i Hi Hlt). apply Nat.add_lt_mono_l, IH.
Qed.

Definition all_said (w : LogWorld) : Prop := Forall (fun t => t = mkLogger LgIdle []) (threads w).

(** Unless all is said some thread can write. *)
Lemma log_can_step tag ms w done x : log_inv tag ms w done x ->
  all_said w \/ exists w', log_step tag w w' /\ (log_left w' < log_left w)%nat.
Proof.
  intros Hinv. destruct (LogMutex w) as [i |] eqn:Em.
  - right. destruct (li_held _ _ _ _ _ Hinv i Em) as ([p r] & Hi & _).
    pose proof (li_idle _ _ _ _ _ Hinv i _ Hi) as Hii. cbn in Hii.
    destruct p as [| m | m | m | m]; [by destruct Hii as [[] _] | ..]; eexists;
      (split; [first [by apply (lg_head tag w i m r (mkTimespec 0 0)) | by econstructor] |]);
      (eapply log_left_move; [exact Hi |]); cbn; lia.
  - destruct (decide (Exists (fun t => lg_todo t <> []) (threads w))) as [He | Hn].
    + right. apply Exists_exists in He as ([p r] & [i Hi]%list_elem_of_lookup & Hr). cbn in Hr.
      assert (p = LgIdle) as -> by (apply (li_idle _ _ _ _ _ Hinv i _ Hi); congruence).
      destruct r as [| m r]; [done |]. eexists. split; [by econstructor |].
      eapply log_left_move; [exact Hi |]. cbn. lia.
    + left. apply Forall_forall. intros [p r] [i Hi]%list_elem_of_lookup.
      assert (p = LgIdle) as -> by (apply (li_idle _ _ _ _ _ Hinv i _ Hi); congruence).
      destruct r as [| m r]; [done |]. destruct Hn. apply Exists_exists.
      exists (mkLogger LgIdle (m :: r)). split; [by eapply list_elem_of_lookup_2 | done].
Qed.

Lemma log_finishes tag ms w : (exists done x, log_inv tag ms w done x) ->
  exists w', rtc (log_step tag) w w' /\ all_said w'.
Proof.
  remember (log_left w) as n eqn:Hn. revert w Hn. induction (lt_wf n) as [n _ IH].
  intros w -> (done & x & Hi).
  destruct (log_can_step tag ms w done x Hi) as [Ha | (w1 & Hs & Hlt)]; [by exists w |].
  destruct (IH _ Hlt w1 eq_refl) as (w' & Hr & Ha); [by eapply log_inv_step |].
  exists w'. split; [by econstructor | done].
Qed.
End Lines.

(** ** The stamp fits *)

Lemma padded_below (k : nat) (b n : Z) :
  forallb (fun n => Nat.eqb (String.length (padded k n)) k) (seqZ 0 b) = true -> (0 <= n < b)%Z ->
  String.length (padded k n) = k.
Proof.
  intros Hall Hn. rewrite forallb_forall in Hall. apply Nat.eqb_eq, Hall, list_elem_of_In, elem_of_seqZ. lia.
Qed.

(** What [localtime_r] and [clock_gettime] fill in. *)
Definition tm_ok (t : tm) : Prop :=
  (0 <= tm_hour t < 24)%Z /\ (0 <= tm_min t < 60)%Z /\ (0 <= tm_sec t < 61)%Z.

Lemma hms_fits size t : tm_ok t -> (8 < size)%nat ->
  strftime_hms size t = padded 2 (tm_hour t) +:+ ":" +:+ padded 2 (tm_min t) +:+ ":" +:+ padded 2 (tm_sec t) /\
  String.length (strftime_hms size t) = 8.
Proof.
  intros (Hh & Hm & Hs) Hsize. unfold strftime_hms. cbv zeta.
  assert (forall n, (0 <= n < 61)%Z -> String.length (padded 2 n) = 2) as Hp
    by (intros n; by apply padded_below).
  assert (String.length (padded 2 (tm_hour t) +:+ ":" +:+ padded 2 (tm_min t) +:+ ":" +:+ padded 2 (tm_sec t)) = 8)
    as E by (rewrite !length_app, !Hp by lia; done).
  rewrite E, (proj2 (Nat.ltb_lt _ _)) by lia. by split.
Qed.

(** Neither buffer cuts the stamp short. *)
Lemma Now_fits `{LT : LocalTime} ts : tm_ok (localtime_r (tv_sec ts)) -> (0 <= tv_nsec ts < 1000000000)%Z ->
  let t := localtime_r (tv_sec ts) in
  Now ts = padded 2 (tm_hour t) +:+ ":" +:+ padded 2 (tm_min t) +:+ ":" +:+ padded 2 (tm_sec t) +:+ "."
             +:+ padded 3 (tv_nsec ts / 1000000) /\
  String.length (Now ts) = 12.
Proof.
  intros Ht Hn t. unfold Now. fold t. destruct (hms_fits 32 t Ht ltac:(lia)) as [E1 E2].
  rewrite E2, Z.quot_div_nonneg by lia.
  assert (String.length (padded 3 (tv_nsec ts / 1000000)) = 3) as E3.
  { apply (padded_below 3 1000); [by vm_compute |].
    split; [apply Z.div_pos; lia | apply Z.div_lt_upper_bound; lia]. }
  unfold snprintf. rewrite str_take_ge by (rewrite length_app, E3; cbn; lia). split.
  - rewrite E1. by rewrite !str_app_assoc.
  - by rewrite !length_app, E2, E3.
Qed.

(** C18: No line of the transcript is torn. However the threads that write to it
    interleave: while nobody holds the mutex, standard error holds whole lines,
    each a stamp, the tag and one message; while one does, the last of them is that
    thread's, cut between two writes. The lines of a thread are its messages, each
    once and in its order, nobody can be kept from writing for ever, and when all
    have finished nothing is missing. *)
Theorem log_lines_whole `{LT : LocalTime} (tag : string) (ms : list (list string)) (w : LogWorld)
    (Hr : rtc (log_step tag) (log_start ms) w) :
  (exists done x, err w = transcript tag done +:+ x /\
     (forall i t, threads w !! i = Some t ->
        said_by i done ++ unwritten (lg_pc t) ++ lg_todo t = default [] (ms !! i)) /\
     match LogMutex w with
     | None => x = ""
     | Some i => exists t, threads w !! i = Some t /\ partial tag (lg_pc t) x
     end) /\
  (exists w' done, rtc (log_step tag) w w' /\ err w' = transcript tag done /\
     forall i q, ms !! i = Some q -> said_by i done = q).
Proof.
  destruct (log_inv_run tag ms w Hr) as (done & x & Hi). split.
  - exists done, x. split; [apply Hi |]. split.
    + intros i t Ht. by rewrite <- (li_order _ _ _ _ _ Hi i), Ht.
    + destruct (LogMutex w) as [i |] eqn:Em; by apply Hi.
  - destruct (log_finishes tag ms w) as (w' & Hr' & Ha); [by exists done, x |].
    destruct (log_inv_run tag ms w') as (done' & x' & Hi'); [by etrans |]. exists w', done'.
    split; [done |]. unfold all_said in Ha. rewrite Forall_forall in Ha. split.
    + rewrite (li_err _ _ _ _ _ Hi'), (li_free _ _ _ _ _ Hi'), str_app_nil_r; [done |].
      destruct (LogMutex w') as [i |] eqn:Em; [| done].
      destruct (li_held _ _ _ _ _ Hi' i Em) as (t & Ht & _).
      pose proof (proj1 (li_idle _ _ _ _ _ Hi' i t Ht)) as Hn. rewrite (Ha t) in Hn by (by eapply list_elem_of_lookup_2).
      by destruct Hn.
    + intros i q Hq. pose proof (li_order _ _ _ _ _ Hi' i) as Ho. rewrite Hq in Ho. cbn in Ho. rewrite <- Ho.
      destruct (threads w' !! i) as [t |] eqn:Et; [| by rewrite app_nil_r].
      rewrite (Ha t) by (by eapply list_elem_of_lookup_2). by rewrite app_nil_r.
Qed.

(** Two threads; the second has its stamp out. *)
#[local] Instance utc : LocalTime := {| localtime_r t := mkTm (t / 3600 mod 24) (t / 60 mod 60) (t mod 60) |}.
Definition half_a_line : LogWorld :=
  mkLogWorld "12:34:56.789 [server] " (Some 1%nat)
    [mkLogger LgIdle ["listening"]; mkLogger (LgBody "tunnel opened by x") ["bye"]].

Lemma log_lines_whole_witness : exists w' done,
  rtc (log_step "server") half_a_line w' /\ err w' = transcript "server" done /\
  said_by 1 done = ["tunnel opened by x"; "bye"].
Proof.
  destruct (log_lines_whole "server" [["listening"]; ["tunnel opened by x"; "bye"]] half_a_line)
    as [_ (w' & done & Hr & He & Hd)].
  - eapply rtc_l; [by apply (lg_lock _ _ 1 "tunnel opened by x" ["bye"]) |]. apply rtc_once.
    match goal with |- log_step _ ?w _ =>
      exact (lg_head "server" w 1 "tunnel opened by x" ["bye"] (mkTimespec 45296 789000000) eq_refl) end.
  - exists w', done. split; [done |]. split; [done |]. by apply Hd.
Defined.

Example stamp_example : Now (mkTimespec 45296 789000000) = "12:34:56.789".
Proof. reflexivity. Qed.
Example simd_line_example : simd_log true 45296 "SET role=ADMIN" = "[12:34:56] SET role=ADMIN" +:+ chr nl.
Proof. reflexivity. Qed.
