(* ===== verification/TunnelNet.v ===== *)
(** * TunnelNet: addresses and flags of the tunnel programs
    (grpc-tunnel/src/net.cc, tunnel_server.cc, tunnel_client.cc).

    [SplitHostPort], the port narrowing of [ListenTcp], [Arg] and [WriteAll];
    what the socket answers [WriteAll] is its argument; the functions that make
    sockets are in TunnelSockets. *)

From S2P Require Import Prelude CString.

(** ** The code *)

(** [SplitHostPort(addr, &host, &port)]: the result, and the two variables
    after the call given what they held before. *)
Definition SplitHostPort (addr host : string) (port : Z) : bool * string * Z :=
  match rfind_char ":" addr with
  | None => (false, host, port)
  | Some pos =>
      if Nat.eqb pos 0 || (String.length addr <=? pos + 1)%nat then (false, host, port)
      else
        let p := atoi (str_drop (pos + 1) addr) in
        ((0 <? p)%Z, substr 0 pos addr, p)
  end.

(** The port [ListenTcp] binds: [static_cast<uint16_t>(port)]. *)
Definition listen_port (port : Z) : Z := u16 port.

(** [Arg(argc, argv, flag, fallback)]; [args] is [argv] from index 1. *)
Fixpoint Arg {A} (of_string : string -> A) (args : list string) (flag : string) (fallback : A) : A :=
  match args with
  | [] => fallback
  | a :: r =>
      match (if String.eqb a flag then r else []) with
      | v :: _ => of_string v
      | [] =>
          if starts_with (flag +:+ "=") a
          then of_string (str_drop (String.length (flag +:+ "=")) a)
          else Arg of_string r flag fallback
      end
  end.

(** [send(fd, ...)]: bytes taken, EINTR or EAGAIN, or any other outcome. *)
Inductive SendResult := Sent (n : nat) | SendAgain | SendFail.

(** [WriteAll]: the loop over the outcomes the socket gives, in order. What went
    out, and the result; [None] when the outcomes end while it still waits. *)
Fixpoint WriteAll (outcomes : list SendResult) (buf : string) : string * option bool :=
  if String.eqb buf "" then ("", Some true)
  else
    match outcomes with
    | [] => ("", None)
    | Sent (S n) :: r =>
        let '(o, b) := WriteAll r (str_drop (S n) buf) in (str_take (S n) buf +:+ o, b)
    | SendAgain :: r => WriteAll r buf
    | Sent 0 :: _ | SendFail :: _ => ("", Some false)
    end.

(** ** Lemmas *)

Lemma rfind_none c s : no_char c s = true -> rfind_char c s = None.
Proof.
  induction s as [|d s IH]; intros H; [done |]. rewrite no_char_cons in H; boolify.
  cbn; by rewrite IH, H.
Qed.
Lemma rfind_last c a b :
  no_char c b = true -> rfind_char c (a +:+ String c b) = Some (String.length a).
Proof.
  intros H; induction a as [|d a IH].
  - rewrite app_nil_l'; cbn. rewrite rfind_none by done. by rewrite Ascii.eqb_refl.
  - rewrite app_cons; cbn. by rewrite IH.
Qed.
Lemma rfind_none_inv c s : rfind_char c s = None -> no_char c s = true.
Proof.
  induction s as [|e s IH]; intros E; [done |]. cbn in E. rewrite no_char_cons.
  destruct (rfind_char c s); [done |]. destruct (Ascii.eqb e c); [done |]. by rewrite IH.
Qed.
Lemma rfind_some c s n :
  rfind_char c s = Some n ->
  s = str_take n s +:+ String c (str_drop (S n) s) /\ no_char c (str_drop (S n) s) = true /\
  String.length (str_take n s) = n.
Proof.
  revert n; induction s as [|d s IH]; intros n H; [done |]. cbn in H.
  destruct (rfind_char c s) as [m|] eqn:E.
  - injection H as <-. destruct (IH m eq_refl) as (H1 & H2 & H3).
    cbn [str_take str_drop]. rewrite app_cons; split_and!; [by rewrite H1 at 1 | done |].
    cbn; by rewrite H3.
  - destruct (Ascii.eqb_spec d c) as [-> | Hd]; [| done]. injection H as <-.
    split_and!; [done | | done]. by apply rfind_none_inv.
Qed.

(** ** Properties *)

(** an address is accepted exactly when it is a non-empty host, the last
    colon and a text whose number is positive as an int, and it is then split
    there: every printed address reads back whatever colons the host holds. A
    refusal for its shape leaves the two variables as they were. The port is not
    bounded by 65535: [ListenTcp] binds it modulo 2^16. *)
Theorem split_host_port_spec (addr h0 : string) (p0 : Z) :
  (forall host port, SplitHostPort addr h0 p0 = (true, host, port) <->
     exists t, addr = host +:+ ":" +:+ t /\ no_char ":" t = true /\ host <> "" /\ t <> "" /\
               port = atoi t /\ (0 < port)%Z) /\
  (forall host port, host <> "" -> (0 < port <= int_max)%Z ->
     SplitHostPort (host +:+ ":" +:+ to_string port) h0 p0 = (true, host, port)) /\
  (no_char ":" addr = true -> SplitHostPort addr h0 p0 = (false, h0, p0)) /\
  (exists host port, SplitHostPort "h:65537" h0 p0 = (true, host, port) /\ listen_port port = 1%Z).
Proof.
  assert (Hcut : forall host t, no_char ":" t = true -> host <> "" -> t <> "" ->
    SplitHostPort (host +:+ ":" +:+ t) h0 p0 = ((0 <? atoi t)%Z, host, atoi t)).
  { intros host t Ht Hh Htn. change (host +:+ ":" +:+ t) with (host +:+ String ":" t).
    unfold SplitHostPort; rewrite rfind_last by done.
    destruct (substr_cut ":" host t) as [E1 E2]. rewrite Nat.add_1_r, E1, E2.
    replace (_ || _) with false; [done |]. symmetry; apply orb_false_iff; split.
    - apply Nat.eqb_neq; by destruct host.
    - apply Nat.leb_gt. rewrite length_app; destruct t; [done | cbn; lia]. }
  split_and!.
  - intros host port; split.
    + unfold SplitHostPort. destruct (rfind_char ":" addr) as [n|] eqn:E; [| done].
      destruct (rfind_some _ _ _ E) as (H1 & H2 & H3).
      destruct (Nat.eqb n 0 || (String.length addr <=? n + 1)%nat) eqn:Eb; [done |].
      apply orb_false_iff in Eb as [Eb1%Nat.eqb_neq Eb2%Nat.leb_gt].
      rewrite Nat.add_1_r in *. intros H; injection H as Hp <- <-.
      exists (str_drop (S n) addr); split_and!; [exact H1 | done | | | done | by apply Z.ltb_lt].
      * intros Hs; unfold substr in Hs; cbn [str_drop] in Hs. rewrite Hs in H3; cbn in H3; lia.
      * intros Hs. apply (f_equal String.length) in Hs. rewrite length_str_drop in Hs; cbn in Hs; lia.
    + intros (t & -> & Ht & Hh & Htn & -> & Hp). rewrite Hcut by done.
      by rewrite (proj2 (Z.ltb_lt _ _) Hp).
  - intros host port Hh Hp.
    assert (Ea : atoi (to_string port) = port).
    { unfold atoi; rewrite strtol_to_string. unfold to_i32, long_min, long_max, int_max in *.
      rewrite Z.min_r, Z.max_r by lia. rewrite Z.mod_small; lia. }
    rewrite Hcut; [by rewrite Ea, (proj2 (Z.ltb_lt 0 port)) by lia | | done | apply to_string_nonempty].
    assert (Hc := to_string_chars port ltac:(lia)).
    eapply all_chars_impl; [| exact Hc]. intros c; by destruct c as [[] [] [] [] [] [] [] []].
  - intros H; unfold SplitHostPort; by rewrite rfind_none.
  - exists "h", 65537%Z; by vm_compute.
Qed.

(** What [WriteAll] puts out is a prefix, all of it when it reports success. *)
Lemma WriteAll_prefix outcomes buf :
  let '(o, b) := WriteAll outcomes buf in
  (exists r, buf = o +:+ r) /\ (b = Some true -> o = buf).
Proof.
  revert buf; induction outcomes as [|r rs IH]; intros buf; cbn [WriteAll];
    destruct (String.eqb_spec buf "") as [-> | Hb]; try (by split; [exists "" |]).
  { split; [by exists buf | done]. }
  destruct r as [[|n] | |]; try (by split; [exists buf |]).
  - specialize (IH (str_drop (S n) buf)). destruct (WriteAll rs (str_drop (S n) buf)) as [o b].
    destruct IH as [[r Hr] Hb']. split.
    + exists r. by rewrite str_app_assoc, <- Hr, str_take_drop.
    + intros Ht; rewrite (Hb' Ht). apply str_take_drop.
  - apply IH.
Qed.
