(* ===== verification/CommandLine.v ===== *)
(** * CommandLine: the argument loops of the programs.

    daemon/main.cpp, daemon/zerotouchd_standalone.cpp, sim/zt_sim.cpp and
    sim/zt_gnmi_simd.cpp walk [argv] once and stop at the first argument they do
    not know; grpc-tunnel's programs look their flags up with [Arg].  A
    program that stops is its exit code here (what it prints is Usage's), and an uncaught exception of
    [std::stoi] is [Threw].  [args] is [argv] from index 1. *)

From S2P Require Import Prelude CString TunnelNet.

(** ** The code *)

Inductive Parsed (A : Type) := Run (a : A) | Exit (code : Z) | Threw.
Arguments Run {A} _.
Arguments Exit {A} _.
Arguments Threw {A}.

(** [for (int i = 1; i < argc; ++i) { const std::string a = argv[i]; ... }] *)
Fixpoint arg_loop {A} (body : string -> A -> Parsed A) (args : list string) (acc : A) : Parsed A :=
  match args with
  | [] => Run acc
  | a :: r =>
      match body a acc with
      | Run acc' => arg_loop body r acc'
      | Exit code => Exit code
      | Threw => Threw
      end
  end.

Definition is_help (a : string) : bool := String.eqb a "--help" || String.eqb a "-h".
(** [a.substr(n)] behind a flag of [n] characters. *)
Definition flag_value (flag a : string) : string := str_drop (String.length flag) a.

(** zero-touchd: the data-store socket. *)
Definition daemon_arg (a ds_sock : string) : Parsed string :=
  if starts_with "--ds-sock=" a then Run (flag_value "--ds-sock=" a)
  else if is_help a then Exit 0
  else Exit 2.
Definition daemon_args (args : list string) : Parsed string := arg_loop daemon_arg args "".

(** zero-touchd-standalone: the configuration file. *)
Definition standalone_arg (a config : string) : Parsed string :=
  if starts_with "--config=" a then Run (flag_value "--config=" a)
  else if is_help a then Exit 0
  else Exit 2.
Definition standalone_args (args : list string) : Parsed string :=
  arg_loop standalone_arg args "/etc/zerotouch/zerotouch.conf".

(** HOST:PORT of --gnmi and --listen. *)
Definition host_port (hp : string) : Parsed (string * Z) :=
  match rfind_char ":" hp with
  | None => Exit 2
  | Some colon =>
      match stoi (str_drop (S colon) hp) with
      | Some p => Run (substr 0 colon hp, u16 p)
      | None => Threw
      end
  end.

(** zerotouch-sim: the remote gNMI server; [with_gnmi] is [ZT_SIM_WITH_GNMI]. *)
Definition sim_arg (a : string) (remote : string * Z) : Parsed (string * Z) :=
  if starts_with "--gnmi=" a then host_port (flag_value "--gnmi=" a)
  else if is_help a then Exit 0
  else Exit 2.
Definition sim_args (with_gnmi : bool) (args : list string) : Parsed (string * Z) :=
  match arg_loop sim_arg args ("", 0%Z) with
  | Run (host, port) =>
      if negb with_gnmi && negb (String.eqb host "") then Exit 2 else Run (host, port)
  | Exit code => Exit code
  | Threw => Threw
  end.

(** zt-gnmi-simd. *)
Record SimdOptions := mkSimdOptions {
  so_host : string; so_port : Z; so_seed : string; g_verbose : bool }.
Definition SimdOptions_default : SimdOptions :=
  mkSimdOptions "0.0.0.0" 50051 "/etc/zerotouch/gnmi-tree.lua" true.
Definition simd_arg (a : string) (o : SimdOptions) : Parsed SimdOptions :=
  if starts_with "--listen=" a then
    match host_port (flag_value "--listen=" a) with
    | Run (h, p) => Run (mkSimdOptions h p (so_seed o) (g_verbose o))
    | Exit code => Exit code
    | Threw => Threw
    end
  else if starts_with "--seed=" a then
    Run (mkSimdOptions (so_host o) (so_port o) (flag_value "--seed=" a) (g_verbose o))
  else if String.eqb a "--quiet" then
    Run (mkSimdOptions (so_host o) (so_port o) (so_seed o) false)
  else if is_help a then Exit 0
  else Exit 2.
Definition simd_args (args : list string) : Parsed SimdOptions :=
  arg_loop simd_arg args SimdOptions_default.

(** grpc-tunnel's server: what [main] settles before it starts its threads. *)
Record TunnelServerOptions := mkTunnelServerOptions {
  ts_listen : string; ts_forward_host : string; ts_forward_port : Z; ts_target : string;
  ts_auto : Z }.
Definition tunnel_server_args (args : list string) : Parsed TunnelServerOptions :=
  let listen := Arg (fun v => v) args "--listen" "0.0.0.0:50051" in
  let forward := Arg (fun v => v) args "--forward" "127.0.0.1:50052" in
  let target := Arg (fun v => v) args "--target" "edge-1" in
  let auto := Arg atoi args "--auto" (atoi "0") in
  let '(good, host, port) := SplitHostPort forward "" 0 in
  if negb good then Exit 1 else Run (mkTunnelServerOptions listen host port target auto).

(** grpc-tunnel's client; [tc_serve] tells demo mode from forward mode. *)
Record TunnelClientOptions := mkTunnelClientOptions {
  tc_tunnel : string; tc_target : string; tc_retry : Z; tc_keepalive : Z;
  tc_serve : bool; tc_local : string; tc_host : string; tc_port : Z }.
Definition tunnel_client_args (args : list string) : Parsed TunnelClientOptions :=
  let tunnel := Arg (fun v => v) args "--tunnel" "tunnel-server:50051" in
  let target := Arg (fun v => v) args "--target" "edge-1" in
  let retry := Arg atoi args "--retry" (atoi "3") in
  let keepalive := Arg atoi args "--keepalive" (atoi "20") in
  let dial := Arg Some args "--dial" None in
  let echo := Arg Some args "--echo" None in
  match dial, echo with
  | Some _, Some _ => Exit 1
  | _, _ =>
      let serve := match dial with Some _ => false | None => true end in
      let local :=
        match dial with
        | Some d => d
        | None => match echo with Some e => e | None => "127.0.0.1:50060" end
        end in
      let '(good, host, port) := SplitHostPort local "" 0 in
      if negb good then Exit 1
      else Run (mkTunnelClientOptions tunnel target retry keepalive serve local host port)
  end.

(** echo_client's [HasFlag] and the options its [main] reads. *)
Definition HasFlag (args : list string) (flag : string) : bool :=
  existsb (fun a => String.eqb a flag) args.
Definition echo_client_args (args : list string) : string * string * Z * bool :=
  (Arg (fun v => v) args "--addr" "127.0.0.1:50052", Arg (fun v => v) args "--message" "hello",
   u32 (Arg atoi args "--count" (atoi "3")), HasFlag args "--stream").

(** ** The walk over the arguments *)

Lemma arg_loop_app {A} (body : string -> A -> Parsed A) l1 l2 acc :
  arg_loop body (l1 ++ l2) acc =
  match arg_loop body l1 acc with Run acc' => arg_loop body l2 acc' | stop => stop end.
Proof. revert acc; induction l1 as [| a l1 IH]; intros acc; cbn; [done |]. by destruct (body a acc). Qed.

Lemma flag_value_app flag v : flag_value flag (flag +:+ v) = v.
Proof. apply str_drop_app_length. Qed.

Lemma host_port_print h p :
  (0 <= p < 2 ^ 16)%Z -> host_port (h +:+ ":" +:+ to_string p) = Run (h, p).
Proof.
  intros Hp. unfold host_port. rewrite app_cons, app_nil_l', rfind_last.
  - assert (Hd : str_drop (S (String.length h)) (h +:+ String ":" (to_string p)) = to_string p).
    { replace (S (String.length h)) with (String.length (h +:+ ":")).
      - replace (h +:+ String ":" (to_string p)) with ((h +:+ ":") +:+ to_string p)
          by by rewrite str_app_assoc, app_cons, app_nil_l'.
        apply str_drop_app_length.
      - rewrite length_app. cbn. lia. }
    rewrite Hd. unfold stoi. rewrite stol_to_string by (unfold long_min, long_max; lia).
    unfold in_range. rewrite (proj2 (Z.leb_le int_min p)), (proj2 (Z.leb_le p int_max))
      by (unfold int_min, int_max; lia). cbn [andb].
    unfold substr. cbn [str_drop]. rewrite str_take_app_length. unfold u16.
    by rewrite Z.mod_small.
  - eapply all_chars_impl; [| apply to_string_chars; lia]. intros c; by destruct c as [[] [] [] [] [] [] [] []].
Qed.

(** ** Properties *)

(** What an operator may say to zt-gnmi-simd, how it is written, what it means. *)
Inductive SimdFlag := FListen (host : string) (port : Z) | FSeed (path : string) | FQuiet.
Definition print_flag (f : SimdFlag) : string :=
  match f with
  | FListen h p => "--listen=" +:+ h +:+ ":" +:+ to_string p
  | FSeed s => "--seed=" +:+ s
  | FQuiet => "--quiet"
  end.
Definition apply_flag (o : SimdOptions) (f : SimdFlag) : SimdOptions :=
  match f with
  | FListen h p => mkSimdOptions h p (so_seed o) (g_verbose o)
  | FSeed s => mkSimdOptions (so_host o) (so_port o) s (g_verbose o)
  | FQuiet => mkSimdOptions (so_host o) (so_port o) (so_seed o) false
  end.
Definition flag_ok (f : SimdFlag) : Prop :=
  match f with FListen _ p => (0 <= p < 2 ^ 16)%Z | _ => True end.

Lemma simd_arg_print f o : flag_ok f -> simd_arg (print_flag f) o = Run (apply_flag o f).
Proof.
  destruct f as [h p | s |]; intros Hf; cbn [print_flag apply_flag]; unfold simd_arg.
  - rewrite starts_with_app, flag_value_app. cbn [flag_ok] in Hf. by rewrite host_port_print.
  - rewrite flag_value_app. by destruct s.
  - done.
Qed.

(** The simulator's command line means what it says: any sequence of the
    documented flags, in any order and however often, is accepted, a later flag
    overrides an earlier one of its kind and leaves the others alone. The first
    argument that is none of them ends the program before the rest is looked at,
    with 0 for a request for help and 2 otherwise. *)
Theorem simd_args_roundtrip (fs : list SimdFlag) (Hok : Forall flag_ok fs) :
  simd_args (print_flag <$> fs) = Run (foldl apply_flag SimdOptions_default fs) /\
  forall a rest,
    starts_with "--listen=" a = false -> starts_with "--seed=" a = false -> a <> "--quiet" ->
    simd_args ((print_flag <$> fs) ++ a :: rest) = Exit (if is_help a then 0 else 2).
Proof.
  assert (forall o, arg_loop simd_arg (print_flag <$> fs) o = Run (foldl apply_flag o fs)) as Hrun.
  { induction Hok as [| f fs Hf _ IH]; intros o; cbn; [done |]. rewrite simd_arg_print by done. apply IH. }
  split; [apply Hrun |]. intros a rest Hl Hs Hq. unfold simd_args. rewrite arg_loop_app, Hrun.
  cbn [arg_loop]. unfold simd_arg. rewrite Hl, Hs, (proj2 (String.eqb_neq _ _) Hq). by destruct (is_help a).
Qed.

(** A port is taken modulo 2^16, and one that is no number ends the program with
    an uncaught exception. *)
Example simd_port_edges :
  simd_args ["--listen=h:65537"] = Run (mkSimdOptions "h" 1 (so_seed SimdOptions_default) true) /\
  simd_args ["--listen=h:http"] = Threw /\ simd_args ["--listen=h"] = Exit 2.
Proof. by vm_compute. Qed.

Lemma simd_args_roundtrip_witness :
  simd_args ["--quiet"; "--listen=::1:80"; "--listen=h:81"] =
    Run (mkSimdOptions "h" 81 (so_seed SimdOptions_default) false) /\
  simd_args ["--quiet"; "--listen=::1:80"; "--listen=h:81"; "-v"; "--help"] = Exit 2.
Proof.
  destruct (simd_args_roundtrip [FQuiet; FListen "::1" 80; FListen "h" 81]) as [H1 H2].
  - repeat constructor; vm_compute; try discriminate; reflexivity.
  - split; [exact H1 |]. apply (H2 "-v" ["--help"]); [reflexivity | reflexivity | discriminate].
Defined.
