(* ===== verification/Usage.v ===== *)
(** * Usage: what a program says when it stops at its arguments

    CommandLine has the argument loops as exit codes.  Here is what each of the four
    programs prints when its loop stops, the texts of its [usage] included, and that
    a stop is explained: help goes to standard output, a complaint about the very
    argument to standard error, and a program that starts has said nothing.  The one
    stop without a word of the program is an uncaught exception, and it is said which
    command lines end that way. *)

From S2P Require Import Prelude CString TunnelNet CommandLine.

(** ** The texts *)

(** [usage] of zero-touchd *)
Definition daemon_usage : string :=
  unlines [
    "zero-touchd — device control + gNMI provisioning over SMS";
    "";
    "Usage: zero-touchd [--ds-sock=PATH] [--help]";
    "";
    "  --ds-sock=PATH    ds-server unix socket (default: ds built-in).";
    "  --help            show this and exit.";
    "";
    "Behaviour is driven by the zerotouch.* ds keys (enabled, gnmi.port,";
    "allowed.numbers, session.ttl.sec, lockout.*), which hot-apply on change.";
    "The daemon is inert until zerotouch.enabled=true."].

(** [usage] of zero-touchd-standalone *)
Definition standalone_usage : string :=
  unlines [
    "zero-touchd-standalone — gNMI provisioning over SMS (ds-free appliance)";
    "";
    "Usage: zero-touchd-standalone [--config=PATH] [--help]";
    "  --config=PATH   config file (default /etc/zerotouch/zerotouch.conf)"].

(** [usage] of zt-gnmi-simd *)
Definition simd_usage : string :=
  unlines [
    "zt-gnmi-simd — gNMI server for the zero-touch simulation";
    "";
    "Usage: zt-gnmi-simd [--listen=HOST:PORT] [--seed=PATH] [--quiet]";
    "  --listen=HOST:PORT  bind address (default 0.0.0.0:50051)";
    "  --seed=PATH         Lua seed tree, return { tree = { [" +:+ chr dquote +:+ "/xpath" +:+ chr dquote +:+ "]=v } }";
    "                      (default /etc/zerotouch/gnmi-tree.lua)";
    "  --quiet             do not log each RPC";
    "";
    "Serves gNMI Get/Set over plaintext gRPC. Set requires the caller's";
    "prefix.target to be " +:+ chr dquote +:+ "ADMIN" +:+ chr dquote +:+ " (zerotouch's LocalGnmiSink sends it)."].

(** [usage] of zerotouch-sim *)
Definition sim_usage : string :=
  unlines [
    "zerotouch-sim — SMS simulator for the zero-touch command path";
    "";
    "Usage: zerotouch-sim [--gnmi=HOST:PORT] [--help]";
    "  --gnmi=HOST:PORT  drive a REAL gNMI server over gRPC via";
    "                    LocalGnmiSink (run zt-gnmi-simd there).";
    "                    Omit for the built-in in-memory gNMI tree."].

(** ** The code *)

(** Standard output and standard error of a loop: help prints [usage]; any other
    argument it returns at prints [complaint] of it, and [usage] when it is not a flag
    of the program at all. An exception of [std::stoi] that leaves [main] is [None]:
    the program is aborted, and what is seen then is the C++ runtime's. *)
Record Program (A : Type) := mkProgram {
  body : string -> A -> Parsed A; usage : string; complaint : string -> string;
  own_flag : string -> bool
}.
Arguments mkProgram {A} _ _ _ _.
Arguments body {A} _ _ _.
Arguments usage {A} _.
Arguments complaint {A} _ _.
Arguments own_flag {A} _ _.

Definition stop_output {A} (p : Program A) (a : string) : string * string :=
  if own_flag p a then ("", complaint p a)
  else if is_help a then (usage p, "")
  else (usage p, complaint p a).
Fixpoint arg_output {A} (p : Program A) (args : list string) (acc : A) : option (string * string) :=
  match args with
  | [] => Some ("", "")
  | a :: r =>
      match body p a acc with
      | Run acc' => arg_output p r acc'
      | Exit _ => Some (stop_output p a)
      | Threw => None
      end
  end.

Definition daemon : Program string :=
  mkProgram daemon_arg daemon_usage (fun a => "zero-touchd: unknown argument '" +:+ a +:+ "'" +:+ chr nl)
    (starts_with "--ds-sock=").
Definition standalone : Program string :=
  mkProgram standalone_arg standalone_usage (fun a => "unknown arg '" +:+ a +:+ "'" +:+ chr nl)
    (starts_with "--config=").
Definition simd : Program SimdOptions :=
  mkProgram simd_arg simd_usage
    (fun a => if starts_with "--listen=" a then "--listen needs HOST:PORT" +:+ chr nl
              else "unknown arg '" +:+ a +:+ "'" +:+ chr nl)
    (fun a => starts_with "--listen=" a || starts_with "--seed=" a || String.eqb a "--quiet").
Definition sim : Program (string * Z) :=
  mkProgram sim_arg sim_usage
    (fun a => if starts_with "--gnmi=" a then "zerotouch-sim: --gnmi needs HOST:PORT" +:+ chr nl
              else "zerotouch-sim: unknown argument '" +:+ a +:+ "'" +:+ chr nl)
    (starts_with "--gnmi=").
(** What zerotouch-sim says when it was built without a gNMI client. *)
Definition no_gnmi_build : string :=
  unlines [
    "zerotouch-sim: --gnmi needs a ZT_BUILD_GNMI=ON build (protobuf/libevent/nghttp2).";
    "  Rebuild: cmake -S . -B build -DZT_BUILD_SIM=ON -DZT_BUILD_GNMI=ON";
    "  Or run the two-service demo: ./sim.sh --wire"].
Definition sim_output (with_gnmi : bool) (args : list string) : option (string * string) :=
  match arg_loop sim_arg args ("", 0%Z) with
  | Run (host, _) => Some (if negb with_gnmi && negb (String.eqb host "") then ("", no_gnmi_build) else ("", ""))
  | _ => arg_output sim args ("", 0%Z)
  end.

(** ** Every stop is explained *)

(** HOST:PORT behind [flag] whose PORT, the text after the last colon, [std::stoi]
    does not take: no number, or none that fits an [int]. *)
Definition bad_port (flag a : string) : Prop :=
  starts_with flag a = true /\ exists host port,
    flag_value flag a = host +:+ String ":" port /\ no_char ":" port = true /\ stoi port = None.

(** The loop ends at [a], with [args] before it taken and nothing after it looked at. *)
Definition stops_at {A} (p : Program A) (args : list string) (acc : A) (a : string) : Prop :=
  exists l r acc', args = l ++ a :: r /\ arg_loop (body p) l acc = Run acc'.

(** A loop that goes on has printed nothing. One that returns does so at the first
    argument that makes it: [0] is for help, with the usage on standard output and
    nothing on standard error, [2] for anything else, with a complaint on standard
    error. And it throws exactly at an argument of [bad]. *)
Definition explained {A} (p : Program A) (bad : string -> Prop) (args : list string) (acc : A) : Prop :=
  match arg_loop (body p) args acc with
  | Run _ => arg_output p args acc = Some ("", "") /\ Forall (fun a => ~ bad a) args
  | Exit c => exists a, stops_at p args acc a /\ ~ bad a /\
      (c = 0%Z /\ is_help a = true /\ arg_output p args acc = Some (usage p, "") \/
       c = 2%Z /\ is_help a = false /\ complaint p a <> "" /\
       arg_output p args acc = Some (if own_flag p a then "" else usage p, complaint p a))
  | Threw => arg_output p args acc = None /\ exists a, stops_at p args acc a /\ bad a
  end.

Class Explains {A} (p : Program A) (bad : string -> Prop) := {
  ex_run : forall a acc acc', body p a acc = Run acc' -> ~ bad a;
  ex_exit : forall a acc c, body p a acc = Exit c ->
    ~ bad a /\ (c = 0%Z /\ is_help a = true \/ c = 2%Z /\ is_help a = false);
  ex_threw : forall a acc, body p a acc = Threw -> bad a;
  ex_own : forall a, own_flag p a = true -> is_help a = false;
  ex_complaint : forall a, complaint p a <> ""
}.

Lemma stops_later {A} (p : Program A) a args acc acc1 b :
  body p a acc = Run acc1 -> stops_at p args acc1 b -> stops_at p (a :: args) acc b.
Proof.
  intros Eb (l & r & acc' & -> & El). exists (a :: l), r, acc'. cbn. by rewrite Eb.
Qed.
Lemma stops_here {A} (p : Program A) a args acc : stops_at p (a :: args) acc a.
Proof. by exists [], args, acc. Qed.

Lemma explains {A} (p : Program A) bad `{!Explains p bad} args acc : explained p bad args acc.
Proof.
  unfold explained. revert acc. induction args as [| a args IH]; intros acc; cbn [arg_loop arg_output].
  { split; [done | constructor]. }
  destruct (body p a acc) as [acc1 | c |] eqn:Eb.
  - specialize (IH acc1). pose proof (ex_run a acc acc1 Eb) as Hb.
    destruct (arg_loop (body p) args acc1).
    + destruct IH as [Ho Hf]. split; [done | by constructor].
    + destruct IH as (b & Hs & H). exists b. split; [by eapply stops_later | done].
    + destruct IH as (Ho & b & Hs & H). split; [done |]. exists b. split; [by eapply stops_later | done].
  - exists a. split; [apply stops_here |]. unfold stop_output.
    destruct (ex_exit a acc c Eb) as [Hb [[-> Hh] | [-> Hh]]]; (split; [done |]); [left | right]; rewrite Hh.
    + destruct (own_flag p a) eqn:Eo; [| done]. by rewrite (ex_own a Eo) in Hh.
    + split_and!; [done | done | apply ex_complaint | by destruct (own_flag p a)].
  - split; [done |]. exists a. split; [apply stops_here | by eapply ex_threw].
Qed.

(** A flag with a value is not a request for help. *)
Lemma flag_no_help flag a : starts_with flag "--help" = false -> starts_with flag "-h" = false ->
  starts_with flag a = true -> is_help a = false.
Proof.
  intros H1 H2 H. unfold is_help. apply orb_false_iff.
  split; apply String.eqb_neq; intros ->; congruence.
Qed.

(** Programs that read no number throw at nothing. *)
Definition never (a : string) : Prop := False.

#[export] Instance daemon_explains : Explains daemon never.
Proof.
  split; unfold never; [auto | | | | done].
  - intros a acc c. cbn. unfold daemon_arg. destruct (starts_with _ _); [done |].
    destruct (is_help a); intros [= <-]; auto.
  - intros a acc. cbn. unfold daemon_arg. by repeat case_match.
  - intros a. by apply flag_no_help.
Qed.
#[export] Instance standalone_explains : Explains standalone never.
Proof.
  split; unfold never; [auto | | | | done].
  - intros a acc c. cbn. unfold standalone_arg. destruct (starts_with _ _); [done |].
    destruct (is_help a); intros [= <-]; auto.
  - intros a acc. cbn. unfold standalone_arg. by repeat case_match.
  - intros a. by apply flag_no_help.
Qed.

(** A text is cut at its last [c] in one way. *)
Lemma last_cut c h t h' t' : h +:+ String c t = h' +:+ String c t' ->
  no_char c t = true -> no_char c t' = true -> t = t'.
Proof.
  intros E Ht Ht'. pose proof (rfind_last c h t Ht) as H1. rewrite E, rfind_last in H1 by done.
  injection H1 as Hl. rewrite <- (proj2 (substr_cut c h t)), E, <- Hl. apply substr_cut.
Qed.

(** What becomes of HOST:PORT: no colon, a port that is taken, one that throws. *)
Lemma host_port_cases flag a : starts_with flag a = true ->
  match host_port (flag_value flag a) with
  | Run _ => ~ bad_port flag a
  | Exit c => c = 2%Z /\ ~ bad_port flag a
  | Threw => bad_port flag a
  end.
Proof.
  intros Hs. unfold host_port, bad_port. set (hp := flag_value flag a).
  destruct (rfind_char ":" hp) as [n |] eqn:E.
  - destruct (rfind_some ":" hp n E) as (Ehp & Hn & _). set (t := str_drop (S n) hp) in *.
    destruct (stoi t) eqn:Et; [| by eauto 10]. intros (_ & h & t' & E' & Ht' & Et').
    rewrite Ehp in E'. apply last_cut in E' as <-; [congruence | done | done].
  - split; [done |]. intros (_ & h & t & E' & _). apply rfind_none_inv in E.
    rewrite E', no_char_app, no_char_cons in E. cbn in E. by rewrite andb_false_r in E.
Qed.

#[export] Instance simd_explains : Explains simd (bad_port "--listen=").
Proof.
  assert (Hno : forall a, starts_with "--listen=" a = false -> ~ bad_port "--listen=" a)
    by (intros a Ha [Hs _]; congruence).
  split; cbn [body own_flag complaint simd].
  - intros a acc acc'. unfold simd_arg. destruct (starts_with "--listen=" a) eqn:El; [| by intros _; apply Hno].
    pose proof (host_port_cases "--listen=" a El) as H. by destruct (host_port _) as [[h p] | |].
  - intros a acc c. unfold simd_arg. destruct (starts_with "--listen=" a) eqn:El.
    { pose proof (host_port_cases "--listen=" a El) as H.
      destruct (host_port _) as [[h p] | c' |]; [done | | done]. intros [= <-]. destruct H as [-> H].
      split; [done |]. right. split; [done | by apply (flag_no_help "--listen=")]. }
    destruct (starts_with "--seed=" a); [done |]. destruct (String.eqb a "--quiet"); [done |].
    destruct (is_help a); intros [= <-]; auto.
  - intros a acc. unfold simd_arg. destruct (starts_with "--listen=" a) eqn:El; [| by repeat case_match].
    pose proof (host_port_cases "--listen=" a El) as H. by destruct (host_port _) as [[h p] | |].
  - intros a [[Hl | Hs]%orb_true_iff | Hq%String.eqb_eq]%orb_true_iff;
      [by apply (flag_no_help "--listen=") | by apply (flag_no_help "--seed=") | by subst].
  - intros a. by destruct (starts_with "--listen=" a).
Qed.
#[export] Instance sim_explains : Explains sim (bad_port "--gnmi=").
Proof.
  assert (Hno : forall a, starts_with "--gnmi=" a = false -> ~ bad_port "--gnmi=" a)
    by (intros a Ha [Hs _]; congruence).
  split; cbn [body own_flag complaint sim].
  - intros a acc acc'. unfold sim_arg. destruct (starts_with "--gnmi=" a) eqn:El; [| by intros _; apply Hno].
    pose proof (host_port_cases "--gnmi=" a El) as H. by destruct (host_port _).
  - intros a acc c. unfold sim_arg. destruct (starts_with "--gnmi=" a) eqn:El.
    { pose proof (host_port_cases "--gnmi=" a El) as H. intros Eh. rewrite Eh in H. destruct H as [-> H].
      split; [done |]. right. split; [done | by apply (flag_no_help "--gnmi=")]. }
    destruct (is_help a); intros [= <-]; auto.
  - intros a acc. unfold sim_arg. destruct (starts_with "--gnmi=" a) eqn:El; [| by repeat case_match].
    pose proof (host_port_cases "--gnmi=" a El) as H. by destruct (host_port _).
  - intros a. by apply flag_no_help.
  - intros a. by destruct (starts_with "--gnmi=" a).
Qed.

(** C33: How a program stops at its arguments, for every command line of the four
    programs. One that goes on has printed nothing. One that returns does so at the
    first argument it cannot take, everything before it having been taken: with 0
    exactly when that is a request for help, the usage on standard output and
    standard error silent; with 2 otherwise, a complaint on standard error. The only
    other way to stop, an uncaught exception without a word of the program, is taken
    exactly at a HOST:PORT whose PORT [std::stoi] does not take: by the simulated
    device at --listen= and by the simulator at --gnmi=, and by the two daemons
    never. zerotouch-sim built without a gNMI client also stops with 2 when it was
    given a server to drive, and says what to build. *)
Theorem stops_are_explained (args : list string) :
  explained daemon never args "" /\ explained standalone never args "/etc/zerotouch/zerotouch.conf" /\
  explained simd (bad_port "--listen=") args SimdOptions_default /\
  explained sim (bad_port "--gnmi=") args ("", 0%Z) /\
  forall with_gnmi, match sim_args with_gnmi args with
    | Run _ => sim_output with_gnmi args = Some ("", "")
    | Exit c => c = 0%Z /\ sim_output with_gnmi args = Some (sim_usage, "") \/
                c = 2%Z /\ exists out err, sim_output with_gnmi args = Some (out, err) /\ err <> ""
    | Threw => sim_output with_gnmi args = None /\
               exists a, stops_at sim args ("", 0%Z) a /\ bad_port "--gnmi=" a
    end.
Proof.
  split_and!; try apply explains; try apply _. intros g. unfold sim_args, sim_output.
  pose proof (explains sim (bad_port "--gnmi=") args ("", 0%Z)) as He. unfold explained in He. cbn [body sim] in He.
  destruct (arg_loop sim_arg args ("", 0%Z)) as [[h p] | c |]; [| | done].
  - destruct (negb g && negb (String.eqb h "")); [| done]. right. split; [done |]. by eexists _, _.
  - destruct He as (a & _ & _ & [(-> & _ & ->) | (-> & _ & Hne & ->)]); [by left | right].
    split; [done |]. eauto.
Qed.

Example help_example : arg_output standalone ["--config=/x"; "-h"; "nonsense"] "" = Some (standalone_usage, "").
Proof. reflexivity. Qed.
Example listen_example : arg_output simd ["--quiet"; "--listen=1234"] SimdOptions_default =
  Some ("", "--listen needs HOST:PORT" +:+ chr nl).
Proof. reflexivity. Qed.
Example uncaught_example : arg_output sim ["--gnmi=h:http"; "--help"] ("", 0%Z) = None.
Proof. reflexivity. Qed.
