(* ===== verification/TunnelSockets.v ===== *)
(** * TunnelSockets: the socket calls of the tunnel programs (grpc-tunnel/src/net.cc)

    [SetNoDelay], [ListenTcp], [DialTcp] and [Hostname] over the calls of the
    operating system, which are a class; [freeaddrinfo] only returns memory and
    is left out.  The property is about descriptors, whatever fails on the way the
    functions leave none open but the one they return, and about which address of a
    host [DialTcp] ends up connected to. *)

From S2P Require Import Prelude CString TunnelNet CommandLine.

(** ** The code *)

Record SockAddrIn := mkSockAddrIn { sin_port : Z; sin_addr : Z }.
Record AddrInfo := mkAddrInfo { ai_family : Z; ai_socktype : Z; ai_protocol : Z; ai_addr : string }.
Definition AF_UNSPEC : Z := 0.
Definition AF_INET : Z := 2.
Definition SOCK_STREAM : Z := 1.
Definition INADDR_ANY : Z := 0.
Inductive SockOpt := TCP_NODELAY | SO_REUSEADDR.

(** The calls made, each with what its C result tells the caller. *)
Class SocketOs (W : Type) := {
  os_socket : Z -> Z -> Z -> ST W Z;
  os_setsockopt : Z -> SockOpt -> Z -> ST W Z;
  os_bind : Z -> SockAddrIn -> ST W Z;
  os_listen : Z -> Z -> ST W Z;
  os_connect : Z -> string -> ST W Z;
  os_close : Z -> ST W Z;
  os_getaddrinfo : string -> string -> Z -> Z -> ST W (list AddrInfo + Z);
  inet_pton : string -> option Z;
  os_gethostname : Z -> ST W (option string)
}.

Section Sockets.
Context {W : Type} `{SocketOs W}.

Definition SetNoDelay (f : Z) : ST W unit := os_setsockopt f TCP_NODELAY 1 >>> st_ret tt.

(** The address [ListenTcp] binds; [None] when the text is none. *)
Definition listen_addr (host : string) : option Z :=
  if String.eqb host "" || String.eqb host "0.0.0.0" || String.eqb host "*" then Some INADDR_ANY
  else inet_pton host.

Definition ListenTcp (host : string) (port : Z) : ST W Z :=
  let* f := os_socket AF_INET SOCK_STREAM 0 in
  if (f <? 0)%Z then st_ret (-1)%Z
  else
    os_setsockopt f SO_REUSEADDR 1 >>>
    match listen_addr host with
    | None => os_close f >>> st_ret (-1)%Z
    | Some a =>
        let* b := os_bind f (mkSockAddrIn (listen_port port) a) in
        let* failed := (if negb (Z.eqb b 0) then st_ret true
                        else let* l := os_listen f 128 in st_ret (negb (Z.eqb l 0))) in
        if failed : bool then os_close f >>> st_ret (-1)%Z else st_ret f
    end.

(** The loop over the addresses, with the variable [fd]. *)
Fixpoint dial_loop (ais : list AddrInfo) (f : Z) : ST W Z :=
  match ais with
  | [] => st_ret f
  | ai :: r =>
      let* f' := os_socket (ai_family ai) (ai_socktype ai) (ai_protocol ai) in
      if (f' <? 0)%Z then dial_loop r f'
      else
        let* c := os_connect f' (ai_addr ai) in
        if Z.eqb c 0 then st_ret f' else os_close f' >>> dial_loop r (-1)%Z
  end.
Definition DialTcp (host : string) (port : Z) : ST W Z :=
  let* res := os_getaddrinfo host (to_string port) AF_UNSPEC SOCK_STREAM in
  match res with
  | inr _ => st_ret (-1)%Z
  | inl ais =>
      let* f := dial_loop ais (-1)%Z in
      if (0 <=? f)%Z then SetNoDelay f >>> st_ret f else st_ret f
  end.

(** A buffer read as a C string. *)
Fixpoint c_str (buf : string) : string :=
  match buf with
  | "" => ""
  | String c r => if Ascii.eqb c Ascii.zero then "" else String c (c_str r)
  end.
(** The buffer is 256 bytes, its last one made a NUL. *)
Definition Hostname : ST W string :=
  let* r := os_gethostname 256 in
  st_ret match r with Some buf => c_str (str_take 255 buf) | None => "unknown" end.

(** [main] of the server, up to its threads: the options with the forwarder's
    socket, or the exit code. [build_and_start] is gRPC's. *)
Definition tunnel_server_main (build_and_start : string -> ST W bool) (args : list string)
  : ST W (Parsed (TunnelServerOptions * Z)) :=
  match tunnel_server_args args with
  | Exit code => st_ret (Exit code)
  | Threw => st_ret Threw
  | Run o =>
      let* f := ListenTcp (ts_forward_host o) (ts_forward_port o) in
      if (f <? 0)%Z then st_ret (Exit 1)
      else
        let* up := build_and_start (ts_listen o) in
        st_ret (if up : bool then Run (o, f) else Exit 1)
  end.
(** [main] of the client, up to its loop; [start_echo] is [StartEchoServer]. *)
Definition tunnel_client_main (start_echo : string -> ST W bool) (args : list string)
  : ST W (Parsed TunnelClientOptions) :=
  match tunnel_client_args args with
  | Exit code => st_ret (Exit code)
  | Threw => st_ret Threw
  | Run o =>
      if tc_serve o then
        let* up := start_echo (tc_local o) in
        st_ret (if up : bool then Run o else Exit 1)
      else st_ret (Run o)
  end.
End Sockets.

(** ** Properties *)

(** What the manual pages say of the descriptors a process holds. *)
Class SocketLaws {W : Type} `(SocketOs W) (held : W -> gset Z) := {
  socket_opens : forall d t p w, let f := result (os_socket d t p) w in
    if (f <? 0)%Z then held (exec (os_socket d t p) w) = held w
    else f ∉ held w /\ held (exec (os_socket d t p) w) = {[f]} ∪ held w;
  close_closes : forall f w, held (exec (os_close f) w) = held w ∖ {[f]};
  setsockopt_holds : forall f o v w, held (exec (os_setsockopt f o v) w) = held w;
  bind_holds : forall f a w, held (exec (os_bind f a) w) = held w;
  listen_holds : forall f n w, held (exec (os_listen f n) w) = held w;
  connect_holds : forall f a w, held (exec (os_connect f a) w) = held w;
  getaddrinfo_holds : forall h s fam ty w, held (exec (os_getaddrinfo h s fam ty) w) = held w
}.

Section Descriptors.
Context {W : Type} {held : W -> gset Z} `{SL : SocketLaws W held}.

(** The process holds one descriptor more, the one returned, or none. *)
Definition opens_one (m : ST W Z) : Prop :=
  forall w, if (0 <=? result m w)%Z
            then result m w ∉ held w /\ held (exec m w) = {[result m w]} ∪ held w
            else held (exec m w) = held w.

Lemma closed_again f w w0 :
  f ∉ held w0 -> held w = {[f]} ∪ held w0 -> held (exec (os_close f) w) = held w0.
Proof using SL. intros Hf Hw. rewrite close_closes, Hw. set_solver. Qed.

Lemma dial_loop_opens ais : forall f, (f < 0)%Z -> opens_one (dial_loop ais f).
Proof using SL.
  induction ais as [| ai ais IH]; intros f Hf w; cbn [dial_loop].
  { st_run. by destruct (Z.leb_spec 0 f); [lia |]. }
  st_run. pose proof (socket_opens (ai_family ai) (ai_socktype ai) (ai_protocol ai) w) as Hs.
  cbv zeta in Hs.
  set (f' := result (os_socket _ _ _) w) in *. set (w1 := exec (os_socket _ _ _) w) in *.
  destruct (Z.ltb_spec f' 0) as [Hlt | Hge].
  - specialize (IH f' Hlt w1). by rewrite Hs in IH.
  - destruct Hs as [Hn Hh]. st_run. pose proof (connect_holds f' (ai_addr ai) w1) as Hc.
    destruct (Z.eqb (result (os_connect f' (ai_addr ai)) w1) 0); st_run.
    + rewrite (proj2 (Z.leb_le 0 f') Hge), Hc. done.
    + set (w2 := exec (os_connect f' (ai_addr ai)) w1) in *.
      specialize (IH (-1)%Z ltac:(lia) (exec (os_close f') w2)).
      by rewrite (closed_again f' w2 w Hn (eq_trans Hc Hh)) in IH.
Qed.
End Descriptors.

(** The addresses that did not take the connection when they were tried, one after
    the other: no socket for one, or its connect failed and the socket was closed. *)
Inductive refused {W : Type} `{SocketOs W} : list AddrInfo -> W -> W -> Prop :=
| refused_none w : refused [] w w
| refused_no_socket ai r f w w1 w' :
    os_socket (ai_family ai) (ai_socktype ai) (ai_protocol ai) w = (f, w1) -> (f < 0)%Z ->
    refused r w1 w' -> refused (ai :: r) w w'
| refused_connect ai r f w w1 w' :
    os_socket (ai_family ai) (ai_socktype ai) (ai_protocol ai) w = (f, w1) -> (0 <= f)%Z ->
    result (os_connect f (ai_addr ai)) w1 <> 0%Z ->
    refused r (exec (os_close f) (exec (os_connect f (ai_addr ai)) w1)) w' ->
    refused (ai :: r) w w'.

(** From [w] to [w'] an address took the connection on the descriptor [f]. *)
Definition took_connection {W : Type} `{SocketOs W} (ai : AddrInfo) (f : Z) (w w' : W) : Prop :=
  (0 <= f)%Z /\ exists w1, os_socket (ai_family ai) (ai_socktype ai) (ai_protocol ai) w = (f, w1) /\
    result (os_connect f (ai_addr ai)) w1 = 0%Z /\ w' = exec (os_connect f (ai_addr ai)) w1.

(** What the loop comes to: the first address that takes the connection, or none. *)
Lemma dial_loop_outcome {W : Type} `{SocketOs W} ais : forall f w, (f < 0)%Z ->
  let r := result (dial_loop ais f) w in
  let w' := exec (dial_loop ais f) w in
  (r < 0)%Z /\ refused ais w w' \/
  exists l ai rest w1, ais = l ++ ai :: rest /\ refused l w w1 /\ took_connection ai r w1 w'.
Proof.
  induction ais as [| ai ais IH]; intros f w Hf; cbv zeta; cbn [dial_loop].
  { st_run. left. split; [done | constructor]. }
  rewrite !result_bind, !exec_bind.
  destruct (os_socket (ai_family ai) (ai_socktype ai) (ai_protocol ai) w) as [f' w1] eqn:Es.
  change (result (os_socket _ _ _) w) with (os_socket (ai_family ai) (ai_socktype ai) (ai_protocol ai) w).1.
  change (exec (os_socket _ _ _) w) with (os_socket (ai_family ai) (ai_socktype ai) (ai_protocol ai) w).2.
  rewrite Es. cbn [fst snd].
  assert (forall r w', refused r w1 w' -> (f' < 0)%Z -> refused (ai :: r) w w') as Hskip
    by (intros; by eapply refused_no_socket).
  destruct (Z.ltb_spec f' 0) as [Hlt | Hge].
  - destruct (IH f' w1 Hlt) as [[Hr H1] | (l & b & rest & w2 & -> & H1 & Hc)]; [left; auto | right].
    exists (ai :: l), b, rest, w2. auto.
  - st_run. destruct (Z.eqb_spec (result (os_connect f' (ai_addr ai)) w1) 0) as [Ec | Ec]; st_run.
    + right. exists [], ai, ais, w. split; [done |]. split; [apply refused_none |]. split; [done |]. by exists w1.
    + destruct (IH (-1)%Z (exec (os_close f') (exec (os_connect f' (ai_addr ai)) w1)) ltac:(lia))
        as [[Hr H1] | (l & b & rest & w2 & -> & H1 & Hc)].
      * left. split; [done |]. by apply (refused_connect _ _ f' _ w1).
      * right. exists (ai :: l), b, rest, w2. split; [done |]. split; [| done]. by apply (refused_connect _ _ f' _ w1).
Qed.

Lemma DialTcp_outcome {W : Type} `{SocketOs W} host port w :
  let m := os_getaddrinfo host (to_string port) AF_UNSPEC SOCK_STREAM in
  let f := result (DialTcp host port) w in
  let w' := exec (DialTcp host port) w in
  match result m w with
  | inr _ => f = (-1)%Z /\ w' = exec m w
  | inl ais =>
      (f < 0)%Z /\ refused ais (exec m w) w' \/
      exists l ai rest w1 w2, ais = l ++ ai :: rest /\ refused l (exec m w) w1 /\ took_connection ai f w1 w2 /\
        w' = exec (os_setsockopt f TCP_NODELAY 1) w2
  end.
Proof.
  unfold DialTcp. cbv zeta. st_run. set (w1 := exec (os_getaddrinfo _ _ _ _) w).
  destruct (result (os_getaddrinfo _ _ _ _) w) as [ais | rc]; st_run; [| done].
  pose proof (dial_loop_outcome ais (-1)%Z w1 ltac:(lia)) as Hd. cbv zeta in Hd.
  destruct (Z.leb_spec 0 (result (dial_loop ais (-1)) w1)) as [Hle | Hlt]; st_run.
  - destruct Hd as [[Hn _] | (l & ai & rest & w2 & Ea & Hr & Hc)]; [lia | right].
    exists l, ai, rest, w2, (exec (dial_loop ais (-1)) w1). do 3 (split; [done |]).
    unfold SetNoDelay. by st_run.
  - destruct Hd as [[Hn Hr] | (l & ai & rest & w2 & _ & _ & [Hc _])]; [by left | lia].
Qed.

(** C32: No descriptor is leaked: whatever fails, in whichever order, [ListenTcp] and
    [DialTcp] leave the process with the descriptors it had and, exactly when they
    report success, one more: the one they return. And [DialTcp] gives up only when
    the name does not resolve or no address of the host took the connection, each
    tried once and in order: otherwise it returns the descriptor of the first that
    did, connected and not closed since, and tries no other. *)
Theorem sockets_leak_nothing {W : Type} {held : W -> gset Z} {SO : SocketOs W}
    {SL : SocketLaws SO held} (host : string) (port : Z) :
  opens_one (held := held) (ListenTcp host port) /\ opens_one (held := held) (DialTcp host port) /\
  forall w, let m := os_getaddrinfo host (to_string port) AF_UNSPEC SOCK_STREAM in
    let f := result (DialTcp host port) w in
    let w' := exec (DialTcp host port) w in
    match result m w with
    | inr _ => f = (-1)%Z /\ w' = exec m w
    | inl ais =>
        (f < 0)%Z /\ refused ais (exec m w) w' \/
        exists l ai rest w1 w2, ais = l ++ ai :: rest /\ refused l (exec m w) w1 /\ took_connection ai f w1 w2 /\
          w' = exec (os_setsockopt f TCP_NODELAY 1) w2
    end.
Proof.
  split; [| split; [| intros w; apply DialTcp_outcome]]; intros w.
  - unfold ListenTcp. st_run. pose proof (socket_opens AF_INET SOCK_STREAM 0 w) as Hs. cbv zeta in Hs.
    set (f := result (os_socket _ _ _) w) in *. set (w1 := exec (os_socket _ _ _) w) in *.
    destruct (Z.ltb_spec f 0) as [Hlt | Hge]; [by st_run |].
    destruct Hs as [Hn Hh]. st_run. pose proof (setsockopt_holds f SO_REUSEADDR 1 w1) as Ho.
    set (w2 := exec (os_setsockopt _ _ _) w1) in *.
    destruct (listen_addr host) as [a |]; st_run.
    + pose proof (bind_holds f (mkSockAddrIn (listen_port port) a) w2) as Hb.
      set (w3 := exec (os_bind _ _) w2) in *. assert (held w3 = {[f]} ∪ held w) as Hw3 by congruence.
      destruct (negb _); st_run; [by apply closed_again |].
      pose proof (listen_holds f 128 w3) as Hl. set (w4 := exec (os_listen _ _) w3) in *.
      destruct (negb _); st_run; [apply closed_again; [done | congruence] |].
      rewrite (proj2 (Z.leb_le 0 f) Hge). split; [done | congruence].
    + apply closed_again; [done | congruence].
  - unfold DialTcp. st_run. pose proof (getaddrinfo_holds host (to_string port) AF_UNSPEC SOCK_STREAM w) as Hg.
    set (w1 := exec (os_getaddrinfo _ _ _ _) w) in *.
    destruct (result (os_getaddrinfo _ _ _ _) w) as [ais | rc]; st_run; [| done].
    pose proof (dial_loop_opens ais (-1)%Z ltac:(lia) w1) as Hd. rewrite Hg in Hd.
    destruct (Z.leb_spec 0 (result (dial_loop ais (-1)) w1)) as [Hle | Hlt]; st_run.
    + rewrite (proj2 (Z.leb_le _ _) Hle). unfold SetNoDelay. st_run. by rewrite setsockopt_holds.
    + by rewrite (proj2 (Z.leb_gt _ _) Hlt).
Qed.

(** ** A concrete system: descriptors count up, and one address is down *)

Definition DemoOs : Type := list nat.
Definition demo_held (w : DemoOs) : gset Z := list_to_set (Z.of_nat <$> w).
#[local] Instance demo_os : SocketOs DemoOs :=
  {| os_socket := fun _ _ _ w => let n := S (max_list w) in (Z.of_nat n, n :: w);
     os_setsockopt := fun _ _ _ => st_ret 0%Z;
     os_bind := fun _ _ => st_ret 0%Z;
     os_listen := fun _ _ => st_ret 0%Z;
     os_connect := fun _ a => st_ret (if String.eqb a "down" then -1 else 0)%Z;
     os_close := fun f w => (0%Z, filter (fun n => Z.of_nat n <> f) w);
     os_getaddrinfo := fun _ _ _ _ =>
       st_ret (inl [mkAddrInfo 10 1 6 "down"; mkAddrInfo 2 1 6 "up"]);
     inet_pton := fun _ => None;
     os_gethostname := fun _ => st_ret (Some "edge") |}.

#[local] Instance demo_os_laws : SocketLaws demo_os demo_held.
Proof.
  split; try done.
  - intros d t p w. cbn. unfold result, exec, demo_held. cbn.
    split; [| set_solver]. rewrite elem_of_list_to_set, list_elem_of_fmap.
    intros (n & E & Hn%max_list_elem_of_le). lia.
  - intros f w. unfold exec, demo_held. cbn. apply set_eq. intros x.
    rewrite elem_of_difference, elem_of_singleton, !elem_of_list_to_set, !list_elem_of_fmap.
    split.
    + intros (n & -> & [Hn Hin]%list_elem_of_filter). split; [by exists n | done].
    + intros [(n & -> & Hin) Hn]. exists n. split; [done |]. by apply list_elem_of_filter.
Qed.

Lemma sockets_leak_nothing_witness :
  opens_one (held := demo_held) (DialTcp "h" 80) /\
  opens_one (held := demo_held) (ListenTcp "nowhere" 80) /\
  (exists w1 w2, refused [mkAddrInfo 10 1 6 "down"] [5; 2] w1 /\ took_connection (mkAddrInfo 2 1 6 "up") 6 w1 w2) /\
  result (DialTcp "h" 80) [5; 2] = 6%Z /\ exec (DialTcp "h" 80) [5; 2] = [6; 5; 2] /\
  result (ListenTcp "nowhere" 80) [5; 2] = (-1)%Z.
Proof.
  split; [apply (sockets_leak_nothing "h" 80) |]. split; [apply (sockets_leak_nothing "nowhere" 80) |].
  split; [| by vm_compute].
  pose proof (proj2 (proj2 (sockets_leak_nothing "h" 80)) [5; 2]) as H. cbv zeta in H.
  assert (result (DialTcp "h" 80) [5; 2] = 6%Z) as E by by vm_compute. rewrite E in H.
  change (result (os_getaddrinfo _ _ _ _) _) with
    (inl [mkAddrInfo 10 1 6 "down"; mkAddrInfo 2 1 6 "up"] : list AddrInfo + Z) in H.
  destruct H as [[H _] | (l & ai & rest & w1 & w2 & Ea & Hr & Hc & _)]; [done |].
  destruct l as [| a [| b l]]; cbn in Ea.
  - injection Ea as <- _. destruct Hc as (_ & w3 & Es & Ec & _). by vm_compute in Ec.
  - injection Ea as <- <- _. by exists w1, w2.
  - injection Ea as _ _ Ea. by destruct l.
Defined.
