(* ===== verification/SimServer.v ===== *)
(** * SimServer: the connections of the simulated device (sim/zt_gnmi_simd.cpp)

    [sim_conn] and [sim_server] over grace-server's [grpc_session], which turns
    socket bytes into calls of the registered handlers and is a class here, and
    the calls the libevent reactor makes.  The refinement says what the plumbing
    is for: whatever connections come and go and however their bytes arrive, every
    request a client's stream spells is run by its handler, once, on one tree, in the
    order it was completed, and answered on its own connection.  How a stream spells
    requests is HTTP/2's business: a decoder of the whole history of a connection,
    about which nothing else is assumed. *)

From S2P Require Import Prelude CString OrdMap GnmiTree GnmiWire GnmiSimd CommandLine Usage.

(** [grpc_session::unary_handler_t] *)
Definition Handler : Type := string -> ST SimWorld (Z * string).

(** grace-server's session: [gs_recv] is given bytes and answers what it
    consumed, the session after, and the bytes it hands to [tx]. *)
Class GrpcSession := {
  grpc_session : Type;
  gs_new : grpc_session;
  register_unary : string -> Handler -> grpc_session -> grpc_session;
  gs_recv : grpc_session -> string -> ST SimWorld (Z * grpc_session * string)
}.

(** ** The code *)

Section Server.
Context `{GP : GnmiProto} `{GS : GrpcSession}.

Record sim_conn := mkSimConn { peer : string; m_grpc : grpc_session }.
Definition new_conn (peer_host : string) : sim_conn :=
  mkSimConn peer_host
    (register_unary "/gnmi.gNMI/Set" handle_set
      (register_unary "/gnmi.gNMI/Get" handle_get gs_new)).

(** The globals, the members, and what has been sent on each channel. *)
Record sim_server := mkSimServer {
  globals : SimWorld; m_conns : gmap Z sim_conn; sent_on : list (Z * string) }.

(** [sim_conn::handle_read], [handle_event] and [handle_write]. *)
Definition conn_read (data : string) (dry_run : bool) (c : sim_conn)
  : ST SimWorld (Z * sim_conn * string) :=
  if dry_run then st_ret (0%Z, c, "")
  else
    let* out := gs_recv (m_grpc c) data in
    let '(consumed, g, bytes) := out in
    st_ret (to_i32 consumed, mkSimConn (peer c) g, bytes).
Definition conn_event (channel what : Z) : Z := 0.
Definition conn_write (channel : Z) : Z := 0.

(** [sim_server::handle_connect], [handle_accept] and [handle_close]. *)
Definition handle_connect (channel : Z) (peer_host : string) : ST sim_server Z := fun s =>
  match m_conns s !! channel with
  | Some _ => ((-1)%Z, s)
  | None => (0%Z, mkSimServer (globals s) (<[channel := new_conn peer_host]> (m_conns s)) (sent_on s))
  end.
Definition handle_accept (channel : Z) (peer_host : string) : Z := 0.
Definition server_close (channel : Z) : ST sim_server Z := fun s =>
  (match m_conns s !! channel with Some _ => 1%Z | None => 0%Z end,
   mkSimServer (globals s) (delete channel (m_conns s)) (sent_on s)).
(** [sim_conn::handle_close] *)
Definition conn_close (channel : Z) : ST sim_server Z := server_close channel >>> st_ret 0%Z.

(** What the reactor reports; it holds an object per connection. *)
Inductive SimEvent := EvConnect (channel : Z) (peer : string) | EvRead (channel : Z) (data : string)
  | EvClose (channel : Z).
Definition on_event (e : SimEvent) (s : sim_server) : option sim_server :=
  match e with
  | EvConnect ch p => Some (exec (handle_connect ch p) s)
  | EvRead ch data =>
      match m_conns s !! ch with
      | None => None
      | Some c =>
          let '((_, c', bytes), w) := conn_read data false c (globals s) in
          Some (mkSimServer w (<[ch := c']> (m_conns s)) (sent_on s ++ [(ch, bytes)]))
      end
  | EvClose ch =>
      match m_conns s !! ch with None => None | Some _ => Some (exec (conn_close ch) s) end
  end.
Fixpoint on_events (es : list SimEvent) (s : sim_server) : option sim_server :=
  match es with [] => Some s | e :: r => match on_event e s with Some s' => on_events r s' | None => None end end.

(** [main]: the options, and the process as the event loop finds it. [loaded]
    is what [lua_file] has under a path. *)
Section Main.
Context {double : Type} (to_llong : double -> Z) (of_llong : Z -> double)
        (double_eqb : double -> double -> bool) (double_to_string : double -> string).
Definition simd_main (loaded : string -> option (list (string * LuaEntry (double := double))))
    (clock : nat -> Z) (args : list string) : Parsed (SimdOptions * bool * sim_server) :=
  match simd_args args with
  | Run o =>
      let '(t, (good, _)) :=
        load_seed to_llong of_llong double_eqb double_to_string (so_seed o) (loaded (so_seed o)) [] in
      Run (o, good, mkSimServer (mkSim t 0 clock) ∅ [])
  | Exit code => Exit code
  | Threw => Threw
  end.
(** What it prints before the event loop: a word on a seed that did not load, and
    the banner. *)
Definition simd_logo : string :=
  unlines [
    "";
    "   _____               _____                _";
    "  |__  /___ _ __ ___  |_   _|__  _   _  ___| |__";
    "    / // _ \ '__/ _ \   | |/ _ \| | | |/ __| '_ \";
    "   / /|  __/ | | (_) |  | | (_) | |_| | (__| | | |";
    "  /____\___|_|  \___/   |_|\___/ \__,_|\___|_| |_|";
    "";
    "  gNMI server (simulated device) — plaintext gRPC, no TLS"].
Definition simd_banner (o : SimdOptions) (t : GnmiTree) : string :=
  simd_logo +:+
  "  listening on " +:+ so_host o +:+ ":" +:+ to_string (so_port o) +:+ "   seed=" +:+ so_seed o +:+
  "   " +:+ to_string (Z.of_nat (tree_size t)) +:+ " leaf/leaves" +:+ chr nl +:+
  unlines ((fun kv => "    " +:+ kv.1 +:+ " = " +:+ kv.2) <$> t) +:+
  "  Set requires prefix.target=ADMIN. Waiting for clients…" +:+ chr nl.
Definition simd_output (loaded : string -> option (list (string * LuaEntry (double := double))))
    (args : list string) : option (string * string) :=
  match simd_args args with
  | Run o =>
      let '(t, (good, err)) :=
        load_seed to_llong of_llong double_eqb double_to_string (so_seed o) (loaded (so_seed o)) [] in
      Some ((if good then "" else "zt-gnmi-simd: " +:+ err +:+ " — starting with an empty tree" +:+ chr nl)
            +:+ simd_banner o t, "")
  | _ => arg_output simd args SimdOptions_default
  end.
End Main.
End Server.

(** ** What grace-server promises of a session *)

(** A request is the number of its stream, its method and its body; an answer the
    stream it is on, a status and a body. *)
Definition Request : Type := nat * (string * string).
Definition Answer : Type := nat * (Z * string).

(** The requests a client's byte stream has completed, from the first byte of the
    connection on; the answers a client reads off a server's stream; whether the
    client takes these answers, having granted windows for all of them and cancelled
    none; and what a session says to a method nobody registered. *)
Class GrpcWire := {
  requests : string -> list Request;
  replies : string -> list Answer;
  takes : string -> list Answer -> Prop;
  unregistered : Z * string
}.

(** Requests run one after the other by the handlers of a session. *)
Fixpoint serve `{GrpcWire} (hs : string -> option Handler) (rs : list Request) : ST SimWorld (list Answer) :=
  match rs with
  | [] => st_ret []
  | (i, (p, pb)) :: r =>
      let* a := match hs p with Some h => h pb | None => st_ret unregistered end in
      let* l := serve hs r in
      st_ret ((i, a) :: l)
  end.

(** [speaks s hs rx tx given]: a session with the handlers [hs] that has heard [rx],
    sent [tx], and whose requests were given the answers [given]. Whatever bytes come
    next, it runs the requests they complete; and what it sends, among frames of its
    own and as the windows allow, are answers given, each on its stream and once. *)
Class GrpcLaws (GS : GrpcSession) (GW : GrpcWire) := {
  speaks : grpc_session -> (string -> option Handler) -> string -> string -> list Answer -> Prop;
  requests_none : requests "" = [];
  speaks_new : speaks gs_new (fun _ => None) "" "" [];
  speaks_register : forall s hs p h, speaks s hs "" "" [] ->
    speaks (register_unary p h s) (fun q => if String.eqb q p then Some h else hs q) "" "" [];
  speaks_recv : forall s hs rx tx given data w, speaks s hs rx tx given ->
    exists n s' out rs, requests (rx +:+ data) = requests rx ++ rs /\
      gs_recv s data w = ((n, s', out), exec (serve hs rs) w) /\
      speaks s' hs (rx +:+ data) (tx +:+ out) (given ++ result (serve hs rs) w);
  speaks_sent : forall s hs rx tx given, speaks s hs rx tx given ->
    replies tx ⊆+ given /\ (takes rx given -> replies tx ≡ₚ given)
}.

(** ** The specification: one tree, and a conversation per connection *)

Section Spec.
Context `{GP : GnmiProto} `{GW : GrpcWire}.

(** The two methods of the device. *)
Definition device_method (q : string) : option Handler :=
  if String.eqb q "/gnmi.gNMI/Set" then Some handle_set
  else if String.eqb q "/gnmi.gNMI/Get" then Some handle_get else None.

(** What a client has said since it connected, the answers its requests were given,
    and how often the server had sent before. *)
Record Conv := mkConv { cv_heard : string; cv_given : list Answer; cv_since : nat }.
Record SpecState := mkSpec { sp_world : SimWorld; sp_open : gmap Z Conv; sp_sent : nat }.

(** The requests that [data] completes. *)
Definition completed (heard data : string) : list Request :=
  drop (length (requests heard)) (requests (heard +:+ data)).

Definition spec_event (e : SimEvent) (a : SpecState) : option SpecState :=
  match e with
  | EvConnect ch _ =>
      Some match sp_open a !! ch with
           | Some _ => a
           | None => mkSpec (sp_world a) (<[ch := mkConv "" [] (sp_sent a)]> (sp_open a)) (sp_sent a)
           end
  | EvRead ch data =>
      match sp_open a !! ch with
      | None => None
      | Some v =>
          let '(l, w) := serve device_method (completed (cv_heard v) data) (sp_world a) in
          Some (mkSpec w (<[ch := mkConv (cv_heard v +:+ data) (cv_given v ++ l) (cv_since v)]> (sp_open a))
                         (S (sp_sent a)))
      end
  | EvClose ch =>
      match sp_open a !! ch with
      | None => None
      | Some _ => Some (mkSpec (sp_world a) (delete ch (sp_open a)) (sp_sent a))
      end
  end.
Fixpoint spec_events (es : list SimEvent) (a : SpecState) : option SpecState :=
  match es with [] => Some a | e :: r => match spec_event e a with Some a' => spec_events r a' | None => None end end.

(** The bytes of a log that went out on a channel. *)
Fixpoint said_on (ch : Z) (log : list (Z * string)) : string :=
  match log with
  | [] => ""
  | (c, b) :: r => if Z.eqb c ch then b +:+ said_on ch r else said_on ch r
  end.
End Spec.

(** ** The refinement *)

Section Refinement.
Context `{GP : GnmiProto} {GS : GrpcSession} {GW : GrpcWire} {GL : GrpcLaws GS GW}.

(** What the server said on [ch] in this conversation. *)
Definition said (s : sim_server) (ch : Z) (v : Conv) : string := said_on ch (drop (cv_since v) (sent_on s)).

(** A connection and its conversation, with one answer for each request, on its
    stream. *)
Record converses (s : sim_server) (ch : Z) (c : sim_conn) (v : Conv) : Prop := {
  co_since : (cv_since v <= length (sent_on s))%nat;
  co_once : (cv_given v).*1 = (requests (cv_heard v)).*1;
  co_speaks : speaks (m_grpc c) device_method (cv_heard v) (said s ch v) (cv_given v)
}.

Record implements (s : sim_server) (a : SpecState) : Prop := {
  im_world : globals s = sp_world a;
  im_sent : length (sent_on s) = sp_sent a;
  im_open : forall ch, match m_conns s !! ch, sp_open a !! ch with
    | Some c, Some v => converses s ch c v
    | None, None => True
    | _, _ => False
    end
}.

Lemma implements_start w : implements (mkSimServer w ∅ []) (mkSpec w ∅ 0).
Proof. split; [done | done |]. intros ch. cbn. by rewrite !lookup_empty. Qed.

Lemma new_conn_speaks p : speaks (m_grpc (new_conn p)) device_method "" "" [].
Proof using GL. cbn. apply speaks_register, speaks_register, speaks_new. Qed.

Lemma said_on_app ch l1 l2 : said_on ch (l1 ++ l2) = said_on ch l1 +:+ said_on ch l2.
Proof. induction l1 as [| [c b] l1 IH]; cbn; [done |]. destruct (Z.eqb c ch); by rewrite IH, ?str_app_assoc. Qed.

(** What a send adds to what was said. *)
Lemma said_send s w m ch v c b : (cv_since v <= length (sent_on s))%nat ->
  said (mkSimServer w m (sent_on s ++ [(c, b)])) ch v = said s ch v +:+ (if Z.eqb c ch then b else "").
Proof.
  intros Hl. unfold said. cbn [sent_on]. rewrite drop_app_le by done. rewrite said_on_app. cbn.
  destruct (Z.eqb c ch); by rewrite ?str_app_nil_r.
Qed.
Lemma converses_quiet s w m ch c v : converses s ch c v -> converses (mkSimServer w m (sent_on s)) ch c v.
Proof. by intros [H1 H2 H3]. Qed.
(** Other conversations are not concerned. *)
Lemma converses_other s w m ch c v ch' b : ch' <> ch -> converses s ch c v ->
  converses (mkSimServer w m (sent_on s ++ [(ch', b)])) ch c v.
Proof.
  intros Hne [H1 H2 H3]. split; [cbn; rewrite List.length_app; lia | done |].
  rewrite said_send by done. rewrite (proj2 (Z.eqb_neq _ _) Hne). by rewrite str_app_nil_r.
Qed.

(** One answer for each request, on its stream. *)
Lemma serve_streams hs rs w : (result (serve hs rs) w).*1 = rs.*1.
Proof.
  revert w. induction rs as [| [i [p pb]] rs IH]; intros w; cbn [serve]; [done |]. rewrite !result_bind.
  unfold result at 1. cbn [st_ret fst fmap list_fmap]. by rewrite IH.
Qed.

(** A read: the requests it completes, and no others, are run and answered. *)
Lemma read_refines s a ch data c v : implements s a ->
  m_conns s !! ch = Some c -> sp_open a !! ch = Some v ->
  exists s' a', on_event (EvRead ch data) s = Some s' /\ spec_event (EvRead ch data) a = Some a' /\
    implements s' a'.
Proof using GL.
  intros [Hw Hn Ho] Ec Ev. pose proof (Ho ch) as Hc. rewrite Ec, Ev in Hc.
  destruct Hc as [Hl H1 Hs].
  destruct (speaks_recv _ _ _ _ _ data (globals s) Hs) as (n & g & out & rs & Erq & E & Hs').
  assert (completed (cv_heard v) data = rs) as Ecp by (unfold completed; by rewrite Erq, drop_app_length).
  eexists _, _. cbn [on_event spec_event]. rewrite Ec, Ev, Ecp. unfold conn_read, st_bind.
  rewrite E, (run_split (serve _ rs) (sp_world a)). split; [done |]. split; [done |].
  rewrite <- Hw. split; cbn [globals sent_on m_conns sp_world sp_sent sp_open]; [done | |].
  { rewrite List.length_app, Hn. cbn. lia. }
  intros ch'. destruct (decide (ch' = ch)) as [-> | Hne].
  - rewrite !lookup_insert_eq. split; cbn [cv_heard cv_given cv_since sent_on m_grpc].
    + rewrite List.length_app. lia.
    + by rewrite fmap_app, serve_streams, H1, Erq, fmap_app.
    + unfold said. cbn [cv_since]. fold (said (mkSimServer (exec (serve device_method rs) (globals s))
        (<[ch := mkSimConn (peer c) g]> (m_conns s)) (sent_on s ++ [(ch, out)])) ch v).
      rewrite said_send by done. by rewrite Z.eqb_refl.
  - rewrite !lookup_insert_ne by done. specialize (Ho ch').
    destruct (m_conns s !! ch') as [c' |], (sp_open a !! ch') as [v' |]; try done. by apply converses_other.
Qed.

Lemma event_refines s a a' e :
  implements s a -> spec_event e a = Some a' -> exists s', on_event e s = Some s' /\ implements s' a'.
Proof using GL.
  intros Hi He. pose proof Hi as [Hw Hn Ho]. destruct e as [ch p | ch data | ch]; cbn [spec_event on_event] in *.
  - injection He as <-. eexists. split; [done |]. unfold exec, handle_connect. specialize (Ho ch) as Hc.
    destruct (m_conns s !! ch) as [c |] eqn:Ec, (sp_open a !! ch) as [v |] eqn:Ev; try done. cbn.
    split; cbn; [done | done |]. intros ch'. destruct (decide (ch' = ch)) as [-> | Hne].
    + rewrite !lookup_insert_eq. split; cbn; [by rewrite Hn | by rewrite requests_none |].
      unfold said. cbn [cv_since sent_on]. rewrite <- Hn, drop_all. apply (new_conn_speaks p).
    + rewrite !lookup_insert_ne by done. specialize (Ho ch').
      destruct (m_conns s !! ch'), (sp_open a !! ch'); by try apply converses_quiet.
  - specialize (Ho ch) as Hc. destruct (sp_open a !! ch) as [v |] eqn:Ev; [| done].
    destruct (m_conns s !! ch) as [c |] eqn:Ec; [| done].
    destruct (read_refines s a ch data c v Hi Ec Ev) as (s' & a2 & E1 & E2 & Hi').
    cbn [on_event spec_event] in E1, E2. rewrite Ec in E1. rewrite Ev in E2. rewrite He in E2. injection E2 as <-. by exists s'.
  - specialize (Ho ch) as Hc. destruct (sp_open a !! ch) as [v |] eqn:Ev; [| done]. injection He as <-.
    destruct (m_conns s !! ch) as [c |] eqn:Ec; [| done]. eexists. split; [done |].
    unfold exec, conn_close, server_close, st_bind. split; cbn; [done | done |].
    intros ch'. destruct (decide (ch' = ch)) as [-> | Hne]; [by rewrite !lookup_delete_eq |].
    rewrite !lookup_delete_ne by done. specialize (Ho ch').
    destruct (m_conns s !! ch'), (sp_open a !! ch'); by try apply converses_quiet.
Qed.
End Refinement.

(** C20: The server is its handlers. Whatever clients connect, send and leave, in any
    order, on channels used again and again, their bytes cut and interleaved in any
    way, the process goes on and does what the specification says: the requests that
    a connection's bytes spell, from its own first byte on, are run as they are
    completed, each once, by the handler of its method, all on one tree. On an open
    connection each request so far was given one answer, on its stream; what was sent
    since the connection was made reads as answers among these, none twice and none
    of another connection, and as all of them when the client takes them. *)
Theorem sim_server_refines `{GP : GnmiProto} {GS : GrpcSession} {GW : GrpcWire}
    {GL : GrpcLaws GS GW} (es : list SimEvent) (s : sim_server) (a a' : SpecState)
    (Hi : implements s a) (He : spec_events es a = Some a') :
  exists s', on_events es s = Some s' /\ implements s' a' /\ globals s' = sp_world a' /\
    forall ch v, sp_open a' !! ch = Some v ->
      (cv_given v).*1 = (requests (cv_heard v)).*1 /\
      replies (said s' ch v) ⊆+ cv_given v /\
      (takes (cv_heard v) (cv_given v) -> replies (said s' ch v) ≡ₚ cv_given v).
Proof.
  enough (exists s', on_events es s = Some s' /\ implements s' a') as (s' & Hs' & Hi').
  { exists s'. pose proof Hi' as [Hw _ Ho]. split_and!; [done | done | done |]. intros ch v Ev.
    specialize (Ho ch). rewrite Ev in Ho. destruct (m_conns s' !! ch) as [c |]; [| done].
    destruct Ho as [_ H1 Hs]. split; [done |]. by eapply speaks_sent. }
  revert s a Hi He. induction es as [| e es IH]; intros s a Hi He; cbn in *.
  - injection He as <-. by exists s.
  - destruct (spec_event e a) as [a1 |] eqn:E; [| done].
    destruct (event_refines _ _ _ _ Hi E) as (s1 & Es & Hi1). rewrite Es. by eapply IH.
Qed.

(** ** A concrete session

    A stream is a sequence of texts, each behind its length in unary, and a client's
    begins with a preface.  The session decodes as the bytes come, greets with a
    frame of its own, and numbers its answers. *)

#[local] Existing Instance plain_util.
#[local] Existing Instance plain_proto.

(** The incremental decoder: reading a length, or so many bytes of a text. *)
Inductive Dec := DLen (n : nat) | DBody (k : nat) (acc : string).
Definition dec_char (d : Dec) (c : ascii) : Dec * list string :=
  match d with
  | DLen n =>
      if Ascii.eqb c "1" then (DLen (S n), [])
      else match n with O => (DLen 0, [""]) | S _ => (DBody n "", []) end
  | DBody (S (S k)) acc => (DBody (S k) (acc +:+ String c ""), [])
  | DBody _ acc => (DLen 0, [acc +:+ String c ""])
  end.
Fixpoint dec_run (d : Dec) (s : string) : Dec * list string :=
  match s with
  | "" => (d, [])
  | String c r =>
      let '(d1, l1) := dec_char d c in
      let '(d2, l2) := dec_run d1 r in (d2, l1 ++ l2)
  end.
Fixpoint ones (n : nat) (s : string) : string := match n with O => String "0" s | S m => String "1" (ones m s) end.
Definition net (x : string) : string := ones (String.length x) x.

Lemma dec_run_app d a b :
  dec_run d (a +:+ b) = ((dec_run (dec_run d a).1 b).1, (dec_run d a).2 ++ (dec_run (dec_run d a).1 b).2).
Proof.
  revert d. induction a as [| c a IH]; intros d; cbn [dec_run].
  - rewrite app_nil_l'. cbn [fst snd app]. by destruct (dec_run d b).
  - rewrite app_cons. cbn [dec_run]. destruct (dec_char d c) as [d1 l1]. rewrite IH.
    destruct (dec_run d1 a) as [d2 l2]. cbn. by rewrite app_assoc.
Qed.
Lemma dec_ones n s : forall k, dec_run (DLen k) (ones n s) =
  match (k + n)%nat with
  | O => ((dec_run (DLen 0) s).1, "" :: (dec_run (DLen 0) s).2)
  | m => dec_run (DBody m "") s
  end.
Proof.
  induction n as [| n IH]; intros k; cbn [ones dec_run dec_char Ascii.eqb Bool.eqb].
  - rewrite Nat.add_0_r. destruct k as [| k]; [by destruct (dec_run (DLen 0) s) | by destruct (dec_run (DBody (S k) "") s)].
  - rewrite IH, Nat.add_succ_comm. destruct (k + S n)%nat as [| m]; [done |]. by destruct (dec_run (DBody (S m) "") s).
Qed.
Lemma dec_body s : forall acc, s <> "" -> dec_run (DBody (String.length s) acc) s = (DLen 0, [acc +:+ s]).
Proof.
  induction s as [| c [| c' s] IH]; intros acc Hs; [done | done |].
  cbn [String.length dec_run dec_char] in *. specialize (IH (acc +:+ String c "")). cbn in IH.
  destruct s; rewrite IH by done; by rewrite str_app_assoc.
Qed.
Lemma dec_net x : dec_run (DLen 0) (net x) = (DLen 0, [x]).
Proof. unfold net. rewrite dec_ones. destruct x as [| c x]; [done |]. exact (dec_body (String c x) "" ltac:(done)). Qed.

(** Answers and requests with the number of their stream, of a request the method and
    the body with a colon between. *)
Definition z_text (z : Z) (r : string) : string :=
  String (if (z <? 0)%Z then "-" else "+") (ones (Z.to_nat (Z.abs z)) r).
Fixpoint unary (s : string) : nat * string :=
  match s with
  | String c r => if Ascii.eqb c "1" then let '(n, t) := unary r in (S n, t) else (O, r)
  | "" => (O, "")
  end.
Definition enc_answer (a : Answer) : string := ones a.1 (z_text a.2.1 a.2.2).
Definition dec_answer (s : string) : Answer :=
  let '(i, t) := unary s in
  (i, match t with
      | String c r => let '(n, t) := unary r in ((if Ascii.eqb c "-" then - Z.of_nat n else Z.of_nat n)%Z, t)
      | "" => (0%Z, "")
      end).
Lemma unary_ones n s : unary (ones n s) = (n, s).
Proof. induction n as [| n IH]; [done |]. cbn. by rewrite IH. Qed.
Lemma dec_enc a : dec_answer (enc_answer a) = a.
Proof.
  destruct a as [i [z r]]. unfold dec_answer, enc_answer, z_text. rewrite unary_ones. cbn.
  rewrite unary_ones. destruct (Z.ltb_spec z 0); cbn; do 2 f_equal; lia.
Qed.
Fixpoint put_answers (l : list Answer) : string :=
  match l with [] => "" | a :: r => net (enc_answer a) +:+ put_answers r end.
Lemma dec_put_answers l : (dec_run (DLen 0) (put_answers l)).1 = DLen 0 /\
  dec_answer <$> (dec_run (DLen 0) (put_answers l)).2 = l.
Proof.
  induction l as [| a l [E1 E2]]; cbn [put_answers]; [done |].
  rewrite dec_run_app, dec_net. cbn. by rewrite E1, E2, dec_enc.
Qed.

Definition enc_request (i : nat) (p pb : string) : string := net (ones i (p +:+ ":" +:+ pb)).
Definition dec_request (s : string) : Request :=
  let '(i, t) := unary s in
  (i, match find_char ":" t with
      | Some n => (substr 0 n t, str_drop (S n) t)
      | None => (t, "")
      end).

#[local] Instance plain_stream : GrpcWire :=
  {| requests rx := dec_request <$> drop 1 (dec_run (DLen 0) rx).2;
     replies tx := dec_answer <$> drop 1 (dec_run (DLen 0) tx).2;
     takes := fun _ _ => True;
     unregistered := (12%Z, "") |}.

Record PlainSession := mkPlain {
  ps_handlers : string -> option Handler; ps_dec : Dec; ps_seen : bool; ps_greeted : bool }.
#[local] Instance plain_session : GrpcSession :=
  {| grpc_session := PlainSession;
     gs_new := mkPlain (fun _ => None) (DLen 0) false false;
     register_unary := fun p h s =>
       mkPlain (fun q => if String.eqb q p then Some h else ps_handlers s q)
         (ps_dec s) (ps_seen s) (ps_greeted s);
     gs_recv := fun s data =>
       let '(d, items) := dec_run (ps_dec s) data in
       let* l := serve (ps_handlers s) (dec_request <$> if ps_seen s then items else drop 1 items) in
       st_ret (Z.of_nat (String.length data),
               mkPlain (ps_handlers s) d (ps_seen s || negb (bool_decide (items = []))) true,
               (if ps_greeted s then "" else net "SETTINGS") +:+ put_answers l) |}.

Lemma serve_ext hs1 hs2 rs w : (forall q, hs1 q = hs2 q) -> serve hs1 rs w = serve hs2 rs w.
Proof.
  intros H. revert w. induction rs as [| [i [p pb]] rs IH]; intros w; cbn [serve]; [done |].
  unfold st_bind. rewrite H. destruct (match hs2 p with Some h => h pb | None => st_ret unregistered end w).
  by rewrite IH.
Qed.

(** The decoder is where the bytes heard have taken it, and whole frames were sent. *)
Record plain_speaks (s : PlainSession) (hs : string -> option Handler) (rx tx : string)
    (given : list Answer) : Prop := {
  pl_handlers : forall q, ps_handlers s q = hs q;
  pl_dec : (dec_run (DLen 0) rx).1 = ps_dec s;
  pl_seen : ps_seen s = negb (bool_decide ((dec_run (DLen 0) rx).2 = []));
  pl_whole : (dec_run (DLen 0) tx).1 = DLen 0;
  pl_greeted : ps_greeted s = negb (bool_decide ((dec_run (DLen 0) tx).2 = []));
  pl_sent : replies tx = given
}.

(** Past the first item nothing is dropped. *)
Lemma drop_items (a b : list string) :
  drop 1 (a ++ b) = drop 1 a ++ (if negb (bool_decide (a = [])) then b else drop 1 b).
Proof. by destruct a. Qed.

#[local] Instance plain_session_laws : GrpcLaws plain_session plain_stream.
Proof.
  refine {| speaks := plain_speaks |}; [done | by split | | |].
  - intros s hs p h [H1 H2 H3 H4 H5 H6]. split; cbn; try done. intros q. by rewrite H1.
  - intros s hs rx tx given data w [H1 H2 H3 H4 H5 <-]. cbn [gs_recv plain_session requests plain_stream].
    rewrite !dec_run_app, H2. destruct (dec_run (ps_dec s) data) as [d items] eqn:Ed. cbn [fst snd].
    set (rs := dec_request <$> if ps_seen s then items else drop 1 items).
    unfold st_bind. rewrite (serve_ext _ hs rs w H1), (run_split (serve hs rs) w).
    set (l := result (serve hs rs) w).
    set (out := (if ps_greeted s then "" else net "SETTINGS") +:+ put_answers l).
    assert ((dec_run (DLen 0) out).1 = DLen 0 /\
      dec_answer <$> (if ps_greeted s then (dec_run (DLen 0) out).2 else drop 1 (dec_run (DLen 0) out).2) = l /\
      (ps_greeted s = false -> (dec_run (DLen 0) out).2 <> [])) as (O1 & O2 & O3).
    { destruct (dec_put_answers l) as [E1 E2]. unfold out.
      destruct (ps_greeted s); [by rewrite app_nil_l' |]. rewrite dec_run_app, dec_net. by cbn. }
    eexists _, _, out, rs. split_and!; [| done |].
    + by rewrite drop_items, fmap_app, <- H3.
    + split; cbn [ps_handlers ps_dec ps_seen ps_greeted replies plain_stream];
        rewrite ?dec_run_app, ?H2, ?H4, ?Ed; cbn [fst snd].
      * done.
      * done.
      * rewrite H3. destruct (dec_run (DLen 0) rx).2; [done |]. by rewrite bool_decide_false.
      * done.
      * destruct (ps_greeted s) eqn:Eg.
        -- destruct (dec_run (DLen 0) tx).2; [done |]. by rewrite bool_decide_false.
        -- specialize (O3 eq_refl). destruct (dec_run (DLen 0) tx).2; [| done]. by rewrite bool_decide_false.
      * rewrite drop_items, fmap_app, <- H5. by destruct (ps_greeted s); rewrite O2.
  - by intros s hs rx tx given [_ _ _ _ _ <-].
Qed.

(** Two clients; the first is cut in the middle of its request, its channel used again. *)
Definition demo_request (w : bool) : string :=
  if w then enc_request 1 "/gnmi.gNMI/Set" (ser_SetRequest (mkSetRequest "ADMIN" [mkUpdate (pp "/a") (tv "1")] [] []))
  else enc_request 3 "/gnmi.gNMI/Get" (ser_GetRequest (mkGetRequest "VIEWER" JSON [pp "/a"])).
Definition demo_events : list SimEvent :=
  [EvConnect 7 "10.0.0.1"; EvConnect 8 "10.0.0.2"; EvRead 7 (net "PRI" +:+ str_take 40 (demo_request true));
   EvRead 8 (net "PRI"); EvRead 7 (str_drop 40 (demo_request true)); EvClose 7;
   EvRead 8 (demo_request false +:+ enc_request 5 "/gnmi.gNMI/Capabilities" ""); EvConnect 7 "10.0.0.3"].
Definition demo_spec : option SpecState := spec_events demo_events (mkSpec demo_world ∅ 0).

Lemma sim_server_refines_witness :
  exists s', on_events demo_events (mkSimServer demo_world ∅ []) = Some s' /\
    to_gmap (g_tree (globals s')) !! "/a" = Some "1" /\
    exists v, demo_spec ≫= (fun a => sp_open a !! 8%Z) = Some v /\
      replies (said s' 8 v) ≡ₚ cv_given v /\ (fun a => (a.1, a.2.1)) <$> cv_given v = [(3, 0%Z); (5, 12%Z)].
Proof.
  destruct demo_spec as [a' |] eqn:E; [| by vm_compute in E].
  destruct (sim_server_refines demo_events (mkSimServer demo_world ∅ []) (mkSpec demo_world ∅ 0) a'
    (implements_start demo_world) E) as (s' & Es & _ & Hw & Hc).
  assert (exists v, sp_open a' !! 8%Z = Some v /\ (fun a => (a.1, a.2.1)) <$> cv_given v = [(3, 0%Z); (5, 12%Z)] /\
    to_gmap (g_tree (sp_world a')) !! "/a" = Some "1") as (v & Ev & Eg & Et).
  { enough (match demo_spec with
            | Some a => match sp_open a !! 8%Z with
                        | Some v => bool_decide ((fun a => (a.1, a.2.1)) <$> cv_given v = [(3, 0%Z); (5, 12%Z)]) &&
                                    bool_decide (to_gmap (g_tree (sp_world a)) !! "/a" = Some "1")
                        | None => false
                        end
            | None => false
            end = true) as H by (rewrite E in H; destruct (sp_open a' !! 8%Z) as [v |]; [| done];
              apply andb_true_iff in H as [H1%bool_decide_eq_true H2%bool_decide_eq_true]; by exists v).
    by vm_compute. }
  exists s'. split; [exact Es |]. split; [by rewrite Hw |]. exists v. cbn. split; [exact Ev |].
  destruct (Hc 8%Z v Ev) as (_ & _ & Hr). split; [by apply Hr | exact Eg].
Defined.
