(* ===== verification/ZtSim.v ===== *)
(** * ZtSim: the command-line simulator (sim/zt_sim.cpp).

    The in-memory sinks, the console transport, the wiring of [main] around the
    same bridge and executor as the daemons, and the read-eval-print loop line by
    line.  What the program prints is part of its world; the text of its help
    pages is kept, so that a run reads as on a terminal.  The gNMI server of
    [--gnmi] is reached through the sink of LocalGnmiSink, decorated. *)

From S2P Require Import Prelude CString Text PathPolicy Seams OrdMap Mocks GnmiCommand GnmiReply GnmiExecutor Bridge GnmiWire LocalGnmiSink SmsCtl CommandLine.

(** What the simulator uses of smsctl beside the daemons' share. *)
Class SimCtl `{SmsCtl} := {
  store_config : SessionStore -> SmsConfig;
  sha256_hex : string -> string
}.

(** ** The code *)

(** The locals of [main], [std::cout] and the world outside. *)
Record SimApp `{SmsCtl} (O : Type) := mkSimApp {
  kv : OMap string;            (* MemDsSink::kv *)
  tree : OMap string;          (* MemGnmiSink::tree *)
  sessions : SessionStore;
  enabled : bool;
  handled : Z;
  from : string;
  sent_count : Z;              (* ConsoleTransport::sent *)
  cout : string;
  elsewhere : O
}.
Arguments mkSimApp {_ O} _ _ _ _ _ _ _ _ _.
Arguments kv {_ O} _.
Arguments tree {_ O} _.
Arguments sessions {_ O} _.
Arguments enabled {_ O} _.
Arguments handled {_ O} _.
Arguments from {_ O} _.
Arguments sent_count {_ O} _.
Arguments cout {_ O} _.
Arguments elsewhere {_ O} _.

Section Sim.
Context `{SC : SmsCtl} `{SI : !SimCtl} `{GP : GnmiProto} {O : Type}.
Notation D := (SimApp O).
(** [std::time] is the outside world's. *)
Context `{GC : GnmiClient D} (time_o : ST O Z).

Definition now_s : ST D Z := fun d =>
  let '(t, o) := time_o (elsewhere d) in
  (u64 t, mkSimApp (kv d) (tree d) (sessions d) (enabled d) (handled d) (from d) (sent_count d)
            (cout d) o).

Definition set_cout (s : string) (d : D) : D :=
  mkSimApp (kv d) (tree d) (sessions d) (enabled d) (handled d) (from d) (sent_count d) s (elsewhere d).
Definition print (s : string) : ST D unit := st_modify (fun d => set_cout (cout d +:+ s) d).
Definition endl : string := chr nl.

(** [MemDsSink] *)
Definition MemDsSink : DsSink D :=
  {| ds_set := fun k v d =>
       (true, mkSimApp (put k v (kv d)) (tree d) (sessions d) (enabled d) (handled d) (from d)
                       (sent_count d) (cout d) (elsewhere d));
     ds_get := fun k => st_gets (fun d => find k (kv d));
     arm_trigger := fun path _ => print ("  · [trigger armed] " +:+ path +:+ endl) >>> st_ret true |}.

(** [MemGnmiSink] *)
Definition mem_row (t : OMap string) (xp : string) : GnmiPathResult :=
  if is_sensitive_path_default xp then mkRow xp "" denied_text
  else match find xp t with
       | None => mkRow xp "" "not found"
       | Some v => mkRow xp v ""
       end.
Definition mem_get (xs : list string) : ST D GnmiResult :=
  st_gets (fun d => mkGnmiResult true 0 "" (mem_row (tree d) <$> xs)).
Fixpoint mem_put (us : list (string * string)) (t : OMap string) : OMap string :=
  match us with [] => t | (xp, v) :: r => mem_put r (put xp v t) end.
Definition mem_set (us : list (string * string)) : ST D GnmiResult := fun d =>
  (mkGnmiResult true 0 "" ((fun u => mkRow u.1 "" "") <$> us),
   mkSimApp (kv d) (mem_put us (tree d)) (sessions d) (enabled d) (handled d) (from d)
            (sent_count d) (cout d) (elsewhere d)).
Definition MemGnmiSink : GnmiSink D := {| sink_get := mem_get; sink_set := mem_set |}.

(** [QuietSink]: what is printed during the call goes to a scratch buffer. *)
Definition hush {A} (m : ST D A) : ST D A := fun d =>
  let '(a, d') := m d in (a, set_cout (cout d) d').
Definition QuietSink (inner : GnmiSink D) : GnmiSink D :=
  {| sink_get := fun xs => hush (@sink_get D inner xs);
     sink_set := fun us => hush (@sink_set D inner us) |}.

(** [ConsoleTransport]; its [start] does nothing, [inject] is the call of the
    registered handler. *)
Definition console_send (to t : string) : ST D bool := fun d =>
  (true, mkSimApp (kv d) (tree d) (sessions d) (enabled d) (handled d) (from d) (sent_count d + 1)
           (cout d +:+ "  ← SMS to " +:+ to +:+ ": " +:+ t +:+ endl) (elsewhere d)).
Definition ConsoleTransport : ISmsTransport D :=
  {| tx_send := console_send; tx_start := fun _ => st_ret tt |}.

(** The demo users, in the order of the map. *)
Definition users : OMap Account :=
  [("admin", mkAccount "admin" (sha256_hex "admin") "Admin");
   ("viewer", mkAccount "viewer" (sha256_hex "viewer") "Viewer")].
Definition lookup_demo (i : string) : ST D (option Account) := st_ret (find i users).

Definition put_sessions (s : SessionStore) (d : D) : D :=
  mkSimApp (kv d) (tree d) s (enabled d) (handled d) (from d) (sent_count d) (cout d) (elsewhere d).
Definition on_sessions {A} (m : ST SessionStore A) : ST D A := fun d =>
  let '(a, s) := m (sessions d) in (a, put_sessions s d).
Definition set_enabled (b : bool) (d : D) : D :=
  mkSimApp (kv d) (tree d) (sessions d) b (handled d) (from d) (sent_count d) (cout d) (elsewhere d).
Definition set_from (s : string) (d : D) : D :=
  mkSimApp (kv d) (tree d) (sessions d) (enabled d) (handled d) s (sent_count d) (cout d) (elsewhere d).
Definition count_handled : ST D Z := fun d =>
  let h := u64 (handled d + 1) in
  (h, mkSimApp (kv d) (tree d) (sessions d) (enabled d) h (from d) (sent_count d) (cout d) (elsewhere d)).

Definition authfn (s : string) : ST D Access :=
  let* now := now_s in
  let* a := on_sessions (session s now) in
  st_ret match a with
         | None => AccessNone
         | Some a => if String.eqb (acc_access a) "Admin" then Admin else Viewer
         end.
Definition fallback (s txt : string) : ST D string :=
  let cmd := smsctl_parse txt in
  if bool_decide (cmd_kind cmd = NotACommand) then st_ret ""
  else
    let* now := now_s in
    let* h := count_handled in
    let seed := u64 (u64 (now * 2654435761) + h) in
    executor_handle D MemDsSink sessions put_sessions lookup_demo cmd s now seed.
Definition allow (s : string) : ST D bool :=
  st_gets (fun d => enabled d && sender_allowed s (sessions d)).

(** The backend behind the seam: the tree, or the server at [remote]. *)
Definition remote_config (remote : string * Z) : SinkConfig :=
  mkSinkConfig remote.1 remote.2 (get_role SinkConfig_default) (set_role SinkConfig_default) [].
Definition is_remote (remote : string * Z) : bool := negb (String.eqb remote.1 "").
Definition sim_sink (remote : string * Z) : GnmiSink D :=
  if is_remote remote then QuietSink (LocalGnmiSink (remote_config remote)) else MemGnmiSink.
Definition sim_bridge : Bridge D := mkBridge (Some authfn) (Some tokenize) (Some fallback) (Some allow).
Definition inject (remote : string * Z) (i : InboundSms) : ST D unit :=
  @on_sms D ConsoleTransport (sim_sink remote) sim_bridge i.

(** [ss >> cmd], then what is left for [std::getline]. *)
Fixpoint split_word (s : string) : string * string :=
  match s with
  | "" => ("", "")
  | String c r =>
      if is_space c then ("", s) else let '(w, rest) := split_word r in (String c w, rest)
  end.
Definition erase_blank (s : string) : string :=
  match s with String c r => if Ascii.eqb c " " then r else s | "" => "" end.

Definition tree_line (k v : string) : string := "  " +:+ k +:+ " = " +:+ v +:+ endl.
Definition print_tree (remote : string * Z) : ST D unit :=
  if is_remote remote then
    let* r := @sink_get D (sim_sink remote) ["/"] in
    if negb (ok r) then
      print ("  (gNMI GET / failed: status " +:+ to_string (grpc_status r)
             +:+ (if String.eqb (grpc_message r) "" then "" else " " +:+ grpc_message r)
             +:+ ")" +:+ endl)
    else st_for (fun p => print (tree_line (Seams.xpath p)
           (if String.eqb (Seams.error p) "" then Seams.value p else "<" +:+ Seams.error p +:+ ">"))) (paths r)
  else
    let* t := st_gets tree in st_for (fun kv => print (tree_line kv.1 kv.2)) t.

Definition help_text : string :=
  "commands:" +:+ endl
  +:+ "  <text>              send <text> as an SMS from the current sender" +:+ endl
  +:+ "  /from <number>      set the sender MSISDN (default +15551230000)" +:+ endl
  +:+ "  /enable | /disable  toggle zerotouch.enabled (disabled => silent drop)" +:+ endl
  +:+ "  /allow <csv>        set the allowlist (empty => any sender may login)" +:+ endl
  +:+ "  /tree               dump the gNMI store (remote: GET / over gRPC)" +:+ endl
  +:+ "  /users              list the demo users" +:+ endl
  +:+ "  /help               this help" +:+ endl
  +:+ "  /quit | /exit | quit | exit | q    leave" +:+ endl
  +:+ "examples:" +:+ endl
  +:+ "  IOT LOGIN admin admin" +:+ endl
  +:+ "  IOT GNMI GET /system/config/hostname" +:+ endl
  +:+ "  IOT GNMI GET /system/config/hostname,/system/aaa/user[name=admin]/config/password" +:+ endl
  +:+ "  IOT GNMI SET /system/config/hostname router-7" +:+ endl
  +:+ "  IOT STATUS" +:+ endl.

Definition allowlist_size (s : SessionStore) : string :=
  to_string (Z.of_nat (length (sc_allowed_numbers (store_config s)))).
(** [banner] *)
Definition banner_text (backend : string) (d : D) : string :=
  "zerotouch-sim — SMS simulator (no modem, no ds-server)" +:+ endl
  +:+ "  gNMI backend: " +:+ backend +:+ endl
  +:+ "  from=" +:+ from d +:+ "  enabled=" +:+ (if enabled d then "yes" else "no")
  +:+ "  allowlist=" +:+ allowlist_size (sessions d) +:+ " number(s)" +:+ endl
  +:+ "  demo users: admin/admin (Admin), viewer/viewer (Viewer)" +:+ endl
  +:+ "  type an SMS body, or /help.  Try: IOT LOGIN admin admin" +:+ endl.

(** A line that starts with '/': whether the loop is left. *)
Definition slash (remote : string * Z) (line : string) : ST D bool :=
  let '(cmd, r) := split_word line in
  let rest := erase_blank r in
  if String.eqb cmd "/quit" || String.eqb cmd "/exit" then st_ret true
  else
    (if String.eqb cmd "/help" then print help_text
     else if String.eqb cmd "/from" && negb (String.eqb rest "") then
       st_modify (set_from rest) >>> print ("  sender = " +:+ rest +:+ endl)
     else if String.eqb cmd "/enable" then st_modify (set_enabled true) >>> print ("  enabled" +:+ endl)
     else if String.eqb cmd "/disable" then st_modify (set_enabled false) >>> print ("  disabled" +:+ endl)
     else if String.eqb cmd "/allow" then
       let* c := st_gets (fun d => store_config (sessions d)) in
       st_modify (fun d => put_sessions
         (set_config (mkSmsConfig (sc_session_ttl_sec c) (sc_lockout_failures c) (sc_lockout_sec c)
                                  (split_csv rest)) (sessions d)) d) >>>
       let* s := st_gets sessions in
       print ("  allowlist = " +:+ allowlist_size s +:+ " number(s)" +:+ endl)
     else if String.eqb cmd "/tree" then print_tree remote
     else if String.eqb cmd "/users" then
       st_for (fun u => print ("  " +:+ u.1 +:+ " (" +:+ acc_access u.2 +:+ ")" +:+ endl)) users
     else print ("  unknown command (try /help)" +:+ endl)) >>> st_ret false.

Definition no_reply_note : string :=
  "  (no reply — dropped: disabled, not allowlisted, or not an IOT command)" +:+ endl.
Definition say_line (remote : string * Z) (line : string) : ST D unit :=
  let* before := st_gets sent_count in
  let* f := st_gets from in
  print ("  → SMS from " +:+ f +:+ ": " +:+ line +:+ endl) >>>
  let* now := now_s in
  inject remote (mkInboundSms f line (to_string now)) >>>
  let* after := st_gets sent_count in
  if Z.eqb after before then print no_reply_note else st_ret tt.

(** The body of the loop: whether it is left. *)
Definition strip_cr (line : string) : string :=
  match back line with Some c => if Ascii.eqb c cr then pop_back line else line | None => line end.
Definition is_quit (line : string) : bool :=
  String.eqb line "quit" || String.eqb line "exit" || String.eqb line "q".
Definition repl_line (remote : string * Z) (raw : string) : ST D bool :=
  let line := strip_cr raw in
  if is_quit line then st_ret true
  else
    let* stop :=
      match line with
      | String c _ => if Ascii.eqb c "/" then slash remote line
                      else say_line remote line >>> st_ret false
      | "" => st_ret false
      end in
    if stop : bool then st_ret true else print "> " >>> st_ret false.
Fixpoint repl (remote : string * Z) (input : list string) : ST D unit :=
  match input with
  | [] => st_ret tt
  | l :: r => let* stop := repl_line remote l in if stop : bool then st_ret tt else repl remote r
  end.

(** [main], past the arguments. *)
Definition seed_tree : OMap string :=
  put "/system/aaa/user[name=admin]/config/password" "s3cr3t"
  (put "/interfaces/interface[name=eth0]/state/oper-status" "UP"
  (put "/system/state/uptime" "12345"
  (put "/system/config/hostname" "demo-router" []))).
Definition sim_init (world : O) : D :=
  mkSimApp [] seed_tree store_empty true 0 "+15551230000" 0 "" world.
Definition backend_name (remote : string * Z) : string :=
  if is_remote remote
  then "LocalGnmiSink → gRPC " +:+ remote.1 +:+ ":" +:+ to_string remote.2
  else "in-memory tree (no gRPC)".
Definition sim_main (remote : string * Z) (stdin : string) : ST D Z :=
  @bridge_start D ConsoleTransport (sim_sink remote) sim_bridge >>>
  let* d := st_gets (fun d => d) in
  print (banner_text (backend_name remote) d) >>> print "> " >>>
  repl remote (getlines stdin) >>>
  print ("bye" +:+ endl) >>> st_ret 0%Z.
End Sim.

(** ** Properties *)

Section SimSpec.
Context `{SC : SmsCtl} `{SI : !SimCtl} `{GP : GnmiProto} {O : Type}.
Notation D := (SimApp O).
Context `{GC : GnmiClient D} (time_o : ST O Z).

(** *** The backends *)

Lemma mem_row_masked t xp : row_masked default_deny_tokens (mem_row t xp).
Proof.
  unfold row_masked, mem_row, is_sensitive_path_default.
  destruct (is_sensitive_path xp default_deny_tokens) eqn:E; [by split |].
  destruct (find xp t); cbn [Seams.xpath]; by rewrite E.
Qed.

#[export] Instance MemGnmiSink_safe : @SafeSink D MemGnmiSink default_deny_tokens.
Proof. intros xs d. cbn. apply Forall_fmap, Forall_true. intros. apply mem_row_masked. Qed.

#[export] Instance QuietSink_safe (inner : GnmiSink D) deny :
  @SafeSink D inner deny -> @SafeSink D (QuietSink inner) deny.
Proof. intros Hs xs d. cbn. unfold hush, result. specialize (Hs xs d). unfold result in Hs. by destruct (sink_get xs d). Qed.

#[export] Instance sim_sink_safe remote : @SafeSink D (sim_sink remote) default_deny_tokens.
Proof.
  unfold sim_sink. destruct (is_remote remote); [| apply _].
  apply QuietSink_safe. exact (LocalGnmiSink_safe (remote_config remote)).
Qed.

Lemma mem_put_gmap us t :
  to_gmap (mem_put us t) = foldl (fun m u => <[u.1 := u.2]> m) (to_gmap t) us.
Proof. revert t; induction us as [| [x v] us IH]; intros t; cbn [mem_put foldl]; [done |]. by rewrite IH, put_gmap. Qed.
(** The simulator's backends keep the contract of a sink. Whichever backend
    is chosen, a denylisted path comes back as an error row without a value. The
    in-memory tree returns for a path the value last written to it, for one never
    written the value it had, and says which of the others do not exist. *)
Theorem sim_backend_contract (remote : string * Z) (us : list (string * string)) (x : string) (d : D) :
  @SafeSink D (sim_sink remote) default_deny_tokens /\
  let d' := exec (mem_set us) d in
  result (mem_get [x]) d' =
    mkGnmiResult true 0 ""
      [if is_sensitive_path x default_deny_tokens then mkRow x "" denied_text
       else match foldl (fun m u => <[u.1 := u.2]> m) (to_gmap (tree d)) us !! x with
            | Some v => mkRow x v ""
            | None => mkRow x "" "not found"
            end] /\
  (forall a v b, us = a ++ (x, v) :: b -> x ∉ b.*1 -> to_gmap (tree d') !! x = Some v).
Proof.
  split; [apply sim_sink_safe |]. cbv zeta. split.
  - unfold result, mem_get, st_gets, mem_set, exec. cbn [fst snd tree fmap list_fmap].
    unfold mem_row, is_sensitive_path_default. rewrite find_gmap, mem_put_gmap.
    destruct (is_sensitive_path x default_deny_tokens); [done |]. by case_match.
  - intros a v b Hus Hb. unfold exec, mem_set. cbn [snd tree]. rewrite mem_put_gmap.
    by eapply last_write_wins.
Qed.

(** *** Disabled means inert *)

(** What an SMS could change. *)
Definition device (d : D) := (kv d, tree d, handled d, sent_count d).
(** Disabled stays disabled, and nothing happens. *)
Definition inert (d d' : D) : Prop := enabled d = false -> enabled d' = false /\ device d' = device d.

#[export] Instance inert_preorder : PreOrder inert.
Proof.
  split; unfold inert; [done |]. intros a b c H1 H2 Ha. destruct (H1 Ha) as [Hb E1].
  destruct (H2 Hb) as [Hc E2]. split; congruence.
Qed.

Lemma inert_print s : st_rel inert (print (O := O) s).
Proof. intros d Hd. by split. Qed.
Lemma inert_now : st_rel inert (now_s (O := O) time_o).
Proof. intros d Hd. unfold exec, now_s. by destruct (time_o (elsewhere d)). Qed.
Hint Resolve inert_print inert_now : frame.

Lemma inert_inject (port : Z) i : st_rel inert (inject time_o ("", 0%Z) i).
Proof.
  intros d Hd. unfold inject, on_sms, gate. cbn [m_allow sim_bridge]. unfold exec, st_bind at 1.
  unfold allow, st_gets. cbn. rewrite Hd. by split.
Qed.

Lemma inert_say (port : Z) line : st_rel inert (say_line time_o ("", port) line).
Proof.
  assert (forall i, st_rel inert (inject time_o ("", port) i)) by exact (inert_inject port).
  unfold say_line. framed; auto with frame.
Qed.

Lemma inert_slash (port : Z) line :
  (split_word line).1 <> "/enable" -> st_rel inert (slash ("", port) line).
Proof.
  unfold slash. destruct (split_word line) as [cmd r]. cbn [fst]. intros Hc.
  rewrite (proj2 (String.eqb_neq _ _) Hc). unfold print_tree. cbn [is_remote fst negb String.eqb].
  framed; auto with frame; intros ? ?; by split.
Qed.

Lemma inert_line (port : Z) raw :
  (split_word (strip_cr raw)).1 <> "/enable" -> st_rel inert (repl_line time_o ("", port) raw).
Proof.
  intros Hl. unfold repl_line. pose proof (inert_slash port _ Hl). pose proof (inert_say port (strip_cr raw)).
  framed; auto with frame.
Qed.

(** Disabled means inert: after /disable, and until a line says /enable, no
    input whatsoever - logins, gNMI commands, changes of sender or allow-list -
    sends a reply, changes the store or the gNMI tree, or reaches the engine. *)
Theorem sim_disabled_is_inert (port : Z) (input : list string) (d : D)
    (Hoff : enabled d = false)
    (Hin : Forall (fun l => (split_word (strip_cr l)).1 <> "/enable") input) :
  let d' := exec (repl time_o ("", port) input) d in
  enabled d' = false /\ device d' = device d.
Proof.
  cbv zeta. enough (st_rel inert (repl time_o ("", port) input)) as Hr by by apply Hr.
  induction Hin as [| l r Hl _ IH]; cbn [repl]; [by intros w |].
  apply st_rel_bind; [apply _ | by apply inert_line | intros stop]. destruct stop; [by intros w | exact IH].
Qed.

(** *** Every line is answered or noted *)

Lemma exec_gets {A} (f : D -> A) d : exec (st_gets f) d = d.
Proof. done. Qed.
Lemma result_gets {A} (f : D -> A) d : result (st_gets f) d = f d.
Proof. done. Qed.

Definition reply_line (to r : string) : string := "  ← SMS to " +:+ to +:+ ": " +:+ r +:+ endl.
(** Between [d] and [d'] one reply went to [to], the last thing printed, or none. *)
Definition answered (to : string) (d d' : D) : Prop :=
  sent_count d' = sent_count d \/
  (sent_count d' = sent_count d + 1 /\ exists c r, r <> "" /\ cout d' = c +:+ reply_line to r)%Z.

Lemma send_answered to m (d : D) :
  frames sent_count m ->
  answered to d (exec (let* r := m in @send_nonempty D ConsoleTransport to r) d).
Proof.
  intros Hm. specialize (Hm d). unfold same_view in Hm. st_run. unfold send_nonempty.
  destruct (String.eqb_spec (result m d) "") as [E | E]; st_run; [by left |].
  right. set (w := exec m d) in *. unfold exec. cbn. rewrite Hm. split; [done |].
  exists (cout w), (result m d). done.
Qed.

Lemma inject_answered remote i (d : D)
    (Hex : forall cmd s now seed, frames sent_count
       (executor_handle D MemDsSink sessions put_sessions lookup_demo cmd s now seed))
    (Hget : forall xs, frames sent_count (@sink_get D (sim_sink remote) xs))
    (Hset : forall us, frames sent_count (@sink_set D (sim_sink remote) us)) :
  answered (sender i) d (exec (inject time_o remote i) d).
Proof.
  assert (Hnow : frames sent_count (now_s (O := O) time_o)).
  { intros w. unfold same_view, exec, now_s. by destruct (time_o (elsewhere w)). }
  assert (Hses : forall A (m : ST SessionStore A), frames sent_count (on_sessions (O := O) m)).
  { intros A m w. unfold same_view, exec, on_sessions. by destruct (m (sessions w)). }
  assert (Hcnt : frames sent_count (count_handled (O := O))) by by intros w.
  unfold inject, on_sms. st_run. cbn [gate m_allow sim_bridge]. unfold allow at 1 2.
  unfold st_gets at 1 2. unfold exec at 2, result at 1. cbn [fst snd].
  destruct (negb _); [by left |]. destruct (negb _).
  - apply send_answered. apply handle_rel; [apply _ | | done | done].
    intros s. unfold resolve_access, m_gex, authfn. cbn. framed.
  - apply send_answered. unfold fallback. framed.
Qed.

Lemma say_line_run remote line (d : D) :
  exists d1 i, sent_count d1 = sent_count d /\ sender i = from d /\
    exec (say_line time_o remote line) d =
    let d2 := exec (inject time_o remote i) d1 in
    if Z.eqb (sent_count d2) (sent_count d) then exec (print no_reply_note) d2 else d2.
Proof.
  set (p := exec (print ("  → SMS from " +:+ from d +:+ ": " +:+ line +:+ endl)) d).
  exists (exec (now_s time_o) p), (mkInboundSms (from d) line (to_string (result (now_s time_o) p))).
  split; [| split; [done |]].
  - unfold exec, now_s. by destruct (time_o (elsewhere p)).
  - cbv zeta. unfold say_line. rewrite !exec_bind, !exec_gets, !result_gets. fold p.
    by destruct (Z.eqb _ _).
Qed.

(** A line taken for an SMS. *)
Lemma say_line_answered (remote : string * Z) (line : string) (d : D)
    (Hex : forall cmd s now seed, frames sent_count
       (executor_handle D MemDsSink sessions put_sessions lookup_demo cmd s now seed))
    (Hget : forall xs, frames sent_count (@sink_get D (sim_sink remote) xs))
    (Hset : forall us, frames sent_count (@sink_set D (sim_sink remote) us)) :
  let d' := exec (say_line time_o remote line) d in
  (sent_count d' = sent_count d /\ exists c, cout d' = c +:+ no_reply_note) \/
  (sent_count d' = sent_count d + 1 /\
   exists c r, r <> "" /\ cout d' = c +:+ reply_line (from d) r)%Z.
Proof.
  cbv zeta. destruct (say_line_run remote line d) as (d1 & i & Hd1 & Hi & ->). rewrite <- Hi.
  cbv zeta. set (d2 := exec (inject time_o remote i) d1).
  destruct (inject_answered remote i d1 Hex Hget Hset) as [E | [E (c & r & Hr & Ec)]];
    fold d2 in E; rewrite Hd1 in E.
  - rewrite (proj2 (Z.eqb_eq _ _) E). left. split; [exact E |]. by exists (cout d2).
  - rewrite (proj2 (Z.eqb_neq _ _)) by lia. right. split; [exact E |]. by exists c, r.
Qed.

(** A '/' command sends nothing, and leaves on two words only. *)
Lemma frames_print s : frames sent_count (print (O := O) s).
Proof. by intros w. Qed.
Hint Resolve frames_print : frame.

Lemma slash_sends_nothing remote line :
  (forall xs, frames sent_count (@sink_get D (sim_sink remote) xs)) ->
  frames sent_count (slash remote line).
Proof.
  intros Hget. unfold slash. destruct (split_word line) as [cmd r]. unfold print_tree.
  framed; auto with frame; by intros ?.
Qed.
Lemma slash_leaves remote line d :
  result (slash remote line) d =
  String.eqb (split_word line).1 "/quit" || String.eqb (split_word line).1 "/exit".
Proof.
  unfold slash. destruct (split_word line) as [cmd r]. cbn [fst].
  destruct (String.eqb cmd "/quit" || String.eqb cmd "/exit"); [done |]. by rewrite result_bind.
Qed.

(** What becomes of a line, [line] being the one typed without its carriage return. *)
Lemma repl_line_cases remote raw (d : D) :
  let line := strip_cr raw in
  let m := repl_line time_o remote raw in
  if is_quit line then m d = (true, d)
  else match line with
       | "" => m d = (false, exec (print "> ") d)
       | String c _ =>
           if Ascii.eqb c "/" then
             result m d = result (slash remote line) d /\
             exec m d = (if result (slash remote line) d then exec (slash remote line) d
                         else exec (print "> ") (exec (slash remote line) d))
           else m d = (false, exec (print "> ") (exec (say_line time_o remote line) d))
       end.
Proof.
  cbv zeta. unfold repl_line. destruct (is_quit (strip_cr raw)); [done |].
  destruct (strip_cr raw) as [| c r]; [done |]. destruct (Ascii.eqb c "/").
  - rewrite result_bind, exec_bind. destruct (result (slash remote (String c r)) d); [done |].
    split; done.
  - rewrite (run_split _ d), !result_bind, !exec_bind, !result_bind. done.
Qed.

(** C25: No message is lost silently. Of a line typed at the prompt, its carriage
    return aside: quit, exit and q leave and change nothing; an empty line only
    brings the prompt back; a line that begins with '/' sends nothing whatever it
    says, and leaves when its first word is /quit or /exit; any other line is an SMS,
    and before the next prompt it is either answered by exactly one reply, not empty
    and to the current sender, or followed by the note that nothing was sent, which
    never follows a reply. Whatever the engine and the gNMI backend do, as long as
    they do not send by themselves. *)
Theorem sim_line_answered (remote : string * Z) (raw : string) (d : D)
    (Hex : forall cmd s now seed, frames sent_count
       (executor_handle D MemDsSink sessions put_sessions lookup_demo cmd s now seed))
    (Hget : forall xs, frames sent_count (@sink_get D (sim_sink remote) xs))
    (Hset : forall us, frames sent_count (@sink_set D (sim_sink remote) us)) :
  let line := strip_cr raw in
  let leaves := result (repl_line time_o remote raw) d in
  let d' := exec (repl_line time_o remote raw) d in
  let word := line = "quit" \/ line = "exit" \/ line = "q" in
  let command := exists rest, line = String "/" rest in
  (word -> leaves = true /\ d' = d) /\
  (line = "" -> leaves = false /\ d' = exec (print "> ") d) /\
  (command -> sent_count d' = sent_count d /\
     (leaves = true <-> (split_word line).1 = "/quit" \/ (split_word line).1 = "/exit")) /\
  (~ word -> line <> "" -> ~ command -> leaves = false /\
     ((sent_count d' = sent_count d /\ exists c, cout d' = c +:+ no_reply_note +:+ "> ") \/
      (sent_count d' = sent_count d + 1 /\
       exists c r, r <> "" /\ cout d' = c +:+ reply_line (from d) r +:+ "> "))%Z).
Proof.
  cbv zeta. pose proof (repl_line_cases remote raw d) as Hm. cbv zeta in Hm.
  assert (is_quit (strip_cr raw) = true <->
    strip_cr raw = "quit" \/ strip_cr raw = "exit" \/ strip_cr raw = "q") as Hq.
  { unfold is_quit. rewrite !orb_true_iff, !String.eqb_eq. tauto. }
  rewrite <- Hq. set (line := strip_cr raw) in *. clear Hq.
  set (m := repl_line time_o remote raw) in *.
  assert (forall b w, m d = (b, w) -> result m d = b /\ exec m d = w) as Hrun
    by (intros b w E; unfold result, exec; by rewrite E).
  split_and!.
  - intros Hw. rewrite Hw in Hm. by apply Hrun.
  - intros Hl. rewrite Hl in Hm. by apply Hrun.
  - intros (rest & Hl). rewrite Hl in *. cbn [is_quit String.eqb Ascii.eqb Bool.eqb orb] in Hm.
    destruct Hm as [-> ->]. rewrite slash_leaves. split.
    + pose proof (slash_sends_nothing remote (String "/" rest) Hget d) as Hs. unfold same_view in Hs.
      by case_match.
    + by rewrite orb_true_iff, !String.eqb_eq.
  - intros Hw Hne Hc. apply not_true_is_false in Hw. rewrite Hw in Hm.
    destruct line as [| c rest]; [done |]. destruct (Ascii.eqb_spec c "/") as [-> | Hcne]; [naive_solver |].
    apply Hrun in Hm as [-> ->]. split; [done |].
    destruct (say_line_answered remote (String c rest) d Hex Hget Hset) as [[E (t & Et)] | [E (t & r & Hr & Et)]];
      [left | right]; (split; [done |]).
    + exists t. unfold exec at 1. cbn. by rewrite Et, str_app_assoc.
    + exists t, r. split; [done |]. unfold exec at 1. cbn. by rewrite Et, str_app_assoc.
Qed.
End SimSpec.

(** ** A concrete simulator *)

#[local] Existing Instance plain_util.
#[local] Existing Instance plain_proto.
#[local] Instance sim_demo_ctl : SmsCtl := toy_ctl ws_tokenize.
#[local] Instance sim_demo_more : SimCtl :=
  {| store_config := fun _ => mkSmsConfig 600 5 900 []; sha256_hex := fun s => s |}.
#[local] Instance sim_demo_client : GnmiClient (SimApp nat) := fun _ _ _ _ d => (mkResponse 5 "" "", d).
Definition demo_clock : ST nat Z := fun n => (Z.of_nat n, S n).
Definition demo_sim (on : bool) : SimApp nat :=
  mkSimApp [] seed_tree [("+15551230000", mkAccount "admin" "admin" "Admin")] on 0 "+15551230000" 0 "" 0.

(** The conversation a session of the simulator shows. *)
Example sim_conversation :
  let d := exec (repl demo_clock ("", 0%Z)
    ["IOT GNMI SET /system/config/hostname router-7"; "IOT GNMI GET /system/config/hostname";
     "IOT GNMI GET /system/aaa/user[name=admin]/config/password"; "hello"; "/disable"; "IOT STATUS"; "q"; "lost"])
    (demo_sim true) in
  sent_count d = 3%Z /\ find "/system/config/hostname" (tree d) = Some "router-7".
Proof. by vm_compute. Qed.

Lemma sim_disabled_is_inert_witness :
  device (exec (repl demo_clock ("", 0%Z)
    ["IOT LOGIN admin admin"; "/allow +1"; "/from +2"; "IOT GNMI SET /a 1"]) (demo_sim false)) =
  device (demo_sim false).
Proof.
  apply (sim_disabled_is_inert demo_clock 0 _ (demo_sim false) eq_refl).
  repeat constructor; discriminate.
Defined.

Lemma sim_line_answered_witness :
  let m := repl_line demo_clock ("", 0%Z) ("IOT STATUS" +:+ chr cr) in
  let d' := exec m (demo_sim true) in
  result m (demo_sim true) = false /\
  ((sent_count d' = 0 /\ exists c, cout d' = c +:+ no_reply_note +:+ "> ") \/
   (sent_count d' = 0 + 1 /\ exists c r, r <> "" /\ cout d' = c +:+ reply_line "+15551230000" r +:+ "> "))%Z.
Proof.
  apply (sim_line_answered demo_clock ("", 0%Z) ("IOT STATUS" +:+ chr cr) (demo_sim true));
    [repeat intro; reflexivity .. | | |].
  - intros H. by vm_compute in H; destruct H as [H | [H | H]].
  - by vm_compute.
  - intros [rest H]. by vm_compute in H.
Defined.
