(* ===== verification/Echo.v ===== *)
(** * Echo: the demonstration service and its callers
    (grpc-tunnel/src/echo_service.cc, echo_call.cc, echo_client.cc, tunnel_server.cc).

    The two methods of [EchoServiceImpl], the two of [EchoCaller] over the stub
    gRPC generates (a parameter), and the two programs that use them.  What
    [IsCancelled] and [Write] answer in each round of the stream is a function of
    the round; the loop takes fuel, and [None] means it has not returned yet. *)

From S2P Require Import Prelude CString TunnelNet CommandLine.

(** ** The code *)

Record SayRequest := mkSayRequest { req_message : string; req_count : Z }.
Record SayReply := mkSayReply { res_message : string; served_by : string; seq : Z }.
Inductive StatusCode := STATUS_OK | CANCELLED | OtherStatus (n : Z).
Record GrpcStatus := mkGrpcStatus { st_code : StatusCode; st_message : string }.
Definition st_ok (s : GrpcStatus) : bool := match st_code s with STATUS_OK => true | _ => false end.

Section Service.
(** [Hostname()] *)
Context (hostname : string).

Definition echo_reply (req : SayRequest) (i : Z) : SayReply :=
  mkSayReply ("echo: " +:+ req_message req) hostname i.
Definition service_say (req : SayRequest) : GrpcStatus * SayReply :=
  (mkGrpcStatus STATUS_OK "", echo_reply req 1).

(** [req->count() == 0 ? 3 : req->count()] *)
Definition stream_count (req : SayRequest) : Z := if Z.eqb (req_count req) 0 then 3 else req_count req.

(** The loop of [SayStream] from round [k] and counter [i], a [uint32_t]:
    [env k] is what [IsCancelled] and [Write] answer then. The status, and the
    replies the writer accepted. *)
Fixpoint stream_loop (fuel : nat) (env : nat -> bool * bool) (req : SayRequest) (k : nat) (i : Z)
  : option (GrpcStatus * list SayReply) :=
  match fuel with
  | O => None
  | S f =>
      if (i <=? stream_count req)%Z then
        if (env k).1 then Some (mkGrpcStatus CANCELLED "", [])
        else if negb (env k).2 then Some (mkGrpcStatus STATUS_OK "", [])
        else
          (fun out => (out.1, echo_reply req i :: out.2)) <$>
          stream_loop f env req (S k) (u32 (i + 1))
      else Some (mkGrpcStatus STATUS_OK "", [])
  end.
Definition service_say_stream (fuel : nat) (env : nat -> bool * bool) (req : SayRequest) :=
  stream_loop fuel env req 0 1.
End Service.

Section Caller.
(** The generated stub: the status and the reply or replies read. *)
Context {W : Type} (stub_say : SayRequest -> ST W (GrpcStatus * SayReply))
        (stub_stream : SayRequest -> ST W (GrpcStatus * list SayReply)).

(** [EchoCaller::Say]: the reply text, or the error. *)
Definition caller_say (message : string) : ST W (string + string) :=
  let* out := stub_say (mkSayRequest message 0) in
  let '(st, res) := out in
  st_ret (if st_ok st then inl (res_message res +:+ "  (served by " +:+ served_by res +:+ ")")
          else inr (st_message st)).
(** [EchoCaller::SayStream]: what it logs per reply, and the error if any. *)
Definition caller_say_stream (message : string) (count : Z) : ST W (list SayReply * option string) :=
  let* out := stub_stream (mkSayRequest message count) in
  let '(st, rs) := out in
  st_ret (rs, if st_ok st then None else Some (st_message st)).

(** [main] of echo_client, past its options: the exit code. *)
Definition echo_client_run (message : string) (count : Z) (do_stream : bool) : ST W Z :=
  let* r := caller_say message in
  match r with
  | inr _ => st_ret 1%Z
  | inl _ =>
      if do_stream : bool then
        let* s := caller_say_stream message count in
        st_ret (match s.2 with Some _ => 1%Z | None => 0%Z end)
      else st_ret 0%Z
  end.

(** [n] turns of [AutoCallLoop]: the results it logs, from counter [k]. *)
Fixpoint auto_calls (turns : nat) (k : Z) : ST W (list (string + string)) :=
  match turns with
  | O => st_ret []
  | S t =>
      let k' := u64 (k + 1) in
      let* r := caller_say ("auto-" +:+ to_string k') in
      let* rs := auto_calls t k' in
      st_ret (r :: rs)
  end.
End Caller.

(** ** Lemmas *)

Section ServiceSpec.
Context (hostname : string) (env : nat -> bool * bool) (req : SayRequest).

(** The rounds the environment lets pass, of [n]. *)
Fixpoint rounds (k n : nat) : nat :=
  match n with
  | O => 0
  | S m => if (env k).1 || negb (env k).2 then 0 else S (rounds (S k) m)
  end.
(** How a loop of [n] rounds that starts in round [k] ends: cancelled in the
    round where it stopped, or well. *)
Definition stream_status (k n : nat) : GrpcStatus :=
  mkGrpcStatus (if Nat.ltb (rounds k n) n && (env (k + rounds k n)).1 then CANCELLED else STATUS_OK) "".

Lemma rounds_quiet : (forall k, env k = (false, true)) -> forall n k, rounds k n = n.
Proof. intros Hq n. induction n as [|n IH]; intros k; [done|]. cbn. by rewrite Hq, IH. Qed.

(** [n] rounds to go, none of them the wrap. *)
Lemma stream_loop_spec n : forall fuel k, n < fuel -> (Z.of_nat (k + n) = stream_count req)%Z ->
  (stream_count req < 2 ^ 32 - 1)%Z ->
  stream_loop hostname fuel env req k (Z.of_nat (S k)) =
    Some (stream_status k n, echo_reply hostname req ∘ Z.of_nat <$> List.seq (S k) (rounds k n)).
Proof.
  unfold stream_status.
  induction n as [|n IH]; intros [|fuel] k Hf Hn Hc; try lia; cbn [stream_loop rounds].
  - destruct (Z.leb_spec (Z.of_nat (S k)) (stream_count req)); [lia|done].
  - destruct (Z.leb_spec (Z.of_nat (S k)) (stream_count req)); [|lia].
    destruct (env k) as [[|] w] eqn:He; cbn [fst snd orb].
    + by rewrite Nat.add_0_r, He.
    + destruct w; cbn [negb].
      * replace (u32 (Z.of_nat (S k) + 1)) with (Z.of_nat (S (S k)))
          by (unfold u32; rewrite Z.mod_small; lia).
        rewrite IH by lia. cbn [fmap option_fmap option_map fst snd]. repeat f_equal.
        by rewrite Nat.add_succ_r.
      * by rewrite Nat.add_0_r, He.
Qed.

(** The bound [2^32 - 1] is met by every counter. *)
Lemma stream_loop_wraps : stream_count req = (2 ^ 32 - 1)%Z -> (forall k, env k = (false, true)) ->
  forall fuel k i, (0 <= i < 2 ^ 32)%Z -> stream_loop hostname fuel env req k i = None.
Proof.
  intros Hc Hq fuel. induction fuel as [|f IH]; intros k i Hi; [done|]. cbn [stream_loop].
  destruct (Z.leb_spec i (stream_count req)); [|lia]. rewrite Hq. cbn.
  rewrite IH; [done|]. unfold u32. apply Z.mod_pos_bound. lia.
Qed.
End ServiceSpec.

(** C34: [SayStream] answers [count] replies (3 for a count of 0), numbered from 1
    in order, or as many as the caller waited for - with [CANCELLED] if it
    was [IsCancelled] that ended it, whatever its environment - and it returns,
    for every count but [2^32 - 1]: for that one, with a caller that keeps
    reading, the [uint32_t] counter never exceeds it and the loop never ends. *)
Theorem say_stream_counts hostname env req : (0 <= req_count req < 2 ^ 32)%Z ->
  (stream_count req < 2 ^ 32 - 1 -> forall fuel, (stream_count req < Z.of_nat fuel) ->
     let n := Z.to_nat (stream_count req) in
     service_say_stream hostname fuel env req =
       Some (stream_status env 0 n,
             echo_reply hostname req ∘ Z.of_nat <$> List.seq 1 (rounds env 0 n)))%Z /\
  ((forall k, env k = (false, true)) ->
     (rounds env 0 (Z.to_nat (stream_count req)) = Z.to_nat (stream_count req)) /\
     (stream_count req = (2 ^ 32 - 1)%Z -> forall fuel, service_say_stream hostname fuel env req = None)).
Proof.
  intros Hr. assert (0 <= stream_count req)%Z as Hpos
    by (unfold stream_count; destruct (Z.eqb (req_count req) 0); lia).
  split.
  - intros Hc fuel Hf n. apply (stream_loop_spec hostname env req n fuel 0); unfold n; [lia|lia|done].
  - intros Hq. split; [by apply rounds_quiet|]. intros Hc fuel.
    by apply stream_loop_wraps.
Qed.

Lemma say_stream_counts_witness :
  service_say_stream "h" 5 (fun k => (Nat.eqb k 2, true)) (mkSayRequest "m" 0) =
    Some (mkGrpcStatus CANCELLED "", [mkSayReply "echo: m" "h" 1; mkSayReply "echo: m" "h" 2]) /\
  forall fuel, service_say_stream "h" fuel (fun _ => (false, true)) (mkSayRequest "m" 4294967295) = None.
Proof.
  split.
  - destruct (say_stream_counts "h" (fun k => (Nat.eqb k 2, true)) (mkSayRequest "m" 0)) as [E _];
      [cbn; lia|]. rewrite E by (cbn; lia). reflexivity.
  - destruct (say_stream_counts "h" (fun _ => (false, true)) (mkSayRequest "m" 4294967295)) as [_ E];
      [cbn; lia|]. apply E; reflexivity.
Defined.

(** [--count=-1] asks for that count. *)
Example echo_count_minus_one : (echo_client_args ["--count=-1"; "--stream"]) =
  ("127.0.0.1:50052", "hello", 2 ^ 32 - 1, true)%Z.
Proof. reflexivity. Qed.
