(* ===== verification/TunnelSession.v ===== *)
(** * TunnelSession: one tunnel session on the server side
    (grpc-tunnel/src/session.h, session.cc, tunnel_server.cc).

    The first part is the [Session] class and the [Registry], one function per
    method, cut where a method releases its mutex: a [Conn] is shared by the
    stream table and its pump, so it lives in a heap and is named by a handle.
    The second part is the three kinds of threads that share a session (the RPC
    handler, the forwarder and one pump per stream) as a step relation that
    interleaves their critical sections; what the sockets and the gRPC stream
    answer is chosen by the step. *)

From S2P Require Import Prelude CString TunnelNet.

(** ** Data *)

Inductive FrameType :=
| UNKNOWN | REGISTER | REGISTER_ACK | OPEN | DATA | CLOSE | KEEPALIVE.

#[export] Instance FrameType_eq_dec : EqDecision FrameType.
Proof. solve_decision. Defined.

Record Frame := mkFrame {
  stream_id : Z; ftype : FrameType; fdata : string; ftarget : string; ferror : string }.

Record Conn := mkConn { fd : Z; closed : bool }.

(** The members of [Session], with the heap its [ConnPtr]s point into and the
    frames handed to [write_] so far. *)
Record Session := mkSession {
  alive : bool;
  conns : gmap Z nat;
  next_id : Z;
  heap : list Conn;
  written : list Frame
}.
Definition Session_init : Session := mkSession true ∅ 1 [] [].

(** ** Session, method by method *)

(** [Send]: [wok] is what [write_] returns. *)
Definition Send (wok : bool) (f : Frame) (s : Session) : bool * Session :=
  if negb (alive s) then (false, s)
  else (wok, mkSession (alive s) (conns s) (next_id s) (heap s) (written s ++ [f])).

Definition data_frame (i : Z) (buf : string) : Frame := mkFrame i DATA buf "" "".
Definition close_frame (i : Z) (err : string) : Frame := mkFrame i CLOSE "" "" err.
Definition open_frame (i : Z) (t : string) : Frame := mkFrame i OPEN "" t "".
Definition ack_frame (t : string) : Frame := mkFrame 0 REGISTER_ACK "" t "".

Definition Shutdown (s : Session) : Session :=
  mkSession false (conns s) (next_id s) (heap s) (written s).

Definition NextStreamId (s : Session) : Z * Session :=
  (next_id s, mkSession (alive s) (conns s) (u64 (next_id s + 1)) (heap s) (written s)).

Definition AddConn (i : Z) (f : Z) (s : Session) : nat * Session :=
  let h := length (heap s) in
  (h, mkSession (alive s) (<[i := h]> (conns s)) (next_id s) (heap s ++ [mkConn f false])
                (written s)).
Definition GetConn (i : Z) (s : Session) : option nat := conns s !! i.

(** [conns_.erase(id)] under the mutex. *)
Definition EraseConn (i : Z) (s : Session) : Session :=
  mkSession (alive s) (delete i (conns s)) (next_id s) (heap s) (written s).
(** [conn->closed.store(true); ::shutdown(conn->fd, ...)], outside the mutex. *)
Definition MarkClosed (h : nat) (s : Session) : Session :=
  mkSession (alive s) (conns s) (next_id s)
            (alter (fun c => mkConn (fd c) true) h (heap s)) (written s).
(** [conn->closed.exchange(true)] *)
Definition ExchangeClosed (h : nat) (s : Session) : bool * Session :=
  (match heap s !! h with Some c => closed c | None => true end, MarkClosed h s).
(** [taken.swap(conns_)] of [CloseAll]. *)
Definition TakeConns (s : Session) : list nat * Session :=
  ((map_to_list (conns s)).*2, mkSession (alive s) ∅ (next_id s) (heap s) (written s)).

Definition OpenStreams (s : Session) : nat := base.size (conns s).

(** ** Registry; a session pointer is a number *)

Definition Registry : Type := gmap string nat.
Definition reg_add (t : string) (p : nat) (r : Registry) : Registry := <[t := p]> r.
Definition reg_remove (t : string) (p : nat) (r : Registry) : Registry :=
  if decide (r !! t = Some p) then delete t r else r.
Definition reg_get (t : string) (r : Registry) : option nat := r !! t.
(** [WaitFor]: the registry as each wake-up finds it; [None] while it waits. *)
Fixpoint reg_wait (t : string) (rs : list Registry) : option nat :=
  match rs with
  | [] => None
  | r :: rest => match r !! t with Some p => Some p | None => reg_wait t rest end
  end.

(** ** The threads *)

(** What the RPC handler has still to do for the frame it read, one entry per
    critical section. *)
Inductive HAct :=
| ARemove (t : string)              (* registry_->Remove(t, sess) *)
| ABind (t : string)                (* target = t; registry_->Add(target, sess) *)
| AAck                              (* sess->Send(ack) *)
| AGet (i : Z) (d : string)         (* sess->GetConn(i) *)
| AWrite (h : nat) (i : Z) (d : string)  (* WriteAll(conn->fd, d) *)
| AErase (i : Z)                    (* sess->CloseConn(i), the locked part *)
| AMark (h : nat)                   (* the rest of it *)
| ASendClose (i : Z) (err : string)
| AShutdown
| ATakeAll.                         (* sess->CloseAll(), the locked part *)

(** The switch of [Register] on a frame, given the variable [target]. *)
Definition on_frame (cur : string) (f : Frame) : list HAct :=
  match ftype f with
  | REGISTER =>
      (if negb (String.eqb cur "") && negb (String.eqb cur (ftarget f)) then [ARemove cur] else [])
      ++ [ABind (ftarget f); AAck]
  | DATA => [AGet (stream_id f) (fdata f)]
  | CLOSE => [AErase (stream_id f)]
  | _ => []
  end.
(** After the loop. *)
Definition teardown (cur : string) : list HAct := [ARemove cur; AShutdown; ATakeAll].

(** [ForwarderLoop], and [Pump] with the bytes [recv] has given it. *)
Inductive FPc :=
| FAccept | FGet (f : Z) | FNext (f : Z) | FAdd (f : Z) (i : Z) | FSend (i : Z) (h : nat)
| FErase (i : Z) | FMark (h : nat) | FSpawn (i : Z) (h : nat).
Inductive PPc :=
| PRecv | PSend (d : string) | PExchange | PErase (ours : bool) | PClose | PDone.
Record Pump := mkPump { p_id : Z; p_conn : nat; p_pc : PPc; p_heard : string }.

(** [Pump], one step for each thing it does to the session. *)
Inductive pump_step (s : Session) (p : Pump) : Session -> Pump -> Prop :=
| p_recv d :                       (* n > 0 *)
    p_pc p = PRecv -> d <> "" ->
    pump_step s p s (mkPump (p_id p) (p_conn p) (PSend d) (p_heard p +:+ d))
| p_recv_end :                     (* end of file, an error, or the socket was shut down *)
    p_pc p = PRecv ->
    pump_step s p s (mkPump (p_id p) (p_conn p) PExchange (p_heard p))
| p_send d wok :
    p_pc p = PSend d ->
    pump_step s p (Send wok (data_frame (p_id p) d) s).2
      (mkPump (p_id p) (p_conn p)
         (if (Send wok (data_frame (p_id p) d) s).1 then PRecv else PExchange) (p_heard p))
| p_exchange :
    p_pc p = PExchange ->
    pump_step s p (ExchangeClosed (p_conn p) s).2
      (mkPump (p_id p) (p_conn p) (PErase (negb (ExchangeClosed (p_conn p) s).1)) (p_heard p))
| p_erase ours :
    p_pc p = PErase ours ->
    pump_step s p (EraseConn (p_id p) s)
      (mkPump (p_id p) (p_conn p) (if ours : bool then PClose else PDone) (p_heard p))
| p_close wok :
    p_pc p = PClose ->
    pump_step s p (Send wok (close_frame (p_id p) "") s).2
      (mkPump (p_id p) (p_conn p) PDone (p_heard p)).

Record Server := mkServer {
  sess : Session;
  reg : Registry;
  cur : string;             (* the handler's [target] *)
  todo : list HAct;
  ending : bool;            (* Read() has returned false *)
  fpc : FPc;
  pumps : list Pump;
  allocated : nat;          (* stream ids given out so far *)
  socks : list (Z * string);  (* per connection: its stream, and what its socket has taken *)
  frames_in : list Frame    (* what Read() has given the handler *)
}.

Definition with_todo (l : list HAct) (v : Server) : Server :=
  mkServer (sess v) (reg v) (cur v) l (ending v) (fpc v) (pumps v) (allocated v)
           (socks v) (frames_in v).
Definition with_sess (s : Session) (v : Server) : Server :=
  mkServer s (reg v) (cur v) (todo v) (ending v) (fpc v) (pumps v) (allocated v)
           (socks v) (frames_in v).
Definition with_fpc (p : FPc) (v : Server) : Server :=
  mkServer (sess v) (reg v) (cur v) (todo v) (ending v) p (pumps v) (allocated v)
           (socks v) (frames_in v).
Definition with_pump (k : nat) (p : Pump) (v : Server) : Server :=
  mkServer (sess v) (reg v) (cur v) (todo v) (ending v) (fpc v) (<[k := p]> (pumps v)) (allocated v)
           (socks v) (frames_in v).
Definition with_socks (l : list (Z * string)) (v : Server) : Server :=
  mkServer (sess v) (reg v) (cur v) (todo v) (ending v) (fpc v) (pumps v) (allocated v) l (frames_in v).
Definition with_read (f : Frame) (v : Server) : Server :=
  mkServer (sess v) (reg v) (cur v) (todo v) (ending v) (fpc v) (pumps v) (allocated v) (socks v)
           (frames_in v ++ [f]).

(** The handler's next critical section: the server after it and what it adds
    to do. [wok] is what [write_] returns, [outcomes] what the socket answers. *)
Definition act_run (me : nat) (wok : bool) (outcomes : list SendResult) (a : HAct) (v : Server)
  : Server * list HAct :=
  let upd s := mkServer s (reg v) (cur v) (todo v) (ending v) (fpc v) (pumps v) (allocated v)
                        (socks v) (frames_in v) in
  match a with
  | ARemove t =>
      (mkServer (sess v) (reg_remove t me (reg v)) (cur v) (todo v) (ending v) (fpc v) (pumps v)
                (allocated v) (socks v) (frames_in v), [])
  | ABind t =>
      (mkServer (sess v) (reg_add t me (reg v)) t (todo v) (ending v) (fpc v) (pumps v)
                (allocated v) (socks v) (frames_in v), [])
  | AAck => (upd (Send wok (ack_frame (cur v)) (sess v)).2, [])
  | AGet i d =>
      (v, match GetConn i (sess v) with None => [ASendClose i ""] | Some h => [AWrite h i d] end)
  | AWrite h i d =>
      let w := WriteAll outcomes d in
      (with_socks (alter (fun x => (x.1, x.2 +:+ w.1)) h (socks v)) v,
       match w.2 with
       | Some true => []
       | Some false => [AErase i; ASendClose i "local write failed"]
       | None => [AWrite h i (str_drop (String.length w.1) d)]   (* still inside it *)
       end)
  | AErase i =>
      (upd (EraseConn i (sess v)),
       match GetConn i (sess v) with Some h => [AMark h] | None => [] end)
  | AMark h => (upd (MarkClosed h (sess v)), [])
  | ASendClose i err => (upd (Send wok (close_frame i err) (sess v)).2, [])
  | AShutdown => (upd (Shutdown (sess v)), [])
  | ATakeAll => let '(hs, s) := TakeConns (sess v) in (upd s, AMark <$> hs)
  end.

(** [Register]: the next frame, the end of the stream, or the next critical
    section of the work in hand. *)
Inductive handler_step (me : nat) : Server -> Server -> Prop :=
| h_read v f :
    todo v = [] -> ending v = false ->
    handler_step me v (with_todo (on_frame (cur v) f) (with_read f v))
| h_eof v :
    todo v = [] -> ending v = false ->
    handler_step me v (mkServer (sess v) (reg v) (cur v) (teardown (cur v)) true (fpc v) (pumps v)
                                (allocated v) (socks v) (frames_in v))
| h_act v a rest wok outcomes v' more :
    todo v = a :: rest -> act_run me wok outcomes a v = (v', more) ->
    handler_step me v (with_todo (more ++ rest) v').

(** [ForwarderLoop] once it has a session, up to its next [accept]. *)
Inductive forward_step (ftgt : string) : Server -> Server -> Prop :=
| f_next v f :
    fpc v = FNext f ->
    forward_step ftgt v
      (mkServer (NextStreamId (sess v)).2 (reg v) (cur v) (todo v) (ending v)
                (FAdd f (NextStreamId (sess v)).1) (pumps v) (S (allocated v))
                (socks v) (frames_in v))
| f_add v f i :
    fpc v = FAdd f i ->
    forward_step ftgt v (with_fpc (FSend i (AddConn i f (sess v)).1)
        (with_socks (socks v ++ [(i, "")]) (with_sess (AddConn i f (sess v)).2 v)))
| f_send v i h wok :
    fpc v = FSend i h ->
    forward_step ftgt v
      (with_fpc (if (Send wok (open_frame i ftgt) (sess v)).1 then FSpawn i h else FErase i)
                (with_sess (Send wok (open_frame i ftgt) (sess v)).2 v))
| f_erase v i :
    fpc v = FErase i ->
    forward_step ftgt v
      (with_fpc (match GetConn i (sess v) with Some h => FMark h | None => FAccept end)
                (with_sess (EraseConn i (sess v)) v))
| f_mark v h :
    fpc v = FMark h -> forward_step ftgt v (with_fpc FAccept (with_sess (MarkClosed h (sess v)) v))
| f_spawn v i h :
    fpc v = FSpawn i h ->
    forward_step ftgt v
      (mkServer (sess v) (reg v) (cur v) (todo v) (ending v) FAccept
                (pumps v ++ [mkPump i h PRecv ""]) (allocated v) (socks v) (frames_in v)).

(** The forwarder serves [target]; [me] is this session. *)
Inductive tstep (me : nat) (ftgt : string) : Server -> Server -> Prop :=
(* other sessions' handlers *)
| t_registry v r :
    (forall t, r !! t = Some me -> reg v !! t = Some me) ->
    tstep me ftgt v
      (mkServer (sess v) r (cur v) (todo v) (ending v) (fpc v) (pumps v) (allocated v)
                (socks v) (frames_in v))
| t_handler v v' :
    handler_step me v v' -> tstep me ftgt v v'
(* the forwarder *)
| t_accept v f :
    fpc v = FAccept -> tstep me ftgt v (with_fpc (FGet f) v)
| t_get v f :
    fpc v = FGet f ->
    tstep me ftgt v
      (with_fpc (if decide (reg_get ftgt (reg v) = Some me) then FNext f else FAccept) v)
| t_forward v v' :
    forward_step ftgt v v' -> tstep me ftgt v v'
(* a pump *)
| t_pump v k p s' p' :
    pumps v !! k = Some p -> pump_step (sess v) p s' p' ->
    tstep me ftgt v (with_pump k p' (with_sess s' v)).

(** The handler has just been called; the forwarder may be anywhere before it
    first sees this session. *)
Definition tunnel_start (r : Registry) (me : nat) (v : Server) : Prop :=
  v = mkServer Session_init r "" [] false FAccept [] 0 [] [] /\ forall t, r !! t <> Some me.
Definition tunnel_reach (me : nat) (ftgt : string) (v : Server) : Prop :=
  exists r v0, tunnel_start r me v0 /\ rtc (tstep me ftgt) v0 v.
