(* ===== verification/TunnelProofs.v ===== *)
(** * TunnelProofs: what every interleaving of a tunnel session keeps

    Invariants of [tunnel_reach], each proved by induction on the run, and the
    properties they give: the barrier [Shutdown] puts before the stream, the
    registry after a handler has returned, the stream identifiers, the bytes a
    pump forwards, and the connections at rest. *)

From S2P Require Import Prelude CString TunnelNet TunnelSession.

(** The RPC handler of the session has returned. *)
Definition returned (v : Server) : Prop := ending v = true /\ todo v = [].
(** Nobody works on the session: the handler has no frame in hand, the forwarder
    waits for a connection, and every pump has ended. *)
Definition at_rest (v : Server) : Prop :=
  todo v = [] /\ fpc v = FAccept /\ Forall (fun p => p_pc p = PDone) (pumps v).

(** ** Sending *)

Lemma Send_fields wok f s :
  alive (Send wok f s).2 = alive s /\ conns (Send wok f s).2 = conns s
  /\ next_id (Send wok f s).2 = next_id s /\ heap (Send wok f s).2 = heap s.
Proof. unfold Send. by destruct (alive s) eqn:E. Qed.

Lemma Send_written wok f s :
  written (Send wok f s).2 = if alive s then written s ++ [f] else written s.
Proof. unfold Send. by destruct (alive s). Qed.

Lemma Send_alive wok f s : alive (Send wok f s).2 = alive s.
Proof. apply Send_fields. Qed.
Lemma Send_conns wok f s : conns (Send wok f s).2 = conns s.
Proof. apply Send_fields. Qed.
Lemma Send_next_id wok f s : next_id (Send wok f s).2 = next_id s.
Proof. apply Send_fields. Qed.
Lemma Send_heap wok f s : heap (Send wok f s).2 = heap s.
Proof. apply Send_fields. Qed.

Create HintDb tunnel.
#[export] Hint Rewrite Send_alive Send_conns Send_next_id Send_heap : tunnel.

(** One goal per step of the code: the handler's step is split by its action. *)
Ltac tunnel_cases H :=
  destruct H as [v r Hr | ? ? [v f Htodo Hend | v Htodo Hend | v a rest wok outcomes v1 more Htodo Hrun]
    | v f Hf | v f Hf | ? ? [v f Hf | v f i Hf | v i h wok Hf | v i Hf | v h Hf | v i h Hf]
    | v k p s' p' Hk [d Hpc Hd | Hpc | d wok Hpc | Hpc | ours Hpc | wok Hpc]];
  try (destruct a; cbn in Hrun; injection Hrun as <- <-).

Section Reach.
Context {me : nat} {ftgt : string}.

Lemma reach_ind (P : Server -> Prop) :
  (forall r v0, tunnel_start r me v0 -> P v0) ->
  (forall v v', tunnel_reach me ftgt v -> P v -> tstep me ftgt v v' -> P v') ->
  forall v, tunnel_reach me ftgt v -> P v.
Proof.
  intros Hi Hs v (r & v0 & H0 & Hrun).
  assert (forall w, rtc (tstep me ftgt) v0 w -> P w) as Hall; [| by apply Hall].
  refine (rtc_ind_r (fun w => P w) v0 _ _); [by eapply Hi |].
  intros w1 w2 Hw Hstep IH. eapply Hs; [| exact IH | exact Hstep]. by exists r, v0.
Qed.

Lemma reach_rtc v v' :
  tunnel_reach me ftgt v -> rtc (tstep me ftgt) v v' -> tunnel_reach me ftgt v'.
Proof. intros (r & v0 & H0 & H1) H2. exists r, v0. split; [done | by etrans]. Qed.

(** *** Once dead, the stream is not touched *)

Lemma dead_step v v' :
  tstep me ftgt v v' -> alive (sess v) = false ->
  alive (sess v') = false /\ written (sess v') = written (sess v).
Proof.
  intros Hs. tunnel_cases Hs; intros Hd0; cbn; autorewrite with tunnel; rewrite ?Send_written, ?Hd0; try done.
Qed.

Lemma dead_run v v' :
  rtc (tstep me ftgt) v v' -> alive (sess v) = false ->
  alive (sess v') = false /\ written (sess v') = written (sess v).
Proof.
  induction 1 as [| x y z Hs _ IH]; intros Hd; [done |].
  destruct (dead_step _ _ Hs Hd) as [Ha Hw]. destruct (IH Ha) as [Ha' Hw'].
  split; [done | by rewrite Hw', Hw].
Qed.

End Reach.

(** ** The handler's phases and the registry *)

(** An action that neither binds a name nor belongs to the teardown. *)
Definition plain (a : HAct) : Prop :=
  match a with ARemove _ | ABind _ | AShutdown | ATakeAll => False | _ => True end.
(** What is left of [CloseAll]. *)
Definition closing (a : HAct) : Prop :=
  match a with ATakeAll | AMark _ => True | _ => False end.
(** The names under which the registry holds this session. *)
Definition only (me : nat) (names : list string) (r : Registry) : Prop :=
  forall t, r !! t = Some me -> t ∈ names.

(** Where the handler is: reading, between two bindings, or unwinding. *)
Inductive phase (me : nat) (v : Server) : Prop :=
| ph_serving : ending v = false -> Forall plain (todo v) -> only me [""; cur v] (reg v) -> phase me v
| ph_replace t : ending v = false -> todo v = [ARemove (cur v); ABind t; AAck] ->
    only me [""; cur v] (reg v) -> phase me v
| ph_bind t : ending v = false -> todo v = [ABind t; AAck] -> only me [""; t] (reg v) -> phase me v
| ph_unbind : ending v = true -> todo v = teardown (cur v) -> only me [""; cur v] (reg v) -> phase me v
| ph_barrier : ending v = true -> todo v = [AShutdown; ATakeAll] -> only me [""] (reg v) -> phase me v
| ph_closing : ending v = true -> alive (sess v) = false -> Forall closing (todo v) ->
    only me [""] (reg v) -> phase me v.

Lemma only_weaken me l l' r : only me l r -> l ⊆ l' -> only me l' r.
Proof. intros Ho Hs t Ht. by apply Hs, Ho. Qed.

Lemma only_remove me x t r : only me [x; t] r -> only me [x] (reg_remove t me r).
Proof.
  unfold reg_remove. intros Ho u Hu. case_decide as Hd.
  - apply lookup_delete_Some in Hu as [Hn Hu]. specialize (Ho _ Hu). set_solver.
  - specialize (Ho _ Hu). assert (u <> t) by congruence. set_solver.
Qed.

Lemma only_add me x t r : only me [x; t] r -> only me [x; t] (reg_add t me r).
Proof.
  unfold reg_add. intros Ho u Hu. destruct (decide (u = t)) as [-> | Hn]; [set_solver |].
  apply lookup_insert_Some in Hu as [[-> _] | [_ Hu]]; [done |]. by apply Ho.
Qed.

Lemma only_subreg me l r r' : (forall t, r' !! t = Some me -> r !! t = Some me) -> only me l r -> only me l r'.
Proof. intros Hs Ho t Ht. by apply Ho, Hs. Qed.

Lemma on_frame_phase me v f :
  todo v = [] -> ending v = false -> only me [""; cur v] (reg v) ->
  phase me (with_todo (on_frame (cur v) f) (with_read f v)).
Proof.
  intros Ht He Ho. unfold on_frame. destruct (ftype f); try (apply ph_serving; cbn; [done | by repeat constructor | done]).
  destruct (String.eqb_spec (cur v) "") as [Ec | Nc]; cbn [negb andb app].
  - eapply ph_bind; [done | done |]. eapply only_weaken; [done |]. rewrite Ec. set_solver.
  - destruct (String.eqb_spec (cur v) (ftarget f)) as [Ef | Nf]; cbn [negb andb app].
    + eapply ph_bind; [done | done |]. cbn. by rewrite <- Ef.
    + by eapply ph_replace.
Qed.

Section Phase.
Context {me : nat} {ftgt : string}.

(** Only the todo list, the session's liveness, the registry, [ending] and [cur]
    matter. *)
Lemma phase_ext v w :
  phase me v -> ending w = ending v -> todo w = todo v -> cur w = cur v -> reg w = reg v ->
  alive (sess w) = alive (sess v) -> phase me w.
Proof.
  intros Hp E1 E2 E3 E4 E5.
  destruct Hp;
    [apply ph_serving | eapply ph_replace | eapply ph_bind | apply ph_unbind | apply ph_barrier
     | apply ph_closing]; rewrite ?E1, ?E2, ?E3, ?E4, ?E5; eassumption.
Qed.

Lemma phase_act v a rest wok outcomes v' more :
  phase me v -> todo v = a :: rest -> act_run me wok outcomes a v = (v', more) ->
  phase me (with_todo (more ++ rest) v').
Proof.
  intros Hp Ht Hr.
  destruct Hp as [He Hf Ho | t He Hf Ho | t He Hf Ho | He Hf Ho | He Hf Ho | He Ha Hf Ho];
    rewrite Ht in Hf.
  - apply Forall_cons in Hf as [Hpl Hf].
    destruct a; try done; cbn in Hr; injection Hr as <- <-; apply ph_serving; cbn;
      rewrite ?Forall_app; repeat split; try done;
      repeat case_match; repeat constructor; done.
  - injection Hf as -> ->. cbn in Hr. injection Hr as <- <-.
    apply (ph_bind _ _ t); [done | done |]. cbn.
    eapply only_weaken; [by apply only_remove |]. set_solver.
  - injection Hf as -> ->. cbn in Hr. injection Hr as <- <-.
    apply ph_serving; [done | repeat constructor |]. cbn. by apply only_add.
  - injection Hf as -> ->. cbn in Hr. injection Hr as <- <-.
    apply ph_barrier; [done | done |]. cbn. by apply only_remove.
  - injection Hf as -> ->. cbn in Hr. injection Hr as <- <-.
    apply ph_closing; [done | done | repeat constructor | done].
  - apply Forall_cons in Hf as [Hpl Hf].
    destruct a; try done; cbn in Hr; injection Hr as <- <-; apply ph_closing; cbn;
      rewrite ?Forall_app; repeat split; try done.
    apply Forall_fmap, Forall_true. done.
Qed.

Lemma phase_step v v' : phase me v -> tstep me ftgt v v' -> phase me v'.
Proof.
  intros Hp Hs. destruct Hs as [| ? ? [] | | | ? ? [] | ? ? ? ? ? ? []];
    try (eapply phase_ext; [exact Hp | ..]; cbn; rewrite ?Send_alive; done).
  - destruct Hp;
      [apply ph_serving | eapply ph_replace | eapply ph_bind | apply ph_unbind | apply ph_barrier
       | apply ph_closing]; cbn; eauto using only_subreg.
  - destruct Hp; try congruence; by apply on_frame_phase.
  - destruct Hp; try congruence. by apply ph_unbind.
  - by eapply phase_act.
Qed.

Lemma reach_phase v : tunnel_reach me ftgt v -> phase me v.
Proof.
  apply reach_ind.
  - intros r v0 [-> Hr]. apply ph_serving; cbn; [done | constructor | intros t Ht; by destruct (Hr t)].
  - intros w w' _. apply phase_step.
Qed.

(** When the handler has returned. *)
Lemma finished_phase v :
  phase me v -> ending v = true -> todo v = [] -> alive (sess v) = false /\ only me [""] (reg v).
Proof. intros Hp He Ht. destruct Hp; try congruence; try done. unfold teardown in *. congruence. Qed.

Lemma finished_run v v' :
  rtc (tstep me ftgt) v v' -> ending v = true -> todo v = [] -> ending v' = true /\ todo v' = [].
Proof.
  induction 1 as [| x y z Hs _ IH]; intros He Ht; [done |].
  apply IH; destruct Hs as [| ? ? [] | | | ? ? [] |]; cbn; congruence.
Qed.

(** The barrier: once the RPC handler has returned from its teardown, nothing
    any forwarder or pump does afterwards, in any order, hands another frame to
    the gRPC stream, which is dead from then on. *)
Theorem shutdown_is_a_barrier v v' :
  tunnel_reach me ftgt v -> returned v -> rtc (tstep me ftgt) v v' ->
  written (sess v') = written (sess v).
Proof.
  intros Hr [He Ht] Hrun. destruct (finished_phase _ (reach_phase _ Hr) He Ht) as [Ha _].
  by apply (dead_run _ _ Hrun).
Qed.

(** The registry after the handler: once it has returned, the registry never
    again gives this session for a target other than the empty one, whatever
    names it was registered under and whatever the other handlers did. *)
Theorem registry_forgets_session v v' t :
  tunnel_reach me ftgt v -> returned v -> rtc (tstep me ftgt) v v' ->
  t <> "" -> reg_get t (reg v') <> Some me.
Proof.
  intros Hr [He Ht] Hrun Hn Hg.
  destruct (finished_run _ _ Hrun He Ht) as [He' Ht'].
  destruct (finished_phase v') as [_ Ho]; [by eapply reach_phase, reach_rtc | done | done |].
  specialize (Ho _ Hg). set_solver.
Qed.

End Phase.

(** ** Stream identifiers *)

(** The identifier the forwarder is working with, if it has one. *)
Definition in_hand (p : FPc) : list Z :=
  match p with FAdd _ i | FSend i _ | FErase i | FSpawn i _ => [i] | _ => [] end.
(** The identifiers announced to the peer. *)
Definition opened (fs : list Frame) : list Z :=
  omap (fun f => if decide (ftype f = OPEN) then Some (stream_id f) else None) fs.
(** The forwarder holds an identifier it has not announced. *)
Definition unannounced (p : FPc) : list Z := match p with FAdd _ i | FSend i _ => [i] | _ => [] end.

Record ids_ok (v : Server) : Prop := {
  ids_next : next_id (sess v) = u64 (1 + Z.of_nat (allocated v));
  ids_pumps : NoDup ((p_id <$> pumps v) ++ in_hand (fpc v));
  ids_opened : NoDup (opened (written (sess v)) ++ unannounced (fpc v));
  ids_bound : Forall (fun i => 1 <= i <= Z.of_nat (allocated v))%Z
                ((p_id <$> pumps v) ++ in_hand (fpc v) ++ opened (written (sess v)))
}.

Lemma opened_app a b : opened (a ++ b) = opened a ++ opened b.
Proof. apply omap_app. Qed.

Lemma opened_open i t : opened [open_frame i t] = [i].
Proof. done. Qed.

Arguments opened : simpl never.

Lemma p_id_insert (k : nat) p q (ps : list Pump) :
  ps !! k = Some p -> p_id q = p_id p -> p_id <$> <[k := q]> ps = p_id <$> ps.
Proof. intros Hk E. rewrite list_fmap_insert, E. apply list_insert_id. by rewrite list_lookup_fmap, Hk. Qed.

(** Every step but the forwarder's keeps the pumps' identifiers, the ones
    announced, the forwarder's and the counter. *)
Lemma opened_Send wok f s :
  ftype f <> OPEN -> opened (written (Send wok f s).2) = opened (written s).
Proof.
  intros Hf. rewrite Send_written. destruct (alive s); [| done].
  rewrite opened_app. unfold opened at 2. cbn. rewrite decide_False by done. apply app_nil_r.
Qed.

Lemma NoDup_app_fresh (l : list Z) n :
  NoDup l -> Forall (fun i => 1 <= i <= n)%Z l -> NoDup (l ++ [n + 1])%Z.
Proof.
  intros Hn Hf. apply NoDup_app. split; [done |]. split; [| apply NoDup_singleton].
  intros x Hx Hx'. rewrite Forall_forall in Hf. specialize (Hf _ Hx).
  apply list_elem_of_singleton in Hx'. lia.
Qed.

Lemma ids_ext v w :
  ids_ok v -> next_id (sess w) = next_id (sess v) -> allocated w = allocated v ->
  p_id <$> pumps w = p_id <$> pumps v -> in_hand (fpc w) = in_hand (fpc v) ->
  unannounced (fpc w) = unannounced (fpc v) ->
  opened (written (sess w)) = opened (written (sess v)) -> ids_ok w.
Proof.
  intros [H1 H2 H3 H4] E1 E2 E3 E4 E5 E6.
  split; rewrite ?E1, ?E2, ?E3, ?E4, ?E5, ?E6; done.
Qed.

Lemma act_run_ids me wok outcomes a v v' more :
  act_run me wok outcomes a v = (v', more) ->
  next_id (sess v') = next_id (sess v) /\ allocated v' = allocated v /\ pumps v' = pumps v
  /\ fpc v' = fpc v /\ opened (written (sess v')) = opened (written (sess v)).
Proof.
  destruct a; cbn; intros Hr; injection Hr as <- <-; cbn; rewrite ?Send_next_id, ?opened_Send; done.
Qed.

Section Ids.
Context {me : nat} {ftgt : string}.

Lemma allocated_step v v' : tstep me ftgt v v' -> (allocated v <= allocated v')%nat.
Proof.
  intros Hs. destruct Hs as [| ? ? [| | ? ? ? ? ? ? ? ? Hr] | | | ? ? [| | | | |] |]; cbn; try lia.
  destruct (act_run_ids _ _ _ _ _ _ _ Hr) as (_ & -> & _). lia.
Qed.

Lemma ids_next_step v f :
  ids_ok v -> fpc v = FNext f -> (Z.of_nat (S (allocated v)) < 2 ^ 64)%Z ->
  ids_ok (mkServer (NextStreamId (sess v)).2 (reg v) (cur v) (todo v) (ending v)
            (FAdd f (NextStreamId (sess v)).1) (pumps v) (S (allocated v)) (socks v) (frames_in v)).
Proof.
  intros [H1 H2 H3 H4] Hf Hlt. rewrite Hf in *. cbn in *. rewrite app_nil_r in *.
  assert (next_id (sess v) = Z.of_nat (allocated v) + 1)%Z as En.
  { rewrite H1. unfold u64. rewrite Z.mod_small; lia. }
  rewrite Forall_app in H4. destruct H4 as [Hp Ho].
  split; cbn; rewrite ?En.
  - f_equal. lia.
  - by apply NoDup_app_fresh.
  - by apply NoDup_app_fresh.
  - apply Forall_app. split; [| constructor; [lia |]]; (eapply Forall_impl; [eassumption |]);
      cbn; intros; lia.
Qed.

Lemma ids_send_step v i h wok :
  ids_ok v -> fpc v = FSend i h ->
  ids_ok (with_fpc (if (Send wok (open_frame i ftgt) (sess v)).1 then FSpawn i h else FErase i)
                   (with_sess (Send wok (open_frame i ftgt) (sess v)).2 v)).
Proof.
  intros [H1 H2 H3 H4] Hf. rewrite Hf in *. cbn in *.
  assert (forall b : bool, in_hand (if b then FSpawn i h else FErase i) = [i]) as E1 by by intros [].
  assert (forall b : bool, unannounced (if b then FSpawn i h else FErase i) = []) as E2
    by by intros [].
  rewrite !Forall_app, !Forall_cons in H4.
  split; cbn; rewrite ?Send_next_id, ?Send_written, ?E1, ?E2, ?app_nil_r; [done | done | ..];
    destruct (alive (sess v)); rewrite ?opened_app, ?opened_open; try done.
  - by apply NoDup_app in H3 as [? _].
  - rewrite ?Forall_app, ?Forall_cons, ?Forall_nil; naive_solver.
  - rewrite ?Forall_app, ?Forall_cons, ?Forall_nil; naive_solver.
Qed.

Lemma ids_step v v' :
  ids_ok v -> tstep me ftgt v v' -> (Z.of_nat (allocated v') < 2 ^ 64)%Z -> ids_ok v'.
Proof.
  intros Hi Hs Hlt.
  destruct Hs as [| ? ? [| | ? ? ? ? ? ? ? ? Hr] | ? ? Hf | ? ? Hf
    | ? ? [? ? Hf | ? ? ? Hf | ? ? ? ? Hf | ? ? Hf | ? ? Hf | ? ? ? Hf]
    | ? k p ? ? Hk [? Hpc ? | Hpc | ? ? Hpc | Hpc | ? Hpc | ? Hpc]];
    try (eapply ids_ext; [exact Hi | ..]; cbn;
         rewrite ?Send_next_id, ?opened_Send by done;
         try (by eapply p_id_insert); try done; by rewrite ?Hf; repeat case_match).
  - destruct (act_run_ids _ _ _ _ _ _ _ Hr) as (E1 & E2 & E3 & E4 & E5).
    eapply ids_ext; [exact Hi | ..]; cbn; congruence.
  - by apply ids_next_step.
  - by apply ids_send_step.
  - destruct Hi as [H1 H2 H3 H4]. rewrite Hf in *. cbn in *.
    apply NoDup_app in H2 as [H2 _]. rewrite app_nil_r in H3.
    rewrite Forall_app, Forall_cons in H4. destruct H4 as (? & _ & ?).
    case_match; split; cbn; rewrite ?app_nil_r; try done; by apply Forall_app.
  - destruct Hi as [H1 H2 H3 H4]. rewrite Hf in *. cbn in *.
    rewrite app_nil_r in *.
    split; cbn; rewrite ?app_nil_r, ?fmap_app, <- ?(assoc_L app); done.
Qed.

Lemma reach_ids v :
  tunnel_reach me ftgt v -> (Z.of_nat (allocated v) < 2 ^ 64)%Z -> ids_ok v.
Proof.
  revert v. refine (reach_ind (fun v => (Z.of_nat (allocated v) < 2 ^ 64)%Z -> ids_ok v) _ _).
  - intros r v0 [-> _] _. by split; cbn; try constructor.
  - intros v v' _ IH Hs Hlt. eapply ids_step; [| exact Hs | exact Hlt].
    apply IH. apply allocated_step in Hs. lia.
Qed.

(** Stream identifiers: as long as the session has not handed out 2^64 - 1 of
    them, the OPEN frames sent on a tunnel carry pairwise different identifiers,
    none of them the 0 of control frames, and no two pumps serve the same one. *)
Theorem stream_ids_unique v :
  tunnel_reach me ftgt v -> (Z.of_nat (allocated v) < 2 ^ 64)%Z ->
  NoDup (opened (written (sess v))) /\ NoDup (p_id <$> pumps v)
  /\ Forall (fun i => 1 <= i < 2 ^ 64)%Z (opened (written (sess v)) ++ (p_id <$> pumps v)).
Proof.
  intros Hr Hlt. destruct (reach_ids v Hr Hlt) as [_ H2 H3 H4].
  apply NoDup_app in H2 as [H2 _]. apply NoDup_app in H3 as [H3 _].
  rewrite !Forall_app in *. destruct H4 as (Hp & _ & Ho).
  split_and!; [done | done | |]; (eapply Forall_impl; [eassumption |]); cbn; intros; lia.
Qed.

End Ids.

(** ** The bytes a pump forwards *)

(** The payloads of the DATA frames of stream [i], in order. *)
Definition sent_data (i : Z) (fs : list Frame) : string :=
  foldr (fun f s => if decide (ftype f = DATA /\ stream_id f = i) then fdata f +:+ s else s) "" fs.

(** What the pump has read is what its frames carry, but for the buffer it is
    about to send and, after the barrier, the one [Send] refused. *)
Definition heard_ok (s : Session) (p : Pump) : Prop :=
  exists rest, p_heard p = sent_data (p_id p) (written s) +:+ rest
    /\ match p_pc p with
       | PRecv => rest = ""
       | PSend d => rest = d
       | _ => rest = "" \/ alive s = false
       end.

Record data_ok (s : Session) (ps : list Pump) : Prop := {
  data_pumps : forall i, i ∉ (p_id <$> ps) -> sent_data i (written s) = "";
  data_heard : forall k p, ps !! k = Some p -> heard_ok s p
}.

Lemma sent_data_app i a b : sent_data i (a ++ b) = sent_data i a +:+ sent_data i b.
Proof.
  unfold sent_data. induction a as [| f a IH]; [done |]. cbn. rewrite IH. case_decide; [| done].
  by rewrite str_app_assoc.
Qed.

Lemma sent_data_Send wok f s i :
  ~ (ftype f = DATA /\ stream_id f = i) ->
  sent_data i (written (Send wok f s).2) = sent_data i (written s).
Proof.
  intros Hn. rewrite Send_written. destruct (alive s); [| done].
  rewrite sent_data_app. unfold sent_data at 2. cbn. rewrite decide_False by done. apply str_app_nil_r.
Qed.

Lemma heard_mono s s' p :
  heard_ok s p -> sent_data (p_id p) (written s') = sent_data (p_id p) (written s) ->
  (alive s = false -> alive s' = false) -> heard_ok s' p.
Proof.
  intros (rest & He & Hr) Ed Ha. exists rest. rewrite Ed. split; [done |].
  destruct (p_pc p); naive_solver.
Qed.

Lemma data_ext s s' ps :
  data_ok s ps -> (forall i, sent_data i (written s') = sent_data i (written s)) ->
  (alive s = false -> alive s' = false) -> data_ok s' ps.
Proof.
  intros [H1 H2] Ed Ha. split.
  - intros i Hi. rewrite Ed. by apply H1.
  - intros k p Hk. eapply heard_mono; [by eapply H2 | apply Ed | done].
Qed.

Lemma data_pump s ps s' k p p' :
  data_ok s ps -> NoDup (p_id <$> ps) -> ps !! k = Some p -> p_id p' = p_id p ->
  (forall i, i <> p_id p -> sent_data i (written s') = sent_data i (written s)) ->
  (alive s = false -> alive s' = false) -> heard_ok s' p' -> data_ok s' (<[k := p']> ps).
Proof.
  intros [H1 H2] Hnd Hk Ei Ed Ha Hh. split.
  - intros i Hi. rewrite (p_id_insert k p p') in Hi by done. rewrite Ed; [by apply H1 |].
    intros ->. apply Hi. apply list_elem_of_fmap. exists p. split; [done |].
    by eapply list_elem_of_lookup_2.
  - intros j q Hj. destruct (decide (j = k)) as [-> | Hn].
    + rewrite list_lookup_insert_eq in Hj by by eapply lookup_lt_Some. by injection Hj as <-.
    + rewrite list_lookup_insert_ne in Hj by done.
      eapply heard_mono; [by eapply H2 | apply Ed | done].
      intros E. apply Hn. eapply (NoDup_lookup _ _ _ (p_id p) Hnd);
        by rewrite list_lookup_fmap, ?Hk, ?Hj; cbn; rewrite ?E.
Qed.

(** A pump is started. *)
Lemma data_spawn s ps i h :
  data_ok s ps -> i ∉ (p_id <$> ps) -> data_ok s (ps ++ [mkPump i h PRecv ""]).
Proof.
  intros [H1 H2] Hi. split.
  - intros j Hj. apply H1. rewrite fmap_app in Hj. set_solver.
  - intros k p Hk. apply lookup_app_Some in Hk as [Hk | [_ Hk]]; [by eapply H2 |].
    apply list_lookup_singleton_Some in Hk as [_ <-]. exists "". cbn. by rewrite H1.
Qed.

Lemma heard_send s p d wok :
  heard_ok s p -> p_pc p = PSend d ->
  heard_ok (Send wok (data_frame (p_id p) d) s).2
    (mkPump (p_id p) (p_conn p)
       (if (Send wok (data_frame (p_id p) d) s).1 then PRecv else PExchange) (p_heard p)).
Proof.
  intros (rest & He & Hr) Hpc. rewrite Hpc in Hr. subst rest.
  unfold heard_ok. cbn. rewrite Send_written, Send_alive. unfold Send.
  destruct (alive s) eqn:Ea; cbn [negb fst].
  - exists "". rewrite sent_data_app, He, str_app_nil_r. unfold sent_data at 3. cbn.
    rewrite decide_True by done. rewrite str_app_nil_r. split; [done |]. by destruct wok; [| left].
  - exists d. split; [done | by right].
Qed.

Lemma data_pump_step s ps s' k p p' :
  data_ok s ps -> NoDup (p_id <$> ps) -> ps !! k = Some p -> pump_step s p s' p' ->
  data_ok s' (<[k := p']> ps).
Proof.
  intros Hd Hnd Hk Hs. pose proof (data_heard _ _ Hd _ _ Hk) as Hh.
  destruct Hs as [d Hpc ? | Hpc | d ? Hpc | Hpc | ours Hpc | ? Hpc];
    (eapply data_pump; [exact Hd | exact Hnd | exact Hk | done | ..]);
    rewrite ?Send_alive; try done;
    try (intros; apply sent_data_Send; cbn; naive_solver);
    try (by apply heard_send);
    destruct Hh as (rest & He & Hr); rewrite Hpc in Hr.
  - exists d. cbn. subst rest. by rewrite He, str_app_nil_r.
  - exists rest. cbn. auto.
  - by exists rest.
  - exists rest. cbn. by destruct ours.
  - exists rest. cbn. rewrite sent_data_Send by (by intros [? _]). by rewrite Send_alive.
Qed.

Lemma act_run_data me wok outcomes a v v' more :
  act_run me wok outcomes a v = (v', more) ->
  pumps v' = pumps v /\ (forall i, sent_data i (written (sess v')) = sent_data i (written (sess v)))
  /\ (alive (sess v) = false -> alive (sess v') = false).
Proof.
  destruct a; cbn; intros Hr; injection Hr as <- <-; cbn;
    split_and!; intros; rewrite ?Send_alive, ?sent_data_Send; try done; by intros [? _].
Qed.

Section Data.
Context {me : nat} {ftgt : string}.

Lemma data_step v v' :
  data_ok (sess v) (pumps v) -> ids_ok v -> tstep me ftgt v v' -> data_ok (sess v') (pumps v').
Proof.
  intros Hd [_ Hnd _ _] Hs. apply NoDup_app in Hnd as (Hnd & Hdis & _).
  destruct Hs as [| ? ? [| | ? ? ? ? ? ? ? ? Hr] | | | ? ? [| | | | | ? i ? Hf] | ? k p ? ? Hk Hp];
    try (eapply data_ext; [exact Hd | ..]; cbn; rewrite ?Send_alive; try done;
         intros; rewrite ?sent_data_Send by (by intros [? _]); done).
  - destruct (act_run_data _ _ _ _ _ _ _ Hr) as (E & ? & ?). cbn. rewrite E. by eapply data_ext.
  - apply data_spawn; [done |]. intros Hin. apply (Hdis _ Hin). rewrite Hf. cbn. set_solver.
  - by eapply data_pump_step.
Qed.

Lemma reach_data v :
  tunnel_reach me ftgt v -> (Z.of_nat (allocated v) < 2 ^ 64)%Z -> data_ok (sess v) (pumps v).
Proof.
  revert v.
  refine (reach_ind (fun v => (Z.of_nat (allocated v) < 2 ^ 64)%Z -> data_ok (sess v) (pumps v)) _ _).
  - intros r v0 [-> _] _. by split.
  - intros v v' Hr IH Hs Hlt.
    assert (Z.of_nat (allocated v) < 2 ^ 64)%Z by (apply allocated_step in Hs; lia).
    eapply data_step; [by apply IH | by eapply reach_ids | exact Hs].
Qed.

(** Byte integrity: in every interleaving, the DATA frames a stream has sent
    carry exactly the bytes its pump has received from its socket, in order and
    without another stream's bytes among them. Missing at any moment is at most
    the buffer the pump is about to send or, once the session is shut down, the
    last one, which [Send] refused. *)
Theorem pump_forwards_bytes v k p :
  tunnel_reach me ftgt v -> (Z.of_nat (allocated v) < 2 ^ 64)%Z -> pumps v !! k = Some p ->
  exists rest, p_heard p = sent_data (p_id p) (written (sess v)) +:+ rest
    /\ match p_pc p with
       | PRecv => rest = ""
       | PSend d => rest = d
       | _ => rest = "" \/ alive (sess v) = false
       end.
Proof. intros Hr Hlt Hk. by apply (data_heard _ _ (reach_data _ Hr Hlt) k). Qed.

End Data.

(** ** Connections *)

(** A pump that still owes its connection the [closed] flag; one whose stream
    may still be in the table. *)
Definition early (c : PPc) : bool := match c with PRecv | PSend _ | PExchange => true | _ => false end.
Definition listed (c : PPc) : bool := match c with PClose | PDone => false | _ => true end.
Definition is_mark (a : HAct) : Prop := match a with AMark _ => True | _ => False end.

Definition is_open (s : Session) (h : nat) : Prop :=
  exists c, heap s !! h = Some c /\ closed c = false.

(** Who works on connection [h] as stream [i]. *)
Definition holder (p : FPc) (ps : list Pump) (i : Z) (h : nat) : Prop :=
  p = FSend i h \/ p = FSpawn i h
  \/ exists k q, ps !! k = Some q /\ p_id q = i /\ p_conn q = h /\ early (p_pc q) = true.
(** Who will take stream [i] out of the table. *)
Definition keeper (p : FPc) (ps : list Pump) (i : Z) : Prop :=
  i ∈ in_hand p \/ exists k q, ps !! k = Some q /\ p_id q = i /\ listed (p_pc q) = true.

Record conns_ok (v : Server) : Prop := {
  co_bound : forall i h, holder (fpc v) (pumps v) i h -> (h < length (heap (sess v)))%nat;
  co_open : forall h, is_open (sess v) h ->
    AMark h ∈ todo v \/ fpc v = FMark h \/ (exists i, holder (fpc v) (pumps v) i h)
    \/ exists i, fpc v = FErase i /\ conns (sess v) !! i = Some h;
  co_held : forall i h, holder (fpc v) (pumps v) i h -> is_open (sess v) h ->
    AMark h ∈ todo v \/ conns (sess v) !! i = Some h;
  co_table : forall i h, conns (sess v) !! i = Some h -> keeper (fpc v) (pumps v) i;
  co_after : ending v = true -> Forall is_mark (todo v) ->
    forall i h, conns (sess v) !! i = Some h -> fpc v = FSend i h \/ fpc v = FErase i
}.

Lemma is_open_mark s h h' : is_open (MarkClosed h s) h' -> h' <> h /\ is_open s h'.
Proof.
  intros (c & Hc & Ho). cbn in Hc. destruct (decide (h' = h)) as [-> | Hn].
  - rewrite list_lookup_alter_eq in Hc. destruct (heap s !! h); [| done].
    injection Hc as <-. done.
  - rewrite list_lookup_alter_ne in Hc by done. split; [done | by exists c].
Qed.

Lemma is_open_heap s s' h : heap s' = heap s -> is_open s' h -> is_open s h.
Proof. unfold is_open. by intros ->. Qed.

(** A step of the handler that leaves the table and the heap alone. *)
Lemma conns_handler v w :
  conns_ok v -> conns (sess w) = conns (sess v) -> heap (sess w) = heap (sess v) ->
  fpc w = fpc v -> pumps w = pumps v ->
  (forall h, AMark h ∈ todo v -> AMark h ∈ todo w) ->
  (ending w = true -> Forall is_mark (todo w) -> ending v = true /\ Forall is_mark (todo v)) ->
  conns_ok w.
Proof.
  intros [H0 H1 H2 H3 H4] E1 E2 E3 E4 Ht Hc.
  split; rewrite ?E1, ?E2, ?E3, ?E4.
  - done.
  - intros h Ho. apply (is_open_heap (sess v)) in Ho; [| done]. destruct (H1 _ Ho); auto.
  - intros i h Hh Ho. apply (is_open_heap (sess v)) in Ho; [| done]. destruct (H2 _ _ Hh Ho); auto.
  - done.
  - intros He Hf. by apply H4; apply Hc.
Qed.

(** The handler takes streams out of the table, and owes each the flag. *)
Lemma conns_taken v w :
  conns_ok v -> heap (sess w) = heap (sess v) -> fpc w = fpc v -> pumps w = pumps v ->
  (forall h, AMark h ∈ todo v -> AMark h ∈ todo w) ->
  (forall i h, conns (sess w) !! i = Some h -> conns (sess v) !! i = Some h) ->
  (forall i h, conns (sess v) !! i = Some h -> conns (sess w) !! i = Some h \/ AMark h ∈ todo w) ->
  (ending w = true -> Forall is_mark (todo w) -> conns (sess w) = ∅) ->
  conns_ok w.
Proof.
  intros [H0 H1 H2 H3 H4] E2 E3 E4 Ht Hs Hd Hc.
  split; rewrite ?E2, ?E3, ?E4.
  - done.
  - intros h Ho. apply (is_open_heap (sess v)) in Ho; [| done].
    destruct (H1 _ Ho) as [? | [? | [? | (i & Hf & Hi)]]]; [auto | auto | auto |].
    destruct (Hd _ _ Hi); [| auto]. do 3 right. by exists i.
  - intros i h Hh Ho. apply (is_open_heap (sess v)) in Ho; [| done].
    destruct (H2 _ _ Hh Ho) as [? | Hi]; [auto |]. destruct (Hd _ _ Hi); auto.
  - eauto.
  - intros He Hf. rewrite (Hc He Hf). intros i h Hi. by rewrite lookup_empty in Hi.
Qed.

(** A connection is marked: by the handler, the forwarder or a pump. *)
Lemma conns_marked v w h :
  conns_ok v -> sess w = MarkClosed h (sess v) -> ending w = ending v ->
  (forall h', h' <> h -> AMark h' ∈ todo v -> AMark h' ∈ todo w) ->
  (Forall is_mark (todo w) -> Forall is_mark (todo v)) ->
  (forall i h', holder (fpc w) (pumps w) i h' -> holder (fpc v) (pumps v) i h') ->
  (forall i h', h' <> h -> holder (fpc v) (pumps v) i h' -> holder (fpc w) (pumps w) i h') ->
  (forall i, keeper (fpc v) (pumps v) i -> keeper (fpc w) (pumps w) i) ->
  fpc w = fpc v \/ (fpc v = FMark h /\ fpc w = FAccept) ->
  conns_ok w.
Proof.
  intros [H0 H1 H2 H3 H4] Es Ee Ht Hm Hh1 Hh2 Hk Hf.
  split; rewrite ?Es; cbn.
  - intros i h' Hh. rewrite length_alter. eauto.
  - intros h' Ho. apply is_open_mark in Ho as [Hn Ho].
    destruct (H1 _ Ho) as [? | [E | [[i Hi] | (i & E & Hi)]]]; [auto | | do 2 right; left; eauto |].
    + destruct Hf as [-> | [E' _]]; [auto | congruence].
    + do 3 right. exists i. destruct Hf as [-> | [E' _]]; [auto | congruence].
  - intros i h' Hh Ho. apply is_open_mark in Ho as [Hn Ho].
    destruct (H2 _ _ (Hh1 _ _ Hh) Ho); auto.
  - eauto.
  - rewrite Ee. intros He Hall i h' Hi. specialize (H4 He (Hm Hall) i h' Hi).
    destruct Hf as [-> | [E' _]]; [done |]. destruct H4; congruence.
Qed.

Lemma lookup_insert_pump (ps : list Pump) k p q j r :
  ps !! k = Some p -> <[k := q]> ps !! j = Some r -> (j = k /\ r = q) \/ (j <> k /\ ps !! j = Some r).
Proof.
  intros Hk Hj. destruct (decide (j = k)) as [-> | Hn].
  - rewrite list_lookup_insert_eq in Hj by by eapply lookup_lt_Some. left. split; congruence.
  - rewrite list_lookup_insert_ne in Hj by done. by right.
Qed.

Lemma holder_insert_inv f ps k p q i h :
  ps !! k = Some p -> p_id q = p_id p -> p_conn q = p_conn p ->
  (early (p_pc q) = true -> early (p_pc p) = true) ->
  holder f (<[k := q]> ps) i h -> holder f ps i h.
Proof.
  intros Hk Ei Ec Hp [? | [? | (j & r & Hj & Hi & Hc & He)]]; [by left | by right; left |].
  right; right. destruct (lookup_insert_pump _ _ _ _ _ _ Hk Hj) as [[-> ->] | [_ Hj']].
  - exists k, p. split_and!; [done | congruence | congruence | auto].
  - by exists j, r.
Qed.

Lemma holder_insert f ps k p q i h :
  ps !! k = Some p -> p_id q = p_id p -> p_conn q = p_conn p ->
  (h = p_conn p -> early (p_pc p) = true -> early (p_pc q) = true) ->
  holder f ps i h -> holder f (<[k := q]> ps) i h.
Proof.
  intros Hk Ei Ec Hp [? | [? | (j & r & Hj & Hi & Hc & He)]]; [by left | by right; left |].
  right; right. destruct (decide (j = k)) as [-> | Hn].
  - exists k, q. rewrite list_lookup_insert_eq by by eapply lookup_lt_Some.
    assert (r = p) as -> by congruence. split_and!; [done | congruence | congruence | auto].
  - exists j, r. by rewrite list_lookup_insert_ne.
Qed.

Lemma keeper_insert f ps k p q i :
  ps !! k = Some p -> p_id q = p_id p ->
  (i = p_id p -> listed (p_pc p) = true -> listed (p_pc q) = true) ->
  keeper f ps i -> keeper f (<[k := q]> ps) i.
Proof.
  intros Hk Ei Hp [? | (j & r & Hj & Hi & He)]; [by left |]. right.
  destruct (decide (j = k)) as [-> | Hn].
  - exists k, q. rewrite list_lookup_insert_eq by by eapply lookup_lt_Some.
    assert (r = p) as -> by congruence. split_and!; [done | congruence | auto].
  - exists j, r. by rewrite list_lookup_insert_ne.
Qed.

(** A pump works on, or shuts its stream: the table, the heap and its own place
    in the loop change together only in the two steps below. *)
Lemma conns_pump v k p q s :
  conns_ok v -> pumps v !! k = Some p -> p_id q = p_id p -> p_conn q = p_conn p ->
  early (p_pc q) = early (p_pc p) -> listed (p_pc q) = listed (p_pc p) ->
  conns s = conns (sess v) -> heap s = heap (sess v) ->
  conns_ok (with_pump k q (with_sess s v)).
Proof.
  intros [H0 H1 H2 H3 H4] Hk Ei Ec Ee El E1 E2.
  assert (forall i h, holder (fpc v) (<[k := q]> (pumps v)) i h -> holder (fpc v) (pumps v) i h) as Hinv.
  { intros i h. eapply holder_insert_inv; try done. by rewrite Ee. }
  split; cbn; rewrite ?E1, ?E2.
  - eauto.
  - intros h Ho. apply (is_open_heap (sess v)) in Ho; [| done].
    destruct (H1 _ Ho) as [? | [? | [[i Hi] | ?]]]; [auto | auto | | auto].
    do 2 right. left. exists i. eapply holder_insert; try done. by rewrite Ee.
  - intros i h Hh Ho. apply (is_open_heap (sess v)) in Ho; [| done]. eauto.
  - intros i h Hi. eapply keeper_insert; [done | done | by rewrite El | by eapply H3].
  - done.
Qed.

Lemma conns_exchange v k p :
  conns_ok v -> pumps v !! k = Some p -> p_pc p = PExchange ->
  conns_ok (with_pump k (mkPump (p_id p) (p_conn p)
              (PErase (negb (ExchangeClosed (p_conn p) (sess v)).1)) (p_heard p))
            (with_sess (ExchangeClosed (p_conn p) (sess v)).2 v)).
Proof.
  intros Hc Hk Hpc. eapply (conns_marked v _ (p_conn p)); cbn; try done; [..| by left].
  - intros i h'. by eapply holder_insert_inv.
  - intros i h' Hn. by eapply holder_insert.
  - intros i. by eapply keeper_insert.
Qed.

Lemma conns_pump_erase v k p ours :
  conns_ok v -> NoDup ((p_id <$> pumps v) ++ in_hand (fpc v)) ->
  pumps v !! k = Some p -> p_pc p = PErase ours ->
  conns_ok (with_pump k (mkPump (p_id p) (p_conn p) (if ours then PClose else PDone) (p_heard p))
            (with_sess (EraseConn (p_id p) (sess v)) v)).
Proof.
  intros [H0 H1 H2 H3 H4] Hnd Hk Hpc. apply NoDup_app in Hnd as (Hnd & Hin & _).
  set (q := mkPump _ _ _ _).
  assert (early (p_pc q) = false) as Eq by by destruct ours.
  assert (forall i h, holder (fpc v) (<[k := q]> (pumps v)) i h -> holder (fpc v) (pumps v) i h) as Hinv.
  { intros i h. eapply holder_insert_inv; try done. by rewrite Eq. }
  assert (p_id p ∈ p_id <$> pumps v) as Hp.
  { apply list_elem_of_fmap. exists p. split; [done |]. by eapply list_elem_of_lookup_2. }
  split; cbn.
  - eauto.
  - intros h Ho. destruct (H1 h Ho) as [? | [? | [[i Hi] | (i & Ef & Hi)]]]; [auto | auto | |].
    + do 2 right. left. exists i. eapply holder_insert; try done. by rewrite Hpc.
    + do 3 right. exists i. split; [done |]. rewrite lookup_delete_ne; [done |].
      intros <-. apply (Hin _ Hp). rewrite Ef. cbn. set_solver.
  - intros i h Hh Ho. destruct (H2 i h (Hinv _ _ Hh) Ho) as [? | Hi]; [by left | right].
    rewrite lookup_delete_ne; [done |]. intros <-.
    destruct Hh as [E | [E | (j & r & Hj & Hi' & Hc & He)]].
    + apply (Hin _ Hp). rewrite E. cbn. set_solver.
    + apply (Hin _ Hp). rewrite E. cbn. set_solver.
    + destruct (lookup_insert_pump _ _ _ _ _ _ Hk Hj) as [[-> ->] | [Hn Hj']]; [congruence |].
      apply Hn. eapply (NoDup_lookup _ _ _ (p_id p) Hnd);
        by rewrite list_lookup_fmap, ?Hk, ?Hj'; cbn; rewrite ?Hi'.
  - intros i h Hi. apply lookup_delete_Some in Hi as [Hn Hi].
    eapply keeper_insert; [done | done | | by eapply H3]. intros ->. by destruct Hn.
  - intros He Hf i h Hi. apply lookup_delete_Some in Hi as [Hn Hi]. eauto.
Qed.

(** After the table has been taken, [Send] refuses. *)
Definition phase_alive (v : Server) : Prop :=
  ending v = true -> Forall is_mark (todo v) -> alive (sess v) = false.

(** The forwarder between two connections, or one step further with none of the
    session's in its hands. *)
Lemma conns_forwarder_idle v w :
  conns_ok v -> sess w = sess v \/ sess w = (NextStreamId (sess v)).2 ->
  todo w = todo v -> ending w = ending v -> pumps w = pumps v ->
  in_hand (fpc v) = [] -> (forall h, fpc v <> FMark h) ->
  (forall i h, fpc w <> FSend i h /\ fpc w <> FSpawn i h) ->
  conns_ok w.
Proof.
  intros [H0 H1 H2 H3 H4] Es Et Ee Ep Hn Hm Hw.
  assert (conns (sess w) = conns (sess v)) as E1 by by destruct Es as [-> | ->].
  assert (heap (sess w) = heap (sess v)) as E2 by by destruct Es as [-> | ->].
  assert (forall i h, holder (fpc w) (pumps v) i h <-> holder (fpc v) (pumps v) i h) as Hh.
  { intros i h. destruct (Hw i h). split; intros [E | [E | Hp]]; try done; try (by right; right);
      rewrite E in Hn; done. }
  split; rewrite ?E1, ?E2, ?Et, ?Ee, ?Ep.
  - intros i h Hi. eapply H0, Hh, Hi.
  - intros h Ho. apply (is_open_heap (sess v)) in Ho; [| done].
    destruct (H1 _ Ho) as [? | [E | [[i Hi] | (i & E & _)]]]; [auto | by destruct (Hm h) | |].
    + do 2 right. left. exists i. by apply Hh.
    + rewrite E in Hn. done.
  - intros i h Hi Ho. apply (is_open_heap (sess v)) in Ho; [| done]. by apply H2; [apply Hh |].
  - intros i h Hi. destruct (H3 _ _ Hi) as [Hi' | ?]; [rewrite Hn in Hi'; set_solver | by right].
  - intros He Hf i h Hi. destruct (H4 He Hf i h Hi) as [E | E]; rewrite E in Hn; done.
Qed.

Lemma conns_add v f i :
  conns_ok v -> NoDup ((p_id <$> pumps v) ++ in_hand (fpc v)) -> fpc v = FAdd f i ->
  conns_ok (with_fpc (FSend i (AddConn i f (sess v)).1)
              (with_socks (socks v ++ [(i, "")]) (with_sess (AddConn i f (sess v)).2 v))).
Proof.
  intros [H0 H1 H2 H3 H4] Hnd Hf. rewrite Hf in *. cbn in *. set (n := length (heap (sess v))).
  assert (forall j h, holder (FAdd f i) (pumps v) j h -> j <> i) as Hne.
  { intros j h [? | [? | (k & q & Hk & Ej & _)]] E; [done | done |].
    apply NoDup_app in Hnd as (_ & Hnd & _). apply (Hnd i); [| set_solver].
    apply list_elem_of_fmap. exists q. split; [congruence |]. by eapply list_elem_of_lookup_2. }
  assert (forall j h, holder (FAdd f i) (pumps v) j h -> holder (FSend i n) (pumps v) j h) as Hup
    by by intros j h [? | [? | ?]]; right; right.
  assert (forall j h, holder (FSend i n) (pumps v) j h -> (j = i /\ h = n) \/ holder (FAdd f i) (pumps v) j h)
    as Hdown.
  { intros j h [E | [? | ?]]; [left | done | right; by right; right]. by injection E as -> ->. }
  assert (forall h, h <> n -> is_open (AddConn i f (sess v)).2 h -> is_open (sess v) h) as Hop.
  { intros h Hn (c & Hc & Ho). cbn in Hc. exists c. split; [| done].
    apply lookup_app_Some in Hc as [? | [Hl Hc]]; [done |].
    apply list_lookup_singleton_Some in Hc as [E _]. unfold n in Hn. lia. }
  split; cbn.
  - intros j h Hh. rewrite List.length_app; cbn. destruct (Hdown _ _ Hh) as [[_ ->] | Hh']; [lia |].
    specialize (H0 _ _ Hh'). lia.
  - intros h Ho. destruct (decide (h = n)) as [-> | Hn].
    + do 2 right. left. exists i. by left.
    + destruct (H1 _ (Hop _ Hn Ho)) as [? | [? | [[j Hj] | (j & ? & _)]]]; [auto | done | | done].
      do 2 right. left. exists j. by apply Hup.
  - intros j h Hh Ho. destruct (decide (h = n)) as [-> | Hn].
    + destruct (Hdown _ _ Hh) as [[-> _] | Hh']; [right; apply lookup_insert_eq |].
      specialize (H0 _ _ Hh'). unfold n in H0. lia.
    + destruct (Hdown _ _ Hh) as [[-> ?] | Hh']; [done |].
      destruct (H2 _ _ Hh' (Hop _ Hn Ho)) as [? | Hj]; [by left | right].
      rewrite lookup_insert_ne; [done |]. intros <-. by apply (Hne _ _ Hh').
  - intros j h Hj. apply lookup_insert_Some in Hj as [[<- _] | [_ Hj]]; [left; cbn; set_solver |].
    destruct (H3 _ _ Hj) as [Hi | ?]; [left; cbn in *; set_solver | by right].
  - intros He Hall j h Hj. apply lookup_insert_Some in Hj as [[<- <-] | [_ Hj]]; [by left |].
    destruct (H4 He Hall _ _ Hj); done.
Qed.

Lemma conns_send v i h wok t :
  conns_ok v -> phase_alive v -> fpc v = FSend i h ->
  conns_ok (with_fpc (if (Send wok (open_frame i t) (sess v)).1 then FSpawn i h else FErase i)
                     (with_sess (Send wok (open_frame i t) (sess v)).2 v)).
Proof.
  intros [H0 H1 H2 H3 H4] Hph Hf. rewrite Hf in *.
  set (p := if (Send wok (open_frame i t) (sess v)).1 then FSpawn i h else FErase i).
  assert (p = FSpawn i h \/ p = FErase i) as Hp by (unfold p; case_match; auto).
  assert (forall j h', holder p (pumps v) j h' -> holder (FSend i h) (pumps v) j h') as Hdown.
  { intros j h' [E | [E | ?]]; [by destruct Hp; congruence | | by right; right].
    left. destruct Hp; congruence. }
  assert (forall j h', holder (FSend i h) (pumps v) j h' ->
    (j = i /\ h' = h) \/ holder p (pumps v) j h') as Hup.
  { intros j h' [E | [E | ?]]; [left; split; congruence | done | by right; right; right]. }
  split; cbn; autorewrite with tunnel.
  - eauto.
  - intros h' Ho. apply (is_open_heap (sess v)) in Ho; [| by rewrite Send_heap].
    destruct (H1 _ Ho) as [? | [? | [[j Hj] | (j & ? & _)]]]; [auto | done | | done].
    destruct (Hup _ _ Hj) as [[-> ->] | Hj']; [| eauto].
    destruct (H2 _ _ Hj Ho) as [? | Hi]; [auto |].
    destruct Hp as [E | E]; rewrite E; [| by do 3 right; exists i].
    do 2 right. left. exists i. by right; left.
  - intros j h' Hj Ho. apply (is_open_heap (sess v)) in Ho; [| by rewrite Send_heap]. eauto.
  - intros j h' Hj. destruct (H3 _ _ Hj) as [Hi | ?]; [left | by right].
    destruct Hp as [-> | ->]; done.
  - intros He Hall j h' Hj. right. unfold p, Send.
    rewrite (Hph He Hall). destruct (H4 He Hall _ _ Hj); cbn; congruence.
Qed.

Lemma conns_erase v i :
  conns_ok v -> NoDup ((p_id <$> pumps v) ++ in_hand (fpc v)) -> fpc v = FErase i ->
  conns_ok (with_fpc (match GetConn i (sess v) with Some h => FMark h | None => FAccept end)
                     (with_sess (EraseConn i (sess v)) v)).
Proof.
  intros [H0 H1 H2 H3 H4] Hnd Hf. rewrite Hf in *. unfold GetConn.
  assert (forall j h, holder (match conns (sess v) !! i with Some h => FMark h | None => FAccept end)
      (pumps v) j h <-> holder (FErase i) (pumps v) j h) as Hh.
  { intros j h. unfold holder. destruct (conns (sess v) !! i); naive_solver. }
  assert (forall j h, holder (FErase i) (pumps v) j h -> j <> i) as Hne.
  { intros j h [? | [? | (k & q & Hk & Ej & _)]] E; [done | done |].
    apply NoDup_app in Hnd as (_ & Hnd & _). apply (Hnd i); [| cbn; set_solver].
    apply list_elem_of_fmap. exists q. split; [congruence |]. by eapply list_elem_of_lookup_2. }
  split; cbn.
  - intros j h Hj. eapply H0, Hh, Hj.
  - intros h Ho. destruct (H1 _ Ho) as [? | [? | [[j Hj] | (j & E & Hj)]]]; [auto | done | |].
    + do 2 right. left. exists j. by apply Hh.
    + injection E as <-. rewrite Hj. auto.
  - intros j h Hj Ho. apply Hh in Hj. destruct (H2 _ _ Hj Ho) as [? | Hi]; [by left | right].
    rewrite lookup_delete_ne; [done |]. intros <-. by apply (Hne _ _ Hj).
  - intros j h Hj. apply lookup_delete_Some in Hj as [Hn Hj].
    destruct (H3 _ _ Hj) as [Hi | ?]; [| by right]. cbn in Hi. set_solver.
  - intros He Hall j h Hj. apply lookup_delete_Some in Hj as [Hn Hj].
    destruct (H4 He Hall _ _ Hj); congruence.
Qed.

Lemma conns_spawn v i h :
  conns_ok v -> fpc v = FSpawn i h ->
  conns_ok (mkServer (sess v) (reg v) (cur v) (todo v) (ending v) FAccept
              (pumps v ++ [mkPump i h PRecv ""]) (allocated v) (socks v) (frames_in v)).
Proof.
  intros [H0 H1 H2 H3 H4] Hf. rewrite Hf in *.
  assert ((pumps v ++ [mkPump i h PRecv ""]) !! length (pumps v) = Some (mkPump i h PRecv "")) as Hl
    by by apply list_lookup_middle.
  assert (forall j h', holder FAccept (pumps v ++ [mkPump i h PRecv ""]) j h' <->
    holder (FSpawn i h) (pumps v) j h') as Hh.
  { intros j h'. split.
    - intros [? | [? | (k & q & Hk & E1 & E2 & E3)]]; [done | done |].
      apply lookup_app_Some in Hk as [Hk | [_ Hk]].
      + right; right. by exists k, q.
      + apply list_lookup_singleton_Some in Hk as [_ <-]. right; left. cbn in *. congruence.
    - intros [? | [E | (k & q & Hk & E)]]; [done | |]; right; right.
      + injection E as <- <-. by exists (length (pumps v)), (mkPump i h PRecv "").
      + exists k, q. split; [by apply lookup_app_l_Some | done]. }
  split; cbn.
  - intros j h' Hj. eapply H0, Hh, Hj.
  - intros h' Ho. destruct (H1 _ Ho) as [? | [? | [[j Hj] | (j & ? & _)]]]; [auto | done | | done].
    do 2 right. left. exists j. by apply Hh.
  - intros j h' Hj. by apply H2, Hh.
  - intros j h' Hj. right. destruct (H3 _ _ Hj) as [Hi | (k & q & Hk & E)].
    + cbn in Hi. apply list_elem_of_singleton in Hi as ->.
      by exists (length (pumps v)), (mkPump i h PRecv "").
    + exists k, q. split; [by apply lookup_app_l_Some | done].
  - intros He Hall j h' Hj. destruct (H4 He Hall _ _ Hj); congruence.
Qed.

Lemma conns_act me v a rest wok outcomes v' more :
  conns_ok v -> phase me v -> todo v = a :: rest -> act_run me wok outcomes a v = (v', more) ->
  conns_ok (with_todo (more ++ rest) v').
Proof.
  intros Hc Hp Ht Hr.
  assert (ending v = true -> Forall is_mark rest ->
    a = ATakeAll \/ Forall is_mark (todo v)) as Hend.
  { intros He Hall. rewrite Ht.
    destruct Hp as [? ? _ | ? ? _ _ | ? ? _ _ | _ Hf _ | _ Hf _ | _ _ Hf _]; try congruence.
    - rewrite Ht in Hf. injection Hf as -> ->. by inversion Hall.
    - rewrite Ht in Hf. injection Hf as -> ->. by inversion Hall.
    - rewrite Ht in Hf. apply Forall_cons in Hf as [Hf _]. destruct a; try done; auto. }
  assert (forall h, AMark h ∈ todo v -> a = AMark h \/ AMark h ∈ rest) as Hin.
  { intros h. rewrite Ht. intros [-> | Hi]%elem_of_cons; [by left |]. by right. }
  assert ((a <> ATakeAll) -> ~ is_mark a -> ending v = true -> ~ Forall is_mark rest)
    as Hno.
  { intros Hn Hm He Hall. destruct (Hend He Hall) as [-> | Hall']; [done |].
    rewrite Ht in Hall'. by inversion Hall'. }
  destruct a; cbn in Hr; injection Hr as <- <-;
    try (apply (conns_handler v); cbn; autorewrite with tunnel; try done;
         [intros ? Hh; destruct (Hin _ Hh) as [? | Hi]; [done |]; rewrite ?elem_of_app; auto
         |intros He Hall; exfalso; rewrite ?Forall_app in Hall; apply Hno; try done; naive_solver]).
  - apply (conns_taken v); cbn; try done.
    + intros h Hh. destruct (Hin _ Hh) as [? | Hi]; [done |]. rewrite elem_of_app; auto.
    + intros j h Hj. by apply lookup_delete_Some in Hj as [_ Hj].
    + intros j h Hj. destruct (decide (i = j)) as [-> | Hn].
      * right. unfold GetConn. rewrite Hj. set_solver.
      * left. by rewrite lookup_delete_ne.
    + intros He Hall. exfalso. apply Forall_app in Hall as [_ Hall]. apply Hno; naive_solver.
  - apply (conns_marked v _ h); cbn; try done.
    + intros h' Hn Hh. by destruct (Hin _ Hh) as [E | Hi]; [congruence |].
    + rewrite Ht. by constructor.
    + by left.
  - apply (conns_taken v); cbn; try done.
    + intros h Hh. destruct (Hin _ Hh) as [? | Hi]; [done |]. rewrite elem_of_app; auto.
    + intros j h Hj. right. apply elem_of_app. left. apply list_elem_of_fmap. exists h. split; [done |].
      apply list_elem_of_fmap. exists (j, h). split; [done |]. by apply elem_of_map_to_list.
Qed.

Lemma conns_init r : conns_ok (mkServer Session_init r "" [] false FAccept [] 0 [] []).
Proof.
  split; cbn.
  - intros i h [? | [? | (k & q & Hk & _)]]; done.
  - intros h (c & Hc & _). done.
  - intros i h [? | [? | (k & q & Hk & _)]]; done.
  - done.
  - done.
Qed.

Section Conns.
Context {me : nat} {ftgt : string}.

Lemma phase_alive_of v : phase me v -> phase_alive v.
Proof.
  intros Hp He Hall. destruct Hp as [| | | _ Hf _ | _ Hf _ |]; try congruence;
    rewrite Hf in Hall; by inversion Hall.
Qed.

Lemma conns_step v v' :
  conns_ok v -> ids_ok v -> phase me v -> tstep me ftgt v v' -> conns_ok v'.
Proof.
  intros Hc Hi Hp Hs. pose proof (ids_pumps _ Hi) as Hnd.
  destruct Hs as [| ? ? [w f Ht He | w Ht He |] | ? ? Hf | ? ? Hf | ? ? 
    [w ? Hf | w ? ? Hf | w ? ? ? Hf | w ? Hf | w h Hf | w ? ? Hf] | ? k p ? ? Hk [d Hpc ? | Hpc | d ? Hpc | Hpc | ours Hpc | ? Hpc]].
  - by apply (conns_handler v).
  - apply (conns_handler w); cbn; try done; rewrite Ht; [set_solver | congruence].
  - apply (conns_handler w); cbn; try done; rewrite Ht; [set_solver |].
    intros _ Hall. by inversion Hall.
  - by eapply conns_act.
  - apply (conns_forwarder_idle v); cbn; auto; by rewrite Hf.
  - apply (conns_forwarder_idle v); cbn; auto; try by rewrite Hf. by case_decide.
  - apply (conns_forwarder_idle w); cbn; auto; by rewrite Hf.
  - by apply conns_add.
  - apply conns_send; [done | by apply phase_alive_of | done].
  - by apply conns_erase.
  - apply (conns_marked w _ h); cbn; try done; rewrite ?Hf; auto.
    + intros i h' [? | [? | ?]]; [done | done | by right; right].
    + intros i h' _ [? | [? | ?]]; [done | done | by right; right].
  - by apply conns_spawn.
  - by apply (conns_pump v k p _ (sess v)); rewrite ?Hpc.
  - by apply (conns_pump v k p _ (sess v)); rewrite ?Hpc.
  - apply (conns_pump v k p); rewrite ?Hpc; autorewrite with tunnel; try done;
      cbn; by destruct (Send _ _ _).1.
  - by apply conns_exchange.
  - by apply conns_pump_erase.
  - apply (conns_pump v k p); rewrite ?Hpc; autorewrite with tunnel; done.
Qed.

Lemma reach_conns v :
  tunnel_reach me ftgt v -> (Z.of_nat (allocated v) < 2 ^ 64)%Z -> conns_ok v.
Proof.
  revert v. refine (reach_ind (fun v => (Z.of_nat (allocated v) < 2 ^ 64)%Z -> conns_ok v) _ _).
  - intros r v0 [-> _] _. apply conns_init.
  - intros v v' Hr IH Hs Hlt.
    assert (Z.of_nat (allocated v) < 2 ^ 64)%Z by (apply allocated_step in Hs; lia).
    eapply conns_step; [by apply IH | by eapply reach_ids | by eapply reach_phase | exact Hs].
Qed.

(** Nothing is leaked: whenever the handler has no frame in hand, the
    forwarder is waiting for a connection and every pump it ever started has
    ended, the stream table is empty and every connection the session ever held
    has been flagged closed, whatever the order of the closes and write failures. *)
Theorem idle_session_holds_nothing v :
  tunnel_reach me ftgt v -> (Z.of_nat (allocated v) < 2 ^ 64)%Z ->
  at_rest v ->
  OpenStreams (sess v) = 0 /\ Forall (fun c => closed c = true) (heap (sess v)).
Proof.
  intros Hr Hlt (Ht & Hf & Hp). destruct (reach_conns v Hr Hlt) as [_ H1 _ H3 _]. rewrite Hf, Ht in *.
  split.
  - apply map_size_empty_iff, map_empty. intros i. apply eq_None_not_Some. intros [h Hi].
    destruct (H3 _ _ Hi) as [Hn | (k & q & Hk & _ & Hl)]; [cbn in Hn; set_solver |].
    by rewrite (Forall_lookup_1 _ _ _ _ Hp Hk) in Hl.
  - apply Forall_lookup. intros h c Hc. apply not_false_is_true. intros Ho.
    destruct (H1 h ltac:(by exists c)) as [? | [? | [[i Hh] | (i & ? & _)]]]; [set_solver | done | | done].
    destruct Hh as [? | [? | (k & q & Hk & _ & _ & He)]]; [done | done |].
    by rewrite (Forall_lookup_1 _ _ _ _ Hp Hk) in He.
Qed.

(** C16: [CloseAll] reaches every pump: once the handler has returned, no pump is
    left waiting on a live socket. A pump that has not passed its exchange holds
    a connection already flagged closed, so its next [recv] ends its loop. *)
Theorem teardown_wakes_every_pump v k p :
  tunnel_reach me ftgt v -> (Z.of_nat (allocated v) < 2 ^ 64)%Z ->
  returned v -> pumps v !! k = Some p ->
  p_pc p = PRecv \/ (exists d, p_pc p = PSend d) \/ p_pc p = PExchange ->
  exists c, heap (sess v) !! p_conn p = Some c /\ closed c = true.
Proof.
  intros Hr Hlt [He Ht] Hk Hpc. destruct (reach_conns v Hr Hlt) as [H0 _ H2 _ H4].
  assert (holder (fpc v) (pumps v) (p_id p) (p_conn p)) as Hh.
  { right; right. exists k, p. split_and!; try done. destruct Hpc as [-> | [[d ->] | ->]]; done. }
  destruct (lookup_lt_is_Some_2 _ _ (H0 _ _ Hh)) as [c Hc]. exists c. split; [done |].
  apply not_false_is_true. intros Ho.
  destruct (H2 _ _ Hh ltac:(by exists c)) as [Hm | Hi]; [rewrite Ht in Hm; set_solver |].
  assert (p_id p ∈ in_hand (fpc v)) as Hin.
  { destruct (H4 He ltac:(by rewrite Ht) _ _ Hi) as [-> | ->]; cbn; set_solver. }
  pose proof (ids_pumps _ (reach_ids v Hr Hlt)) as Hnd. apply NoDup_app in Hnd as (_ & Hnd & _).
  apply (Hnd (p_id p)); [| done]. apply list_elem_of_fmap. exists p. split; [done |].
  by eapply list_elem_of_lookup_2.
Qed.
End Conns.
