(* ===== verification/TunnelSplice.v ===== *)
(** * TunnelSplice: a read loop that writes streams to sockets

    Both ends of a tunnel do the same thing with the frames they read: a DATA
    frame is looked up in the stream table and written, whole or in parts, to
    that stream's socket, while pumps and closes take streams out of the table
    and new ones are put in.  This file states what that keeps of the bytes, on
    a view the two ends share: the frames read, the table, the sockets with what
    each has taken, the streams about to get one, and the work in hand. *)

From S2P Require Import Prelude CString TunnelNet TunnelSession TunnelProofs.

(** What the handler has in hand for a stream. *)
Inductive Work := WNone | WGet (i : Z) (d : string) | WWrite (h : nat) (i : Z) (d : string) | WErase (i : Z).
Definition busy (i : Z) (w : Work) : Prop :=
  match w with WGet j _ | WWrite _ j _ | WErase j => i = j | WNone => False end.
Definition frame_work (f : Frame) : Work :=
  match ftype f with
  | DATA => WGet (stream_id f) (fdata f)
  | CLOSE => WErase (stream_id f)
  | _ => WNone
  end.

(** [got] is what has been read, [n] the number of connections there have been. *)
Record splice_ok (got : list Frame) (cs : gmap Z nat) (sk : list (Z * string)) (n : nat)
    (pending : list Z) (w : Work) : Prop := {
  sp_len : length sk = n;
  sp_table : forall i h, cs !! i = Some h -> exists o, sk !! h = Some (i, o);
  sp_ids : NoDup (sk.*1 ++ pending);
  sp_fresh : forall i, i ∈ pending -> sent_data i got = "";
  sp_prefix : forall h i o, sk !! h = Some (i, o) -> exists r, sent_data i got = o +:+ r;
  sp_write : forall h i d, w = WWrite h i d -> exists o, sk !! h = Some (i, o) /\ sent_data i got = o +:+ d;
  sp_tail : forall i d, w = WGet i d -> exists p, sent_data i got = p +:+ d;
  sp_get : forall i d h o, w = WGet i d -> cs !! i = Some h -> sk !! h = Some (i, o) ->
    sent_data i got = o +:+ d;
  sp_sync : forall i h o, cs !! i = Some h -> sk !! h = Some (i, o) -> ~ busy i w ->
    sent_data i got = o
}.

Lemma sent_data_snoc i fs f :
  sent_data i (fs ++ [f]) =
  sent_data i fs +:+ (if decide (ftype f = DATA /\ stream_id f = i) then fdata f else "").
Proof.
  rewrite sent_data_app. unfold sent_data at 2. cbn.
  case_decide; [by rewrite str_app_nil_r | done].
Qed.

Lemma app_eq_empty a b : a +:+ b = "" -> b = "".
Proof. by destruct a. Qed.

Lemma sock_ids_inj (l : list (Z * string)) h h' i o o' :
  NoDup l.*1 -> l !! h = Some (i, o) -> l !! h' = Some (i, o') -> h = h'.
Proof.
  intros Hn H1 H2. apply (NoDup_lookup _ _ _ i Hn); by rewrite list_lookup_fmap, ?H1, ?H2.
Qed.

Lemma alter_ids (h : nat) (o : string) (sk : list (Z * string)) :
  (alter (fun x => (x.1, x.2 +:+ o)) h sk).*1 = sk.*1.
Proof. rewrite (list_fmap_alter _ _ id); [by apply list_alter_id |]. by apply Forall_true. Qed.

(** Nothing has happened yet. *)
Lemma splice_init : splice_ok [] ∅ [] 0 [] WNone.
Proof. split; try done; try constructor; set_solver. Qed.

(** Streams leave the table, one that was pending is given up, and work for
    streams no longer there is put down. *)
Lemma splice_shrink got cs cs' sk n pd pd' w w' :
  splice_ok got cs sk n pd w ->
  (forall i h, cs' !! i = Some h -> cs !! i = Some h) -> pd' = pd \/ pd' = [] ->
  w' = w \/ (w' = WNone /\ forall i h, cs' !! i = Some h -> ~ busy i w) ->
  splice_ok got cs' sk n pd' w'.
Proof.
  intros [H1 H2 H3 H4 H5 H6 H7 H8 H9] Hc Hp Hw.
  assert (forall i, i ∈ pd' -> i ∈ pd) as Hin by (destruct Hp as [-> | ->]; set_solver).
  split; eauto.
  - destruct Hp as [-> | ->]; [done |]. rewrite app_nil_r. by apply NoDup_app in H3 as [? _].
  - intros h i d ->. by destruct Hw as [<- | [? _]]; [apply H6 |].
  - intros i d ->. by destruct Hw as [<- | [? _]]; [apply H7 |].
  - intros i d h o -> Hi. destruct Hw as [<- | [? _]]; [apply H8; auto | done].
  - intros i h o Hi Hs Hb. apply (H9 i h o); auto. destruct Hw as [<- | [_ Hw]]; eauto.
Qed.

(** A new stream is about to be added. *)
Lemma splice_pend got cs sk n w i :
  splice_ok got cs sk n [] w -> i ∉ sk.*1 -> sent_data i got = "" -> splice_ok got cs sk n [i] w.
Proof.
  intros [H1 H2 H3 H4 H5 H6 H7 H8 H9] Hi Hd. split; try done.
  - rewrite app_nil_r in H3. apply NoDup_app. split; [done |]. split; [| apply NoDup_singleton].
    intros j Hj ->%list_elem_of_singleton. done.
  - by intros j ->%list_elem_of_singleton.
Qed.

(** It is added: the connection is new, and nothing has come for it. *)
Lemma splice_add got cs sk n w i :
  splice_ok got cs sk n [i] w -> splice_ok got (<[i := n]> cs) (sk ++ [(i, "")]) (S n) [] w.
Proof.
  intros [H1 H2 H3 H4 H5 H6 H7 H8 H9].
  assert (sent_data i got = "") as Hi by (apply H4; set_solver).
  assert (forall h x, (sk ++ [(i, "")]) !! h = Some x ->
    sk !! h = Some x \/ (h = n /\ x = (i, ""))) as Hl.
  { intros h x [Hx | [El Hx]]%lookup_app_Some; [by left | right].
    apply list_lookup_singleton_Some in Hx as [E <-]. split; [lia | done]. }
  assert (forall h, sk !! n = Some h -> False) as Hn by (intros h ?%lookup_lt_Some; lia).
  split.
  - rewrite List.length_app. cbn. lia.
  - intros j h Hj. apply lookup_insert_Some in Hj as [[<- <-] | [_ Hj]].
    + exists "". by rewrite lookup_app_r, H1, Nat.sub_diag by lia.
    + destruct (H2 _ _ Hj) as [o Ho]. exists o. by apply lookup_app_l_Some.
  - by rewrite fmap_app, app_nil_r.
  - set_solver.
  - intros h j o Hs. destruct (Hl _ _ Hs) as [Hs' | [_ [= -> ->]]]; [by eapply H5 | by exists ""].
  - intros h j d E. destruct (H6 _ _ _ E) as (o & Ho & Eo). exists o.
    split; [by apply lookup_app_l_Some | done].
  - done.
  - intros j d h o E Hj Hs. apply lookup_insert_Some in Hj as [[<- <-] | [_ Hj]].
    + destruct (Hl _ _ Hs) as [Hs' | [_ [= ->]]]; [by apply Hn in Hs' |].
      destruct (H7 _ _ E) as [p Ep]. rewrite Hi in *. by rewrite (app_eq_empty p d).
    + destruct (H2 _ _ Hj) as [o' Ho]. destruct (Hl _ _ Hs) as [Hs' | [-> _]]; [eauto | by apply Hn in Ho].
  - intros j h o Hj Hs Hb. apply lookup_insert_Some in Hj as [[<- <-] | [_ Hj]].
    + destruct (Hl _ _ Hs) as [Hs' | [_ [= ->]]]; [by apply Hn in Hs' | done].
    + destruct (H2 _ _ Hj) as [o' Ho]. destruct (Hl _ _ Hs) as [Hs' | [-> _]]; [eauto | by apply Hn in Ho].
Qed.

(** A frame arrives while the handler is idle, with nothing for a pending stream. *)
Lemma splice_read got cs sk n pd f :
  splice_ok got cs sk n pd WNone -> (ftype f = DATA -> stream_id f ∈ pd -> fdata f = "") ->
  splice_ok (got ++ [f]) cs sk n pd (frame_work f).
Proof.
  intros [H1 H2 H3 H4 H5 H6 H7 H8 H9] Hf.
  assert (forall i, ~ busy i (frame_work f) -> sent_data i (got ++ [f]) = sent_data i got) as Hq.
  { intros i Hb. rewrite sent_data_snoc, decide_False; [apply str_app_nil_r |].
    intros [E <-]. apply Hb. unfold frame_work. by rewrite E. }
  assert (forall i d, frame_work f = WGet i d -> sent_data i (got ++ [f]) = sent_data i got +:+ d) as Hg.
  { intros i d E. rewrite sent_data_snoc. unfold frame_work in E. destruct (ftype f); try done.
    injection E as <- <-. by rewrite decide_True. }
  split; try done.
  - intros i Hi. destruct (decide (ftype f = DATA /\ stream_id f = i)) as [[Ed <-] | Hn].
    + rewrite sent_data_snoc, decide_True, H4 by done. by apply Hf.
    + rewrite sent_data_snoc, decide_False, H4 by done. done.
  - intros h i o Hs. destruct (H5 _ _ _ Hs) as [r E].
    rewrite sent_data_snoc, E, str_app_assoc. by eexists.
  - intros h i d E. unfold frame_work in E. by destruct (ftype f).
  - intros i d E. rewrite (Hg _ _ E). by eexists.
  - intros i d h o E Hi Hs. by rewrite (Hg _ _ E), (H9 i h o Hi Hs ltac:(tauto)).
  - intros i h o Hi Hs Hb. rewrite Hq by done. by apply (H9 i h o Hi Hs ltac:(tauto)).
Qed.

(** The stream is in the table: its socket is to be written. *)
Lemma splice_get got cs sk n pd i d h :
  splice_ok got cs sk n pd (WGet i d) -> cs !! i = Some h -> splice_ok got cs sk n pd (WWrite h i d).
Proof.
  intros [H1 H2 H3 H4 H5 H6 H7 H8 H9] Hg. destruct (H2 _ _ Hg) as [o Ho].
  split; try done. intros h' j d' [= <- <- <-]. exists o. split; [done |]. by eapply H8.
Qed.

(** A socket takes its stream's data, all of it or a part. *)
Lemma splice_write got cs sk n pd h i d o r :
  splice_ok got cs sk n pd (WWrite h i d) -> (exists t, d = o +:+ t) -> (r = Some true -> o = d) ->
  splice_ok got cs (alter (fun x => (x.1, x.2 +:+ o)) h sk) n pd
    (match r with
     | Some true => WNone
     | Some false => WErase i
     | None => WWrite h i (str_drop (String.length o) d)
     end).
Proof.
  intros [H1 H2 H3 H4 H5 H6 H7 H8 H9] [t Hd] Hfull.
  destruct (H6 _ _ _ eq_refl) as (o0 & Hs0 & Hsent).
  set (g := fun x : Z * string => (x.1, x.2 +:+ o)).
  assert (forall h' x, alter g h sk !! h' = Some x ->
    (h' = h /\ x = (i, o0 +:+ o)) \/ (h' <> h /\ sk !! h' = Some x)) as Hl.
  { intros h' x. destruct (decide (h' = h)) as [-> | Hn].
    - rewrite list_lookup_alter_eq, Hs0. cbn. intros [= <-]. by left.
    - rewrite list_lookup_alter_ne by done. by right. }
  assert ((alter g h sk).*1 = sk.*1) as Eids by apply alter_ids.
  split; rewrite ?Eids; try done.
  - by rewrite length_alter.
  - intros j h' Hj. destruct (H2 _ _ Hj) as [o' Ho']. destruct (decide (h' = h)) as [-> | Hn].
    + exists (o0 +:+ o). rewrite list_lookup_alter_eq, Ho'. unfold g. cbn. congruence.
    + exists o'. by rewrite list_lookup_alter_ne.
  - intros h' j o' Hs. destruct (Hl _ _ Hs) as [[-> [= -> ->]] | [_ Hs']]; [| by eapply H5].
    exists t. by rewrite Hsent, Hd, str_app_assoc.
  - intros h' j d' E. destruct r as [[] |]; [done | done |].
    injection E as <- <- <-. exists (o0 +:+ o). split; [by rewrite list_lookup_alter_eq, Hs0 |].
    by rewrite Hsent, Hd, str_app_assoc, str_drop_app_length.
  - intros j d' E. by destruct r as [[] |].
  - intros j d' h' o' E. by destruct r as [[] |].
  - intros j h' o' Hj Hs Hb. destruct (Hl _ _ Hs) as [[-> [= -> ->]] | [Hn Hs']].
    + destruct r as [[] |]; cbn in Hb; [| done | done]. by rewrite (Hfull eq_refl).
    + apply (H9 _ _ _ Hj Hs'). cbn. intros ->. apply Hn.
      apply NoDup_app in H3 as [H3 _]. by eapply sock_ids_inj.
Qed.
