(* ===== verification/TunnelClient.v ===== *)
(** * TunnelClient: the edge's end of the tunnel (grpc-tunnel/src/tunnel_client.cc).

    [RunTunnel] over the same [Session] and pumps as the server: registering,
    the keepalive thread, dialling the local service for every OPEN that names
    this client, and unwinding.  As in TunnelSession the handler's work on a
    frame is a list of critical sections, and [client_step] interleaves them
    with the keepalive and the pumps.  The frames [Read] gives are the list
    [wire]; dialling is the operating system's. *)

From S2P Require Import Prelude CString TunnelNet TunnelSession.

(** ** The code *)

Definition register_frame (t : string) : Frame := mkFrame 0 REGISTER "" t "".
Definition keepalive_frame : Frame := mkFrame 0 KEEPALIVE "" "" "".

Inductive CAct :=
| CRegister                               (* sess->Send(reg) *)
| CKeepalive                              (* Keepalive keepalive(sess, keepalive_s) *)
| CSend (f : Frame)
| CDial (i : Z)                           (* DialTcp(echo_host, echo_port) *)
| CAdd (i : Z) (f : Z)                    (* sess->AddConn(id, fd) *)
| CSpawn (i : Z) (h : nat)
| CGet (i : Z) (d : string)
| CWrite (h : nat) (i : Z) (d : string)
| CErase (i : Z)
| CMark (h : nat)
| CShutdown
| CTakeAll
| CStop                                   (* ~Keepalive: stop_ = true *)
| CJoin.                                  (* ~Keepalive: thread_.join() *)

(** The loop of [Keepalive]'s thread; [KNone] before it is built. *)
Inductive KPc := KNone | KWait | KSend | KDone.

Record Client := mkClient {
  c_sess : Session;
  c_todo : list CAct;
  c_ended : bool;                (* past the read loop *)
  c_seen : nat;                  (* frames read *)
  c_pumps : list Pump;
  c_socks : list (Z * string);   (* per connection: its stream, and what its socket has taken *)
  c_ka : KPc;
  c_stop : bool
}.

(** The switch of [RunTunnel]. *)
Definition c_on_frame (target : string) (f : Frame) : list CAct :=
  match ftype f with
  | OPEN =>
      if negb (String.eqb (ftarget f) "") && negb (String.eqb (ftarget f) target)
      then [CSend (close_frame (stream_id f) "target mismatch")]
      else [CDial (stream_id f)]
  | DATA => [CGet (stream_id f) (fdata f)]
  | CLOSE => [CErase (stream_id f)]
  | _ => []
  end.
(** After the loop, and the end of the function's scope. *)
Definition c_unwind : list CAct := [CShutdown; CTakeAll; CStop; CJoin].

Definition with_c_todo (l : list CAct) (c : Client) : Client :=
  mkClient (c_sess c) l (c_ended c) (c_seen c) (c_pumps c) (c_socks c) (c_ka c) (c_stop c).
Definition with_c_sess (s : Session) (c : Client) : Client :=
  mkClient s (c_todo c) (c_ended c) (c_seen c) (c_pumps c) (c_socks c) (c_ka c) (c_stop c).
Definition with_c_ka (k : KPc) (c : Client) : Client :=
  mkClient (c_sess c) (c_todo c) (c_ended c) (c_seen c) (c_pumps c) (c_socks c) k (c_stop c).
Definition with_c_pumps (ps : list Pump) (c : Client) : Client :=
  mkClient (c_sess c) (c_todo c) (c_ended c) (c_seen c) ps (c_socks c) (c_ka c) (c_stop c).
Definition with_c_socks (l : list (Z * string)) (c : Client) : Client :=
  mkClient (c_sess c) (c_todo c) (c_ended c) (c_seen c) (c_pumps c) l (c_ka c) (c_stop c).

(** The next critical section of [RunTunnel]: [dial] is what [DialTcp] returns
    ([None] below zero). *)
Definition c_run (target : string) (wok : bool) (outcomes : list SendResult) (dial : option Z)
    (a : CAct) (c : Client) : Client * list CAct :=
  match a with
  | CRegister =>
      let '(sent, s) := Send wok (register_frame target) (c_sess c) in
      (mkClient s (c_todo c) (negb sent) (c_seen c) (c_pumps c) (c_socks c) (c_ka c) (c_stop c),
       if sent : bool then [CKeepalive] else [CShutdown])
  | CKeepalive => (with_c_ka KWait c, [])
  | CSend f => (with_c_sess (Send wok f (c_sess c)).2 c, [])
  | CDial i =>
      (c, match dial with Some fd => [CAdd i fd] | None => [CSend (close_frame i "local dial failed")] end)
  | CAdd i fd =>
      let '(h, s) := AddConn i fd (c_sess c) in
      (with_c_socks (c_socks c ++ [(i, "")]) (with_c_sess s c), [CSpawn i h])
  | CSpawn i h => (with_c_pumps (c_pumps c ++ [mkPump i h PRecv ""]) c, [])
  | CGet i d =>
      (c, match GetConn i (c_sess c) with
          | None => [CSend (close_frame i "")]
          | Some h => [CWrite h i d]
          end)
  | CWrite h i d =>
      let '(o, r) := WriteAll outcomes d in
      (with_c_socks (alter (fun x => (x.1, x.2 +:+ o)) h (c_socks c)) c,
       match r with
       | Some true => []
       | Some false => [CErase i; CSend (close_frame i "local write failed")]
       | None => [CWrite h i (str_drop (String.length o) d)]
       end)
  | CErase i =>
      (with_c_sess (EraseConn i (c_sess c)) c,
       match GetConn i (c_sess c) with Some h => [CMark h] | None => [] end)
  | CMark h => (with_c_sess (MarkClosed h (c_sess c)) c, [])
  | CShutdown => (with_c_sess (Shutdown (c_sess c)) c, [])
  | CTakeAll => let '(hs, s) := TakeConns (c_sess c) in (with_c_sess s c, CMark <$> hs)
  | CStop =>
      (mkClient (c_sess c) (c_todo c) (c_ended c) (c_seen c) (c_pumps c) (c_socks c) (c_ka c) true, [])
  | CJoin => (c, [])
  end.

Inductive client_step (target : string) (wire : list Frame) : Client -> Client -> Prop :=
| c_read c f :
    c_todo c = [] -> c_ended c = false -> wire !! c_seen c = Some f ->
    client_step target wire c
      (mkClient (c_sess c) (c_on_frame target f) false (S (c_seen c)) (c_pumps c) (c_socks c)
                (c_ka c) (c_stop c))
| c_eof c :
    c_todo c = [] -> c_ended c = false ->
    client_step target wire c
      (mkClient (c_sess c) c_unwind true (c_seen c) (c_pumps c) (c_socks c) (c_ka c) (c_stop c))
| c_act c a rest wok outcomes dial c' more :
    c_todo c = a :: rest ->
    (a = CStop -> c_ka c <> KSend) ->      (* the thread holds mu_ while it sends *)
    (a = CJoin -> c_ka c = KDone) ->
    c_run target wok outcomes dial a c = (c', more) ->
    client_step target wire c (with_c_todo (more ++ rest) c')
| c_timeout c :
    c_ka c = KWait -> c_stop c = false -> client_step target wire c (with_c_ka KSend c)
| c_wake c :
    c_ka c = KWait -> c_stop c = true -> client_step target wire c (with_c_ka KDone c)
| c_ka_send c wok :
    c_ka c = KSend ->
    client_step target wire c
      (with_c_ka (if (Send wok keepalive_frame (c_sess c)).1 then KWait else KDone)
                 (with_c_sess (Send wok keepalive_frame (c_sess c)).2 c))
| c_pump c k p s p' :
    c_pumps c !! k = Some p -> pump_step (c_sess c) p s p' ->
    client_step target wire c (with_c_pumps (<[k := p']> (c_pumps c)) (with_c_sess s c)).

(** [RunTunnel] has just connected. *)
Definition client_start : Client := mkClient Session_init [CRegister] false 0 [] [] KNone false.
Definition client_reach (target : string) (wire : list Frame) : Client -> Prop :=
  rtc (client_step target wire) client_start.
