(* ===== verification/TunnelEnd.v ===== *)
(** * TunnelEnd: the two ends of a tunnel together

    The client's side of a session (TunnelClient): how it unwinds and whose
    streams it dials.  And the path of the bytes one way: what the client writes
    to the socket it dialled for a stream is what the server's pump reads from the
    application's connection, in order.  TunnelPipe has both ways. *)

From S2P Require Import Prelude CString TunnelNet TunnelSession TunnelProofs TunnelSplice TunnelClient.

(** ** What the server puts on the wire *)

(** Every DATA frame follows the OPEN of its stream. *)
Definition announced (fs : list Frame) : Prop :=
  forall n f, fs !! n = Some f -> ftype f = DATA -> stream_id f ∈ opened (take n fs).

Lemma announced_nil : announced [].
Proof. intros n f Hn. done. Qed.

Lemma announced_snoc fs f :
  announced fs -> (ftype f = DATA -> stream_id f ∈ opened fs) -> announced (fs ++ [f]).
Proof.
  intros Ha Hf n g Hn Hg. apply lookup_app_Some in Hn as [Hn | [Hl Hn]].
  - rewrite take_app_le by (apply lookup_lt_Some in Hn; lia). by apply Ha.
  - apply list_lookup_singleton_Some in Hn as [E <-].
    rewrite take_app_ge, opened_app by lia. apply elem_of_app. left. by apply Hf.
Qed.

Lemma announced_take fs n : announced fs -> announced (take n fs).
Proof.
  intros Ha m f Hm Hf. apply lookup_take_Some in Hm as [Hm Hl].
  rewrite take_take, Nat.min_l by lia. by apply Ha.
Qed.

Record wire_ok (v : Server) : Prop := {
  wire_announced : announced (written (sess v));
  wire_pumps : forall k p, pumps v !! k = Some p -> p_id p ∈ opened (written (sess v));
  wire_spawn : forall i h, fpc v = FSpawn i h -> i ∈ opened (written (sess v))
}.

Lemma opened_mono wok f s i : i ∈ opened (written s) -> i ∈ opened (written (Send wok f s).2).
Proof.
  rewrite Send_written. destruct (alive s); [| done]. rewrite opened_app, elem_of_app. auto.
Qed.

Lemma announced_Send wok f s :
  announced (written s) -> (ftype f = DATA -> stream_id f ∈ opened (written s)) ->
  announced (written (Send wok f s).2).
Proof. rewrite Send_written. destruct (alive s); auto using announced_snoc. Qed.

(** What a step of the handler writes is no DATA. *)
Lemma act_run_wire me wok outcomes a v v' more :
  act_run me wok outcomes a v = (v', more) ->
  pumps v' = pumps v /\ fpc v' = fpc v /\
  (sess v' = sess v \/ written (sess v') = written (sess v) \/
   exists f, ftype f <> DATA /\ sess v' = (Send wok f (sess v)).2).
Proof.
  destruct a; cbn; intros Hr; injection Hr as <- <-; cbn; split_and!; try done; auto;
    do 2 right; eexists; split; try done; done.
Qed.

Lemma wire_ext v w :
  wire_ok v -> announced (written (sess w)) ->
  (forall i, i ∈ opened (written (sess v)) -> i ∈ opened (written (sess w))) ->
  (forall k q, pumps w !! k = Some q -> (exists j p, pumps v !! j = Some p /\ p_id q = p_id p) \/
     exists h, fpc v = FSpawn (p_id q) h) ->
  (forall i h, fpc w = FSpawn i h -> fpc v = FSpawn i h \/ i ∈ opened (written (sess w))) ->
  wire_ok w.
Proof.
  intros [H1 H2 H3] Ha Ho Hp Hs. split; [done | |].
  - intros k q Hk. apply Ho. destruct (Hp _ _ Hk) as [(j & p & Hj & ->) | [h Hh]]; eauto.
  - intros i h Hf. destruct (Hs _ _ Hf); eauto.
Qed.

Ltac pump_case Hins Hk :=
  eapply wire_ext; [eassumption | ..]; cbn;
  [| | intros ? ? Hj; by eapply Hins; [exact Hk | | exact Hj] | by auto];
  try done; try (intros ?; apply opened_mono); apply announced_Send; try done.

Section Wire.
Context {me : nat} {ftgt : string}.

Lemma wire_step v v' : wire_ok v -> tstep me ftgt v v' -> wire_ok v'.
Proof.
  intros Hw Hs. pose proof (wire_announced _ Hw) as Ha.
  assert (forall k p q, pumps v !! k = Some p -> p_id q = p_id p ->
    forall j r, <[k := q]> (pumps v) !! j = Some r ->
      (exists j p, pumps v !! j = Some p /\ p_id r = p_id p) \/ exists h, fpc v = FSpawn (p_id r) h)
    as Hins.
  { intros k p q Hk E j r Hj. left.
    destruct (lookup_insert_pump _ _ _ _ _ _ Hk Hj) as [[-> ->] | [_ Hj']]; eauto. }
  assert (forall k q, pumps v !! k = Some q ->
      (exists j p, pumps v !! j = Some p /\ p_id q = p_id p) \/ exists h, fpc v = FSpawn (p_id q) h)
    as Hsame by eauto.
  destruct Hs as [| ? ? [| | ? ? ? ? ? ? ? ? Hr] | | | ? ? [| | w i h wok Hf | ? i Hf | | ? i h Hf]
    | ? k p ? ? Hk [| | d wok Hpc | | | wok Hpc]];
    try (apply (wire_ext _ _ Hw); cbn; eauto; done).
  - destruct (act_run_wire _ _ _ _ _ _ _ Hr) as (Ep & Ef & Es).
    apply (wire_ext _ _ Hw); cbn; rewrite ?Ep, ?Ef; auto.
    + destruct Es as [-> | [-> | (f & Hf & ->)]]; [done | done | by apply announced_Send].
    + intros i. destruct Es as [-> | [-> | (f & Hf & ->)]]; [done | done | apply opened_mono].
  - apply (wire_ext _ _ Hw); cbn; auto. intros i h. by case_decide.
  - apply (wire_ext _ _ Hw); cbn; auto.
    + by apply announced_Send.
    + intros j. apply opened_mono.
    + intros j h' E. right. rewrite Send_written. unfold Send in E.
      destruct (alive (sess w)); cbn in *; [| done]. rewrite opened_app, opened_open.
      destruct wok; [| done]. injection E as -> _. set_solver.
  - apply (wire_ext _ _ Hw); cbn; auto. intros j h. by case_match.
  - apply (wire_ext _ _ Hw); cbn; auto; [| done].
    intros k q Hk. apply lookup_app_Some in Hk as [Hk | [_ Hk]]; [eauto |].
    apply list_lookup_singleton_Some in Hk as [_ <-]. eauto.
  - pump_case Hins Hk.
  - pump_case Hins Hk.
  - pump_case Hins Hk. intros _. by eapply wire_pumps.
  - pump_case Hins Hk.
  - pump_case Hins Hk.
  - pump_case Hins Hk.
Qed.

Lemma reach_wire v : tunnel_reach me ftgt v -> wire_ok v.
Proof.
  apply reach_ind.
  - intros r v0 [-> _]. split; [apply announced_nil | done | done].
  - intros w w' _. apply wire_step.
Qed.
End Wire.

(** ** How the client unwinds *)

Definition c_returned (c : Client) : Prop := c_ended c = true /\ c_todo c = [].
(** The keepalive thread has not been started, or has ended. *)
Definition ka_over (c : Client) : Prop := c_ka c = KNone \/ c_ka c = KDone.

Definition c_plain (a : CAct) : Prop :=
  match a with CRegister | CShutdown | CTakeAll | CStop | CJoin => False | _ => True end.

Inductive c_phase (c : Client) : Prop :=
| cp_start : c_ended c = false -> c_todo c = [CRegister] -> c_ka c = KNone -> c_phase c
| cp_serving : c_ended c = false -> Forall c_plain (c_todo c) -> c_phase c
| cp_refused : c_ended c = true -> c_todo c = [CShutdown] -> c_ka c = KNone -> c_phase c
| cp_unwind : c_ended c = true -> c_todo c = c_unwind -> c_phase c
| cp_take : c_ended c = true -> alive (c_sess c) = false -> c_todo c = [CTakeAll; CStop; CJoin] -> c_phase c
| cp_mark hs : c_ended c = true -> alive (c_sess c) = false ->
    c_todo c = (CMark <$> hs) ++ [CStop; CJoin] -> c_phase c
| cp_join : c_ended c = true -> alive (c_sess c) = false -> c_todo c = [CJoin] -> c_phase c
| cp_done : c_ended c = true -> alive (c_sess c) = false -> c_todo c = [] -> ka_over c -> c_phase c.

(** What the keepalive and the pumps leave alone. *)
Lemma c_phase_ext c c' :
  c_phase c -> c_ended c' = c_ended c -> c_todo c' = c_todo c ->
  alive (c_sess c') = alive (c_sess c) ->
  (c_ka c = KNone -> c_ka c' = KNone) -> (c_ka c = KDone -> c_ka c' = KDone) -> c_phase c'.
Proof.
  intros Hp E1 E2 E3 Hn Hd.
  destruct Hp as [? ? ? | ? ? | ? ? ? | ? ? | ? ? ? | hs ? ? ? | ? ? ? | ? ? ? Hk];
    [apply cp_start | apply cp_serving | apply cp_refused | apply cp_unwind | apply cp_take
     | apply (cp_mark _ hs) | apply cp_join | apply cp_done]; rewrite ?E1, ?E2, ?E3; auto.
  destruct Hk; [left | right]; auto.
Qed.

Lemma pump_step_alive s p s' p' : pump_step s p s' p' -> alive s' = alive s.
Proof. intros []; autorewrite with tunnel; done. Qed.

Lemma pump_step_dead s p s' p' :
  pump_step s p s' p' -> alive s = false -> written s' = written s.
Proof. intros [] Ha; rewrite ?Send_written, ?Ha; done. Qed.

Lemma c_on_frame_plain t f : Forall c_plain (c_on_frame t f).
Proof. unfold c_on_frame. repeat case_match; repeat constructor. Qed.

Lemma c_run_serving target wok outcomes dial a c c' more :
  c_run target wok outcomes dial a c = (c', more) -> c_plain a ->
  c_ended c' = c_ended c /\ Forall c_plain more.
Proof.
  intros Hr Ha. destruct a; try done; cbn in Hr;
    try (destruct (WriteAll outcomes d) as [o r]); injection Hr as <- <-; cbn;
    (split; [done |]); repeat case_match; repeat constructor.
Qed.

Section ClientRun.
Context {target : string} {wire : list Frame}.

Lemma c_phase_act c a rest wok outcomes dial c' more :
  c_phase c -> c_todo c = a :: rest -> (a = CJoin -> c_ka c = KDone) ->
  c_run target wok outcomes dial a c = (c', more) -> c_phase (with_c_todo (more ++ rest) c').
Proof.
  intros Hp Ht Hj Hr.
  destruct Hp as [He Hf Hk | He Hf | He Hf Hk | He Hf | He Ha Hf | hs He Ha Hf | He Ha Hf | ? ? Hf ?];
    rewrite Ht in Hf; try done.
  - injection Hf as -> ->. cbn in Hr. unfold Send in Hr.
    destruct (alive (c_sess c)) eqn:Ea; cbn in Hr; injection Hr as <- <-.
    + destruct wok; [apply cp_serving | apply cp_refused]; cbn; try done. repeat constructor.
    + by apply cp_refused.
  - apply Forall_cons in Hf as [Hpl Hf]. destruct (c_run_serving _ _ _ _ _ _ _ _ Hr Hpl) as [E Hm].
    apply cp_serving; cbn; [by rewrite E | by apply Forall_app].
  - injection Hf as -> ->. cbn in Hr. injection Hr as <- <-. apply cp_done; try done. by left.
  - injection Hf as -> ->. cbn in Hr. injection Hr as <- <-. by apply cp_take.
  - injection Hf as -> ->. cbn in Hr. injection Hr as <- <-. by eapply cp_mark.
  - destruct hs as [| h hs]; injection Hf as -> ->; cbn in Hr; injection Hr as <- <-.
    + by apply cp_join.
    + by apply (cp_mark _ hs).
  - injection Hf as -> ->. cbn in Hr. injection Hr as <- <-. apply cp_done; try done. right. by apply Hj.
Qed.

Lemma c_phase_step c c' : c_phase c -> client_step target wire c c' -> c_phase c'.
Proof.
  intros Hp Hs. destruct Hs as [c f Ht He _ | c Ht He | c a rest wok outcomes dial c' more Ht _ Hj Hr
    | c Hk _ | c Hk _ | c wok Hk | c k p s p' _ Hps].
  - apply cp_serving; [done | apply c_on_frame_plain].
  - by apply cp_unwind.
  - by eapply c_phase_act.
  - eapply c_phase_ext; [exact Hp | ..]; cbn; congruence.
  - eapply c_phase_ext; [exact Hp | ..]; cbn; congruence.
  - eapply c_phase_ext; [exact Hp | ..]; cbn; autorewrite with tunnel; congruence.
  - apply (c_phase_ext c); cbn; auto. by eapply pump_step_alive.
Qed.

Lemma client_ind (P : Client -> Prop) :
  P client_start ->
  (forall c c', client_reach target wire c -> P c -> client_step target wire c c' -> P c') ->
  forall c, client_reach target wire c -> P c.
Proof.
  intros H0 Hs. refine (rtc_ind_r (fun c => P c) client_start H0 _).
  intros c1 c2 Hc Hstep IH. by eapply Hs.
Qed.

Lemma reach_c_phase c : client_reach target wire c -> c_phase c.
Proof. apply client_ind; [by apply cp_start |]. intros c1 c2 _. apply c_phase_step. Qed.

Lemma c_returned_phase c :
  c_phase c -> c_returned c -> alive (c_sess c) = false /\ ka_over c.
Proof.
  intros Hp [He Ht]. destruct Hp as [| | | ? Hf | ? ? Hf | hs ? ? Hf | |]; try congruence; try done;
    rewrite Hf in Ht; [done | by destruct hs].
Qed.

(** After the return nothing but pumps moves, on a dead session. *)
Lemma c_returned_step c c' :
  c_returned c -> alive (c_sess c) = false -> ka_over c -> client_step target wire c c' ->
  c_returned c' /\ alive (c_sess c') = false /\ ka_over c'
  /\ written (c_sess c') = written (c_sess c).
Proof.
  intros [He Ht] Ha Hk Hs. destruct Hs; try congruence.
  - destruct Hk; congruence.
  - destruct Hk; congruence.
  - destruct Hk; congruence.
  - cbn. split_and!; [done | | done |]; [by erewrite pump_step_alive | by eapply pump_step_dead].
Qed.

(** C17: The client leaves quietly: when [RunTunnel] has returned, registered or
    refused, the session is shut down, the keepalive thread was never started or
    has ended, and no pump still running hands another frame to the stream the
    function owned. *)
Theorem client_returns_quietly c :
  client_reach target wire c -> c_returned c ->
  alive (c_sess c) = false /\ ka_over c /\
  forall c', rtc (client_step target wire) c c' -> written (c_sess c') = written (c_sess c).
Proof.
  intros Hr Hret. destruct (c_returned_phase _ (reach_c_phase _ Hr) Hret) as [Ha Hk].
  split_and!; [done | done |]. intros c' Hrun. revert Hret Ha Hk.
  clear Hr. induction Hrun as [| x y z Hs _ IH]; intros Hret Ha Hk; [done |].
  destruct (c_returned_step _ _ Hret Ha Hk Hs) as (? & ? & ? & <-). auto.
Qed.

End ClientRun.

(** ** The bytes the client writes *)

(** An action that neither works on a stream's data nor adds a connection. *)
Definition quiet (a : CAct) : Prop :=
  match a with CDial _ | CAdd _ _ | CGet _ _ | CWrite _ _ _ | CErase _ => False | _ => True end.
(** The stream the handler is dialling for, and the data it has in hand. *)
Definition dialling (l : list CAct) : list Z :=
  match l with CDial i :: _ | CAdd i _ :: _ => [i] | _ => [] end.
Definition c_work (l : list CAct) : Work :=
  match l with
  | CGet i d :: _ => WGet i d | CWrite h i d :: _ => WWrite h i d | CErase i :: _ => WErase i
  | _ => WNone
  end.

(** An OPEN the client accepts. *)
Definition serves (target : string) (f : Frame) : Prop :=
  ftype f = OPEN /\ (ftarget f = "" \/ ftarget f = target).

(** [got] is what the client has read. *)
Record bytes_ok (target : string) (got : list Frame) (c : Client) : Prop := {
  by_tail : Forall quiet (tail (c_todo c));
  by_opened : forall i, i ∈ (c_socks c).*1 ++ dialling (c_todo c) ->
    exists f, f ∈ got /\ serves target f /\ stream_id f = i;
  by_splice : splice_ok got (conns (c_sess c)) (c_socks c) (length (heap (c_sess c)))
                (dialling (c_todo c)) (c_work (c_todo c))
}.

Lemma opened_one f : ftype f = OPEN -> opened [f] = [stream_id f].
Proof. intros E. unfold opened. cbn. by rewrite decide_True. Qed.

Lemma announced_silent i fs : announced fs -> i ∉ opened fs -> sent_data i fs = "".
Proof.
  induction fs as [| f fs IH] using rev_ind; [done |]. intros Ha Hi.
  rewrite opened_app, not_elem_of_app in Hi. destruct Hi as [Hi Hf].
  assert (announced fs) as Ha'.
  { replace fs with (take (length fs) (fs ++ [f])) by by apply take_app_length.
    by apply announced_take. }
  rewrite sent_data_snoc, IH, decide_False; [done | | done | done].
  intros [Ht <-]. apply Hi. specialize (Ha (length fs) f).
  rewrite take_app_length in Ha. apply Ha; [| done].
  by rewrite lookup_app_r, Nat.sub_diag by lia.
Qed.

Lemma opened_served target got i :
  (exists f, f ∈ got /\ serves target f /\ stream_id f = i) -> i ∈ opened got.
Proof.
  intros (f & Hf & [Ht _] & <-). apply list_elem_of_lookup in Hf as [n Hn].
  rewrite <- (take_drop_middle _ _ _ Hn), opened_app. apply elem_of_app. right.
  change (f :: drop (S n) got) with ([f] ++ drop (S n) got).
  rewrite opened_app, opened_one by done. set_solver.
Qed.

(** A quiet state has nothing in hand. *)
Lemma quiet_head l : Forall quiet l -> dialling l = [] /\ c_work l = WNone.
Proof. intros [| a r Ha _]; [done |]. by destruct a. Qed.

(** Streams leave the table, connections are marked, frames are sent, and the
    handler goes from one quiet state to another. *)
Lemma bytes_shrink target got c c' :
  bytes_ok target got c -> c_socks c' = c_socks c ->
  length (heap (c_sess c')) = length (heap (c_sess c)) ->
  (forall i h, conns (c_sess c') !! i = Some h -> conns (c_sess c) !! i = Some h) ->
  c_todo c' = c_todo c \/
    (Forall quiet (c_todo c') /\
     forall i h, conns (c_sess c') !! i = Some h -> ~ busy i (c_work (c_todo c))) ->
  bytes_ok target got c'.
Proof.
  intros [H1 H2 H3] Es El Ec [Et | [Hq Hb]].
  - split; rewrite ?Es, ?El, ?Et; [done | done |]. eapply splice_shrink; eauto.
  - destruct (quiet_head _ Hq) as [Ed Ew]. split; rewrite ?Es, ?El, ?Ed, ?Ew.
    + by destruct Hq.
    + intros i Hi. apply H2. rewrite app_nil_r in Hi. set_solver.
    + eapply splice_shrink; eauto.
Qed.

(** A frame arrives while the handler is idle. *)
Lemma bytes_read target got c f :
  bytes_ok target got c -> c_todo c = [] -> announced (got ++ [f]) -> NoDup (opened (got ++ [f])) ->
  bytes_ok target (got ++ [f])
    (mkClient (c_sess c) (c_on_frame target f) false (S (c_seen c)) (c_pumps c) (c_socks c)
              (c_ka c) (c_stop c)).
Proof.
  intros [_ H2 H3] Ht Ha Hnd. rewrite Ht in *. cbn in *.
  assert (dialling (c_on_frame target f) = [] \/
    (serves target f /\ dialling (c_on_frame target f) = [stream_id f])) as Hd.
  { unfold c_on_frame, serves. destruct (ftype f); try by left.
    destruct (String.eqb_spec (ftarget f) ""); [right; auto |].
    destruct (String.eqb_spec (ftarget f) target); [right; auto | by left]. }
  assert (c_work (c_on_frame target f) = frame_work f) as Ew.
  { unfold c_on_frame, frame_work. destruct (ftype f); try done. by case_match. }
  assert (forall i, (exists f, f ∈ got /\ serves target f /\ stream_id f = i) ->
    exists f', f' ∈ got ++ [f] /\ serves target f' /\ stream_id f' = i) as Hmono.
  { intros i (f' & ? & ?). exists f'. rewrite elem_of_app. auto. }
  pose proof (splice_read _ _ _ _ _ f H3 ltac:(set_solver)) as Hs.
  rewrite app_nil_r in H2.
  split; cbn.
  - unfold c_on_frame. repeat case_match; repeat constructor.
  - intros i Hi. apply elem_of_app in Hi as [Hi | Hi]; [by apply Hmono, H2 |].
    destruct Hd as [E | [E E']]; [rewrite E in Hi; set_solver |]. rewrite E' in Hi.
    apply list_elem_of_singleton in Hi as ->. exists f. rewrite elem_of_app. set_solver.
  - rewrite Ew. destruct Hd as [-> | [[E _] ->]]; [done |].
    rewrite opened_app, opened_one in Hnd by done. apply NoDup_app in Hnd as (_ & Hnd & _).
    assert (stream_id f ∉ opened got) as Hn by (intros Hin; apply (Hnd _ Hin); set_solver).
    apply splice_pend; [done | |].
    + intros Hi. by apply Hn, (opened_served target), H2.
    + rewrite sent_data_snoc, decide_False, str_app_nil_r by (intros [E' _]; congruence).
      apply announced_silent; [| done].
      replace got with (take (length got) (got ++ [f])) by by apply take_app_length.
      by apply announced_take.
Qed.

Lemma Forall_quiet_marks hs : Forall quiet (CMark <$> hs).
Proof. by apply Forall_fmap, Forall_true. Qed.

(** A quiet action gives no socket anything, and leaves quiet ones. *)
Lemma c_run_quiet target wok outcomes dial a c c' more :
  c_run target wok outcomes dial a c = (c', more) -> quiet a ->
  Forall quiet more /\ c_socks c' = c_socks c
  /\ length (heap (c_sess c')) = length (heap (c_sess c))
  /\ (forall i h, conns (c_sess c') !! i = Some h -> conns (c_sess c) !! i = Some h).
Proof.
  intros Hr Ha. destruct a; try done; cbn in Hr.
  - pose proof (Send_fields wok (register_frame target) (c_sess c)) as (_ & Ec & _ & Eh).
    destruct (Send wok (register_frame target) (c_sess c)) as [sent s]. injection Hr as <- <-.
    cbn in *. rewrite Ec, Eh. split_and!; try done. destruct sent; by repeat constructor.
  - by injection Hr as <- <-.
  - injection Hr as <- <-. cbn. autorewrite with tunnel. by split_and!.
  - by injection Hr as <- <-.
  - injection Hr as <- <-. cbn. rewrite length_alter. by split_and!.
  - by injection Hr as <- <-.
  - injection Hr as <- <-. cbn. split_and!; try done. apply Forall_quiet_marks.
  - by injection Hr as <- <-.
  - by injection Hr as <- <-.
Qed.

(** The loud ones, one by one. *)
Lemma bytes_act got target c a rest wok outcomes dial c' more :
  bytes_ok target got c -> c_todo c = a :: rest ->
  c_run target wok outcomes dial a c = (c', more) -> bytes_ok target got (with_c_todo (more ++ rest) c').
Proof.
  intros Hb Ht Hr. pose proof (by_tail _ _ _ Hb) as Hq. rewrite Ht in Hq. cbn in Hq.
  assert (quiet a \/ ~ quiet a) as [Ha | Ha] by (destruct a; cbn; tauto).
  { destruct (c_run_quiet _ _ _ _ _ _ _ _ Hr Ha) as (Hm & Es & El & Ec).
    apply (bytes_shrink target got c); cbn; try done. right. rewrite Ht, Forall_app.
    split; [done |]. intros i h _. destruct a; cbn in *; tauto. }
  destruct (quiet_head _ Hq) as [Qd Qw]. destruct Hb as [H1 H2 H3]. rewrite Ht in *.
  destruct a; try (by destruct Ha); cbn in Hr, H2, H3.
  - injection Hr as <- <-. destruct dial as [fd |]; [by split; rewrite ?Ht |].
    split; cbn; [done | |].
    + intros j Hj. apply H2. set_solver.
    + eapply splice_shrink; [exact H3 | done | by right | by left].
  - injection Hr as <- <-. split; cbn; [done | |].
    + intros j Hj. apply H2. by rewrite fmap_app, app_nil_r in Hj.
    + rewrite List.length_app, Nat.add_1_r. by apply splice_add.
  - injection Hr as <- <-. destruct (GetConn i (c_sess c)) as [h |] eqn:Hg; cbn.
    + split; [done | done |]. by eapply splice_get.
    + split; [done | done |]. cbn. eapply splice_shrink; [exact H3 | done | by left |].
      right. split; [done |]. cbn. intros j h Hj ->. unfold GetConn in Hg. congruence.
  - pose proof (WriteAll_prefix outcomes d) as Hw.
    destruct (WriteAll outcomes d) as [o r]. destruct Hw as [Hp Hf]. injection Hr as <- <-.
    pose proof (splice_write _ _ _ _ _ _ _ _ _ r H3 Hp Hf) as Hs.
    destruct r as [[] |]; (split; cbn; rewrite ?alter_ids, ?Qd, ?Qw; try done);
      [by destruct Hq | by constructor].
  - injection Hr as <- <-.
    assert (splice_ok got (delete i (conns (c_sess c))) (c_socks c) (length (heap (c_sess c))) [] WNone) as Hs.
    { eapply splice_shrink; [exact H3 | by intros j h [_ Hj]%lookup_delete_Some | by left |].
      right. split; [done |]. cbn. by intros j h [Hn _]%lookup_delete_Some ->. }
    destruct (GetConn i (c_sess c)); (split; cbn; rewrite ?Qd, ?Qw; try done). by destruct Hq.
Qed.

Lemma pump_step_shrinks s p s' p' :
  pump_step s p s' p' -> length (heap s') = length (heap s)
  /\ forall i h, conns s' !! i = Some h -> conns s !! i = Some h.
Proof.
  intros []; cbn; autorewrite with tunnel; rewrite ?length_alter; split; try done.
  intros i h Hi. by apply lookup_delete_Some in Hi as [_ Hi].
Qed.

Section ClientBytes.
Context {target : string} {wire : list Frame}.
Context (Hwire : announced wire) (Hopen : NoDup (opened wire)).

Lemma opened_take_NoDup n : NoDup (opened (take n wire)).
Proof.
  rewrite <- (take_drop n wire), opened_app in Hopen. by apply NoDup_app in Hopen as [? _].
Qed.

Lemma bytes_step c c' :
  bytes_ok target (take (c_seen c) wire) c -> client_step target wire c c' ->
  bytes_ok target (take (c_seen c') wire) c'.
Proof.
  intros Hb Hs.
  destruct Hs as [c f Ht He Hf | c Ht He | c a rest wok outcomes dial c' more Ht _ _ Hr
    | c Hk _ | c Hk _ | c wok Hk | c k p s p' _ Hps]; cbn.
  - rewrite (take_S_r _ _ _ Hf). apply bytes_read; [done | done | |]; rewrite <- (take_S_r _ _ _ Hf).
    + by apply announced_take.
    + apply opened_take_NoDup.
  - apply (bytes_shrink target _ c); cbn; try done. right. rewrite Ht. by split; [repeat constructor | cbn; auto].
  - assert (c_seen c' = c_seen c) as ->.
    { destruct a; cbn in Hr; repeat case_match; by injection Hr as <- <-. }
    by eapply bytes_act.
  - by apply (bytes_shrink target _ c); cbn; auto.
  - by apply (bytes_shrink target _ c); cbn; auto.
  - by apply (bytes_shrink target _ c); cbn; autorewrite with tunnel; auto.
  - destruct (pump_step_shrinks _ _ _ _ Hps). by apply (bytes_shrink target _ c); cbn; auto.
Qed.

Lemma reach_bytes c : client_reach target wire c -> bytes_ok target (take (c_seen c) wire) c.
Proof.
  apply (client_ind (fun c => bytes_ok target (take (c_seen c) wire) c)).
  - split; cbn; [repeat constructor | set_solver | apply splice_init].
  - intros c1 c2 _. apply bytes_step.
Qed.

(** The client writes each stream in order: for a wire on which a stream's
    OPEN precedes its DATA and is not repeated, every socket the client dialled
    was asked for by an OPEN that names this client's target or none, no stream
    has two sockets, and what the socket has taken is a
    prefix of that stream's payloads among the frames read: nothing reordered,
    duplicated or taken from another stream. While the stream is in the table
    and the handler is idle, the socket has taken all of it. *)
Theorem client_writes_in_order c h i o :
  client_reach target wire c -> c_socks c !! h = Some (i, o) ->
  let got := take (c_seen c) wire in
  (exists f, f ∈ got /\ serves target f /\ stream_id f = i) /\ NoDup (c_socks c).*1 /\
  (exists rest, sent_data i got = o +:+ rest) /\
  (conns (c_sess c) !! i = Some h -> c_todo c = [] -> sent_data i got = o).
Proof.
  intros Hr Hs. destruct (reach_bytes _ Hr) as [_ H2 [_ _ H3 _ H5 _ _ _ H9]]. cbn. split_and!.
  - apply H2, elem_of_app. left. apply list_elem_of_fmap. exists (i, o). split; [done |].
    by eapply list_elem_of_lookup_2.
  - by apply NoDup_app in H3 as [? _].
  - by eapply H5.
  - intros Hi Ht. apply (H9 _ _ _ Hi Hs). rewrite Ht. cbn. tauto.
Qed.

End ClientBytes.

(** End to end: take any server session as far as it has got, and any client
    that has read some prefix of what that session has written. What the client
    has written to the socket it dialled for a stream is a prefix of what the
    server's pump has received from the application's connection of that stream:
    the tunnel never reorders, duplicates, invents or mixes up bytes, whatever
    the threads of the two sides interleave and whatever fails. *)
Theorem tunnel_end_to_end me ftgt target v c h i o :
  tunnel_reach me ftgt v -> (Z.of_nat (allocated v) < 2 ^ 64)%Z ->
  client_reach target (written (sess v)) c -> c_socks c !! h = Some (i, o) ->
  forall k p, pumps v !! k = Some p -> p_id p = i -> exists rest, p_heard p = o +:+ rest.
Proof.
  intros Hv Hlt Hc Hs k p Hk <-.
  destruct (reach_ids v Hv Hlt) as [_ _ Hnd _]. apply NoDup_app in Hnd as [Hnd _].
  pose proof (wire_announced _ (reach_wire v Hv)) as Ha.
  destruct (sp_prefix _ _ _ _ _ _ (by_splice _ _ _ (reach_bytes Ha Hnd c Hc)) _ _ _ Hs) as [r1 E1].
  destruct (data_heard _ _ (reach_data v Hv Hlt) _ _ Hk) as (r2 & E2 & _).
  rewrite E2. rewrite <- (take_drop (c_seen c) (written (sess v))), sent_data_app, E1.
  eexists. by rewrite !str_app_assoc.
Qed.
