(* ===== verification/TunnelUnwind.v ===== *)
(** * TunnelUnwind: the client always gets out (grpc-tunnel/src/tunnel_client.cc)

    [RunTunnel] ends by joining the keepalive thread, which holds its own mutex
    while it sends.  From every state past the read loop the function can run to
    its end: neither the lock nor the join can hold it for good. *)

From S2P Require Import Prelude CString TunnelNet TunnelSession TunnelProofs TunnelSplice TunnelClient TunnelEnd.

(** Where the keepalive can be, against what the function has left to do. *)
Record exit_ok (c : Client) : Prop := {
  eo_none : c_ka c = KNone ->
    c_todo c = [CRegister] \/ c_todo c = [CKeepalive] \/
    (c_ended c = true /\ (c_todo c = [CShutdown] \/ c_todo c = []));
  eo_stop : c_stop c = true -> c_ka c <> KSend;
  eo_join : c_todo c = [CJoin] -> c_stop c = true
}.

Ltac left_behind H :=
  split; cbn; auto; try done;
  try (let Hn := fresh in intros Hn; by destruct (H Hn) as [? | [? | [_ [? | ?]]]]).

Section Unwind.
Context {target : string} {wire : list Frame}.
Notation step := (client_step target wire).

Lemma exit_act c a rest wok outcomes dial c' more :
  exit_ok c -> c_phase c -> c_todo c = a :: rest -> (a = CStop -> c_ka c <> KSend) ->
  c_run target wok outcomes dial a c = (c', more) -> exit_ok (with_c_todo (more ++ rest) c').
Proof.
  intros [H1 H2 H3] Hp Ht Hs Hr.
  destruct Hp as [He Hf Hk | He Hf | He Hf Hk | He Hf | He Ha Hf | hs He Ha Hf | He Ha Hf | ? ? Hf ?];
    rewrite Ht in *; try done.
  - injection Hf as -> ->. cbn in Hr. destruct (Send wok (register_frame target) (c_sess c)) as [[] s];
      injection Hr as <- <-; split; cbn; auto; done.
  - apply Forall_cons in Hf as [Hpl Hf]. destruct (c_run_serving _ _ _ _ _ _ _ _ Hr Hpl) as [E Hm].
    assert (c_stop c' = c_stop c /\ (c_ka c' = c_ka c \/ (a = CKeepalive /\ c_ka c' = KWait))) as [Es Ek].
    { destruct a; try done; cbn in Hr; try (destruct (WriteAll outcomes d) as [o r]); injection Hr as <- <-; auto. }
    split; cbn; rewrite ?Es.
    + intros Hn. destruct Ek as [Ek | [_ Ek]]; [| congruence]. rewrite Ek in Hn.
      destruct (H1 Hn) as [E0 | [E0 | [_ [E0 | E0]]]]; try done; injection E0 as -> ->; try done.
      cbn in Hr. injection Hr as <- <-. cbn in *. congruence.
    + intros Hst. destruct Ek as [-> | [_ ->]]; auto.
    + intros Hj. assert (Forall c_plain (more ++ rest)) as Hall by by apply Forall_app.
      rewrite Hj in Hall. by inversion Hall.
  - injection Hf as -> ->. cbn in Hr. injection Hr as <- <-. by left_behind H1.
  - injection Hf as -> ->. cbn in Hr. injection Hr as <- <-. by left_behind H1.
  - injection Hf as -> ->. cbn in Hr. injection Hr as <- <-. left_behind H1.
    by destruct (map_to_list (conns (c_sess c))).
  - destruct hs as [| h hs]; injection Hf as -> ->; cbn in Hr; injection Hr as <- <-; left_behind H1.
    by destruct hs.
  - injection Hf as -> ->. cbn in Hr. injection Hr as <- <-. by left_behind H1.
Qed.

Lemma exit_step c c' : exit_ok c -> c_phase c -> step c c' -> exit_ok c'.
Proof.
  intros Hx Hp Hs. pose proof Hx as [H1 H2 H3].
  destruct Hs as [c f Ht He _ | c Ht He | c a rest wok outcomes dial c' more Ht Hst _ Hr
    | c Hk Hst | c Hk _ | c wok Hk | c k p s p' _ _].
  - assert (c_ka c <> KNone) by (intros Hn; destruct (H1 Hn) as [? | [? | [? _]]]; congruence).
    split; cbn; [done | done |]. unfold c_on_frame. by repeat case_match.
  - assert (c_ka c <> KNone) by (intros Hn; destruct (H1 Hn) as [? | [? | [? _]]]; congruence).
    by split; cbn.
  - by eapply exit_act.
  - split; cbn; [done | congruence | done].
  - by split; cbn.
  - split; cbn; [by case_match | by case_match | done].
  - by split.
Qed.

Lemma reach_exit c : client_reach target wire c -> exit_ok c.
Proof.
  apply client_ind.
  - split; cbn; auto; done.
  - intros c1 c2 Hr IH Hs. eapply exit_step; [exact IH | by eapply reach_c_phase | exact Hs].
Qed.

(** ** The way out *)

(** A step of the function or its keepalive in which no keepalive period runs out
    and no pump moves. *)
Definition own_step (c c' : Client) : Prop :=
  step c c' /\ (c_ka c' = KSend -> c_ka c = KSend) /\ c_pumps c' = c_pumps c.
Definition gets_out (c : Client) : Prop := exists c', rtc own_step c c' /\ c_returned c'.

Lemma gets_out_step c c' :
  step c c' -> (c_ka c' = KSend -> c_ka c = KSend) -> c_pumps c' = c_pumps c -> gets_out c' -> gets_out c.
Proof. intros Hs Hk Hp (c2 & Hr & H2). exists c2. split; [by eapply rtc_l | done]. Qed.

(** A section that asks for no lock and no thread. *)
Lemma act_out c a rest c' more :
  c_todo c = a :: rest -> a <> CStop -> a <> CJoin ->
  c_run target false [] None a c = (c', more) -> c_ka c' = c_ka c -> c_pumps c' = c_pumps c ->
  gets_out (with_c_todo (more ++ rest) c') -> gets_out c.
Proof. intros Ht Hs Hj Hr Hk Hp. eapply gets_out_step; [by eapply c_act | cbn; congruence | done]. Qed.

Lemma join_out c :
  c_ended c = true -> c_todo c = [CJoin] -> c_stop c = true -> c_ka c <> KSend -> c_ka c <> KNone ->
  gets_out c.
Proof.
  assert (forall c, c_ended c = true -> c_todo c = [CJoin] -> c_ka c = KDone -> gets_out c) as Hdone.
  { intros d He Ht Hk. eapply (gets_out_step _ (with_c_todo ([] ++ []) d)).
    - by apply (c_act target wire d CJoin [] false [] None d []).
    - done.
    - done.
    - eexists. split; [apply rtc_refl |]. by split. }
  intros He Ht Hst Hk1 Hk2. destruct (c_ka c) eqn:Hk; try done; [| by apply Hdone].
  eapply gets_out_step; [by apply c_wake | done | done |]. by apply Hdone.
Qed.

Lemma stop_out c :
  c_ended c = true -> c_todo c = [CStop; CJoin] -> c_ka c <> KNone -> gets_out c.
Proof.
  assert (forall c, c_ended c = true -> c_todo c = [CStop; CJoin] -> c_ka c <> KNone ->
    c_ka c <> KSend -> gets_out c) as Hfree.
  { intros d He Ht Hn Hs. eapply gets_out_step; [by eapply (c_act _ _ _ _ _ false [] None) | done | done |].
    by apply join_out. }
  intros He Ht Hn. assert (c_ka c = KSend \/ c_ka c <> KSend) as [Hs | Hs] by (destruct (c_ka c); auto);
    [| by apply Hfree].
  eapply gets_out_step; [by apply (c_ka_send _ _ _ false) | done | done |].
  apply Hfree; cbn; try done; by case_match.
Qed.

Lemma mark_out hs : forall c,
  c_ended c = true -> c_todo c = (CMark <$> hs) ++ [CStop; CJoin] -> c_ka c <> KNone -> gets_out c.
Proof.
  induction hs as [| h hs IH]; intros c He Ht Hn; [by apply stop_out |].
  eapply act_out; [exact Ht | done | done | done | done | done |]. by apply IH.
Qed.

Lemma take_out c :
  c_ended c = true -> c_todo c = [CTakeAll; CStop; CJoin] -> c_ka c <> KNone -> gets_out c.
Proof.
  intros He Ht Hn. eapply act_out; [exact Ht | done | done | done | done | done |]. by eapply mark_out.
Qed.

(** The way out is never blocked: from every state in which [RunTunnel] is past
    its read loop or was refused, the function and its keepalive thread alone can
    run to its return, and without a keepalive period running out - whoever holds
    the keepalive's mutex lets go of it, the thread wakes to the stop flag, and
    the join ends. *)
Theorem client_gets_out c :
  client_reach target wire c -> c_ended c = true -> gets_out c.
Proof.
  intros Hr He. pose proof (reach_exit c Hr) as [H1 H2 H3].
  assert (forall l, c_todo c = l -> l <> [] -> l <> [CRegister] -> l <> [CKeepalive] ->
    l <> [CShutdown] -> c_ka c <> KNone) as Hka.
  { intros l <- ? ? ? ? Hn. by destruct (H1 Hn) as [? | [? | [_ [? | ?]]]]. }
  destruct (reach_c_phase c Hr) as [? | ? | _ Ht _ | _ Ht | _ _ Ht | hs _ _ Ht | _ _ Ht | _ _ Ht _];
    try congruence.
  - eapply act_out; [exact Ht | done | done | done | done | done |]. eexists. split; [apply rtc_refl |]. by split.
  - eapply act_out; [exact Ht | done | done | done | done | done |].
    apply take_out; [done | done |]. by apply (Hka _ Ht).
  - apply take_out; [done | done |]. by apply (Hka _ Ht).
  - apply (mark_out hs); [done | done |]. apply (Hka _ Ht); by destruct hs.
  - apply join_out; auto. by apply (Hka _ Ht).
  - exists c. split; [apply rtc_refl |]. by split.
Qed.
End Unwind.
