(* ===== verification/TunnelPipe.v ===== *)
(** * TunnelPipe: the two ends of a tunnel running together

    A server session and a client joined by the stream: each reads, in order,
    what the other has written, and all the threads of both interleave.  What
    comes out of every stream, at both ends, is what went in at the other. *)

From S2P Require Import Prelude CString TunnelNet TunnelSession TunnelProofs TunnelSplice TunnelClient TunnelEnd.

(** ** The client's pumps *)

(** The streams whose pump is about to be started. *)
Definition spawning (l : list CAct) : list Z :=
  omap (fun a => match a with CSpawn i _ => Some i | _ => None end) l.
Definition sends_no_data (a : CAct) : Prop := match a with CSend f => ftype f <> DATA | _ => True end.

Record cpumps_ok (c : Client) : Prop := {
  cp_ids : NoDup ((p_id <$> c_pumps c) ++ spawning (c_todo c));
  cp_socks : forall i, i ∈ (p_id <$> c_pumps c) ++ spawning (c_todo c) -> i ∈ (c_socks c).*1;
  cp_plain : Forall sends_no_data (c_todo c);
  cp_data : data_ok (c_sess c) (c_pumps c)
}.

Lemma spawning_app a b : spawning (a ++ b) = spawning a ++ spawning b.
Proof. apply omap_app. Qed.

Lemma cpumps_ext c c' :
  cpumps_ok c -> p_id <$> c_pumps c' = p_id <$> c_pumps c ->
  spawning (c_todo c') = spawning (c_todo c) -> (c_socks c').*1 = (c_socks c).*1 ->
  Forall sends_no_data (c_todo c') -> data_ok (c_sess c') (c_pumps c') -> cpumps_ok c'.
Proof. intros [H1 H2 _ _] Ep Es Ek Hf Hd. split; rewrite ?Ep, ?Es, ?Ek; done. Qed.

Lemma c_on_frame_no_data target f :
  spawning (c_on_frame target f) = [] /\ Forall sends_no_data (c_on_frame target f).
Proof. unfold c_on_frame. repeat case_match; split; repeat constructor; done. Qed.

Lemma data_Send wok f s ps : ftype f <> DATA -> data_ok s ps -> data_ok (Send wok f s).2 ps.
Proof.
  intros Hf Hd. eapply data_ext; [exact Hd | | by rewrite Send_alive].
  intros i. apply sent_data_Send. by intros [? _].
Qed.

Ltac pumps_done :=
  cbn; split_and!; try done; try (eapply data_ext; eassumption || done); try (by repeat constructor).

(** What the handler does between adding a stream and starting its pump. *)
Lemma c_run_pumps target wok outcomes dial a c c' more :
  c_run target wok outcomes dial a c = (c', more) ->
  sends_no_data a -> (forall i fd, a <> CAdd i fd) -> (forall i h, a <> CSpawn i h) ->
  data_ok (c_sess c) (c_pumps c) ->
  c_pumps c' = c_pumps c /\ data_ok (c_sess c') (c_pumps c) /\ (c_socks c').*1 = (c_socks c).*1 /\
  spawning more = [] /\ Forall sends_no_data more.
Proof.
  intros Hr Ha Hadd Hsp Hd. destruct a; cbn in Hr, Ha;
    try (by destruct (Hadd i f)); try (by destruct (Hsp i h)).
  - pose proof (data_Send wok (register_frame target) _ _ ltac:(done) Hd) as Hs.
    destruct (Send wok (register_frame target) (c_sess c)) as [sent s]. injection Hr as <- <-.
    cbn in *. split_and!; try done; destruct sent; by repeat constructor.
  - injection Hr as <- <-. by pumps_done.
  - injection Hr as <- <-. pumps_done. by apply data_Send.
  - injection Hr as <- <-. by pumps_done; destruct dial; repeat constructor.
  - injection Hr as <- <-. by pumps_done; destruct (GetConn i (c_sess c)); repeat constructor.
  - destruct (WriteAll outcomes d) as [o r]. injection Hr as <- <-.
    pumps_done; [apply alter_ids | ..]; destruct r as [[] |]; by repeat constructor.
  - injection Hr as <- <-. by pumps_done; destruct (GetConn i (c_sess c)); repeat constructor.
  - injection Hr as <- <-. by pumps_done.
  - injection Hr as <- <-. by pumps_done.
  - injection Hr as <- <-. pumps_done; [by induction (map_to_list (conns (c_sess c))).*2 |].
    by apply Forall_fmap, Forall_true.
  - injection Hr as <- <-. by pumps_done.
  - injection Hr as <- <-. by pumps_done.
Qed.

Lemma cpumps_step target wire got c c' :
  cpumps_ok c -> bytes_ok target got c -> client_step target wire c c' -> cpumps_ok c'.
Proof.
  intros Hc Hb Hs. destruct Hs as [c f Ht _ _ | c Ht _ | c a rest wok outcomes dial c' more Ht _ _ Hr
    | c _ _ | c _ _ | c wok _ | c k p s p' Hk Hp].
  - destruct (c_on_frame_no_data target f) as [E Hf].
    by apply (cpumps_ext c); cbn; rewrite ?Ht, ?E; auto; apply Hc.
  - apply (cpumps_ext c); cbn; rewrite ?Ht; auto; [by repeat constructor | apply Hc].
  - destruct Hc as [H1 H2 H3 H4]. rewrite Ht in *. apply Forall_cons in H3 as [Ha H3].
    destruct a; try (destruct (c_run_pumps _ _ _ _ _ _ _ _ Hr Ha ltac:(done) ltac:(done) H4)
      as (E1 & Hd & E2 & E3 & Hf);
      by split; cbn; rewrite ?E1, ?E2, ?spawning_app, ?E3; try done; apply Forall_app).
    + injection Hr as <- <-. destruct Hb as [_ _ [_ _ Hnd _ _ _ _ _ _]]. rewrite Ht in Hnd.
      apply NoDup_app in Hnd as (_ & Hnd & _). cbn in Hnd, H1, H2.
      assert (i ∉ (c_socks c).*1) as Hi by (intros Hin; apply (Hnd _ Hin); set_solver).
      split; cbn; [| | by constructor |].
      * apply NoDup_app in H1 as (Hp & Hps & Hsp). apply NoDup_app. split; [done |]. split.
        -- intros j Hj [-> | Hj']%elem_of_cons; [| by eapply Hps].
           apply Hi, H2, elem_of_app. by left.
        -- apply NoDup_cons. split; [| done]. intros Hin. apply Hi, H2, elem_of_app. by right.
      * intros j Hj. rewrite fmap_app, elem_of_app. cbn. specialize (H2 j). set_solver.
      * by eapply data_ext.
    + injection Hr as <- <-. cbn in H1, H2. split; cbn.
      * by rewrite fmap_app, <- (assoc_L (++)).
      * intros j Hj. apply H2. rewrite fmap_app, <- (assoc_L (++)) in Hj. exact Hj.
      * done.
      * apply data_spawn; [done |]. intros Hin. apply NoDup_app in H1 as (_ & H1 & _).
        apply (H1 _ Hin). set_solver.
  - by apply (cpumps_ext c); try apply Hc.
  - by apply (cpumps_ext c); try apply Hc.
  - apply (cpumps_ext c); try apply Hc; try done. by apply data_Send; [| apply Hc].
  - pose proof (cp_ids _ Hc) as Hnd. apply NoDup_app in Hnd as [Hnd _].
    apply (cpumps_ext c); cbn; try apply Hc; try done.
    + apply (p_id_insert k p p'); [done |]. by destruct Hp.
    + eapply data_pump_step; try done. apply Hc.
Qed.

(** ** The server's sockets *)

Definition s_work (l : list HAct) : Work :=
  match l with
  | AGet i d :: _ => WGet i d | AWrite h i d :: _ => WWrite h i d | AErase i :: _ => WErase i
  | _ => WNone
  end.
Definition s_quiet (a : HAct) : Prop :=
  match a with AGet _ _ | AWrite _ _ _ | AErase _ => False | _ => True end.
(** The stream the forwarder is adding, and the one it is announcing. *)
Definition adding (p : FPc) : list Z := match p with FAdd _ i => [i] | _ => [] end.
Definition sending (p : FPc) : list Z := match p with FSend i _ => [i] | _ => [] end.

Record srv_ok (v : Server) : Prop := {
  so_tail : Forall s_quiet (tail (todo v));
  so_bound : forall i, i ∈ (socks v).*1 -> (i <= Z.of_nat (allocated v))%Z;
  so_opened : forall i, i ∈ opened (written (sess v)) ++ sending (fpc v) -> i ∈ (socks v).*1;
  so_splice : splice_ok (frames_in v) (conns (sess v)) (socks v) (length (heap (sess v)))
                (adding (fpc v)) (s_work (todo v))
}.

Lemma s_quiet_head l : Forall s_quiet l -> s_work l = WNone.
Proof. intros [| a r Ha _]; [done |]. by destruct a. Qed.

(** No new connection, and the handler's work the same or put down. *)
Lemma srv_shrink v w :
  srv_ok v -> socks w = socks v -> frames_in w = frames_in v -> allocated w = allocated v ->
  length (heap (sess w)) = length (heap (sess v)) ->
  (forall i h, conns (sess w) !! i = Some h -> conns (sess v) !! i = Some h) ->
  (forall i, i ∈ opened (written (sess w)) ++ sending (fpc w) ->
     i ∈ opened (written (sess v)) ++ sending (fpc v)) ->
  adding (fpc w) = adding (fpc v) \/ adding (fpc w) = [] ->
  todo w = todo v \/
    (Forall s_quiet (todo w) /\ forall i h, conns (sess w) !! i = Some h -> ~ busy i (s_work (todo v))) ->
  srv_ok w.
Proof.
  intros [H1 H2 H3 H4] Es Ef Ea El Ec Eo Ed Et. split; rewrite ?Es, ?Ef, ?Ea, ?El; auto.
  - destruct Et as [-> | [Hq _]]; [done | by destruct Hq].
  - eapply splice_shrink; [exact H4 | done | done |].
    destruct Et as [-> | [Hq Hb]]; [by left | right]. split; [by apply s_quiet_head | done].
Qed.

Ltac same_server :=
  eapply srv_shrink; [eassumption | ..]; cbn; autorewrite with tunnel; rewrite ?length_alter, ?opened_Send by done; auto.

Lemma pump_step_opened s p s' p' : pump_step s p s' p' -> opened (written s') = opened (written s).
Proof. intros []; rewrite ?opened_Send by done; done. Qed.

(** The handler's actions: a quiet one opens no stream and adds no connection. *)
Lemma srv_act_quiet me wok outcomes a v v' more rest :
  srv_ok v -> todo v = a :: rest -> s_quiet a -> act_run me wok outcomes a v = (v', more) ->
  srv_ok (with_todo (more ++ rest) v').
Proof.
  intros Hv Ht Ha Hr. pose proof (so_tail _ Hv) as Hq. rewrite Ht in Hq. cbn in Hq.
  assert (Forall s_quiet (more ++ rest)) as Hm.
  { apply Forall_app. split; [| done]. destruct a; try done; cbn in Hr; injection Hr as <- <-;
      try (by constructor). by apply Forall_fmap, Forall_true. }
  assert (forall i, ~ busy i (s_work (todo v))) as Hb by (rewrite Ht; destruct a; cbn in *; tauto).
  destruct a; try done; cbn in Hr; injection Hr as <- <-; by same_server.
Qed.

Lemma srv_act me wok outcomes a v v' more rest :
  srv_ok v -> todo v = a :: rest -> act_run me wok outcomes a v = (v', more) ->
  srv_ok (with_todo (more ++ rest) v').
Proof.
  intros Hv Ht Hr.
  assert (s_quiet a \/ ~ s_quiet a) as [Ha | Ha] by (destruct a; cbn; tauto).
  { by eapply srv_act_quiet. }
  destruct Hv as [H1 H2 H3 H4]. rewrite Ht in *. cbn in H1. pose proof (s_quiet_head _ H1) as Qw.
  destruct a; try (by destruct Ha); cbn in Hr, H4; injection Hr as <- <-.
  - destruct (GetConn i (sess v)) as [h |] eqn:Hg; (split; [done | done | done |]); cbn.
    + by eapply splice_get.
    + eapply splice_shrink; [exact H4 | done | by left |].
      right. split; [done |]. cbn. intros j h Hj ->. unfold GetConn in Hg. congruence.
  - pose proof (WriteAll_prefix outcomes d) as Hw.
    destruct (WriteAll outcomes d) as [o r]. destruct Hw as [Hp Hf].
    pose proof (splice_write _ _ _ _ _ _ _ _ _ r H4 Hp Hf) as Hs.
    destruct r as [[] |]; (split; cbn; rewrite ?alter_ids, ?Qw; try done);
      [by destruct H1 | by constructor].
  - assert (splice_ok (frames_in v) (delete i (conns (sess v))) (socks v) (length (heap (sess v)))
              (adding (fpc v)) WNone) as Hs.
    { eapply splice_shrink; [exact H4 | by intros j h [_ Hj]%lookup_delete_Some | by left |].
      right. split; [done |]. cbn. by intros j h [Hn _]%lookup_delete_Some ->. }
    destruct (GetConn i (sess v)); (split; cbn; rewrite ?Qw; try done). by destruct H1.
Qed.

(** A frame is read: one for the stream being added has no data yet. *)
Lemma srv_read v f :
  srv_ok v -> todo v = [] ->
  (ftype f = DATA -> stream_id f ∈ adding (fpc v) -> fdata f = "") ->
  srv_ok (with_todo (on_frame (cur v) f) (with_read f v)).
Proof.
  intros [_ H2 H3 H4] Ht Hf. rewrite Ht in H4. cbn in H4.
  assert (s_work (on_frame (cur v) f) = frame_work f) as Ew.
  { unfold on_frame, frame_work. destruct (ftype f); try done. by case_match. }
  split; cbn; [| done | done |].
  - unfold on_frame. repeat case_match; repeat constructor.
  - rewrite Ew. by apply splice_read.
Qed.

(** The forwarder takes an identifier: the stream has had no data. *)
Lemma srv_next v f :
  srv_ok v -> ids_ok v -> fpc v = FNext f -> (Z.of_nat (S (allocated v)) < 2 ^ 64)%Z ->
  (forall i, i ∉ opened (written (sess v)) -> sent_data i (frames_in v) = "") ->
  srv_ok (mkServer (NextStreamId (sess v)).2 (reg v) (cur v) (todo v) (ending v)
            (FAdd f (NextStreamId (sess v)).1) (pumps v) (S (allocated v)) (socks v) (frames_in v)).
Proof.
  intros [H1 H2 H3 H4] [Hn _ _ Hb] Hf Hlt Hcause. rewrite Hf in *. cbn in *.
  rewrite app_nil_r in H3.
  assert (next_id (sess v) = Z.of_nat (allocated v) + 1)%Z as En.
  { rewrite Hn. unfold u64. rewrite Z.mod_small; lia. }
  split; cbn; [done | | by rewrite app_nil_r |].
  - intros i Hi%H2. lia.
  - rewrite En. apply splice_pend; [done | intros Hi%H2; lia |].
    apply Hcause. intros Hi. rewrite Forall_app, Forall_forall in Hb.
    destruct Hb as [_ Hb]. rewrite Forall_forall in Hb. specialize (Hb _ Hi). cbn in Hb. lia.
Qed.

Lemma srv_add v f i :
  srv_ok v -> ids_ok v -> fpc v = FAdd f i ->
  srv_ok (with_fpc (FSend i (AddConn i f (sess v)).1)
            (with_socks (socks v ++ [(i, "")]) (with_sess (AddConn i f (sess v)).2 v))).
Proof.
  intros [H1 H2 H3 H4] [_ _ _ Hb] Hf. rewrite Hf in *. cbn in *.
  rewrite !Forall_app, Forall_cons in Hb. destruct Hb as (_ & Hi & _).
  split; cbn; [done | | |].
  - intros j. rewrite fmap_app, elem_of_app. intros [Hj | Hj]; [by apply H2 |].
    apply list_elem_of_singleton in Hj as ->. cbn in *. lia.
  - intros j Hj. rewrite fmap_app, elem_of_app. apply elem_of_app in Hj as [Hj | Hj].
    + left. apply H3. set_solver.
    + right. exact Hj.
  - rewrite List.length_app, Nat.add_1_r. by apply splice_add.
Qed.

Lemma srv_step me ftgt v v' :
  srv_ok v -> ids_ok v -> (Z.of_nat (allocated v') < 2 ^ 64)%Z -> tstep me ftgt v v' ->
  (forall i, i ∉ opened (written (sess v)) -> sent_data i (frames_in v') = "") ->
  srv_ok v'.
Proof.
  intros Hv Hi Hlt Hs Hcause.
  destruct Hs as [| ? ? [v f Ht _ | v Ht _ | v a rest wok outcomes v1 more Ht Hr]
    | v f Hf | v f Hf | ? ? [v f Hf | v f i Hf | v i h wok Hf | v i Hf | v h Hf | v i h Hf]
    | v k p s' p' Hk Hp].
  - by same_server.
  - apply srv_read; [done | done |]. intros Ed Ha.
    pose proof (ids_opened _ Hi) as Hnd. apply NoDup_app in Hnd as (_ & Hnd & _).
    assert (stream_id f ∉ opened (written (sess v))) as Hn.
    { intros Hin. apply (Hnd _ Hin). destruct (fpc v); cbn in *; set_solver. }
    specialize (Hcause _ Hn). cbn [frames_in with_todo with_read] in Hcause. rewrite sent_data_snoc, decide_True in Hcause by done.
    by eapply app_eq_empty.
  - same_server. right. split; [by repeat constructor |]. rewrite Ht. cbn. tauto.
  - by eapply srv_act.
  - same_server; rewrite Hf; auto.
  - same_server; rewrite Hf; case_decide; auto.
  - by apply srv_next.
  - by apply srv_add.
  - assert (forall b : bool, sending (if b then FSpawn i h else FErase i) = []) as E1 by by intros [].
    assert (forall b : bool, adding (if b then FSpawn i h else FErase i) = []) as E2 by by intros [].
    same_server; rewrite ?E1, ?E2, ?Hf; auto.
    intros j. rewrite app_nil_r, Send_written. destruct (alive (sess v)); [| set_solver].
    by rewrite opened_app, opened_open.
  - same_server; rewrite ?Hf.
    + by intros j h [_ Hj]%lookup_delete_Some.
    + by destruct (GetConn i (sess v)).
    + destruct (GetConn i (sess v)); auto.
  - same_server; rewrite ?Hf; auto.
  - same_server; rewrite ?Hf; auto.
  - destruct (pump_step_shrinks _ _ _ _ Hp) as [El Ec].
    by same_server; rewrite (pump_step_opened _ _ _ _ Hp).
Qed.

(** ** The two ends together *)

Section Pipe.
Context (me : nat) (ftgt target : string).

(** gRPC delivers a stream's messages in order: what an end has read is a prefix
    of what the other has handed to its stream. *)
Inductive pipe_step : Server * Client -> Server * Client -> Prop :=
| pipe_server v v' c :
    tstep me ftgt v v' -> frames_in v' `prefix_of` written (c_sess c) ->
    pipe_step (v, c) (v', c)
| pipe_client v c c' :
    client_step target (written (sess v)) c c' -> pipe_step (v, c) (v, c').

Definition pipe_reach (x : Server * Client) : Prop :=
  exists r v0, tunnel_start r me v0 /\ rtc pipe_step (v0, client_start) x.

Lemma pipe_ind (P : Server * Client -> Prop) :
  (forall r v0, tunnel_start r me v0 -> P (v0, client_start)) ->
  (forall x y, pipe_reach x -> P x -> pipe_step x y -> P y) -> forall x, pipe_reach x -> P x.
Proof.
  intros Hi Hs x (r & v0 & H0 & Hrun).
  assert (forall y, rtc pipe_step (v0, client_start) y -> P y) as Hall; [| by apply Hall].
  refine (rtc_ind_r P _ _ _); [by eapply Hi |].
  intros y z Hy Hstep IH. eapply Hs; [| exact IH | exact Hstep]. by exists r, v0.
Qed.

(** ** Each end is a run of its own *)

Lemma Send_prefix wok f s : written s `prefix_of` written (Send wok f s).2.
Proof. rewrite Send_written. destruct (alive s); [by apply prefix_app_r | done]. Qed.

Lemma pump_step_prefix s p s' p' : pump_step s p s' p' -> written s `prefix_of` written s'.
Proof. intros []; try done; apply Send_prefix. Qed.

Lemma act_run_prefix wok outcomes a v v' more :
  act_run me wok outcomes a v = (v', more) -> written (sess v) `prefix_of` written (sess v').
Proof. destruct a; cbn; intros Hr; injection Hr as <- <-; cbn; try done; apply Send_prefix. Qed.

Lemma tstep_prefix v v' : tstep me ftgt v v' -> written (sess v) `prefix_of` written (sess v').
Proof.
  intros Hs. destruct Hs as [| ? ? [] | | | ? ? [] |]; cbn; try done; try apply Send_prefix;
    eauto using act_run_prefix, pump_step_prefix.
Qed.

Lemma client_step_mono wire wire' c c' :
  wire `prefix_of` wire' -> client_step target wire c c' -> client_step target wire' c c'.
Proof.
  intros Hp Hs. destruct Hs; econstructor; eauto. by eapply prefix_lookup_Some.
Qed.

Lemma pipe_ends x :
  pipe_reach x -> tunnel_reach me ftgt x.1 /\ client_reach target (written (sess x.1)) x.2.
Proof.
  revert x.
  apply (pipe_ind (fun x => tunnel_reach me ftgt x.1 /\ client_reach target (written (sess x.1)) x.2)).
  - intros r v0 H0. split; [exists r, v0; by split | by constructor].
  - intros x y _ [Hv Hc] Hs. destruct Hs as [v v' c Hs _ | v c c' Hs]; cbn in *.
    + split; [eapply reach_rtc; [exact Hv | by apply rtc_once] |].
      eapply rtc_subrel; [| exact Hc]. intros c1 c2. apply client_step_mono. by apply tstep_prefix.
    + split; [done |]. by eapply rtc_r.
Qed.

Lemma client_step_prefix wire c c' :
  client_step target wire c c' -> written (c_sess c) `prefix_of` written (c_sess c').
Proof.
  intros Hs. destruct Hs as [| | c a ? wok ? ? ? ? _ _ _ Hr | | | |]; cbn; try done; try apply Send_prefix;
    [| by eapply pump_step_prefix].
  destruct a; cbn in Hr; try (destruct (WriteAll _ _) as [o r]);
    try (injection Hr as <- <-; cbn; try done; apply Send_prefix).
  pose proof (Send_prefix wok (register_frame target) (c_sess c)) as Hw.
  destruct (Send wok (register_frame target) (c_sess c)). injection Hr as <- <-. done.
Qed.

Lemma frames_in_prefix x : pipe_reach x -> frames_in x.1 `prefix_of` written (c_sess x.2).
Proof.
  revert x. apply (pipe_ind (fun x => frames_in x.1 `prefix_of` written (c_sess x.2))).
  - intros r v0 [-> _]. apply prefix_nil.
  - intros x y _ Hp Hs. destruct Hs as [v v' c _ Hf | v c c' Hs]; cbn in *; [done |].
    etrans; [exact Hp | by eapply client_step_prefix].
Qed.

(** ** Both at once *)

Section Bounded.
(** The server gives out fewer than 2^64 streams in the session. *)
Context (x : Server * Client) (Hx : pipe_reach x) (Hlt : (Z.of_nat (allocated x.1) < 2 ^ 64)%Z).

Lemma pipe_bytes : bytes_ok target (take (c_seen x.2) (written (sess x.1))) x.2.
Proof using Hx Hlt.
  destruct (pipe_ends _ Hx) as [Hv Hc]. destruct (reach_ids _ Hv Hlt) as [_ _ Hnd _].
  apply NoDup_app in Hnd as [Hnd _]. eapply reach_bytes; [| exact Hnd | exact Hc].
  by eapply wire_announced, reach_wire.
Qed.

(** The client has data to send only for streams the server has announced. *)
Lemma client_causal : cpumps_ok x.2 ->
  forall i, i ∉ opened (written (sess x.1)) -> sent_data i (written (c_sess x.2)) = "".
Proof using Hx Hlt.
  intros Hc i Hi. apply (data_pumps _ _ (cp_data _ Hc)). intros Hin. apply Hi.
  rewrite <- (take_drop (c_seen x.2) (written (sess x.1))), opened_app. apply elem_of_app. left.
  apply (opened_served target), (by_opened _ _ _ pipe_bytes), elem_of_app. left.
  apply (cp_socks _ Hc), elem_of_app. by left.
Qed.
End Bounded.

Definition bounded (x : Server * Client) : Prop := (Z.of_nat (allocated x.1) < 2 ^ 64)%Z.

Lemma pipe_step_bounded x y : pipe_step x y -> bounded y -> bounded x.
Proof. intros [v v' c Hs _ | v c c' _]; unfold bounded; cbn; [apply allocated_step in Hs |]; lia. Qed.

Lemma pipe_cpumps x : pipe_reach x -> bounded x -> cpumps_ok x.2.
Proof.
  revert x. apply (pipe_ind (fun x => bounded x -> cpumps_ok x.2)).
  - intros r v0 _ _. split; cbn; [constructor | set_solver | by repeat constructor | by split].
  - intros x y Hx IH Hs Hb. pose proof (pipe_step_bounded _ _ Hs Hb) as Hb'.
    specialize (IH Hb'). pose proof (pipe_bytes x Hx Hb') as Hby.
    destruct Hs as [v v' c _ _ | v c c' Hs]; cbn in *; [done |]. by eapply cpumps_step.
Qed.

Lemma sent_data_prefix i a b : a `prefix_of` b -> sent_data i b = "" -> sent_data i a = "".
Proof. intros [k ->]. rewrite sent_data_app. by destruct (sent_data i a). Qed.

Lemma pipe_srv x : pipe_reach x -> bounded x -> srv_ok x.1.
Proof.
  revert x. apply (pipe_ind (fun x => bounded x -> srv_ok x.1)).
  - intros r v0 [-> _] _. split; cbn; [constructor | set_solver | set_solver | apply splice_init].
  - intros x y Hx IH Hs Hb. pose proof (pipe_step_bounded _ _ Hs Hb) as Hb'.
    specialize (IH Hb'). pose proof (client_causal x Hx Hb' (pipe_cpumps _ Hx Hb')) as Hc.
    pose proof (reach_ids _ (proj1 (pipe_ends _ Hx)) Hb') as Hi.
    destruct Hs as [v v' c Hs Hp | v c c' Hs]; cbn in *; [| done].
    eapply srv_step; [done | done | exact Hb | exact Hs |].
    intros i Hn. eapply sent_data_prefix; [exact Hp | by apply Hc].
Qed.

(** A tunnel is a pair of pipes per stream. However the threads of the two ends
    interleave, whatever sockets and stream answer, and as long as the server has
    given out fewer than 2^64 streams: what the client has written to the socket it
    dialled for a stream is a prefix of what the server's pump has received from the
    application, and what the server has written to the application's socket is a
    prefix of what the client's pump has received from the local service - nothing
    reordered, duplicated, invented or taken from another stream. In each direction
    it is all of it while the reading end still holds the stream, is idle and has read
    all that was sent, and the pump waits for more. And the client dials only for
    connections the server has accepted. *)
Theorem tunnel_is_a_pipe (x : Server * Client) (Hx : pipe_reach x)
    (Hb : (Z.of_nat (allocated x.1) < 2 ^ 64)%Z) :
  (forall h i o k p, c_socks x.2 !! h = Some (i, o) -> pumps x.1 !! k = Some p -> p_id p = i ->
     (exists rest, p_heard p = o +:+ rest) /\
     (conns (c_sess x.2) !! i = Some h -> c_todo x.2 = [] ->
      c_seen x.2 = length (written (sess x.1)) -> p_pc p = PRecv -> p_heard p = o)) /\
  (forall h i o k p, socks x.1 !! h = Some (i, o) -> c_pumps x.2 !! k = Some p -> p_id p = i ->
     (exists rest, p_heard p = o +:+ rest) /\
     (conns (sess x.1) !! i = Some h -> todo x.1 = [] ->
      frames_in x.1 = written (c_sess x.2) -> p_pc p = PRecv -> p_heard p = o)) /\
  (forall h i o, c_socks x.2 !! h = Some (i, o) -> exists h' o', socks x.1 !! h' = Some (i, o')).
Proof using.
  destruct (pipe_ends x Hx) as [Hv Hc]. pose proof (pipe_bytes x Hx Hb) as [_ Ho [_ _ _ _ Hpre _ _ _ Hsync]].
  pose proof (pipe_srv x Hx Hb) as [_ _ Hsk [_ _ _ _ Spre _ _ _ Ssync]].
  pose proof (pipe_cpumps x Hx Hb) as [_ _ _ Hcd]. split_and!.
  - intros h i o k p Hs Hk <-. split; [by eapply (tunnel_end_to_end me ftgt target x.1 x.2) |].
    intros Ht Hi Hall Hpc. destruct (data_heard _ _ (reach_data _ Hv Hb) _ _ Hk) as (rest & E & Hr).
    rewrite Hpc in Hr. subst rest. rewrite E, str_app_nil_r.
    rewrite Hall, firstn_all in Hsync. apply (Hsync _ _ _ Ht Hs). rewrite Hi. cbn. tauto.
  - intros h i o k p Hs Hk <-. destruct (data_heard _ _ Hcd _ _ Hk) as (rest & E & Hr). split.
    + destruct (Spre _ _ _ Hs) as [r1 E1]. destruct (frames_in_prefix x Hx) as [l El].
      rewrite E, El, sent_data_app, E1. eexists. by rewrite !str_app_assoc.
    + intros Ht Hi Hall Hpc. rewrite Hpc in Hr. subst rest. rewrite E, str_app_nil_r, <- Hall.
      apply (Ssync _ _ _ Ht Hs). rewrite Hi. cbn. tauto.
  - intros h i o Hs. assert (i ∈ (socks x.1).*1) as Hi.
    { apply Hsk, elem_of_app. left.
      rewrite <- (take_drop (c_seen x.2) (written (sess x.1))), opened_app. apply elem_of_app. left.
      apply (opened_served target), Ho, elem_of_app. left. apply list_elem_of_fmap.
      exists (i, o). split; [done |]. by eapply list_elem_of_lookup_2. }
    apply list_elem_of_fmap in Hi as ([j o'] & -> & Hin). apply list_elem_of_lookup in Hin as [h' Hh].
    by exists h', o'.
Qed.
End Pipe.
