(* ===== verification/TunnelRuns.v ===== *)
(** * TunnelRuns: concrete runs of a tunnel session

    One run of the server side from the call of the handler to the end of its
    only stream, the client's run on what that server wrote, a run of both ends
    that carries a request and its answer, the instances of the properties of
    TunnelProofs, TunnelEnd and TunnelPipe along them, and the run that leaves
    an entry under the empty name behind. *)

From S2P Require Import Prelude CString TunnelNet TunnelSession TunnelProofs TunnelSplice TunnelClient TunnelEnd TunnelUnwind TunnelPipe.

Definition demo_frame (t : string) : Frame := mkFrame 0 REGISTER "" t "".

(** Session 1 serves "edge"; one connection is open and has been read from. *)
Definition demo_serving : Server :=
  mkServer
    (mkSession true {[1%Z := 0%nat]} 2 [mkConn 7 false]
       [ack_frame "edge"; open_frame 1 "edge"; data_frame 1 "hi"])
    {["edge" := 1%nat]} "edge" [] false FAccept [mkPump 1 0 PRecv "hi"] 1 [(1%Z, "")] [demo_frame "edge"].
(** The peer hung up: the handler has returned, the pump not yet. *)
Definition demo_returned : Server :=
  mkServer
    (mkSession false ∅ 2 [mkConn 7 true]
       [ack_frame "edge"; open_frame 1 "edge"; data_frame 1 "hi"])
    ∅ "edge" [] true FAccept [mkPump 1 0 PRecv "hi"] 1 [(1%Z, "")] [demo_frame "edge"].
(** The pump has ended too. *)
Definition demo_idle : Server :=
  mkServer
    (mkSession false ∅ 2 [mkConn 7 true]
       [ack_frame "edge"; open_frame 1 "edge"; data_frame 1 "hi"])
    ∅ "edge" [] true FAccept [mkPump 1 0 PDone "hi"] 1 [(1%Z, "")] [demo_frame "edge"].

Ltac step_by t := eapply rtc_l; [t; (reflexivity || done) | cbn].
Ltac pump k t :=
  eapply rtc_l; [eapply (t_pump _ _ _ k); [reflexivity | t; (reflexivity || done)] | cbn].
Ltac act b := eapply rtc_l; [eapply t_handler, (h_act _ _ _ _ b []); reflexivity | cbn].

Lemma demo_serving_reached : tunnel_reach 1 "edge" demo_serving.
Proof.
  exists ∅, (mkServer Session_init ∅ "" [] false FAccept [] 0 [] []). split; [by split |].
  step_by ltac:(apply t_handler, (h_read _ _ (demo_frame "edge"))). act true. act true.
  step_by ltac:(apply (t_accept _ _ _ 7)). step_by ltac:(apply (t_get _ _ _ 7)).
  step_by ltac:(apply t_forward, (f_next _ _ 7)). step_by ltac:(apply t_forward, (f_add _ _ 7 1)).
  step_by ltac:(apply t_forward, (f_send _ _ 1 0 true)). step_by ltac:(apply t_forward, (f_spawn _ _ 1 0)).
  pump 0 ltac:(apply (p_recv _ _ "hi")). pump 0 ltac:(apply (p_send _ _ "hi" true)).
  apply rtc_refl.
Qed.

Lemma demo_hang_up : rtc (tstep 1 "edge") demo_serving demo_returned.
Proof.
  step_by ltac:(apply t_handler, h_eof). act true. act true. act true. act true. apply rtc_refl.
Qed.

Lemma demo_pump_ends : rtc (tstep 1 "edge") demo_returned demo_idle.
Proof.
  pump 0 ltac:(apply p_recv_end). pump 0 ltac:(apply p_exchange). pump 0 ltac:(apply p_erase).
  apply rtc_refl.
Qed.

Lemma demo_returned_reached : tunnel_reach 1 "edge" demo_returned.
Proof. eapply reach_rtc; [apply demo_serving_reached | apply demo_hang_up]. Qed.
Lemma demo_idle_reached : tunnel_reach 1 "edge" demo_idle.
Proof. eapply reach_rtc; [apply demo_returned_reached | apply demo_pump_ends]. Qed.

Lemma shutdown_is_a_barrier_witness :
  written (sess demo_idle) = [ack_frame "edge"; open_frame 1 "edge"; data_frame 1 "hi"].
Proof.
  rewrite (shutdown_is_a_barrier demo_returned demo_idle demo_returned_reached (conj eq_refl eq_refl)
             demo_pump_ends).
  reflexivity.
Defined.

Lemma stream_ids_unique_witness :
  NoDup (opened (written (sess demo_idle))) /\ opened (written (sess demo_idle)) = [1%Z].
Proof.
  split; [| reflexivity].
  apply (stream_ids_unique demo_idle demo_idle_reached). reflexivity.
Defined.

Lemma pump_forwards_bytes_witness :
  exists rest, "hi" = sent_data 1 (written (sess demo_serving)) +:+ rest /\ rest = "".
Proof.
  apply (pump_forwards_bytes demo_serving 0 (mkPump 1 0 PRecv "hi") demo_serving_reached);
    reflexivity.
Defined.

Lemma idle_session_holds_nothing_witness :
  OpenStreams (sess demo_idle) = 0 /\ Forall (fun c => closed c = true) (heap (sess demo_idle)).
Proof.
  apply (idle_session_holds_nothing demo_idle demo_idle_reached); [reflexivity |].
  repeat constructor.
Defined.

Lemma teardown_wakes_every_pump_witness :
  exists c, heap (sess demo_returned) !! 0 = Some c /\ closed c = true.
Proof.
  apply (teardown_wakes_every_pump demo_returned 0 (mkPump 1 0 PRecv "hi") demo_returned_reached);
    [reflexivity | split; reflexivity | reflexivity |]. by left.
Defined.

(** ** The empty name *)

(** A client registers "" and then "a", and hangs up. *)
Definition demo_leftover : Server :=
  mkServer (mkSession false ∅ 1 [] [ack_frame ""; ack_frame "a"])
    {["" := 1%nat]} "a" [] true FAccept [] 0 [] [demo_frame ""; demo_frame "a"].

Lemma demo_leftover_reached : tunnel_reach 1 "edge" demo_leftover.
Proof.
  exists ∅, (mkServer Session_init ∅ "" [] false FAccept [] 0 [] []). split; [by split |].
  step_by ltac:(apply t_handler, (h_read _ _ (demo_frame ""))). act true. act true.
  step_by ltac:(apply t_handler, (h_read _ _ (demo_frame "a"))). act true. act true.
  step_by ltac:(apply t_handler, h_eof). act true. act true. act true. apply rtc_refl.
Qed.

(** The exception of [registry_forgets_session] is real: the handler has
    returned and the registry still gives its session for the empty target. *)
Example empty_name_outlives_session :
  tunnel_reach 1 "edge" demo_leftover /\ returned demo_leftover
  /\ reg_get "" (reg demo_leftover) = Some 1.
Proof. split; [exact demo_leftover_reached |]. by split; [split |]. Qed.

Lemma registry_forgets_session_witness : reg_get "a" (reg demo_leftover) <> Some 1.
Proof.
  apply (registry_forgets_session demo_leftover demo_leftover "a" demo_leftover_reached);
    [split; reflexivity | apply rtc_refl | discriminate].
Defined.

(** ** The client *)

(** It has registered, and written to the local service what the server sent. *)
Definition demo_client : Client :=
  mkClient
    (mkSession true {[1%Z := 0%nat]} 1 [mkConn 9 false] [register_frame "edge"])
    [] false 3 [mkPump 1 0 PRecv ""] [(1%Z, "hi")] KWait false.
(** The server ended the stream, and [RunTunnel] has returned. *)
Definition demo_client_gone : Client :=
  mkClient (mkSession false ∅ 1 [mkConn 9 true] [register_frame "edge"])
    [] true 3 [mkPump 1 0 PRecv ""] [(1%Z, "hi")] KDone true.

Ltac c_act_by b o d :=
  eapply rtc_l; [eapply (c_act _ _ _ _ _ b o d); [reflexivity | discriminate | discriminate | reflexivity] | cbn].
Ltac c_read_by := eapply rtc_l; [eapply c_read; reflexivity | cbn].

Lemma demo_client_reached : client_reach "edge" (written (sess demo_serving)) demo_client.
Proof.
  unfold client_reach, client_start. c_act_by true (@nil SendResult) (@None Z).
  c_act_by true (@nil SendResult) (@None Z). c_read_by. c_read_by.
  c_act_by true (@nil SendResult) (Some 9%Z). c_act_by true (@nil SendResult) (@None Z).
  c_act_by true (@nil SendResult) (@None Z). c_read_by.
  c_act_by true (@nil SendResult) (@None Z). c_act_by true [Sent 2] (@None Z). apply rtc_refl.
Qed.

Lemma demo_client_gone_reached : client_reach "edge" (written (sess demo_serving)) demo_client_gone.
Proof.
  unfold client_reach. etrans; [apply demo_client_reached |]. unfold demo_client.
  eapply rtc_l; [eapply c_eof; reflexivity | cbn].
  do 3 c_act_by true (@nil SendResult) (@None Z).
  eapply rtc_l; [eapply (c_act _ _ _ _ _ true [] None); [reflexivity | done | discriminate | reflexivity] | cbn].
  eapply rtc_l; [eapply c_wake; reflexivity | cbn].
  eapply rtc_l; [eapply (c_act _ _ _ _ _ true [] None); [reflexivity | discriminate | done | reflexivity] | cbn].
  apply rtc_refl.
Qed.

(** The stream has just ended. *)
Definition demo_leaving : Client :=
  mkClient
    (mkSession true {[1%Z := 0%nat]} 1 [mkConn 9 false] [register_frame "edge"])
    c_unwind true 3 [mkPump 1 0 PRecv ""] [(1%Z, "hi")] KWait false.

Lemma demo_leaving_reached : client_reach "edge" (written (sess demo_serving)) demo_leaving.
Proof.
  unfold client_reach. etrans; [apply demo_client_reached |].
  eapply rtc_l; [eapply c_eof; reflexivity | apply rtc_refl].
Qed.

Lemma client_gets_out_witness :
  exists c, rtc (own_step (target := "edge") (wire := written (sess demo_serving))) demo_leaving c /\
    c_returned c.
Proof. apply (client_gets_out demo_leaving demo_leaving_reached eq_refl). Defined.

Lemma client_returns_quietly_witness :
  alive (c_sess demo_client_gone) = false /\ ka_over demo_client_gone.
Proof.
  split; apply (client_returns_quietly demo_client_gone demo_client_gone_reached);
    split; reflexivity.
Defined.

Lemma client_writes_in_order_witness :
  sent_data 1 (take 3 (written (sess demo_serving))) = "hi".
Proof.
  apply (client_writes_in_order (target := "edge") (wire := written (sess demo_serving))
           (wire_announced _ (reach_wire _ demo_serving_reached))
           (NoDup_singleton 1%Z)
           demo_client 0 1 "hi" demo_client_reached); reflexivity.
Defined.

(** ** Both ends *)

(** A request of an application and the answer of the local service. *)
Definition demo_server : Server :=
  mkServer
    (mkSession true {[1%Z := 0%nat]} 2 [mkConn 7 false]
       [ack_frame "edge"; open_frame 1 "edge"; data_frame 1 "hi"])
    {["edge" := 1%nat]} "edge" [] false FAccept [mkPump 1 0 PRecv "hi"] 1 [(1%Z, "yo")]
    [register_frame "edge"; data_frame 1 "yo"].
Definition demo_edge : Client :=
  mkClient
    (mkSession true {[1%Z := 0%nat]} 1 [mkConn 9 false] [register_frame "edge"; data_frame 1 "yo"])
    [] false 3 [mkPump 1 0 PRecv "yo"] [(1%Z, "hi")] KWait false.

Ltac at_server t :=
  eapply rtc_l; [apply pipe_server; [t; (reflexivity || done) | by vm_compute; repeat econstructor] | cbn].
Ltac at_client t := eapply rtc_l; [apply pipe_client; t | cbn].
Ltac s_act o := at_server ltac:(eapply t_handler, (h_act _ _ _ _ true o)).
Ltac s_pump t := at_server ltac:(eapply (t_pump _ _ _ 0); [reflexivity | t]).
Ltac e_act o d :=
  at_client ltac:(eapply (c_act _ _ _ _ _ true o d); [reflexivity | discriminate | discriminate | reflexivity]).
Ltac e_pump t := at_client ltac:(eapply (c_pump _ _ _ 0); [reflexivity | t; (reflexivity || done)]).

Lemma demo_pipe_reached : pipe_reach 1 "edge" "edge" (demo_server, demo_edge).
Proof.
  exists ∅, (mkServer Session_init ∅ "" [] false FAccept [] 0 [] []). split; [by split |].
  unfold client_start. e_act (@nil SendResult) (@None Z). e_act (@nil SendResult) (@None Z).
  at_server ltac:(apply t_handler, (h_read _ _ (register_frame "edge"))).
  do 2 s_act (@nil SendResult).
  at_server ltac:(apply (t_accept _ _ _ 7)). at_server ltac:(apply (t_get _ _ _ 7)).
  at_server ltac:(apply t_forward, (f_next _ _ 7)). at_server ltac:(apply t_forward, (f_add _ _ 7 1)).
  at_server ltac:(apply t_forward, (f_send _ _ 1 0 true)). at_server ltac:(apply t_forward, (f_spawn _ _ 1 0)).
  s_pump ltac:(apply (p_recv _ _ "hi")). s_pump ltac:(apply (p_send _ _ "hi" true)).
  at_client ltac:(eapply c_read; reflexivity). at_client ltac:(eapply c_read; reflexivity).
  e_act (@nil SendResult) (Some 9%Z). do 2 e_act (@nil SendResult) (@None Z).
  at_client ltac:(eapply c_read; reflexivity).
  e_act (@nil SendResult) (@None Z). e_act [Sent 2] (@None Z).
  e_pump ltac:(apply (p_recv _ _ "yo")). e_pump ltac:(apply (p_send _ _ "yo" true)).
  at_server ltac:(apply t_handler, (h_read _ _ (data_frame 1 "yo"))).
  s_act (@nil SendResult). s_act [Sent 1; SendAgain; Sent 1]. apply rtc_refl.
Qed.

Lemma tunnel_is_a_pipe_witness :
  p_heard (mkPump 1 0 PRecv "hi") = "hi" /\ p_heard (mkPump 1 0 PRecv "yo") = "yo" /\
  exists h o, socks demo_server !! h = Some (1%Z, o).
Proof.
  destruct (tunnel_is_a_pipe 1 "edge" "edge" (demo_server, demo_edge) demo_pipe_reached eq_refl)
    as (Hc & Hs & Hd).
  split; [| split].
  - apply (Hc 0 1%Z "hi" 0 (mkPump 1 0 PRecv "hi") eq_refl eq_refl eq_refl); reflexivity.
  - apply (Hs 0 1%Z "yo" 0 (mkPump 1 0 PRecv "yo") eq_refl eq_refl eq_refl); reflexivity.
  - apply (Hd 0 1%Z "hi" eq_refl).
Defined.
