(* ===== verification/TunnelConn.v ===== *)
(** * TunnelConn: when a descriptor is closed (grpc-tunnel/src/session.h, session.cc)

    A [Conn] owns the descriptor of a socket and is held by [shared_ptr]s: in the
    stream table, in the locals of the read loop and the forwarder, in a pump.
    [~Conn] closes the descriptor when the last of them goes, and from then on the
    kernel may give the same number to somebody else.  The first part is that, for
    any program that shares connections; its laws are proved for the server
    (TunnelSession) and for the client (TunnelClient), whose C++ scopes are added
    here to the states of those files. *)

From S2P Require Import Prelude CString TunnelNet TunnelSession TunnelProofs TunnelSplice TunnelClient TunnelEnd TunnelRuns.

(** ** A program that shares connections *)

Class ConnProgram (S : Type) := {
  cp_step : S -> S -> Prop;
  cp_heap : S -> list Conn;      (* the [Conn]s made so far *)
  cp_held : S -> list nat;       (* those some [ConnPtr] points to *)
  cp_uses : S -> list nat;       (* those on whose descriptor a thread is making a call *)
  cp_raw : S -> option Z;        (* a descriptor in a plain [int] *)
  cp_refuses : S -> bool         (* where that [int] goes, it is [::close]d *)
}.

(** What a step does to them; [I] is what the states of its runs keep. *)
Class ConnLaws (S : Type) `{CP : ConnProgram S} (I : S -> Prop) := {
  cl_inv : forall s s', I s -> cp_step s s' -> I s';
  cl_uses : forall s h, h ∈ cp_uses s -> h ∈ cp_held s;
  cl_same : forall s s' h c, I s -> cp_step s s' -> cp_heap s !! h = Some c ->
    exists c', cp_heap s' !! h = Some c' /\ fd c' = fd c;
  cl_new : forall s s' h c, I s -> cp_step s s' -> cp_heap s !! h = None ->
    cp_heap s' !! h = Some c ->
    h = length (cp_heap s) /\ cp_raw s = Some (fd c) /\ cp_raw s' = None /\ h ∈ cp_held s';
  cl_held : forall s s' h, I s -> cp_step s s' -> h ∈ cp_held s' ->
    h ∈ cp_held s \/ h = length (cp_heap s) /\ is_Some (cp_heap s' !! h)
}.

(** The process around the program: its open descriptors, and the [Conn]s
    destroyed so far, in order. *)
Record Process (S : Type) := mkProcess { prog : S; fds : gset Z; gone : list nat }.
Arguments mkProcess {S} _ _ _.
Arguments prog {S} _.
Arguments fds {S} _.
Arguments gone {S} _.

Section Process.
Context {S : Type} `{CP : ConnProgram S}.

(** The [Conn]s whose last [ConnPtr] goes in this step. *)
Definition released (s s' : S) : list nat :=
  filter (fun h => h ∈ cp_held s /\ h ∉ cp_held s') (seq 0 (length (cp_heap s))).
(** [~Conn]: [if (fd >= 0) ::close(fd);] *)
Definition conn_closes (s : S) (h : nat) : gset Z :=
  match cp_heap s !! h with
  | Some c => if (0 <=? fd c)%Z then {[fd c]} else ∅
  | None => ∅
  end.
Definition destroyed (s : S) (hs : list nat) : gset Z := ⋃ (conn_closes s <$> hs).
(** The [::close(fd)] of a descriptor that got no [Conn]. *)
Definition dropped (s s' : S) : gset Z :=
  match cp_raw s, cp_raw s' with
  | Some f, None =>
      if cp_refuses s && bool_decide (length (cp_heap s') = length (cp_heap s)) then {[f]} else ∅
  | _, _ => ∅
  end.
Definition brought (s : S) : gset Z := match cp_raw s with Some f => {[f]} | None => ∅ end.

(** The descriptors the program is responsible for. *)
Definition owns (s : S) (f : Z) : Prop :=
  cp_raw s = Some f \/ exists h c, h ∈ cp_held s /\ cp_heap s !! h = Some c /\ fd c = f.

(** A step of the program: a descriptor it gets from the kernel is one that was
    not open. Or the rest of the process opens and closes others. *)
Inductive process_step (x : Process S) : Process S -> Prop :=
| pr_step s' :
    cp_step (prog x) s' ->
    (forall f, cp_raw s' = Some f -> cp_raw (prog x) <> Some f -> (0 <= f)%Z /\ f ∉ fds x) ->
    process_step x
      (mkProcess s'
         ((brought s' ∪ fds x) ∖ (destroyed s' (released (prog x) s') ∪ dropped (prog x) s'))
         (gone x ++ released (prog x) s'))
| pr_others F :
    (forall f, owns (prog x) f -> f ∈ F) -> process_step x (mkProcess (prog x) F (gone x)).

Definition process_start (x : Process S) : Prop :=
  cp_heap (prog x) = [] /\ cp_held (prog x) = [] /\ cp_raw (prog x) = None /\ gone x = [].
End Process.

(** ** Nothing is closed while it is held *)

Record process_ok {S : Type} `{CP : ConnProgram S} (x : Process S) : Prop := {
  po_open : forall h, h ∈ cp_held (prog x) ->
    exists c, cp_heap (prog x) !! h = Some c /\ (0 <= fd c)%Z /\ fd c ∈ fds x;
  po_apart : forall h h' c c', h ∈ cp_held (prog x) -> h' ∈ cp_held (prog x) ->
    cp_heap (prog x) !! h = Some c -> cp_heap (prog x) !! h' = Some c' -> fd c = fd c' -> h = h';
  po_raw : forall f, cp_raw (prog x) = Some f -> (0 <= f)%Z /\ f ∈ fds x /\
    forall h c, h ∈ cp_held (prog x) -> cp_heap (prog x) !! h = Some c -> fd c <> f;
  po_once : NoDup (gone x);
  po_gone : forall h, h ∈ gone x <-> (h < length (cp_heap (prog x)))%nat /\ h ∉ cp_held (prog x)
}.

(** Every call a thread is making on a connection's descriptor is on one that is
    open, is no other live connection's, and is not the one just accepted. *)
Definition descriptors_safe {S} `{CP : ConnProgram S} (x : Process S) : Prop :=
  forall h, h ∈ cp_uses (prog x) -> exists c, cp_heap (prog x) !! h = Some c /\ fd c ∈ fds x /\
    cp_raw (prog x) <> Some (fd c) /\
    forall h' c', h' ∈ cp_held (prog x) -> cp_heap (prog x) !! h' = Some c' -> fd c' = fd c -> h' = h.

Section Lifetime.
Context {S : Type} {I : S -> Prop} `{CL : ConnLaws S I}.
Implicit Types (s : S) (x : Process S).

Lemma elem_of_released s s' h :
  h ∈ released s s' <-> h ∈ cp_held s /\ h ∉ cp_held s' /\ (h < length (cp_heap s))%nat.
Proof. unfold released. rewrite list_elem_of_filter, elem_of_seq. naive_solver lia. Qed.

Lemma elem_of_destroyed s hs f :
  f ∈ destroyed s hs -> exists h c, h ∈ hs /\ cp_heap s !! h = Some c /\ fd c = f.
Proof.
  unfold destroyed. rewrite elem_of_union_list. intros (F & HF & Hf).
  apply list_elem_of_fmap in HF as (h & -> & Hh). unfold conn_closes in Hf.
  destruct (cp_heap s !! h) as [c |] eqn:Hc; [| by apply elem_of_empty in Hf].
  destruct (0 <=? fd c)%Z; [| by apply elem_of_empty in Hf].
  apply elem_of_singleton in Hf as ->. by exists h, c.
Qed.

Lemma elem_of_dropped s s' f :
  f ∈ dropped s s' -> cp_raw s = Some f /\ cp_raw s' = None /\ length (cp_heap s') = length (cp_heap s).
Proof.
  unfold dropped. intros Hf. destruct (cp_raw s) as [g |], (cp_raw s'); try set_solver.
  destruct (cp_refuses s); [| by apply elem_of_empty in Hf]. cbn [andb] in Hf.
  case_bool_decide; [| by apply elem_of_empty in Hf]. by apply elem_of_singleton in Hf as ->.
Qed.

Section Step.
Context (x : Process S) (s' : S) (Hok : process_ok x) (Hi : I (prog x)) (Hs : cp_step (prog x) s').
Context (Hfresh : forall f, cp_raw s' = Some f -> cp_raw (prog x) <> Some f -> (0 <= f)%Z /\ f ∉ fds x).
Notation s := (prog x).
Notation after :=
  ((brought s' ∪ fds x) ∖ (destroyed s' (released s s') ∪ dropped s s')).

(** A [Conn] of before is the same descriptor after. *)
Lemma same_fd h c c' : cp_heap s !! h = Some c -> cp_heap s' !! h = Some c' -> fd c' = fd c.
Proof. intros Hc Hc'. destruct (cl_same s s' h c Hi Hs Hc) as (c2 & E & F). congruence. Qed.

Lemma heap_grows : (length (cp_heap s) <= length (cp_heap s'))%nat.
Proof.
  destruct (Nat.le_gt_cases (length (cp_heap s)) (length (cp_heap s'))) as [| Hlt]; [done |].
  destruct (lookup_lt_is_Some_2 (cp_heap s) (length (cp_heap s')) Hlt) as [c Hc].
  destruct (cl_same s s' _ c Hi Hs Hc) as (c' & Hc' & _). apply lookup_lt_Some in Hc'. lia.
Qed.

(** What is held after the step was held before, or is the [Conn] just made of
    the descriptor in hand. *)
Lemma held_after h : h ∈ cp_held s' -> exists c', cp_heap s' !! h = Some c' /\
  ((h ∈ cp_held s /\ exists c, cp_heap s !! h = Some c /\ fd c = fd c') \/
   (h = length (cp_heap s) /\ cp_raw s = Some (fd c') /\ cp_raw s' = None)).
Proof.
  intros Hh. destruct (cl_held s s' h Hi Hs Hh) as [Ho | [E [c' Hc']]].
  - destruct (po_open _ Hok h Ho) as (c & Hc & _). destruct (cl_same s s' h c Hi Hs Hc) as (c' & Hc' & E).
    exists c'. split; [done |]. left. eauto.
  - exists c'. split; [done |]. right.
    destruct (cl_new s s' h c' Hi Hs) as (_ & ? & ? & _); [| done | done]. subst h. by apply lookup_ge_None_2.
Qed.

Lemma destroyed_held f :
  f ∈ destroyed s' (released s s') -> exists h c, h ∈ cp_held s /\ h ∉ cp_held s' /\
    cp_heap s !! h = Some c /\ fd c = f.
Proof.
  intros (h & c' & Hh & Hc' & <-)%elem_of_destroyed. apply elem_of_released in Hh as (H1 & H2 & _).
  destruct (po_open _ Hok h H1) as (c & Hc & _). exists h, c. split_and!; try done.
  symmetry. by eapply same_fd.
Qed.

Lemma held_stays_open h c' : h ∈ cp_held s' -> cp_heap s' !! h = Some c' -> (0 <= fd c')%Z /\ fd c' ∈ after.
Proof.
  intros Hh Hc'. destruct (held_after h Hh) as (c2 & Hc2 & [(Ho & c & Hc & E) | (El & Er & _)]);
    assert (c2 = c') as -> by congruence.
  - destruct (po_open _ Hok h Ho) as (c3 & Hc3 & Hpos & Hin). assert (c3 = c) as -> by congruence.
    split; [lia |]. rewrite <- E. apply elem_of_difference. split; [by apply elem_of_union_r |].
    intros [Hd | Hd]%elem_of_union.
    + apply destroyed_held in Hd as (h2 & c2 & H1 & H2 & H3 & H4). apply H2.
      by rewrite (po_apart _ Hok h2 h c2 c H1 Ho H3 Hc H4).
    + apply elem_of_dropped in Hd as (Hr & _). destruct (po_raw _ Hok _ Hr) as (_ & _ & Hn).
      by apply (Hn h c Ho Hc).
  - destruct (po_raw _ Hok _ Er) as (Hpos & Hin & Hn). split; [done |]. apply elem_of_difference.
    split; [by apply elem_of_union_r |]. intros [Hd | Hd]%elem_of_union.
    + apply destroyed_held in Hd as (h2 & c2 & H1 & _ & H3 & H4). by apply (Hn h2 c2 H1 H3).
    + apply elem_of_dropped in Hd as (_ & _ & Hl). apply lookup_lt_Some in Hc'. lia.
Qed.

Lemma raw_after f : cp_raw s' = Some f -> (0 <= f)%Z /\ f ∈ after /\
  forall h c', h ∈ cp_held s' -> cp_heap s' !! h = Some c' -> fd c' <> f.
Proof.
  intros Hf. assert (f ∈ brought s') as Hb by (unfold brought; rewrite Hf; set_solver).
  assert ((0 <= f)%Z /\ forall h c, h ∈ cp_held s -> cp_heap s !! h = Some c -> fd c <> f) as [Hp Hn].
  { destruct (decide (cp_raw s = Some f)) as [E | E].
    - by destruct (po_raw _ Hok f E) as (? & _ & ?).
    - destruct (Hfresh f Hf E) as [? Hnot]. split; [done |]. intros h c Hh Hc <-.
      destruct (po_open _ Hok h Hh) as (c2 & Hc2 & _ & Hin). congruence. }
  split_and!; [done | |].
  - apply elem_of_difference. split; [by apply elem_of_union_l |]. intros [Hd | Hd]%elem_of_union.
    + apply destroyed_held in Hd as (h & c & H1 & _ & H3 & H4). by apply (Hn h c).
    + apply elem_of_dropped in Hd as (_ & E & _). congruence.
  - intros h c' Hh Hc'. destruct (held_after h Hh) as (c2 & Hc2 & [(Ho & c & Hc & E) | (_ & _ & E)]);
      [| congruence]. rewrite (same_fd h c c' Hc Hc'). by apply (Hn h c).
Qed.

Lemma apart_after h h' c c' :
  h ∈ cp_held s' -> h' ∈ cp_held s' -> cp_heap s' !! h = Some c -> cp_heap s' !! h' = Some c' ->
  fd c = fd c' -> h = h'.
Proof.
  intros Hh Hh' Hc Hc' E.
  destruct (held_after h Hh) as (d & Hd & Ho), (held_after h' Hh') as (d' & Hd' & Ho').
  assert (d = c) as -> by congruence. assert (d' = c') as -> by congruence.
  destruct Ho as [(Ho & e & He & Ee) | (-> & Er & _)], Ho' as [(Ho' & e' & He' & Ee') | (-> & Er' & _)].
  - apply (po_apart _ Hok h h' e e'); congruence.
  - destruct (po_raw _ Hok _ Er') as (_ & _ & Hn). by destruct (Hn h e Ho He); congruence.
  - destruct (po_raw _ Hok _ Er) as (_ & _ & Hn). by destruct (Hn h' e' Ho' He'); congruence.
  - done.
Qed.

Lemma gone_after h :
  h ∈ gone x ++ released s s' <-> (h < length (cp_heap s'))%nat /\ h ∉ cp_held s'.
Proof.
  rewrite elem_of_app, elem_of_released, (po_gone _ Hok). pose proof heap_grows as Hg. split.
  - intros [[Hl Hn] | (_ & Hn & Hl)]; split; [lia | | lia | done].
    intros Hh. destruct (held_after h Hh) as (? & _ & [[? _] | [-> _]]); [done | lia].
  - intros [Hl Hn]. destruct (decide (h < length (cp_heap s))%nat) as [Hlt | Hge].
    + destruct (decide (h ∈ cp_held s)); auto.
    + destruct (lookup_lt_is_Some_2 _ _ Hl) as [c Hc].
      destruct (cl_new s s' h c Hi Hs) as (_ & _ & _ & Hh); [apply lookup_ge_None_2; lia | done | done].
Qed.
End Step.

Lemma process_ok_step x x' : process_ok x -> I (prog x) -> process_step x x' -> process_ok x' /\ I (prog x').
Proof.
  intros Hok Hi [s' Hs Hfresh | F HF].
  - split; [| by eapply cl_inv]. split; cbn.
    + intros h Hh. destruct (held_after x s' Hok Hi Hs h Hh) as (c' & Hc' & _).
      exists c'. split; [done |]. by apply (held_stays_open x s' Hok Hi Hs h).
    + by apply (apart_after x s' Hok Hi Hs).
    + by apply (raw_after x s' Hok Hi Hs Hfresh).
    + apply NoDup_app. split_and!; [apply Hok | | apply NoDup_filter, NoDup_seq].
      intros h Hg (Hh & _)%elem_of_released. apply (po_gone _ Hok) in Hg. tauto.
    + by apply (gone_after x s' Hok Hi Hs).
  - split; [| done]. destruct Hok as [H1 H2 H3 H4 H5]. split; cbn; auto.
    + intros h Hh. destruct (H1 h Hh) as (c & Hc & Hp & _). exists c. split_and!; [done | done |].
      apply HF. right. eauto.
    + intros f Hf. destruct (H3 f Hf) as (Hp & _ & Hn). split_and!; [done | apply HF; by left | done].
Qed.

Lemma process_ok_run x x' :
  process_start x -> I (prog x) -> rtc process_step x x' -> process_ok x' /\ I (prog x').
Proof.
  intros (E1 & E2 & E3 & E4) Hi Hr.
  assert (process_ok x) as Hok.
  { split; rewrite ?E1, ?E2, ?E3, ?E4; try set_solver; [constructor |].
    intros h. cbn. split; [set_solver | lia]. }
  revert Hok Hi. clear E1 E2 E3 E4. induction Hr as [x | x y z Hxy _ IH]; [done |]. intros Hok Hi.
  destruct (process_ok_step x y Hok Hi Hxy). by apply IH.
Qed.

(** What this says to the code. *)
Lemma process_ok_safe x : process_ok x -> descriptors_safe x.
Proof.
  intros [H1 H2 H3 _ _] h Hu%cl_uses. destruct (H1 h Hu) as (c & Hc & Hp & Hin).
  exists c. split_and!; [done | done | |].
  - intros Hf. destruct (H3 _ Hf) as (_ & _ & Hn). by apply (Hn h c).
  - intros h' c' Hh' Hc' E. by apply (H2 h' h c' c).
Qed.

(** When nobody holds anything, every [Conn] there was is gone, once. *)
Lemma process_ok_empty x : process_ok x -> cp_held (prog x) = [] ->
  gone x ≡ₚ seq 0 (length (cp_heap (prog x))).
Proof.
  intros [_ _ _ H4 H5] E. apply NoDup_Permutation; [done | apply NoDup_seq |].
  intros h. rewrite H5, E, elem_of_seq. set_solver by lia.
Qed.
End Lifetime.

(** ** The server *)

(** What the handler's work in hand mentions, the forwarder's, and the pumps'
    argument [conn]. *)
Definition act_refs (a : HAct) : list nat := match a with AWrite h _ _ | AMark h => [h] | _ => [] end.
Definition fwd_refs (p : FPc) : list nat :=
  match p with FSend _ h | FSpawn _ h | FMark h => [h] | _ => [] end.
Definition pump_refs (ps : list Pump) : list nat :=
  omap (fun p => match p_pc p with PDone => None | _ => Some (p_conn p) end) ps.
Definition table (s : Session) : list nat := (map_to_list (conns s)).*2.

(** A [ConnPtr] local of [Register]'s loop - [conn], or [taken] of [CloseAll] -
    lives to the end of the work on the frame, the forwarder's [conn] to the end of
    its round. *)
Definition handler_scope {A} (refs : A -> list nat) (todo : list A) (old : list nat) : list nat :=
  match todo with [] => [] | _ => (todo ≫= refs) ++ old end.
Definition forwarder_scope (p : FPc) (old : list nat) : list nat :=
  match p with FSend _ h | FSpawn _ h => [h] | FErase _ | FMark _ => old | _ => [] end.

Record ScopedServer := mkScoped { sv : Server; h_scope : list nat; f_scope : list nat }.

Definition server_held (x : ScopedServer) : list nat :=
  table (sess (sv x)) ++ (todo (sv x) ≫= act_refs) ++ h_scope x ++ fwd_refs (fpc (sv x)) ++ f_scope x
  ++ pump_refs (pumps (sv x)).
(** [recv], [send] and [shutdown]. *)
Definition recv_refs (ps : list Pump) : list nat :=
  omap (fun p => match p_pc p with PRecv => Some (p_conn p) | _ => None end) ps.
Definition server_uses (x : ScopedServer) : list nat :=
  recv_refs (pumps (sv x)) ++ match todo (sv x) with a :: _ => act_refs a | [] => [] end
  ++ match fpc (sv x) with FMark h => [h] | _ => [] end.
Definition server_raw (v : Server) : option Z :=
  match fpc v with FGet f | FNext f | FAdd f _ => Some f | _ => None end.

#[export] Instance server_program (me : nat) (ftgt : string) : ConnProgram ScopedServer :=
  {| cp_step x x' := tstep me ftgt (sv x) (sv x') /\
       h_scope x' = handler_scope act_refs (todo (sv x')) (h_scope x) /\
       f_scope x' = forwarder_scope (fpc (sv x')) (f_scope x);
     cp_heap x := heap (sess (sv x));
     cp_held := server_held;
     cp_uses := server_uses;
     cp_raw x := server_raw (sv x);
     (* [if (!sess) { ::close(fd); continue; }] *)
     cp_refuses x := match fpc (sv x) with
                     | FGet _ => bool_decide (reg_get ftgt (reg (sv x)) = None)
                     | _ => false end |}.

Lemma elem_of_table s h : h ∈ table s <-> exists i, conns s !! i = Some h.
Proof.
  unfold table. rewrite list_elem_of_fmap. split.
  - intros ([i h'] & -> & Hi%elem_of_map_to_list). by exists i.
  - intros [i Hi]. exists (i, h). split; [done | by apply elem_of_map_to_list].
Qed.

Lemma elem_of_pump_refs ps h :
  h ∈ pump_refs ps <-> exists k p, ps !! k = Some p /\ p_conn p = h /\ p_pc p <> PDone.
Proof.
  unfold pump_refs. rewrite list_elem_of_omap. split.
  - intros (p & [k Hk]%list_elem_of_lookup & Hp). exists k, p.
    by destruct (p_pc p); try done; injection Hp as <-.
  - intros (k & p & Hk & <- & Hn). exists p. split; [by eapply list_elem_of_lookup_2 |].
    by destruct (p_pc p).
Qed.

Lemma recv_refs_held ps h : h ∈ recv_refs ps -> h ∈ pump_refs ps.
Proof.
  unfold recv_refs. rewrite list_elem_of_omap, elem_of_pump_refs.
  intros (p & [k Hk]%list_elem_of_lookup & Hp). exists k, p.
  by destruct (p_pc p); try done; injection Hp as <-.
Qed.

Lemma handler_scope_sub {A} (refs : A -> list nat) l old h :
  h ∈ handler_scope refs l old -> h ∈ l ≫= refs \/ h ∈ old.
Proof. unfold handler_scope. destruct l; [by intros ?%elem_of_nil |]. by rewrite elem_of_app. Qed.

Lemma forwarder_scope_sub p old h : h ∈ forwarder_scope p old -> h ∈ fwd_refs p \/ h ∈ old.
Proof. destruct p; cbn; auto; by intros ?%elem_of_nil. Qed.

(** The pumps of a step: one of them moves on, keeping its connection. *)
Lemma pump_refs_insert ps (k : nat) p q h :
  ps !! k = Some p -> p_conn q = p_conn p -> p_pc p <> PDone ->
  h ∈ pump_refs (<[k := q]> ps) -> h ∈ pump_refs ps.
Proof.
  intros Hk E Hp. rewrite !elem_of_pump_refs. intros (j & r & Hj & <- & Hr).
  destruct (lookup_insert_pump _ _ _ _ _ _ Hk Hj) as [[-> ->] | [_ Hj']]; eauto 6.
Qed.

Lemma pump_step_conn s p s' p' : pump_step s p s' p' -> p_conn p' = p_conn p /\ p_pc p <> PDone.
Proof. intros []; cbn; split; congruence. Qed.

(** A [Conn] keeps its descriptor. *)
Definition same_fds (s s' : Session) : Prop :=
  length (heap s') = length (heap s) /\
  forall h c, heap s !! h = Some c -> exists c', heap s' !! h = Some c' /\ fd c' = fd c.

Lemma same_fds_heap s s' : heap s' = heap s -> same_fds s s'.
Proof. intros E. split; rewrite E; eauto. Qed.

Lemma same_fds_mark h s : same_fds s (MarkClosed h s).
Proof.
  split; cbn; [apply length_alter |]. intros h' c Hc. destruct (decide (h' = h)) as [-> | Hn].
  - exists (mkConn (fd c) true). by rewrite list_lookup_alter_eq, Hc.
  - exists c. by rewrite list_lookup_alter_ne.
Qed.

Lemma pump_step_fds s p s' p' : pump_step s p s' p' -> same_fds s s'.
Proof. intros []; cbn; auto using same_fds_mark; apply same_fds_heap; by autorewrite with tunnel. Qed.

Lemma act_run_fds me wok outcomes a v v' more :
  act_run me wok outcomes a v = (v', more) -> same_fds (sess v) (sess v').
Proof.
  intros Hr. destruct a; cbn in Hr; injection Hr as <- <-; cbn; auto using same_fds_mark;
    apply same_fds_heap; by autorewrite with tunnel.
Qed.

Section ServerLaws.
Context {me : nat} {ftgt : string}.

(** The heap only grows where the forwarder adds the connection it accepted. *)
Lemma server_heap v v' : tstep me ftgt v v' ->
  same_fds (sess v) (sess v') \/
  exists f i, fpc v = FAdd f i /\ sess v' = (AddConn i f (sess v)).2 /\ fpc v' = FSend i (length (heap (sess v))).
Proof.
  intros Hs. destruct Hs as [| ? ? [| | ? ? ? ? ? ? ? ? Hr] | | | ? ? [| ? f i Hf | | | |] | ? k p s' p' Hk Hp];
    cbn; try (left; apply same_fds_heap; by autorewrite with tunnel).
  - left. by eapply act_run_fds.
  - right. by exists f, i.
  - left. apply same_fds_mark.
  - left. by eapply pump_step_fds.
Qed.

(** Where the references of a step come from. *)
Lemma server_table v v' h : tstep me ftgt v v' -> h ∈ table (sess v') ->
  h ∈ table (sess v) \/ h ∈ fwd_refs (fpc v').
Proof.
  rewrite !elem_of_table. intros Hs [i Hi].
  destruct Hs as [| ? ? [| | ? a ? ? ? ? ? ? Hr] | | | ? ? [| ? f j Hf | | | |] | ? k p s' p' Hk Hp]; cbn in *;
    autorewrite with tunnel in Hi; eauto.
  - destruct a; cbn in Hr; injection Hr as <- <-; cbn in Hi; autorewrite with tunnel in Hi; eauto.
    + apply lookup_delete_Some in Hi as [_ Hi]. eauto.
    + by rewrite lookup_empty in Hi.
  - apply lookup_insert_Some in Hi as [[<- <-] | [_ Hi]]; [right; set_solver | eauto].
  - apply lookup_delete_Some in Hi as [_ Hi]. eauto.
  - left. exists i. by eapply pump_step_shrinks.
Qed.

Lemma elem_of_bind_app {A B} (f : A -> list B) l l' x : x ∈ (l ++ l') ≫= f <-> x ∈ l ≫= f \/ x ∈ l' ≫= f.
Proof. by rewrite bind_app, elem_of_app. Qed.

Lemma marks_refs hs h : h ∈ (AMark <$> hs) ≫= act_refs -> h ∈ hs.
Proof. induction hs as [| g hs IH]; cbn; [done |]. rewrite !elem_of_cons. naive_solver. Qed.

Lemma server_todo v v' h : tstep me ftgt v v' -> h ∈ todo v' ≫= act_refs ->
  h ∈ todo v ≫= act_refs \/ h ∈ table (sess v).
Proof.
  intros Hs. destruct Hs as [| ? ? [v f Ht _ | | v a rest wok outcomes v1 more Ht Hr] | | | ? ? [| | | | |] |];
    cbn; auto.
  - unfold on_frame. destruct (ftype f); cbn; try (by intros ?%elem_of_nil).
    case_match; by intros ?%elem_of_nil.
  - by intros ?%elem_of_nil.
  - rewrite elem_of_bind_app, Ht. cbn. rewrite elem_of_app.
    assert (h ∈ more ≫= act_refs -> h ∈ act_refs a \/ h ∈ table (sess v)) as Hm; [| tauto].
    destruct a; cbn in Hr; injection Hr as <- <-; cbn; try (by intros ?%elem_of_nil).
    + unfold GetConn. destruct (conns (sess v) !! i) as [g |] eqn:Hg; cbn; [| by intros ?%elem_of_nil].
      intros ->%list_elem_of_singleton. right. apply elem_of_table. eauto.
    + destruct (WriteAll outcomes d).2 as [[] |]; cbn; auto; by intros ?%elem_of_nil.
    + unfold GetConn. destruct (conns (sess v) !! i) as [g |] eqn:Hg; cbn; [| by intros ?%elem_of_nil].
      intros ->%list_elem_of_singleton. right. apply elem_of_table. eauto.
    + intros Hh%marks_refs. by right.
Qed.

Lemma server_fwd v v' h : tstep me ftgt v v' -> h ∈ fwd_refs (fpc v') ->
  h ∈ fwd_refs (fpc v) \/ h ∈ table (sess v) \/
  (exists f i, sess v' = (AddConn i f (sess v)).2 /\ h = length (heap (sess v))).
Proof.
  intros Hs. destruct Hs as [| ? ? [| | ? a ? ? ? ? ? ? Hr] | |
    | ? ? [| ? f i Hf | ? i g wok Hf | w i Hf | ? ? Hf | ? ? ? Hf] |];
    cbn; auto; try (by intros ?%elem_of_nil).
  - destruct (act_run_ids _ _ _ _ _ _ _ Hr) as (_ & _ & _ & -> & _). auto.
  - case_decide; by intros ?%elem_of_nil.
  - intros ->%list_elem_of_singleton. do 2 right. eauto.
  - rewrite Hf. case_match; cbn; auto; by intros ?%elem_of_nil.
  - unfold GetConn. destruct (conns (sess w) !! i) as [g |] eqn:Hg; cbn; [| by intros ?%elem_of_nil].
    intros ->%list_elem_of_singleton. right; left. apply elem_of_table. eauto.
Qed.

Lemma server_pumps v v' h : tstep me ftgt v v' -> h ∈ pump_refs (pumps v') ->
  h ∈ pump_refs (pumps v) \/ h ∈ fwd_refs (fpc v).
Proof.
  intros Hs. destruct Hs as [| ? ? [| | ? a ? ? ? ? ? ? Hr] | | | ? ? [| | | | | ? i g Hf] | ? k p s' p' Hk Hp]; cbn; auto.
  - destruct (act_run_ids _ _ _ _ _ _ _ Hr) as (_ & _ & -> & _). auto.
  - rewrite Hf. unfold pump_refs. rewrite omap_app, elem_of_app. cbn. tauto.
  - destruct (pump_step_conn _ _ _ _ Hp). left. by eapply pump_refs_insert.
Qed.
End ServerLaws.

Definition server_ok (x : ScopedServer) : Prop :=
  (todo (sv x) = [] -> h_scope x = []) /\ (fpc (sv x) = FAccept -> f_scope x = []).

#[export] Instance server_laws me ftgt : ConnLaws (CP := server_program me ftgt) ScopedServer server_ok.
Proof.
  split.
  - intros x x' _ (_ & E1 & E2). split; [by rewrite E1; intros -> | by rewrite E2; intros ->].
  - intros x h. cbn. unfold server_uses, server_held. rewrite !elem_of_app.
    intros [H | [H | H]].
    + by do 5 right; apply recv_refs_held.
    + right; left. destruct (todo (sv x)); [by apply elem_of_nil in H |]. cbn. rewrite elem_of_app. by left.
    + do 3 right. left. by destruct (fpc (sv x)); try (by apply elem_of_nil in H).
  - intros x x' h c _ [Hs _] Hc. cbn in *. destruct (server_heap _ _ Hs) as [[_ Hf] | (f & i & _ & -> & _)].
    + by apply Hf.
    + cbn. exists c. split; [by apply lookup_app_l_Some | done].
  - intros x x' h c _ [Hs _] Hn Hc. cbn in *.
    destruct (server_heap _ _ Hs) as [[El _] | (f & i & Hf & Es & Hf')].
    + apply lookup_ge_None in Hn. apply lookup_lt_Some in Hc. lia.
    + rewrite Es in Hc. cbn in Hc. apply lookup_app_Some in Hc as [Hc | [Hl Hc]]; [congruence |].
      apply list_lookup_singleton_Some in Hc as [E <-]. unfold server_raw. rewrite Hf, Hf'.
      split_and!; [lia | done | done |]. unfold server_held. rewrite !elem_of_app, Hf'. do 3 right. left.
      apply list_elem_of_singleton. lia.
  - intros x x' h _ (Hs & E1 & E2). cbn. unfold server_held. rewrite !elem_of_app, E1, E2.
    assert (h ∈ fwd_refs (fpc (sv x')) -> h ∈ fwd_refs (fpc (sv x)) \/ h ∈ table (sess (sv x)) \/
      h = length (heap (sess (sv x))) /\ is_Some (heap (sess (sv x')) !! h)) as Hw.
    { intros Hh. destruct (server_fwd _ _ h Hs Hh) as [? | [? | (f & i & -> & ->)]]; auto.
      do 2 right. split; [done |]. cbn. rewrite lookup_app_r, Nat.sub_diag by lia. by eexists. }
    intros [Hh | [Hh | [Hh | [Hh | [Hh | Hh]]]]].
    + destruct (server_table _ _ h Hs Hh); tauto.
    + destruct (server_todo _ _ h Hs Hh); tauto.
    + destruct (handler_scope_sub _ _ _ _ Hh) as [H | H]; [destruct (server_todo _ _ h Hs H) |]; tauto.
    + tauto.
    + destruct (forwarder_scope_sub _ _ _ Hh); tauto.
    + destruct (server_pumps _ _ h Hs Hh); tauto.
Qed.

(** ** The client *)

Definition c_refs (a : CAct) : list nat :=
  match a with CSpawn _ h | CWrite h _ _ | CMark h => [h] | _ => [] end.
Record ScopedClient := mkScopedClient { sc : Client; c_scope : list nat }.
Definition client_held (x : ScopedClient) : list nat :=
  table (c_sess (sc x)) ++ (c_todo (sc x) ≫= c_refs) ++ c_scope x ++ pump_refs (c_pumps (sc x)).
Definition client_uses (x : ScopedClient) : list nat :=
  recv_refs (c_pumps (sc x)) ++
  match c_todo (sc x) with (CWrite h _ _ | CMark h) :: _ => [h] | _ => [] end.
(** The descriptor [DialTcp] returned. *)
Definition client_raw (c : Client) : option Z :=
  match c_todo c with CAdd _ f :: _ => Some f | _ => None end.

#[export] Instance client_program (target : string) (wire : list Frame) : ConnProgram ScopedClient :=
  {| cp_step x x' := client_step target wire (sc x) (sc x') /\
       c_scope x' = handler_scope c_refs (c_todo (sc x')) (c_scope x);
     cp_heap x := heap (c_sess (sc x));
     cp_held := client_held;
     cp_uses := client_uses;
     cp_raw x := client_raw (sc x);
     cp_refuses _ := false |}.

(** Only the next thing to do dials or adds. *)
Definition settled (a : CAct) : Prop := match a with CDial _ | CAdd _ _ => False | _ => True end.
Definition client_ok (x : ScopedClient) : Prop :=
  Forall settled (tail (c_todo (sc x))) /\ (c_todo (sc x) = [] -> c_scope x = []).

Lemma c_run_settled target wok outcomes dial a c c' more :
  c_run target wok outcomes dial a c = (c', more) -> Forall settled (tail more) /\
  (Forall settled more \/ exists i f, a = CDial i /\ more = [CAdd i f]).
Proof.
  intros Hr.
  assert (forall hs, Forall settled (CMark <$> hs)) as Hm by (intros; by apply Forall_fmap, Forall_true).
  destruct a; cbn in Hr; repeat case_match; injection Hr as <- <-; (split;
    [first [by repeat constructor | apply Forall_tail, Hm]
    |first [by left; repeat constructor | left; apply Hm | by right; eauto]]).
Qed.

Section ClientLaws.
Context {target : string} {wire : list Frame}.

(** The actions that do not add a connection. *)
Lemma c_run_fds wok outcomes dial a c c' more :
  c_run target wok outcomes dial a c = (c', more) -> (forall i f, a <> CAdd i f) ->
  same_fds (c_sess c) (c_sess c') /\ (forall h, h ∈ table (c_sess c') -> h ∈ table (c_sess c)).
Proof.
  intros Hr Ha. destruct a; cbn in Hr; try (by destruct (Ha i f)).
  1: pose proof (Send_heap wok (register_frame target) (c_sess c)) as Eh;
     pose proof (Send_conns wok (register_frame target) (c_sess c)) as Ec;
     destruct (Send wok (register_frame target) (c_sess c)) as [sent s]; cbn in Eh, Ec.
  7: destruct (WriteAll outcomes d) as [o r].
  all: injection Hr as <- <-; cbn; split; auto using same_fds_mark;
    try (apply same_fds_heap; autorewrite with tunnel; done);
    intros h; rewrite !elem_of_table; cbn; autorewrite with tunnel; try done.
  - by rewrite Ec.
  - intros [j Hj]. apply lookup_delete_Some in Hj as [_ Hj]. eauto.
  - intros [j Hj]. by rewrite lookup_empty in Hj.
Qed.

Lemma client_heap c c' : client_step target wire c c' ->
  (same_fds (c_sess c) (c_sess c') /\ forall h, h ∈ table (c_sess c') -> h ∈ table (c_sess c)) \/
  exists i f rest, c_todo c = CAdd i f :: rest /\ c_sess c' = (AddConn i f (c_sess c)).2 /\
    c_todo c' = CSpawn i (length (heap (c_sess c))) :: rest.
Proof.
  intros Hs. destruct Hs as [c f Ht He Hf | c Ht He | c a rest wok outcomes dial c' more Ht _ _ Hr
    | c Hk _ | c Hk _ | c wok Hk | c k p s p' _ Hps]; cbn; try (left; split; [by apply same_fds_heap | done]).
  - assert ((exists i f, a = CAdd i f) \/ forall i f, a <> CAdd i f) as [(i & f & ->) | Ha]
      by (destruct a; eauto; right; congruence).
    + right. exists i, f, rest. cbn in Hr. injection Hr as <- <-. done.
    + left. by eapply c_run_fds.
  - left. split; [apply same_fds_heap; by autorewrite with tunnel |].
    intros h. rewrite !elem_of_table. by autorewrite with tunnel.
  - left. split; [by eapply pump_step_fds |]. intros h. rewrite !elem_of_table.
    intros [i Hi]. exists i. by eapply pump_step_shrinks.
Qed.

Lemma cmarks_refs hs h : h ∈ (CMark <$> hs) ≫= c_refs -> h ∈ hs.
Proof. induction hs as [| g hs IH]; cbn; [done |]. rewrite !elem_of_cons. naive_solver. Qed.

Lemma c_run_refs wok outcomes dial a c c' more h :
  c_run target wok outcomes dial a c = (c', more) -> (forall i f, a <> CAdd i f) ->
  h ∈ more ≫= c_refs -> h ∈ c_refs a \/ h ∈ table (c_sess c).
Proof.
  intros Hr Ha. destruct a; cbn in Hr; try (by destruct (Ha i f)).
  1: destruct (Send wok (register_frame target) (c_sess c)) as [[] s].
  8: destruct (WriteAll outcomes d) as [o [[] |]].
  all: try (injection Hr as <- <-; cbn; auto; try (by intros ?%elem_of_nil)).
  - destruct dial; cbn; by intros ?%elem_of_nil.
  - unfold GetConn. destruct (conns (c_sess c) !! i) as [g |] eqn:Hg; cbn; [| by intros ?%elem_of_nil].
    intros ->%list_elem_of_singleton. right. apply elem_of_table. eauto.
  - unfold GetConn. destruct (conns (c_sess c) !! i) as [g |] eqn:Hg; cbn; [| by intros ?%elem_of_nil].
    intros ->%list_elem_of_singleton. right. apply elem_of_table. eauto.
  - intros Hh%cmarks_refs. by right.
Qed.

Lemma client_todo c c' h : client_step target wire c c' -> h ∈ c_todo c' ≫= c_refs ->
  h ∈ c_todo c ≫= c_refs \/ h ∈ table (c_sess c) \/
  (exists i f, c_sess c' = (AddConn i f (c_sess c)).2 /\ h = length (heap (c_sess c))).
Proof.
  intros Hs. destruct Hs as [c f Ht He Hf | c Ht He | c a rest wok outcomes dial c' more Ht _ _ Hr
    | c Hk _ | c Hk _ | c wok Hk | c k p s p' _ Hps]; cbn; auto.
  - unfold c_on_frame. repeat case_match; by intros ?%elem_of_nil.
  - by intros ?%elem_of_nil.
  - rewrite elem_of_bind_app, Ht. cbn. rewrite elem_of_app.
    assert ((exists i f, a = CAdd i f) \/ forall i f, a <> CAdd i f) as [(i & f & ->) | Ha]
      by (destruct a; eauto; right; congruence).
    + cbn in Hr. injection Hr as <- <-. cbn. intros [->%list_elem_of_singleton | ?]; [| auto].
      do 2 right. eauto.
    + intros [Hh | Hh]; [| auto]. destruct (c_run_refs _ _ _ _ _ _ _ h Hr Ha Hh); auto.
Qed.

Lemma client_pumps c c' h : client_step target wire c c' -> h ∈ pump_refs (c_pumps c') ->
  h ∈ pump_refs (c_pumps c) \/ h ∈ c_todo c ≫= c_refs.
Proof.
  intros Hs. destruct Hs as [c f Ht He Hf | c Ht He | c a rest wok outcomes dial c' more Ht _ _ Hr
    | c Hk _ | c Hk _ | c wok Hk | c k p s p' Hk Hps]; cbn; auto.
  - destruct a; cbn in Hr; try (destruct (Send wok (register_frame target) (c_sess c)) as [sent s]);
      try (destruct (WriteAll outcomes d) as [o r]); injection Hr as <- <-; cbn; auto.
    rewrite Ht. unfold pump_refs. rewrite omap_app, elem_of_app. cbn. rewrite !elem_of_cons, elem_of_nil. tauto.
  - destruct (pump_step_conn _ _ _ _ Hps). left. by eapply pump_refs_insert.
Qed.
End ClientLaws.

#[export] Instance client_laws target wire :
  ConnLaws (CP := client_program target wire) ScopedClient client_ok.
Proof.
  split.
  - intros x x' [Hok _] [Hs E]. split; [| by rewrite E; intros ->]. cbn in *. destruct Hs as [c f Ht He Hf | c Ht He
      | c a rest wok outcomes dial c' more Ht _ _ Hr | | | |]; cbn; auto.
    + unfold c_on_frame. by repeat case_match.
    + by repeat constructor.
    + rewrite Ht in Hok. cbn in Hok. destruct (c_run_settled _ _ _ _ _ _ _ _ Hr) as [Hm _].
      destruct more; [by apply Forall_tail |]. cbn in *. by apply Forall_app.
  - intros x h. cbn. unfold client_uses, client_held. rewrite !elem_of_app. intros [H | H].
    + by do 3 right; apply recv_refs_held.
    + right; left. destruct (c_todo (sc x)) as [| [] r]; try (by apply elem_of_nil in H);
        cbn; apply elem_of_cons; left; by apply list_elem_of_singleton in H.
  - intros x x' h c _ [Hs _] Hc. cbn in *.
    destruct (client_heap _ _ Hs) as [[[_ Hf] _] | (i & f & r & _ & -> & _)]; [by apply Hf |].
    cbn. exists c. split; [by apply lookup_app_l_Some | done].
  - intros x x' h c _ [Hs _] Hn Hc. cbn in *.
    destruct (client_heap _ _ Hs) as [[[El _] _] | (i & f & r & Et & Es & Et')].
    + apply lookup_ge_None in Hn. apply lookup_lt_Some in Hc. lia.
    + rewrite Es in Hc. cbn in Hc. apply lookup_app_Some in Hc as [Hc | [Hl Hc]]; [congruence |].
      apply list_lookup_singleton_Some in Hc as [E <-]. unfold client_raw. rewrite Et, Et'.
      split_and!; [lia | done | done |]. unfold client_held. rewrite !elem_of_app, Et'. right; left. cbn.
      apply elem_of_cons. left. lia.
  - intros x x' h _ (Hs & E). cbn. unfold client_held. rewrite !elem_of_app, E.
    assert (h ∈ c_todo (sc x') ≫= c_refs ->
      h ∈ c_todo (sc x) ≫= c_refs \/ h ∈ table (c_sess (sc x)) \/
      h = length (heap (c_sess (sc x))) /\ is_Some (heap (c_sess (sc x')) !! h)) as Hw.
    { intros Hh. destruct (client_todo _ _ h Hs Hh) as [? | [? | (i & f & -> & ->)]]; auto.
      do 2 right. split; [done |]. cbn. rewrite lookup_app_r, Nat.sub_diag by lia. by eexists. }
    intros [Hh | [Hh | [Hh | Hh]]].
    + destruct (client_heap _ _ Hs) as [[_ Hf] | (i & f & r & _ & Es & _)]; [left; left; by apply Hf |].
      rewrite Es in *. apply elem_of_table in Hh as [j Hj]. cbn in Hj.
      apply lookup_insert_Some in Hj as [[<- <-] | [_ Hj]]; [right | left; left; apply elem_of_table; eauto].
      split; [done |]. cbn. rewrite lookup_app_r, Nat.sub_diag by lia. by eexists.
    + tauto.
    + destruct (handler_scope_sub _ _ _ _ Hh); tauto.
    + destruct (client_pumps _ _ h Hs Hh); tauto.
Qed.

(** ** Both ends, from their start *)

Definition server_process (me : nat) (ftgt : string) (x : Process ScopedServer) : Prop :=
  exists r v0 F, tunnel_start r me v0 /\
    rtc (process_step (CP := server_program me ftgt)) (mkProcess (mkScoped v0 [] []) F []) x.
Definition client_process (target : string) (wire : list Frame) (x : Process ScopedClient) : Prop :=
  exists F, rtc (process_step (CP := client_program target wire))
              (mkProcess (mkScopedClient client_start []) F []) x.

Lemma process_erase {S} `{CP : ConnProgram S} (x x' : Process S) :
  rtc process_step x x' -> rtc cp_step (prog x) (prog x').
Proof.
  induction 1 as [| x y z [s' Hs _ | F _] _ IH]; [done | by eapply rtc_l | done].
Qed.

Lemma server_process_ok me ftgt x : server_process me ftgt x ->
  process_ok (CP := server_program me ftgt) x /\ server_ok (prog x) /\
  tunnel_reach me ftgt (sv (prog x)).
Proof.
  intros (r & v0 & F & Hv & Hr). pose proof (process_erase _ _ Hr) as He.
  edestruct (process_ok_run (CL := server_laws me ftgt)) as [Hok Hi]; [| | exact Hr |];
    [by destruct Hv as [-> _]; repeat split .. |].
  split_and!; [done | done |]. exists r, v0. split; [done |].
  clear -He. cbn in He. remember (mkScoped v0 [] []) as y eqn:Ey. assert (v0 = sv y) as -> by by subst.
  clear Ey. induction He as [| ? ? ? [Hs _] _ IH]; [done | by eapply rtc_l].
Qed.

Lemma client_process_ok target wire x : client_process target wire x ->
  process_ok (CP := client_program target wire) x /\ client_ok (prog x) /\
  client_reach target wire (sc (prog x)).
Proof.
  intros (F & Hr). pose proof (process_erase _ _ Hr) as He.
  edestruct (process_ok_run (CL := client_laws target wire)) as [Hok Hi]; [| | exact Hr |];
    [by repeat split | by split; [constructor |] |].
  split_and!; [done | done |]. clear -He. cbn in He. unfold client_reach.
  remember (mkScopedClient client_start []) as y eqn:Ey. assert (client_start = sc y) as -> by by subst.
  clear Ey. induction He as [| ? ? ? [Hs _] _ IH]; [done | by eapply rtc_l].
Qed.

(** The client's table after [CloseAll]: nothing is added any more. *)
Lemma client_emptied target wire c : client_reach target wire c ->
  c_todo c = [CRegister] \/ (c_ended c = true /\ CTakeAll ∉ c_todo c) -> conns (c_sess c) = ∅.
Proof.
  revert c. refine (client_ind (fun c => _ -> conns (c_sess c) = ∅) _ _); [done |].
  intros c c' Hr IH Hs. pose proof (reach_c_phase c Hr) as Hp.
  destruct Hs as [c f Ht He Hf | c Ht He | c a rest wok outcomes dial c' more Ht _ _ Hr'
    | c Hk _ | c Hk _ | c wok Hk | c k p s p' _ Hps]; cbn; autorewrite with tunnel; auto.
  - intros [H | [? _]]; [| done]. unfold c_on_frame in H. by repeat case_match.
  - intros [? | [_ Hn]]; [done | set_solver].
  - intros Hc. destruct Hp as [He Hf Hk | He Hf | He Hf Hk | He Hf | He Ha Hf | hs He Ha Hf | He Ha Hf | ? ? Hf ?];
      rewrite Ht in *; try done.
    + injection Hf as -> ->. cbn in Hr'.
      pose proof (Send_conns wok (register_frame target) (c_sess c)) as E.
      destruct (Send wok (register_frame target) (c_sess c)) as [[] s]; injection Hr' as <- <-; cbn in *;
        rewrite E; apply IH; by left.
    + apply Forall_cons in Hf as [Hpl Hf]. destruct (c_run_serving _ _ _ _ _ _ _ _ Hr' Hpl) as [E Hm].
      destruct Hc as [Hc | [Hc _]]; [| congruence].
      assert (Forall c_plain (more ++ rest)) as Hall by by apply Forall_app.
      rewrite Hc in Hall. by inversion Hall.
    + injection Hf as -> ->. cbn in Hr'. injection Hr' as <- <-. cbn. apply IH. right. split; [done | set_solver].
    + injection Hf as -> ->. cbn in Hr'. injection Hr' as <- <-. cbn in Hc. set_solver.
    + injection Hf as -> ->. cbn in Hr'. injection Hr' as <- <-. done.
    + destruct hs as [| h hs]; injection Hf as -> ->; cbn in Hr'; injection Hr' as <- <-; cbn;
        apply IH; right; (split; [done |]); set_solver.
    + injection Hf as -> ->. cbn in Hr'. injection Hr' as <- <-. cbn. apply IH. right. split; [done | set_solver].
  - intros Hc. apply map_eq. intros i. rewrite lookup_empty. apply eq_None_not_Some. intros [h Hh].
    destruct (pump_step_shrinks _ _ _ _ Hps) as [_ Hsub]. apply Hsub in Hh. by rewrite (IH Hc) in Hh.
Qed.

(** C14: No descriptor is used after it was closed, at either end of a tunnel. However the
    threads interleave, and whatever the rest of the process opens and closes
    meanwhile: the descriptor on which a pump is in [recv], the read loop in [send]
    or [CloseConn] in [shutdown] is open, belongs to that stream's connection and to
    no other live one, and is not the one just accepted or dialled. So although
    several threads share a socket and the kernel reuses numbers, no stream reads or
    writes another stream's socket. *)
Theorem descriptor_in_use_is_open (me : nat) (ftgt target : string) (wire : list Frame)
    (x : Process ScopedServer) (y : Process ScopedClient)
    (Hx : server_process me ftgt x) (Hy : client_process target wire y) :
  descriptors_safe (CP := server_program me ftgt) x /\
  descriptors_safe (CP := client_program target wire) y.
Proof.
  destruct (server_process_ok _ _ _ Hx) as [Hsx _], (client_process_ok _ _ _ Hy) as [Hsy _].
  split; by apply process_ok_safe.
Qed.

Lemma done_pumps_refs ps : Forall (fun p => p_pc p = PDone) ps -> pump_refs ps = [].
Proof. induction 1 as [| p ps Hp _ IH]; [done |]. unfold pump_refs in *. cbn. by rewrite Hp. Qed.

(** C15: Every descriptor is closed, and once. When a session has come to rest - on the
    server the handler has no frame in hand, the forwarder waits and every pump has
    ended; on the client [RunTunnel] has returned and every pump has ended - the
    stream table is empty and [~Conn] has run for each connection the session ever
    held, once, in whatever order the closes, failures and ends of file came. *)
Theorem every_descriptor_closed_once (me : nat) (ftgt target : string) (wire : list Frame)
    (x : Process ScopedServer) (y : Process ScopedClient)
    (Hx : server_process me ftgt x) (Hy : client_process target wire y)
    (Hlt : (Z.of_nat (allocated (sv (prog x))) < 2 ^ 64)%Z) (Hrx : at_rest (sv (prog x)))
    (Hry : c_returned (sc (prog y))) (Hdy : Forall (fun p => p_pc p = PDone) (c_pumps (sc (prog y)))) :
  (OpenStreams (sess (sv (prog x))) = 0%nat /\
   gone x ≡ₚ seq 0 (length (heap (sess (sv (prog x)))))) /\
  (OpenStreams (c_sess (sc (prog y))) = 0%nat /\
   gone y ≡ₚ seq 0 (length (heap (c_sess (sc (prog y)))))).
Proof.
  destruct (server_process_ok _ _ _ Hx) as (Hokx & [Hsx Hfx] & Hreach).
  destruct (client_process_ok _ _ _ Hy) as (Hoky & [_ Hsy] & Hcreach).
  split.
  - destruct (idle_session_holds_nothing _ Hreach Hlt Hrx) as [Hn _]. split; [done |].
    apply (process_ok_empty x Hokx). cbn. destruct Hrx as (Ht & Hf & Hp).
    unfold server_held, table. rewrite (map_size_empty_inv _ Hn), map_to_list_empty, Ht, Hf, (Hsx Ht), (Hfx Hf).
    by rewrite done_pumps_refs.
  - destruct Hry as [He Ht].
    assert (conns (c_sess (sc (prog y))) = ∅) as Hn.
    { apply (client_emptied _ _ _ Hcreach). right. split; [done |]. rewrite Ht. by intros ?%elem_of_nil. }
    unfold OpenStreams. rewrite Hn. split; [by rewrite map_size_empty |].
    apply (process_ok_empty y Hoky). cbn. unfold client_held, table.
    by rewrite Hn, map_to_list_empty, Ht, (Hsy Ht), done_pumps_refs.
Qed.

(** ** A run of each *)

(** A step whose descriptor, if it gets one, is the first: the kernel can make it. *)
Definition first_fd {S} `{CP : ConnProgram S} (s s' : S) : Prop :=
  forall f, cp_raw s' = Some f ->
    cp_raw s = Some f \/ (0 <= f)%Z /\ cp_heap s = [] /\ cp_raw s = None.

Lemma process_lift {S} {I : S -> Prop} `{CL : ConnLaws S I} (x : Process S) s' :
  process_ok x -> cp_step (prog x) s' -> first_fd (prog x) s' ->
  exists x', rtc process_step x x' /\ prog x' = s'.
Proof.
  intros Hok Hs Hf.
  set (F := match cp_raw s' with
            | Some f => if decide (cp_raw (prog x) = Some f) then fds x else ∅
            | None => fds x end).
  eexists. split.
  - eapply rtc_l; [apply (pr_others x F) | apply rtc_once, pr_step; [exact Hs |]].
    + intros f Hown. assert (F = fds x \/ cp_heap (prog x) = [] /\ cp_raw (prog x) = None) as [-> | [E1 E2]].
      { unfold F, first_fd in *. destruct (cp_raw s') as [g |]; [| by left].
        case_decide; [by left |]. destruct (Hf g eq_refl) as [? | (_ & ? & ?)]; [done | by right]. }
      * destruct Hown as [Hr | (h & c & Hh & Hc & <-)]; [by apply (po_raw x Hok) |].
        destruct (po_open x Hok h Hh) as (c' & Hc' & _ & Hin). congruence.
      * destruct Hown as [? | (h & c & _ & Hc & _)]; [congruence |]. by rewrite E1 in Hc.
    + cbn. intros f Hr Hn. split; [by destruct (Hf f Hr) as [? | [? _]] |].
      unfold F. rewrite Hr, decide_False by done. apply not_elem_of_empty.
  - done.
Qed.

Lemma server_lift me ftgt x v' :
  server_process me ftgt x -> tstep me ftgt (sv (prog x)) v' ->
  (forall f, server_raw v' = Some f -> server_raw (sv (prog x)) = Some f \/
     (0 <= f)%Z /\ heap (sess (sv (prog x))) = [] /\ server_raw (sv (prog x)) = None) ->
  exists x', server_process me ftgt x' /\ sv (prog x') = v'.
Proof.
  intros Hx Ht Hf. destruct (server_process_ok _ _ _ Hx) as [Hok _].
  destruct (process_lift (CL := server_laws me ftgt) x
    (mkScoped v' (handler_scope act_refs (todo v') (h_scope (prog x))) (forwarder_scope (fpc v') (f_scope (prog x)))))
    as (x' & Hr & Ex'); [done | done | done |].
  exists x'. split; [| by rewrite Ex']. destruct Hx as (r & v0 & F & Hv & H0). exists r, v0, F.
  split; [done | by etrans].
Qed.

Lemma client_lift target wire x c' :
  client_process target wire x -> client_step target wire (sc (prog x)) c' ->
  (forall f, client_raw c' = Some f -> client_raw (sc (prog x)) = Some f \/
     (0 <= f)%Z /\ heap (c_sess (sc (prog x))) = [] /\ client_raw (sc (prog x)) = None) ->
  exists x', client_process target wire x' /\ sc (prog x') = c'.
Proof.
  intros Hx Ht Hf. destruct (client_process_ok _ _ _ Hx) as [Hok _].
  destruct (process_lift (CL := client_laws target wire) x
    (mkScopedClient c' (handler_scope c_refs (c_todo c') (c_scope (prog x))))) as (x' & Hr & Ex');
    [done | done | done |].
  exists x'. split; [| by rewrite Ex']. destruct Hx as (F & H0). exists F. by etrans.
Qed.

Ltac lift_by L t :=
  lazymatch goal with Hx : _ ?x, E : _ = _ |- _ =>
    let x' := fresh "x" in let Hx' := fresh "Hx" in let E' := fresh "E" in
    edestruct L as (x' & Hx' & E');
      [exact Hx | rewrite E; t; (reflexivity || done)
      | rewrite E; cbn; intros ? [=]; subst; first [by left | by right] |];
    clear x E Hx; rename x' into x, Hx' into Hx, E' into E; cbn in E end.
Ltac serve t := lift_by server_lift ltac:(t).
Ltac serve_act b := serve ltac:(eapply t_handler, (h_act _ _ _ _ b []); reflexivity).

Ltac serve_pump t := serve ltac:(eapply (t_pump _ _ _ 0); [reflexivity | t; done]).
Ltac edge t := lift_by client_lift ltac:(t).
Ltac edge_read := edge ltac:(eapply c_read; reflexivity).
Ltac edge_act o d :=
  edge ltac:(eapply (c_act _ _ _ _ _ true o d); [reflexivity | done | done | reflexivity]).
Ltac edge_pump t := edge ltac:(eapply (c_pump _ _ _ 0); [reflexivity | t; done]).

Lemma demo_process : exists x, server_process 1 "edge" x /\ sv (prog x) = demo_serving.
Proof.
  assert (exists x, server_process 1 "edge" x /\
    sv (prog x) = mkServer Session_init ∅ "" [] false FAccept [] 0 [] []) as (x & Hx & E).
  { eexists. split; [eexists ∅, _, ∅; split; [by split | apply rtc_refl] | done]. }
  serve ltac:(apply t_handler, (h_read _ _ (demo_frame "edge"))). serve_act true. serve_act true.
  serve ltac:(apply (t_accept _ _ _ 7)). serve ltac:(apply (t_get _ _ _ 7)).
  serve ltac:(apply t_forward, (f_next _ _ 7)). serve ltac:(apply t_forward, (f_add _ _ 7 1)).
  serve ltac:(apply t_forward, (f_send _ _ 1 0 true)). serve ltac:(apply t_forward, (f_spawn _ _ 1 0)).
  serve_pump ltac:(apply (p_recv _ _ "hi")). serve_pump ltac:(apply (p_send _ _ "hi" true)).
  by exists x.
Qed.

Lemma demo_process_rests : exists x, server_process 1 "edge" x /\ sv (prog x) = demo_idle.
Proof.
  destruct demo_process as (x & Hx & E). unfold demo_serving in E.
  serve ltac:(apply t_handler, h_eof). do 4 serve_act true.
  serve_pump ltac:(apply p_recv_end). serve_pump ltac:(apply p_exchange). serve_pump ltac:(apply p_erase).
  by exists x.
Qed.

Notation demo_wire := (written (sess demo_serving)).

Lemma demo_edge_process : exists y, client_process "edge" demo_wire y /\ sc (prog y) = demo_client.
Proof.
  assert (exists y, client_process "edge" demo_wire y /\ sc (prog y) = client_start) as (x & Hx & E).
  { eexists. split; [eexists ∅; apply rtc_refl | done]. }
  unfold client_start in E. do 2 edge_act (@nil SendResult) (@None Z). edge_read. edge_read.
  edge_act (@nil SendResult) (Some 9%Z). do 2 edge_act (@nil SendResult) (@None Z). edge_read.
  edge_act (@nil SendResult) (@None Z). edge_act [Sent 2] (@None Z). by exists x.
Qed.

(** The server has ended the stream and the local service its connection. *)
Lemma demo_edge_rests : exists y, client_process "edge" demo_wire y /\ c_returned (sc (prog y)) /\
  Forall (fun p => p_pc p = PDone) (c_pumps (sc (prog y))) /\ length (heap (c_sess (sc (prog y)))) = 1%nat.
Proof.
  destruct demo_edge_process as (x & Hx & E). unfold demo_client in E.
  edge ltac:(eapply c_eof; reflexivity). do 4 edge_act (@nil SendResult) (@None Z).
  edge ltac:(eapply c_wake; reflexivity). edge_act (@nil SendResult) (@None Z).
  edge_pump ltac:(apply p_recv_end). edge_pump ltac:(apply p_exchange). edge_pump ltac:(apply p_erase).
  exists x. rewrite E. split_and!; [done | done | by repeat constructor | done].
Qed.

Lemma descriptor_in_use_is_open_witness :
  exists x y, (sv (prog x) = demo_serving /\ 7%Z ∈ fds x) /\ (sc (prog y) = demo_client /\ 9%Z ∈ fds y).
Proof.
  destruct demo_process as (x & Hx & Ex), demo_edge_process as (y & Hy & Ey).
  exists x, y. destruct (descriptor_in_use_is_open 1 "edge" "edge" demo_wire x y Hx Hy) as [Sx Sy]. split.
  - split; [done |]. destruct (Sx 0%nat) as (c & Hc & Hin & _).
    { cbn. unfold server_uses. rewrite Ex. by left. }
    cbn in Hc. rewrite Ex in Hc. by injection Hc as <-.
  - split; [done |]. destruct (Sy 0%nat) as (c & Hc & Hin & _).
    { cbn. unfold client_uses. rewrite Ey. by left. }
    cbn in Hc. rewrite Ey in Hc. by injection Hc as <-.
Defined.

Lemma every_descriptor_closed_once_witness :
  exists (x : Process ScopedServer) (y : Process ScopedClient), gone x = [0%nat] /\ gone y = [0%nat].
Proof.
  destruct demo_process_rests as (x & Hx & Ex), demo_edge_rests as (y & Hy & Hr & Hd & El).
  exists x, y. destruct (every_descriptor_closed_once 1 "edge" "edge" demo_wire x y Hx Hy) as [[_ Gx] [_ Gy]].
  - by rewrite Ex.
  - rewrite Ex. split_and!; [done | done | by repeat constructor].
  - done.
  - done.
  - rewrite Ex in Gx. rewrite El in Gy. split; by apply Permutation_singleton_r.
Defined.
