(* ===== verification/TunnelHub.v ===== *)
(** * TunnelHub: the tunnel server as a whole (grpc-tunnel/src/tunnel_server.cc)

    TunnelSession follows one call of [Register] and lets the others do to the
    registry what they may.  Here they all run: any number of calls, each with its
    handler and its pumps, the registry they share, and the one forwarder, which
    takes a session out of the registry for every connection it accepts.  Seen from
    one call, a run of the server is a run of TunnelSession ([hub_session]); what is
    proved there holds of every session of the server.  Then what only shows when
    sessions share the registry: who holds a name. *)

From S2P Require Import Prelude CString TunnelNet TunnelSession TunnelProofs.

(** ** The code *)

(** What one call of [Register] owns. *)
Record Tun := mkTun {
  u_sess : Session; u_cur : string; u_todo : list HAct; u_ending : bool;
  u_pumps : list Pump; u_allocated : nat; u_socks : list (Z * string); u_frames : list Frame
}.
Definition Tun_init : Tun := mkTun Session_init "" [] false [] 0 [] [].

(** [ForwarderLoop]: before it has a session, and at work on session [p]. *)
Inductive Fwd := WAccept | WGet (f : Z) | WAt (p : nat) (pc : FPc).

(** A session pointer is the number of its call: while the registry or a thread
    holds one, its address is not given to another. [h_log] lists the calls of
    [Registry::Add] so far. *)
Record Hub := mkHub { h_reg : Registry; h_tuns : list Tun; h_fwd : Fwd; h_log : list (string * nat) }.

Definition pc_at (p : nat) (w : Fwd) : FPc :=
  match w with
  | WAccept => FAccept
  | WGet f => FGet f
  | WAt q pc => if decide (q = p) then pc else FAccept
  end.
Definition fwd_at (p : nat) (pc : FPc) : Fwd := match pc with FAccept => WAccept | _ => WAt p pc end.

(** The server as call [p] sees it, and what such a view says about the call. *)
Definition view (H : Hub) (p : nat) (u : Tun) : Server :=
  mkServer (u_sess u) (h_reg H) (u_cur u) (u_todo u) (u_ending u) (pc_at p (h_fwd H))
           (u_pumps u) (u_allocated u) (u_socks u) (u_frames u).
Definition tun_of (v : Server) : Tun :=
  mkTun (sess v) (cur v) (todo v) (ending v) (pumps v) (allocated v) (socks v) (frames_in v).
Definition with_tun (p : nat) (v : Server) (H : Hub) : Hub :=
  mkHub (reg v) (<[p := tun_of v]> (h_tuns H)) (h_fwd H) (h_log H).
Definition with_fwd (w : Fwd) (H : Hub) : Hub := mkHub (h_reg H) (h_tuns H) w (h_log H).
Definition logged (l : list (string * nat)) (H : Hub) : Hub :=
  mkHub (h_reg H) (h_tuns H) (h_fwd H) (h_log H ++ l).

(** What the next section of [Register] adds to the registry. *)
Definition adds (p : nat) (l : list HAct) : list (string * nat) :=
  match l with ABind t :: _ => [(t, p)] | _ => [] end.

Definition called (H : Hub) : Hub := mkHub (h_reg H) (h_tuns H ++ [Tun_init]) (h_fwd H) (h_log H).

Inductive hub_step (ftgt : string) : Hub -> Hub -> Prop :=
(* gRPC calls [Register] *)
| hub_call H : hub_step ftgt H (called H)
| hub_handler H p u v :
    h_tuns H !! p = Some u -> handler_step p (view H p u) v ->
    hub_step ftgt H (logged (adds p (u_todo u)) (with_tun p v H))
(* the forwarder; without a session it closes the connection *)
| hub_accept H f :
    h_fwd H = WAccept -> hub_step ftgt H (with_fwd (WGet f) H)
| hub_get H f :
    h_fwd H = WGet f ->
    hub_step ftgt H (with_fwd (match reg_get ftgt (h_reg H) with
                               | Some p => WAt p (FNext f) | None => WAccept end) H)
| hub_forward H p u v :
    h_tuns H !! p = Some u -> forward_step ftgt (view H p u) v ->
    hub_step ftgt H (with_fwd (fwd_at p (fpc v)) (with_tun p v H))
| hub_pump H p u k q s q' :
    h_tuns H !! p = Some u -> u_pumps u !! k = Some q -> pump_step (u_sess u) q s q' ->
    hub_step ftgt H (with_tun p (with_pump k q' (with_sess s (view H p u))) H).

(** [main], before the first call. *)
Definition hub_start : Hub := mkHub ∅ [] WAccept [].
Definition hub_reach (ftgt : string) : Hub -> Prop := rtc (hub_step ftgt) hub_start.

(** Who added the name last. *)
Definition last_to (t : string) (log : list (string * nat)) : option nat :=
  last (omap (fun x => if decide (x.1 = t) then Some x.2 else None) log).
(** The handler reads under the name: it is neither replacing nor leaving it. *)
Definition serving (t : string) (u : Tun) : Prop :=
  u_cur u = t /\ u_ending u = false /\ Forall plain (u_todo u).

(** ** One call's view *)

Lemma tun_of_view H p u : tun_of (view H p u) = u.
Proof. by destruct u. Qed.

Lemma view_with_tun H p v : fpc v = pc_at p (h_fwd H) -> view (with_tun p v H) p (tun_of v) = v.
Proof. destruct v. cbn. by intros ->. Qed.

Lemma pc_at_fwd p pc : pc_at p (fwd_at p pc) = pc.
Proof. destruct pc; cbn; rewrite ?decide_True by done; done. Qed.
Lemma pc_at_other p q pc w : p <> q -> pc_at q w = FAccept -> pc_at q (fwd_at p pc) = FAccept.
Proof. intros Hn Hq. destruct pc; cbn; rewrite ?decide_False by done; done. Qed.

Section Handler.
Context {p : nat}.

(** A handler touches the registry under its own session only, and leaves the
    forwarder alone. *)
Lemma reg_add_other q t r n : q <> p -> reg_add t p r !! n = Some q -> r !! n = Some q.
Proof. unfold reg_add. intros Hn [[_ E] | [_ E]]%lookup_insert_Some; [by destruct Hn | done]. Qed.
Lemma reg_remove_sub t r n q : reg_remove t p r !! n = Some q -> r !! n = Some q.
Proof. unfold reg_remove. case_decide; [by intros [_ ?]%lookup_delete_Some | done]. Qed.

Lemma handler_frame v v' q :
  handler_step p v v' ->
  fpc v' = fpc v /\ (q <> p -> forall t, reg v' !! t = Some q -> reg v !! t = Some q).
Proof.
  intros [w f _ _ | w _ _ | w a rest wok outcomes w' more _ Hr]; cbn; [done | done |].
  destruct a; cbn in Hr; injection Hr as <- <-; cbn; split; try done; intros Hn n.
  - by apply reg_remove_sub.
  - by apply reg_add_other.
Qed.
End Handler.

Lemma forward_at ftgt v v' : forward_step ftgt v v' ->
  reg v' = reg v /\ fpc v <> FAccept /\ (forall f, fpc v <> FGet f).
Proof. intros []; cbn; split_and!; try done; congruence. Qed.

(** The forwarder works on one session at a time. *)
Lemma busy_elsewhere ftgt H p u v q : forward_step ftgt (view H p u) v -> q <> p -> pc_at q (h_fwd H) = FAccept.
Proof.
  intros (_ & Ha & Hg)%forward_at Hn. cbn in *. destruct (h_fwd H) as [| f | r pc]; cbn in *; [done | by destruct (Hg f) |].
  case_decide; [subst r | done]. by case_decide.
Qed.

Section Projection.
Context {ftgt : string}.

(** What one call sees of a step is a step of its own, or nothing. *)
Lemma hub_view H H' p u :
  hub_step ftgt H H' -> h_tuns H !! p = Some u ->
  exists u', h_tuns H' !! p = Some u' /\ (view H' p u' = view H p u \/ tstep p ftgt (view H p u) (view H' p u')).
Proof.
  intros Hs Hu.
  destruct Hs as [H | H q w v Hq Hh | H f Hf | H f Hf | H q w v Hq Hh | H q w k r s r' Hq Hk Hp].
  - exists u. split; [by apply lookup_app_l_Some | by left].
  - destruct (handler_frame _ _ p Hh) as [Ef Hr]. destruct (decide (p = q)) as [-> | Hn].
    + assert (w = u) as -> by congruence. exists (tun_of v). cbn.
      rewrite list_lookup_insert_eq by by eapply lookup_lt_Some. split; [done | right].
      apply t_handler. change (handler_step q (view H q u) (view (with_tun q v H) q (tun_of v))).
      by rewrite view_with_tun.
    + exists u. cbn. rewrite list_lookup_insert_ne by done. split; [done | right].
      apply (t_registry _ _ (view H p u)). by apply Hr.
  - exists u. split; [done | right]. apply (t_accept _ _ (view H p u)). cbn. by rewrite Hf.
  - exists u. split; [done | right].
    assert (view (with_fwd match reg_get ftgt (h_reg H) with Some q => WAt q (FNext f) | None => WAccept end H) p u
      = with_fpc (if decide (reg_get ftgt (reg (view H p u)) = Some p) then FNext f else FAccept) (view H p u)) as ->.
    { unfold view, with_fpc. cbn. destruct (reg_get ftgt (h_reg H)) as [q |]; cbn; [| done].
      by repeat case_decide; simplify_eq. }
    apply t_get. cbn. by rewrite Hf.
  - destruct (forward_at _ _ _ Hh) as (Er & _ & _). destruct (decide (p = q)) as [-> | Hn].
    + assert (w = u) as -> by congruence. exists (tun_of v). cbn.
      rewrite list_lookup_insert_eq by by eapply lookup_lt_Some. split; [done | right].
      apply t_forward. unfold view at 2. cbn. rewrite pc_at_fwd. by destruct v.
    + exists u. cbn. rewrite list_lookup_insert_ne by done. split; [done | left].
      pose proof (busy_elsewhere _ _ _ _ _ p Hh Hn) as Ha. unfold view. cbn.
      by rewrite Er, Ha, (pc_at_other _ _ _ (h_fwd H)).
  - destruct (decide (p = q)) as [-> | Hn].
    + assert (w = u) as -> by congruence. eexists. cbn.
      rewrite list_lookup_insert_eq by by eapply lookup_lt_Some. split; [done | right].
      by apply (t_pump _ _ (view H q u) k r).
    + exists u. cbn. rewrite list_lookup_insert_ne by done. split; [done | by left].
Qed.

Lemma hub_views H H' p u :
  rtc (hub_step ftgt) H H' -> h_tuns H !! p = Some u ->
  exists u', h_tuns H' !! p = Some u' /\ rtc (tstep p ftgt) (view H p u) (view H' p u').
Proof.
  intros Hr. revert u. induction Hr as [H | H1 H2 H3 Hs _ IH]; intros u Hu; [by exists u |].
  destruct (hub_view _ _ _ _ Hs Hu) as (u2 & Hu2 & Hv). destruct (IH _ Hu2) as (u3 & Hu3 & Hr).
  exists u3. split; [done |]. destruct Hv as [<- | Hv]; [done | by eapply rtc_l].
Qed.

End Projection.

Section Reach.
Context {ftgt : string}.
Notation step := (hub_step ftgt).
Notation reached := (hub_reach ftgt).

Lemma hub_ind (P : Hub -> Prop) :
  P hub_start -> (forall H H', reached H -> P H -> step H H' -> P H') -> forall H, reached H -> P H.
Proof. intros Hi Hs. refine (rtc_ind_r P _ _ _); [done |]. intros H H' Hr Hstep IH. by eapply Hs. Qed.

(** The calls there have been. *)
Lemma hub_grows H H' p u : step H H' -> h_tuns H' !! p = Some u ->
  is_Some (h_tuns H !! p) \/
  (p = length (h_tuns H) /\ u = Tun_init /\ h_reg H' = h_reg H /\ h_fwd H' = h_fwd H).
Proof.
  intros Hs Hu. destruct Hs as [H | H q w v Hq _ | H f _ | H f _ | H q w v Hq _ | H q w k r s r' Hq _ _]; cbn in Hu; eauto.
  - apply lookup_app_Some in Hu as [Hu | [Hl Hu]]; [by left; eexists | right].
    apply list_lookup_singleton_Some in Hu as [E <-]. split; [lia | done].
  - left. destruct (decide (p = q)) as [-> | Hn]; [by eexists |]. rewrite list_lookup_insert_ne in Hu by done. by eexists.
  - left. destruct (decide (p = q)) as [-> | Hn]; [by eexists |]. rewrite list_lookup_insert_ne in Hu by done. by eexists.
  - left. destruct (decide (p = q)) as [-> | Hn]; [by eexists |]. rewrite list_lookup_insert_ne in Hu by done. by eexists.
Qed.

Definition known (H : Hub) : Prop :=
  (forall t p, h_reg H !! t = Some p -> (p < length (h_tuns H))%nat) /\
  (forall p pc, h_fwd H = WAt p pc -> (p < length (h_tuns H))%nat).

Lemma hub_known H : reached H -> known H.
Proof.
  apply hub_ind; [by split |]. clear H. intros H H' _ [H1 H2] Hs.
  destruct Hs as [H | H q w v Hq Hh | H f _ | H f _ | H q w v Hq Hh | H q w k r s r' Hq _ _]; split; cbn;
    rewrite ?List.length_app, ?length_insert; try done.
  - intros t p Hp. apply H1 in Hp. lia.
  - intros p pc Hp. apply H2 in Hp. lia.
  - intros t p Hp. destruct (decide (p = q)) as [-> | Hn]; [by eapply lookup_lt_Some |].
    destruct (handler_frame _ _ p Hh) as [_ Hr]. by eapply H1, Hr.
  - intros p pc. destruct (reg_get ftgt (h_reg H)) as [q |] eqn:E; [| done]. intros [= <- <-]. by eapply H1.
  - intros t p. destruct (forward_at _ _ _ Hh) as (-> & _ & _). apply H1.
  - intros p pc Hp. assert (p = q) as -> by (destruct (fpc v); cbn in Hp; congruence). by eapply lookup_lt_Some.
Qed.

(** A call that has just come in. *)
Lemma fresh_view H : known H ->
  exists v0, tunnel_start (h_reg H) (length (h_tuns H)) v0 /\
    (view H (length (h_tuns H)) Tun_init = v0 \/ tstep (length (h_tuns H)) ftgt v0 (view H (length (h_tuns H)) Tun_init)).
Proof.
  intros [H1 H2]. eexists. split; [split; [done |] |].
  - intros t Ht%H1. lia.
  - unfold view. destruct (h_fwd H) as [| f | q pc] eqn:Ew; cbn; [by left | |].
    + right. by apply t_accept.
    + specialize (H2 _ _ eq_refl). rewrite decide_False by lia. by left.
Qed.

(** Each call of [Register], seen alone, behaves as TunnelSession says: what the
    others do, and what the forwarder does for them, are steps the session on its
    own can take. *)
Lemma hub_session H p u : reached H -> h_tuns H !! p = Some u -> tunnel_reach p ftgt (view H p u).
Proof.
  intros Hr. revert p u. revert H Hr.
  apply (hub_ind (fun H => forall p u, h_tuns H !! p = Some u -> tunnel_reach p ftgt (view H p u))); [done |].
  intros H H' Hr IH Hs p u' Hu'.
  destruct (hub_grows _ _ _ _ Hs Hu') as [[u Hu] | (Ep & -> & Er & Ew)].
  - destruct (hub_view _ _ _ _ Hs Hu) as (u2 & Hu2 & Hv). assert (u2 = u') as -> by congruence.
    specialize (IH _ _ Hu). destruct Hv as [-> | Hv]; [done |]. eapply reach_rtc; [exact IH | by apply rtc_once].
  - destruct (fresh_view H (hub_known _ Hr)) as (v0 & H0 & Hv).
    assert (view H' p Tun_init = view H p Tun_init) as -> by (unfold view; by rewrite Er, Ew).
    subst p. eexists _, v0. split; [exact H0 |]. destruct Hv as [-> | Hv]; [done | by apply rtc_once].
Qed.

(** ** Who holds a name *)

Lemma last_to_snoc t n p l :
  last_to t (l ++ [(n, p)]) = if decide (n = t) then Some p else last_to t l.
Proof.
  unfold last_to. rewrite omap_app. cbn. case_decide; cbn; [by rewrite last_snoc | by rewrite app_nil_r].
Qed.

Lemma last_to_in t p l : last_to t l = Some p -> (t, p) ∈ l.
Proof.
  intros ([n q] & Hin & Hp)%last_Some_elem_of%list_elem_of_omap. cbn in Hp. by case_decide; simplify_eq.
Qed.

(** A handler's step: the name it adds, or one it removes, or neither. *)
Lemma handler_reg p v v' : handler_step p v v' ->
  (exists n rest, todo v = ABind n :: rest /\ cur v' = n /\ reg v' = reg_add n p (reg v)) \/
  (adds p (todo v) = [] /\ cur v' = cur v /\
   (reg v' = reg v \/ exists n rest, todo v = ARemove n :: rest /\ todo v' = rest /\ reg v' = reg_remove n p (reg v))).
Proof.
  intros [w f Ht _ | w Ht _ | w a rest wok outcomes w' more Ht Hr]; rewrite Ht; [by right; auto | by right; auto |].
  destruct a; cbn in Hr; injection Hr as <- <-; cbn; first [by right; eauto 10 | by left; eauto].
Qed.

Lemma serving_before p v v' t :
  phase p v -> handler_step p v v' -> serving t (tun_of v') ->
  serving t (tun_of v) \/ exists n rest, todo v = ABind n :: rest.
Proof.
  intros Hp Hs. destruct Hs as [w f Ht He | w Ht He | w a rest wok outcomes w' more Ht Hr];
    intros (Hc & He' & Hf); cbn in *.
  - left. unfold serving. cbn. by rewrite Ht.
  - done.
  - assert (plain a \/ ~ plain a) as [Ha | Ha] by (destruct a; cbn; tauto).
    + left. apply Forall_app in Hf as [_ Hf]. unfold serving. cbn. rewrite Ht.
      destruct a; try done; cbn in Hr; injection Hr as <- <-; auto.
    + destruct a; try (by destruct Ha); cbn in Hr; injection Hr as <- <-; cbn in *; [| by right; eauto | |];
        destruct Hp as [_ Hq _ | n _ Hq _ | n _ Hq _ | Hq _ _ | Hq _ _ | Hq _ _ _]; try congruence;
        rewrite Ht in Hq; try (by inversion Hq).
      injection Hq as -> ->. by inversion Hf; subst.
Qed.

(** [h_log] says who may hold a name, and who does. *)
Record log_ok (H : Hub) : Prop := {
  lo_last : forall t p, h_reg H !! t = Some p -> last_to t (h_log H) = Some p;
  lo_holds : forall t p u, last_to t (h_log H) = Some p -> h_tuns H !! p = Some u -> serving t u ->
    h_reg H !! t = Some p
}.

Lemma reg_remove_other n p t q r : q <> p -> r !! t = Some q -> reg_remove n p r !! t = Some q.
Proof.
  unfold reg_remove. intros Hn Ht. case_decide as Hd; [| done]. apply lookup_delete_Some. split; [congruence | done].
Qed.

(** Nobody's name changes. *)
Lemma log_ext H H' p u u' :
  log_ok H -> h_reg H' = h_reg H -> h_log H' = h_log H -> h_tuns H !! p = Some u ->
  h_tuns H' = <[p := u']> (h_tuns H) -> (forall t, serving t u' -> serving t u) -> log_ok H'.
Proof.
  intros [H1 H2] Er El Hp Et Hs. split; rewrite Er, El; [done |]. rewrite Et.
  intros t q w Hq Hw Hsv. destruct (decide (p = q)) as [<- | Hn].
  - rewrite list_lookup_insert_eq in Hw by by eapply lookup_lt_Some. injection Hw as <-. eauto.
  - rewrite list_lookup_insert_ne in Hw by done. eauto.
Qed.

Lemma log_handler H p u v :
  log_ok H -> phase p (view H p u) -> h_tuns H !! p = Some u -> handler_step p (view H p u) v ->
  log_ok (logged (adds p (u_todo u)) (with_tun p v H)).
Proof.
  intros Hl Hp Hu Hs. pose proof Hl as [H1 H2].
  assert (forall t q w, <[p := tun_of v]> (h_tuns H) !! q = Some w -> serving t w -> last_to t (h_log H) = Some q ->
    (q = p /\ serving t (tun_of v)) \/ (q <> p /\ h_reg H !! t = Some q)) as Hq.
  { intros t q w Hw Hsv Ht. destruct (decide (p = q)) as [<- | Hn].
    - rewrite list_lookup_insert_eq in Hw by by eapply lookup_lt_Some. injection Hw as <-. by left.
    - rewrite list_lookup_insert_ne in Hw by done. right. split; [congruence | eauto]. }
  assert (forall t, serving t (tun_of v) -> (forall n rest, u_todo u <> ABind n :: rest) -> serving t u) as Hb.
  { intros t Hsv Hn. destruct (serving_before _ _ _ _ Hp Hs Hsv) as [Hw | (n & rest & Hw)].
    - by rewrite tun_of_view in Hw.
    - by destruct (Hn n rest). }
  destruct (handler_reg _ _ _ Hs) as [(n & rest & Ht & Ec & Er) | (Ea & Ec & Er)]; cbn in *.
  - rewrite Ht. split; cbn; rewrite Er.
    + intros t q. unfold reg_add. rewrite last_to_snoc. intros [[-> ->] | [Hn Hq']]%lookup_insert_Some.
      * by rewrite decide_True.
      * rewrite decide_False by done. eauto.
    + intros t q w. rewrite last_to_snoc. unfold reg_add. case_decide as Hd; [subst; intros [= <-] _ _; apply lookup_insert_eq |].
      intros Ht' Hw Hsv. apply lookup_insert_Some. right. split; [done |].
      destruct (Hq _ _ _ Hw Hsv Ht') as [[-> (Hc & _)] | [_ ?]]; [cbn in Hc; congruence | done].
  - rewrite Ea. assert (forall n rest, u_todo u <> ABind n :: rest) as Hnb by (intros n rest E; by rewrite E in Ea).
    split; cbn; rewrite app_nil_r.
    + intros t q Hq'. apply H1.
      destruct Er as [Er | (n & rest & _ & _ & Er)]; rewrite Er in Hq'; [done | by eapply reg_remove_sub].
    + intros t q w Ht Hw Hsv. destruct (Hq _ _ _ Hw Hsv Ht) as [[-> Hsv'] | [Hn Hr]].
      * pose proof (Hb _ Hsv' Hnb) as Hsu.
        destruct Er as [-> | (n & rest & Et & _ & _)]; [by eapply H2 |].
        destruct Hsu as (_ & _ & Hf). rewrite Et in Hf. by inversion Hf.
      * destruct Er as [-> | (n & rest & _ & _ & ->)]; [done | by apply reg_remove_other].
Qed.

Lemma forward_name v v' : forward_step ftgt v v' ->
  cur v' = cur v /\ ending v' = ending v /\ todo v' = todo v /\ frames_in v' = frames_in v.
Proof. by intros []. Qed.

(** A name is added because the call's client has sent it. *)
Definition asked (t : string) (fs : list Frame) : Prop :=
  exists g, g ∈ fs /\ ftype g = REGISTER /\ ftarget g = t.

Lemma act_run_frames me wok outcomes a v v' more :
  act_run me wok outcomes a v = (v', more) ->
  frames_in v' = frames_in v /\ (forall t, ABind t ∉ more).
Proof.
  intros Hr. assert (forall (hs : list nat) t, ABind t ∉ AMark <$> hs) as Hm.
  { by intros hs t (h & ? & _)%list_elem_of_fmap. }
  destruct a; cbn in Hr; injection Hr as <- <-; cbn; (split; [done |]); intros n; auto;
    repeat case_match; set_solver.
Qed.

Lemma tstep_frames me v v' g : tstep me ftgt v v' -> g ∈ frames_in v -> g ∈ frames_in v'.
Proof.
  intros Hs. destruct Hs as [| ? ? [| | ? ? ? ? ? ? ? ? Hr] | | | ? ? [] |]; cbn; try done.
  - intros Hg. apply elem_of_app. by left.
  - by destruct (act_run_frames _ _ _ _ _ _ _ Hr) as [-> _].
Qed.

Lemma reach_binds me v t : tunnel_reach me ftgt v -> ABind t ∈ todo v -> asked t (frames_in v).
Proof.
  intros Hr. revert v Hr. apply (reach_ind (fun v => ABind t ∈ todo v -> asked t (frames_in v))).
  - by intros r v0 [-> _] ?%elem_of_nil.
  - intros v v' _ IH Hs. assert (ABind t ∈ todo v -> asked t (frames_in v')) as Hm.
    { intros (g & Hg & Hf)%IH. exists g. split; [by eapply tstep_frames | done]. }
    destruct Hs as [| v v' [w f Ht _ | w Ht _ | w a rest wok outcomes w' more Ht Hr] | | | ? ? [] |]; cbn in *; auto.
    + intros Hin. exists f. split; [set_solver |].
      unfold on_frame in Hin. destruct (ftype f); repeat case_match; set_unfold; naive_solver.
    + intros Hin. set_solver.
    + destruct (act_run_frames _ _ _ _ _ _ _ Hr) as [Ef Hn]. rewrite Ht in Hm.
      intros [? | ?]%elem_of_app; [by destruct (Hn t) | apply Hm; set_solver].
Qed.

Lemma hub_asked H t p : reached H -> (t, p) ∈ h_log H -> exists u, h_tuns H !! p = Some u /\ asked t (u_frames u).
Proof.
  intros Hr. revert H Hr. apply (hub_ind (fun H => (t, p) ∈ h_log H ->
    exists u, h_tuns H !! p = Some u /\ asked t (u_frames u))); [by intros ?%elem_of_nil |].
  intros H H' Hr IH Hs Hin.
  assert (exists u, h_tuns H !! p = Some u /\ asked t (u_frames u)) as (u & Hu & g & Hg & Hf).
  { destruct Hs as [| H q w v Hq Hh | | | |]; cbn in Hin; auto.
    apply elem_of_app in Hin as [Hin | Hin]; [by apply IH |].
    unfold adds in Hin. destruct (u_todo w) as [| [] rest] eqn:Et; try (by apply elem_of_nil in Hin).
    apply list_elem_of_singleton in Hin as [= -> ->]. exists w. split; [done |].
    apply (reach_binds q (view H q w)); [by apply hub_session |]. cbn. rewrite Et. by left. }
  destruct (hub_view _ _ _ _ Hs Hu) as (u' & Hu' & Hv). exists u'. split; [done |]. exists g.
  split; [| done]. destruct Hv as [E | Hv]; [| by eapply (tstep_frames _ _ _ _ Hv)].
  by assert (u_frames u' = u_frames u) as -> by by injection E.
Qed.

Lemma hub_log H : reached H -> log_ok H.
Proof.
  apply hub_ind; [by split |]. clear H. intros H H' Hr IH Hs.
  destruct Hs as [H | H p u v Hu Hh | H f _ | H f _ | H p u v Hu Hh | H p u k q s q' Hu Hk Hp].
  - destruct IH as [H1 H2]. split; [done |]. cbn. intros t p u Hl Hu Hsv.
    destruct (hub_asked H t p Hr (last_to_in _ _ _ Hl)) as (u0 & Hu0 & _).
    eapply H2; [exact Hl | exact Hu0 |]. by rewrite (lookup_app_l_Some _ _ _ _ Hu0) in Hu; simplify_eq.
  - eapply log_handler; [done | by eapply reach_phase, hub_session | done | done].
  - by destruct IH.
  - by destruct IH.
  - destruct (forward_at _ _ _ Hh) as (Er & _ & _). destruct (forward_name _ _ Hh) as (E1 & E2 & E3 & _).
    eapply (log_ext H _ p u (tun_of v)); try done. intros t. unfold serving. cbn in *. by rewrite E1, E2, E3.
  - by eapply (log_ext H _ p u).
Qed.

(** ** Whose connections *)

Lemma Send_new wok f s g : g ∈ written (Send wok f s).2 -> g ∈ written s \/ g = f.
Proof. rewrite Send_written. destruct (alive s); set_solver. Qed.

(** The only OPEN frames are the forwarder's. *)
Lemma tstep_opens me v v' g : tstep me ftgt v v' -> g ∈ written (sess v') -> ftype g = OPEN ->
  g ∈ written (sess v) \/ (ftarget g = ftgt /\ exists i h, fpc v = FSend i h).
Proof.
  intros Hs Hg Ho. tunnel_cases Hs; cbn in Hg; autorewrite with tunnel in Hg; auto;
    (apply Send_new in Hg as [Hg | ->]; [by left | try done]).
  right. split; [done | eauto].
Qed.

Lemma hub_opens H : reached H ->
  (forall p pc, h_fwd H = WAt p pc -> (ftgt, p) ∈ h_log H) /\
  (forall p u g, h_tuns H !! p = Some u -> g ∈ written (u_sess u) -> ftype g = OPEN ->
     ftarget g = ftgt /\ (ftgt, p) ∈ h_log H).
Proof.
  intros Hr. revert H Hr. apply (hub_ind (fun H =>
    (forall p pc, h_fwd H = WAt p pc -> (ftgt, p) ∈ h_log H) /\
    (forall p u g, h_tuns H !! p = Some u -> g ∈ written (u_sess u) -> ftype g = OPEN ->
       ftarget g = ftgt /\ (ftgt, p) ∈ h_log H))); [by split |].
  intros H H' Hr [IH1 IH2] Hs.
  assert (forall x, x ∈ h_log H -> x ∈ h_log H') as Hl.
  { destruct Hs; cbn; auto. intros x Hx. apply elem_of_app. by left. }
  split.
  - intros p pc Hp. destruct Hs as [| | | H f Hf | H q u v Hu Hh |]; cbn in *; eauto; [done | |].
    + destruct (reg_get ftgt (h_reg H)) as [q |] eqn:E; [| done]. injection Hp as <- <-.
      by eapply last_to_in, lo_last, E; apply hub_log.
    + destruct (forward_at _ _ _ Hh) as (_ & Ha & Hg). cbn in Ha, Hg.
      assert (p = q) as -> by (destruct (fpc v); cbn in Hp; congruence).
      destruct (h_fwd H) as [| f | r pc'] eqn:Ew; cbn in *; [done | by destruct (Hg f) |].
      case_decide; [subst; eauto | done].
  - intros p u' g Hu' Hg Ho. destruct (hub_grows _ _ _ _ Hs Hu') as [[u Hu] | (_ & -> & _)];
      [| by apply elem_of_nil in Hg].
    destruct (hub_view _ _ _ _ Hs Hu) as (u2 & Hu2 & Hv). assert (u2 = u') as -> by congruence.
    destruct Hv as [E | Hv].
    + assert (u_sess u' = u_sess u) as Es by by injection E. rewrite Es in Hg.
      destruct (IH2 _ _ _ Hu Hg Ho). auto.
    + destruct (tstep_opens _ _ _ _ Hv Hg Ho) as [Hg' | (Et & i & h & Hf)].
      * destruct (IH2 _ _ _ Hu Hg' Ho). auto.
      * split; [done |]. cbn in Hf. destruct (h_fwd H) as [| | q pc] eqn:Ew; cbn in Hf; try done.
        case_decide; [subst; eauto | done].
Qed.

(** C11: The last registration counts. Whatever calls come and go and however their
    threads interleave, the registry gives a target to no session but the one that
    registered it last, and gives it to that one for as long as it reads under the
    name: a client that comes back and registers again before the server has taken
    its old call apart is not put out by it, and a name that has been replaced or
    whose session has ended is not served by an older session instead. *)
Theorem newest_registration_serves H t p :
  hub_reach ftgt H ->
  (reg_get t (h_reg H) = Some p -> last_to t (h_log H) = Some p) /\
  (last_to t (h_log H) = Some p ->
   forall u, h_tuns H !! p = Some u -> serving t u -> reg_get t (h_reg H) = Some p).
Proof.
  intros Hr. destruct (hub_log _ Hr) as [H1 H2]. split; [apply H1 |].
  intros Hl u Hu Hs. by eapply H2.
Qed.

(** C13: The whole server keeps the barrier of each session: once a call's handler has
    returned, nothing that any other call, the forwarder or a pump does from then on
    hands another frame to its gRPC stream, and the registry gives its session for no
    target but the empty one. *)
Theorem hub_calls_end H H' p u :
  hub_reach ftgt H -> rtc (hub_step ftgt) H H' -> h_tuns H !! p = Some u ->
  u_ending u = true -> u_todo u = [] ->
  exists u', h_tuns H' !! p = Some u' /\ written (u_sess u') = written (u_sess u) /\
    forall t, t <> "" -> reg_get t (h_reg H') <> Some p.
Proof.
  intros Hr Hrun Hu He Ht. destruct (hub_views _ _ _ _ Hrun Hu) as (u' & Hu' & Hv).
  pose proof (hub_session _ _ _ Hr Hu) as Hs. exists u'. split_and!; [done | |].
  - by apply (shutdown_is_a_barrier (view H p u) (view H' p u') Hs).
  - intros t Hn. by apply (registry_forgets_session (view H p u) (view H' p u') t Hs).
Qed.
End Reach.
