(* ===== verification/TunnelFleet.v ===== *)
(** * TunnelFleet: a tunnel server and its edges (grpc-tunnel/src/)

    The server of TunnelHub and any number of client processes, each the loop of
    [main] in tunnel_client.cc: [RunTunnel], and when it has returned, again.  Every
    attempt is one call of [Register]; what the attempt reads is what the call's
    session has written, and the other way round.  Each such pair is a pair of
    TunnelPipe, so every stream of the system is a pair of pipes; a connection only
    ever reaches an edge under the name it is for; and an edge that has lost its
    tunnel can get it back, whatever is left of its former calls. *)

From S2P Require Import Prelude CString TunnelNet TunnelSession TunnelProofs TunnelSplice TunnelClient TunnelEnd TunnelUnwind TunnelPipe TunnelHub.

(** ** The code *)

(** An end is the process that made the call and its run of [RunTunnel]; the call
    has the same number. *)
Record Net := mkNet { hub : Hub; ends : list (nat * Client) }.
Definition net_start : Net := mkNet hub_start [].

(** What a handler has read its client has written. *)
Definition delivered (H : Hub) (es : list (nat * Client)) : Prop :=
  forall p u j c, h_tuns H !! p = Some u -> es !! p = Some (j, c) ->
    u_frames u `prefix_of` written (c_sess c).

Section Steps.
(** The forwarder's target, and the [--target] of each process. *)
Context (ftgt : string) (targets : list string).

Inductive net_step : Net -> Net -> Prop :=
(* the loop of [main]: the last [RunTunnel] has returned *)
| net_dial N j tgt :
    targets !! j = Some tgt -> (forall c, (j, c) ∈ ends N -> c_returned c) ->
    net_step N (mkNet (called (hub N)) (ends N ++ [(j, client_start)]))
| net_hub N H' :
    hub_step ftgt (hub N) H' -> length (h_tuns H') = length (h_tuns (hub N)) ->
    delivered H' (ends N) -> net_step N (mkNet H' (ends N))
| net_end N p u j c c' tgt :
    h_tuns (hub N) !! p = Some u -> ends N !! p = Some (j, c) -> targets !! j = Some tgt ->
    client_step tgt (written (u_sess u)) c c' ->
    net_step N (mkNet (hub N) (<[p := (j, c')]> (ends N))).

Definition net_reach : Net -> Prop := rtc net_step net_start.
End Steps.

(** ** Each call of the system *)

Section Net.
Context {ftgt : string} {targets : list string}.
Notation step := (net_step ftgt targets).
Notation reached := (net_reach ftgt targets).

Lemma net_ind (P : Net -> Prop) :
  P net_start -> (forall N N', reached N -> P N -> step N N' -> P N') -> forall N, reached N -> P N.
Proof. intros Hi Hs. refine (rtc_ind_r P _ _ _); [done |]. intros N N' Hr Hstep IH. by eapply Hs. Qed.

Lemma lookup_insert_end {A} (l : list A) (p q : nat) x y :
  <[p := x]> l !! q = Some y -> (p = q /\ x = y) \/ (p <> q /\ l !! q = Some y).
Proof.
  intros Hl. destruct (decide (p = q)) as [-> | Hn].
  - left. assert (q < length l)%nat by (rewrite <- (length_insert l q x); by eapply lookup_lt_Some).
    rewrite list_lookup_insert_eq in Hl by done. by injection Hl.
  - right. by rewrite list_lookup_insert_ne in Hl.
Qed.

Lemma net_hub_reach N : reached N -> hub_reach ftgt (hub N).
Proof.
  revert N. apply (net_ind (fun N => hub_reach ftgt (hub N))); [apply rtc_refl |].
  intros M M' _ IH Hs. destruct Hs; cbn; [eapply rtc_r; [exact IH | apply hub_call] | by eapply rtc_r | done].
Qed.

Record net_ok (N : Net) : Prop := {
  no_len : length (ends N) = length (h_tuns (hub N));
  no_target : forall p j c, ends N !! p = Some (j, c) -> is_Some (targets !! j);
  no_order : delivered (hub N) (ends N)
}.

Lemma reach_ok N : reached N -> net_ok N.
Proof.
  apply net_ind; [by split |]. intros M M' Hr [H1 H2 H3] Hs.
  destruct Hs as [M j tgt Hj _ | M H' Hs Hl Hd | M p u j c c' tgt Hu Hc Hj Hs].
  - split; cbn; [rewrite !List.length_app; cbn; lia | |].
    + intros p i c [Hp | [_ Hp]]%lookup_app_Some; [by eapply H2 |].
      apply list_lookup_singleton_Some in Hp as [_ [= <- _]]. by eexists.
    + intros p u i c [Hu | [Hl Hu]]%lookup_app_Some [Hp | [Hl' Hp]]%lookup_app_Some; [by eapply H3 | | |].
      * apply lookup_lt_Some in Hu. lia.
      * apply lookup_lt_Some in Hp. lia.
      * apply list_lookup_singleton_Some in Hu as [_ <-]. apply prefix_nil.
  - split; cbn; [congruence | done | done].
  - split; cbn; [by rewrite length_insert | |].
    + intros q i d [[<- [= <- _]] | [_ Hq]]%lookup_insert_end; [by eexists | by eapply H2].
    + intros q w i d Hw [[<- [= <- <-]] | [_ Hq]]%lookup_insert_end; [| by eapply H3].
      etrans; [by eapply H3 | by eapply client_step_prefix].
Qed.

(** A call and the attempt that made it run as the pair of TunnelPipe. *)
Lemma net_pipe N p u j c tgt :
  reached N -> h_tuns (hub N) !! p = Some u -> ends N !! p = Some (j, c) -> targets !! j = Some tgt ->
  pipe_reach p ftgt tgt (view (hub N) p u, c).
Proof.
  intros Hr. revert p u j c tgt. revert N Hr.
  apply (net_ind (fun N => forall p u j c tgt, h_tuns (hub N) !! p = Some u -> ends N !! p = Some (j, c) ->
    targets !! j = Some tgt -> pipe_reach p ftgt tgt (view (hub N) p u, c))); [done |].
  assert (forall p tgt x y, pipe_reach p ftgt tgt x -> pipe_step p ftgt tgt x y -> pipe_reach p ftgt tgt y) as Hone.
  { intros p tgt x y (r & v0 & H0 & Hx) Hs. exists r, v0. split; [done | by eapply rtc_r]. }
  intros M M' Hr IH Hs p u' i d tgt. pose proof (reach_ok _ Hr) as [Hlen _ _].
  destruct Hs as [M j tgj Hj _ | M H' Hs Hl Hd | M q w j c c' tgj Hw Hc Hj Hs]; cbn.
  - intros [Hu | [Hl Hu]]%lookup_app_Some [Hp | [Hl' Hp]]%lookup_app_Some Ht.
    + by eapply IH.
    + apply lookup_lt_Some in Hu. lia.
    + apply lookup_lt_Some in Hp. lia.
    + apply list_lookup_singleton_Some in Hu as [Ep <-], Hp as [_ [= <- <-]].
      destruct (fresh_view (ftgt := ftgt) (hub M)) as (v0 & H0 & Hv); [by eapply hub_known, net_hub_reach |].
      assert (p = length (h_tuns (hub M))) as -> by lia. exists (h_reg (hub M)), v0. split; [done |].
      change (view (called (hub M))) with (view (hub M)).
      destruct Hv as [<- | Hv]; [apply rtc_refl | apply rtc_once, pipe_server; [done | apply prefix_nil]].
  - intros Hu' Hp Ht. destruct (hub_grows _ _ _ _ Hs Hu') as [[u Hu] | (Ep & _)].
    + destruct (hub_view _ _ _ _ Hs Hu) as (u2 & Hu2 & Hv). assert (u2 = u') as -> by congruence.
      specialize (IH _ _ _ _ _ Hu Hp Ht). destruct Hv as [-> | Hv]; [done |].
      eapply Hone; [exact IH | apply pipe_server; [done | by eapply Hd]].
    + apply lookup_lt_Some in Hp. lia.
  - intros Hu' [[<- [= <- <-]] | [_ Hp]]%lookup_insert_end Ht; [| by eapply IH].
    assert (w = u') as -> by congruence. assert (tgj = tgt) as -> by congruence.
    eapply Hone; [by eapply IH | by apply pipe_client].
Qed.

(** C9: Every stream of the system is a pair of pipes. With any number of edges, each
    dialling again when its tunnel is gone, and any number of calls at the server,
    all their threads interleaved, and as long as a call has been given fewer than
    2^64 streams: what an edge has written to the socket it dialled for a stream of
    a call is a prefix of what the pump of that stream of that call has received
    from the application, and what the server has written to the application's
    socket is a prefix of what the edge's pump has received from its local service -
    nothing reordered, duplicated, invented or taken from another stream, call or
    edge. In each direction it is all of it while the reading end still holds the
    stream, is idle and has read all that was sent, and the pump waits for more. And
    an edge dials only for connections the server has accepted for its call. *)
Theorem system_is_pipes N p u j c :
  net_reach ftgt targets N -> h_tuns (hub N) !! p = Some u -> ends N !! p = Some (j, c) ->
  (Z.of_nat (u_allocated u) < 2 ^ 64)%Z ->
  (forall h i o k q, c_socks c !! h = Some (i, o) -> u_pumps u !! k = Some q -> p_id q = i ->
     (exists rest, p_heard q = o +:+ rest) /\
     (conns (c_sess c) !! i = Some h -> c_todo c = [] ->
      c_seen c = length (written (u_sess u)) -> p_pc q = PRecv -> p_heard q = o)) /\
  (forall h i o k q, u_socks u !! h = Some (i, o) -> c_pumps c !! k = Some q -> p_id q = i ->
     (exists rest, p_heard q = o +:+ rest) /\
     (conns (u_sess u) !! i = Some h -> u_todo u = [] ->
      u_frames u = written (c_sess c) -> p_pc q = PRecv -> p_heard q = o)) /\
  (forall h i o, c_socks c !! h = Some (i, o) -> exists h' o', u_socks u !! h' = Some (i, o')).
Proof.
  intros Hr Hu Hp Hb. destruct (no_target _ (reach_ok _ Hr) _ _ _ Hp) as [tgt Ht].
  exact (tunnel_is_a_pipe p ftgt tgt (view (hub N) p u, c) (net_pipe _ _ _ _ _ _ Hr Hu Hp Ht) Hb).
Qed.
End Net.

(** ** What an edge says *)

Section Says.
Context {target : string} {wire : list Frame} (Q : Frame -> Prop).
Context (Qreg : Q (register_frame target)) (Qka : Q keepalive_frame)
  (Qdata : forall i d, Q (data_frame i d))
  (Qclose : forall i e, e ∈ [""; "local dial failed"; "local write failed"] -> Q (close_frame i e))
  (Qopen : forall f, f ∈ wire -> ftype f = OPEN -> ftarget f <> "" -> ftarget f <> target ->
     Q (close_frame (stream_id f) "target mismatch")).

Lemma Send_says wok f s : Q f -> (forall g, g ∈ written s -> Q g) -> forall g, g ∈ written (Send wok f s).2 -> Q g.
Proof. intros Hf Hs g [Hg | ->]%Send_new; auto. Qed.

Definition says (c : Client) : Prop :=
  (forall g, g ∈ written (c_sess c) -> Q g) /\ (forall f, CSend f ∈ c_todo c -> Q f).

Lemma pump_says s p s' p' : pump_step s p s' p' -> (forall g, g ∈ written s -> Q g) -> forall g, g ∈ written s' -> Q g.
Proof using Qdata Qclose.
  intros Hp Hs. destruct Hp; try done; apply Send_says; auto. apply Qclose. by left.
Qed.

(** What is left to say of the work an action adds. *)
Ltac said Hf :=
  repeat (apply elem_of_cons in Hf as [Hf | Hf]); try discriminate Hf; try (by apply elem_of_nil in Hf);
  injection Hf as ->; apply Qclose; rewrite !elem_of_cons; tauto.

Lemma run_says wok outcomes dial a c c' more :
  c_run target wok outcomes dial a c = (c', more) -> (forall f, a = CSend f -> Q f) ->
  (forall g, g ∈ written (c_sess c) -> Q g) ->
  (forall g, g ∈ written (c_sess c') -> Q g) /\ (forall f, CSend f ∈ more -> Q f).
Proof using Qreg Qclose.
  intros Hr Ha Hw. destruct a; cbn in Hr;
    [pose proof (Send_says wok (register_frame target) _ Qreg Hw) as Hs;
     destruct (Send wok (register_frame target) (c_sess c)) as [[] s] | ..];
    try (destruct (WriteAll outcomes d) as [o [[] |]]); injection Hr as <- <-; cbn;
    (split; [try exact Hw; try exact Hs; try (by apply Send_says; auto) |]); intros f' Hf;
    try destruct dial; try destruct (GetConn _ _); try (said Hf).
  all: by apply list_elem_of_fmap in Hf as (h & ? & _).
Qed.

Lemma c_on_frame_says f g : f ∈ wire -> CSend g ∈ c_on_frame target f -> Q g.
Proof using Qopen.
  intros Hf. unfold c_on_frame.
  destruct (ftype f) eqn:E; try (by intros ?%elem_of_nil); try (by intros ?%list_elem_of_singleton).
  destruct (String.eqb_spec (ftarget f) "") as [| N1], (String.eqb_spec (ftarget f) target) as [| N2]; cbn;
    intros Hg%list_elem_of_singleton; try done. injection Hg as ->. by apply Qopen.
Qed.

Lemma client_says c : client_reach target wire c -> says c.
Proof using Qreg Qka Qdata Qclose Qopen.
  apply client_ind; [split; [by intros ? ?%elem_of_nil | by intros ? ?%list_elem_of_singleton] |].
  clear c. intros c c' _ [H1 H2] Hs.
  destruct Hs as [c f Ht _ Hf | c Ht _ | c a rest wok outcomes dial c' more Ht _ _ Hr
    | c _ _ | c _ _ | c wok _ | c k p s p' _ Hp]; split; cbn; auto.
  - intros g. apply c_on_frame_says. by eapply list_elem_of_lookup_2.
  - intros f Hf. said Hf.
  - rewrite Ht in H2. by eapply run_says; [exact Hr | intros f ->; apply H2; left |].
  - rewrite Ht in H2. intros f [Hf | Hf]%elem_of_app; [| apply H2; by right].
    eapply run_says; [exact Hr | intros g ->; apply H2; left | exact H1 | exact Hf].
  - by apply Send_says.
  - by eapply pump_says.
Qed.
End Says.

Section Targets.
Context {ftgt : string} {targets : list string}.
Notation reached := (net_reach ftgt targets).

(** The call's session announces streams only if its edge has the forwarder's name. *)
Lemma opens_for N p u j c tgt g :
  reached N -> h_tuns (hub N) !! p = Some u -> ends N !! p = Some (j, c) -> targets !! j = Some tgt ->
  g ∈ written (u_sess u) -> ftype g = OPEN -> ftarget g = ftgt /\ tgt = ftgt.
Proof.
  intros Hr Hu Hp Ht Hg Ho. pose proof (net_hub_reach _ Hr) as Hh.
  destruct (hub_opens _ Hh) as [_ Hop]. destruct (Hop _ _ _ Hu Hg Ho) as [Et Hlog]. split; [done |].
  destruct (hub_asked _ _ _ Hh Hlog) as (u' & Hu' & r & Hin & Hreg & <-).
  assert (u' = u) as -> by congruence.
  destruct (pipe_ends _ _ _ _ (net_pipe _ _ _ _ _ _ Hr Hu Hp Ht)) as [_ Hc].
  destruct (client_says (fun g => ftype g = REGISTER -> ftarget g = tgt)
    ltac:(done) ltac:(done) ltac:(done) ltac:(done) ltac:(done) _ Hc) as [Hs _].
  symmetry. apply Hs; [| done].
  destruct (no_order _ (reach_ok _ Hr) _ _ _ _ Hu Hp) as [k Ek].
  cbn. rewrite Ek. apply elem_of_app. by left.
Qed.

(** C10: A connection only reaches an edge it is for. The server announces streams in
    the call of an edge only if that edge's --target is the name the forwarder
    serves, whatever names other edges use and however they come and go; so the
    check the edge makes on every OPEN never fails against this server: no edge ever
    sends a CLOSE for a target mismatch. *)
Theorem edges_get_their_own N p u j c tgt :
  net_reach ftgt targets N -> h_tuns (hub N) !! p = Some u -> ends N !! p = Some (j, c) -> targets !! j = Some tgt ->
  (forall g, g ∈ written (u_sess u) -> ftype g = OPEN -> ftarget g = tgt /\ tgt = ftgt) /\
  (forall g, g ∈ written (c_sess c) -> ferror g <> "target mismatch").
Proof.
  intros Hr Hu Hp Ht.
  assert (forall g, g ∈ written (u_sess u) -> ftype g = OPEN -> ftarget g = tgt /\ tgt = ftgt) as Hown.
  { intros g Hg Ho. destruct (opens_for _ _ _ _ _ _ _ Hr Hu Hp Ht Hg Ho) as [-> ->]. done. }
  split; [done |]. destruct (pipe_ends _ _ _ _ (net_pipe _ _ _ _ _ _ Hr Hu Hp Ht)) as [_ Hc].
  apply (client_says (fun g => ferror g <> "target mismatch")
    ltac:(done) ltac:(done) ltac:(done) ltac:(set_solver)) in Hc as [Hs _]; [done |].
  intros f Hf Ho _ Hn. by destruct (Hown f Hf Ho).
Qed.
End Targets.

(** ** Coming back *)

Section Out.
Context {target : string} {wire : list Frame}.
Notation cstep := (client_step target wire).

(** The sections an action can still take when nothing succeeds any more. *)
Definition sections (a : CAct) : nat :=
  match a with
  | CGet _ _ => 5 | CWrite _ _ _ => 4 | CDial _ => 2 | CErase _ | CAdd _ _ => 2
  | _ => 1
  end.

Lemma act_shortens a c c' more :
  c_plain a -> c_run target false [SendFail] None a c = (c', more) ->
  (sum_list_with sections more < sections a)%nat.
Proof.
  intros Ha Hr. destruct a; try done; cbn in Hr;
    try (destruct (GetConn _ _)); try (destruct (String.eqb d "")); injection Hr as <- <-; cbn; lia.
Qed.

Lemma drains n : forall c, (sum_list_with sections (c_todo c) < n)%nat ->
  c_ended c = false -> Forall c_plain (c_todo c) -> exists c', rtc cstep c c' /\ c_ended c' = true.
Proof.
  induction n as [| n IH]; intros c Hn He Hf; [lia |]. destruct (c_todo c) as [| a rest] eqn:Ht.
  - eexists. split; [by apply rtc_once, c_eof | done].
  - destruct (c_run target false [SendFail] None a c) as [c' more] eqn:Hr. apply Forall_cons in Hf as [Ha Hf].
    destruct (c_run_serving _ _ _ _ _ _ _ _ Hr Ha) as [E Hm]. pose proof (act_shortens _ _ _ _ Ha Hr) as Hl.
    destruct (IH (with_c_todo (more ++ rest) c')) as (c2 & H2 & He2).
    + cbn in *. rewrite sum_list_with_app. lia.
    + cbn. congruence.
    + by apply Forall_app.
    + exists c2. split; [| done]. eapply rtc_l; [| exact H2].
      by eapply (c_act _ _ _ _ _ false [SendFail] None); [exact Ht | intros -> | intros -> | exact Hr].
Qed.

(** [RunTunnel] can be over from anywhere. *)
Lemma client_out c : client_reach target wire c -> exists c', rtc cstep c c' /\ c_returned c'.
Proof.
  intros Hc. assert (exists c1, rtc cstep c c1 /\ c_ended c1 = true) as (c1 & H1 & E1).
  { destruct (c_ended c) eqn:He; [by exists c |]. destruct (reach_c_phase c Hc) as [_ Ht _ | _ Hf | | | | | |]; try congruence.
    - destruct (c_run target false [] None CRegister c) as [c' more] eqn:Hr. eexists. split.
      + by eapply rtc_once, (c_act _ _ _ _ _ false [] None); [exact Ht | done | done | exact Hr].
      + cbn in Hr. unfold Send in Hr. by destruct (alive (c_sess c)); injection Hr as <- <-.
    - apply (drains (S (sum_list_with sections (c_todo c)))); [lia | done | done]. }
  destruct (client_gets_out (target := target) (wire := wire) c1) as (c2 & H2 & Hr); [unfold client_reach in *; by etrans | done |].
  exists c2. split; [| done]. etrans; [exact H1 |]. eapply rtc_subrel; [| exact H2]. by intros ? ? (? & _).
Qed.
End Out.

Section ComesBack.
Context {ftgt : string} {targets : list string}.
Notation step := (net_step ftgt targets).
Notation reached := (net_reach ftgt targets).

(** One end runs, and nothing else. *)
Lemma end_runs N p u j c c' tgt :
  h_tuns (hub N) !! p = Some u -> ends N !! p = Some (j, c) -> targets !! j = Some tgt ->
  rtc (client_step tgt (written (u_sess u))) c c' ->
  rtc step N (mkNet (hub N) (<[p := (j, c')]> (ends N))).
Proof.
  intros Hu Hp Ht Hr. revert N Hu Hp. induction Hr as [c | c c1 c2 Hs _ IH]; intros N Hu Hp.
  - rewrite list_insert_id by done. by destruct N.
  - eapply rtc_l; [by eapply net_end |]. rewrite <- (list_insert_insert_eq (ends N) p (j, c2) (j, c1)).
    apply (IH (mkNet (hub N) (<[p := (j, c1)]> (ends N)))); [done |].
    cbn. apply list_lookup_insert_eq. by eapply lookup_lt_Some.
Qed.

(** Every attempt of a process can be over. *)
Lemma all_out N j k : reached N -> exists N', rtc step N N' /\
  length (ends N') = length (ends N) /\
  forall p c, (p < k)%nat -> ends N' !! p = Some (j, c) -> c_returned c.
Proof.
  intros Hr. induction k as [| k (M & HM & Hl & Hk)]; [exists N; split_and!; [done | done | lia] |].
  assert (reached M) as HrM by (unfold net_reach in *; by etrans).
  destruct (ends M !! k) as [[i c] |] eqn:Hp.
  2: { exists M. split_and!; [done | done |]. intros p d Hlt Hd. apply (Hk p); [| done].
       assert (p <> k) by congruence. lia. }
  pose proof (reach_ok _ HrM) as [Hlen Htg _]. destruct (Htg _ _ _ Hp) as [tgt Ht].
  assert (is_Some (h_tuns (hub M) !! k)) as [u Hu].
  { apply lookup_lt_is_Some. rewrite <- Hlen. by eapply lookup_lt_Some. }
  destruct (pipe_ends _ _ _ _ (net_pipe _ _ _ _ _ _ HrM Hu Hp Ht)) as [_ Hc].
  destruct (client_out c Hc) as (c' & Hrun & Hret).
  exists (mkNet (hub M) (<[k := (i, c')]> (ends M))). split_and!.
  - etrans; [exact HM | by eapply end_runs].
  - cbn. by rewrite length_insert.
  - cbn. intros p d Hlt [[<- [= _ <-]] | [Hn Hd]]%lookup_insert_end; [done |]. apply (Hk p); [lia | done].
Qed.

Lemma net_handler N p u v j c :
  net_ok (targets := targets) N -> h_tuns (hub N) !! p = Some u -> ends N !! p = Some (j, c) ->
  handler_step p (view (hub N) p u) v -> frames_in v `prefix_of` written (c_sess c) ->
  step N (mkNet (logged (adds p (u_todo u)) (with_tun p v (hub N))) (ends N)).
Proof.
  intros [_ _ Hd] Hu Hp Hs Hf. apply net_hub; [by apply hub_handler | by cbn; rewrite length_insert |].
  intros q w i d [[<- <-] | [_ Hw]]%lookup_insert_end Hq; [| by eapply Hd].
  assert (d = c) as -> by congruence. done.
Qed.

(** A new call whose edge has written its REGISTER is registered when the handler
    gets to it. *)
Lemma registers N p j c tgt :
  reached N -> h_tuns (hub N) !! p = Some Tun_init -> ends N !! p = Some (j, c) ->
  written (c_sess c) = [register_frame tgt] ->
  exists N' u, rtc step N N' /\ ends N' = ends N /\ h_tuns (hub N') !! p = Some u /\ serving tgt u /\
    reg_get tgt (h_reg (hub N')) = Some p.
Proof.
  intros Hr Hu Hp Hw.
  assert (exists M1, step N M1 /\ ends M1 = ends N /\ h_reg (hub M1) = h_reg (hub N) /\
    h_tuns (hub M1) !! p = Some (mkTun Session_init "" [ABind tgt; AAck] false [] 0 [] [register_frame tgt]))
    as (M1 & S1 & E1 & _ & U1).
  { eexists. split; [eapply net_handler; [by eapply reach_ok | exact Hu | exact Hp | |] |].
    - by apply (h_read _ _ (register_frame tgt)).
    - cbn. by rewrite Hw.
    - cbn. split_and!; [done | done |]. apply list_lookup_insert_eq. by eapply lookup_lt_Some. }
  assert (reached M1) as R1 by (eapply rtc_r; [exact Hr | exact S1]).
  assert (exists M2 w, step M1 M2 /\ ends M2 = ends N /\ h_tuns (hub M2) !! p = Some w /\
    reg_get tgt (h_reg (hub M2)) = Some p /\ u_cur w = tgt /\ u_ending w = false /\ u_todo w = [AAck])
    as (M2 & w & S2 & E2 & U2 & G2 & Hc & He & Ht).
  { eexists _, _. split; [eapply net_handler; [by eapply reach_ok | exact U1 | by rewrite E1 | |] |].
    - by eapply (h_act _ _ _ _ true []).
    - cbn. by rewrite Hw.
    - cbn. split; [done |]. split; [apply list_lookup_insert_eq; by eapply lookup_lt_Some |].
      split_and!; try done. apply lookup_insert_eq. }
  exists M2, w. split_and!; [by eapply rtc_l, rtc_once | done | done | | done].
  split_and!; [done | done |]. rewrite Ht. by repeat constructor.
Qed.

(** C12: An edge can always come back. Whatever state the system has reached, whatever
    is left of a process's attempts on either side - a tunnel cut at one end only, a
    handler that has not noticed, pumps and streams still there - there is a run in
    which its [RunTunnel] returns, it dials again, and the server serves its target
    to the new call, which is in the registry under it. *)
Theorem edge_comes_back N j tgt :
  net_reach ftgt targets N -> targets !! j = Some tgt ->
  exists N' p u c, rtc (net_step ftgt targets) N N' /\ (length (ends N) <= p)%nat /\
    ends N' !! p = Some (j, c) /\ c_ended c = false /\ alive (c_sess c) = true /\
    h_tuns (hub N') !! p = Some u /\ serving tgt u /\ reg_get tgt (h_reg (hub N')) = Some p.
Proof.
  intros Hr Ht. destruct (all_out N j (length (ends N)) Hr) as (M & HM & Hl & Hout).
  assert (reached M) as RM by (unfold net_reach in *; by etrans).
  pose proof (reach_ok _ RM) as [Hlen _ _].
  set (M1 := mkNet (called (hub M)) (ends M ++ [(j, client_start)])).
  assert (step M M1) as S1.
  { eapply net_dial; [exact Ht |]. intros c [q Hq]%list_elem_of_lookup. apply (Hout q); [| done].
    rewrite <- Hl. by eapply lookup_lt_Some. }
  set (p := length (ends M)).
  assert (h_tuns (hub M1) !! p = Some Tun_init) as U1.
  { cbn. unfold p. by rewrite Hlen, lookup_app_r, Nat.sub_diag by lia. }
  assert (ends M1 !! p = Some (j, client_start)) as P1.
  { cbn. unfold p. by rewrite lookup_app_r, Nat.sub_diag by lia. }
  assert (exists c, rtc (client_step tgt []) client_start c /\ c_ended c = false /\
    alive (c_sess c) = true /\ written (c_sess c) = [register_frame tgt]) as (c & Hc & He & Ha & Hw).
  { eexists. split.
    - eapply rtc_l; [by eapply (c_act _ _ _ _ _ true [] None) |].
      apply rtc_once. by eapply (c_act _ _ _ _ _ true [] None).
    - by split_and!. }
  pose proof (end_runs M1 p _ _ _ _ _ U1 P1 Ht Hc) as H2.
  set (M2 := mkNet (hub M1) (<[p := (j, c)]> (ends M1))) in *.
  assert (ends M2 !! p = Some (j, c)) as P2 by (apply list_lookup_insert_eq; by eapply lookup_lt_Some).
  assert (reached M2) as R2 by (unfold net_reach in *; by etrans; [eapply rtc_r; [exact RM | exact S1] |]).
  destruct (registers M2 p j c tgt R2 U1 P2 Hw) as (N' & u & H3 & E3 & U3 & Hs & Hg).
  exists N', p, u, c. split_and!; try done; [| unfold p; lia | by rewrite E3].
  etrans; [exact HM |]. etrans; [by apply rtc_once |]. by etrans.
Qed.
End ComesBack.
