(* ===== verification/TunnelFleetRuns.v ===== *)
(** * TunnelFleetRuns: an edge that loses its tunnel and comes back

    One run of the system of TunnelFleet, and the instances of the properties of
    TunnelHub and TunnelFleet along it: an edge registers and carries a request and
    its answer; its end of the tunnel breaks, it dials again and registers while the
    server still holds the first call; then the server takes the first call apart. *)

From S2P Require Import Prelude CString TunnelNet TunnelSession TunnelProofs TunnelSplice TunnelClient TunnelEnd TunnelPipe TunnelHub TunnelFleet.

Definition fleet_call : Tun :=
  mkTun
    (mkSession true {[1%Z := 0%nat]} 2 [mkConn 7 false]
       [ack_frame "e"; open_frame 1 "e"; data_frame 1 "hi"]) "e" [] false [mkPump 1 0 PRecv "hi"] 1 [(1%Z, "yo")]
    [register_frame "e"; data_frame 1 "yo"].
Definition fleet_edge : Client :=
  mkClient
    (mkSession true {[1%Z := 0%nat]} 1 [mkConn 9 false] [register_frame "e"; data_frame 1 "yo"])
    [] false 3 [mkPump 1 0 PRecv "yo"] [(1%Z, "hi")] KWait false.
(** A request and its answer have gone through. *)
Definition fleet_serving : Net :=
  mkNet (mkHub {["e" := 0%nat]} [fleet_call] WAccept [("e", 0%nat)]) [(0%nat, fleet_edge)].

Definition fleet_gone : Client :=
  mkClient
    (mkSession false ∅ 1 [mkConn 9 true] [register_frame "e"; data_frame 1 "yo"])
    [] true 3 [mkPump 1 0 PRecv "yo"] [(1%Z, "hi")] KDone true.
Definition fleet_again : Client :=
  mkClient (mkSession true ∅ 1 [] [register_frame "e"]) [] false 0 [] [] KWait false.
Definition fleet_recall : Tun :=
  mkTun (mkSession true ∅ 1 [] [ack_frame "e"]) "e" [] false [] 0 [] [register_frame "e"].
(** The edge is back in call 1; the server has not noticed the end of call 0. *)
Definition fleet_back : Net :=
  mkNet (mkHub {["e" := 1%nat]} [fleet_call; fleet_recall] WAccept [("e", 0%nat); ("e", 1%nat)])
    [(0%nat, fleet_gone); (0%nat, fleet_again)].
(** Now it has. *)
Definition fleet_call_over : Tun :=
  mkTun
    (mkSession false ∅ 2 [mkConn 7 true] [ack_frame "e"; open_frame 1 "e"; data_frame 1 "hi"])
    "e" [] true [mkPump 1 0 PRecv "hi"] 1 [(1%Z, "yo")] [register_frame "e"; data_frame 1 "yo"].
Definition fleet_settled : Net :=
  mkNet (mkHub {["e" := 1%nat]} [fleet_call_over; fleet_recall] WAccept [("e", 0%nat); ("e", 1%nat)])
    [(0%nat, fleet_gone); (0%nat, fleet_again)].

(** What has been read is a prefix of what has been written, call by call. *)
#[local] Instance Frame_eq_dec : EqDecision Frame.
Proof. solve_decision. Defined.
Definition delivered_b (H : Hub) (es : list (nat * Client)) : bool :=
  forallb (fun x => bool_decide (u_frames x.1 `prefix_of` written (c_sess x.2.2))) (zip (h_tuns H) es).
Lemma delivered_sound H es : delivered_b H es = true -> delivered H es.
Proof.
  intros Hb p u j c Hu Hc. apply Is_true_true, forallb_True, List.Forall_forall with (x := (u, (j, c))) in Hb;
    [by apply bool_decide_unpack in Hb |].
  apply list_elem_of_In, list_elem_of_lookup. exists p. apply lookup_zip_with_Some. eauto.
Qed.

(** The state reached, as a value. *)
Lemma rtc_from {A} (R : relation A) x y z : x = y -> rtc R y z -> rtc R x z.
Proof. by intros ->. Qed.
Ltac settle_at r :=
  lazymatch goal with |- rtc _ ?N _ =>
    let t := eval vm_compute in (h_tuns (hub N)) in let w := eval vm_compute in (h_fwd (hub N)) in
    let l := eval vm_compute in (h_log (hub N)) in let es := eval vm_compute in (ends N) in
    let M := constr:(mkNet (mkHub r t w l) es) in apply (rtc_from _ N M _ (eq_refl N <: N = M))
  end.
Ltac at_hub_to r t :=
  eapply rtc_l; [eapply net_hub; [t | reflexivity | apply delivered_sound; by vm_compute] | settle_at r].
Ltac registry :=
  lazymatch goal with |- rtc _ (mkNet (mkHub ?r _ _ _) _) _ => r end.
Ltac settle := let r := lazymatch goal with |- rtc _ ?N _ => eval cbn in (h_reg (hub N)) end in settle_at r.
Ltac at_hub t := let r := registry in at_hub_to r t.
Ltac at_call p t := at_hub ltac:(eapply (hub_handler _ _ p); [reflexivity | t; (reflexivity || done)]).
Ltac call_act p o := at_call p ltac:(eapply (h_act _ _ _ _ true o)).
Ltac call_binds p r :=
  at_hub_to r ltac:(eapply (hub_handler _ _ p); [reflexivity | eapply (h_act _ _ _ _ true []); reflexivity]).
Ltac forward t := at_hub ltac:(eapply (hub_forward _ _ 0); [reflexivity | t; (reflexivity || done)]).
Ltac call_pump t := at_hub ltac:(eapply (hub_pump _ _ 0 _ 0); [reflexivity | reflexivity | t; (reflexivity || done)]).
Ltac at_end p t := eapply rtc_l; [eapply (net_end _ _ _ p); [reflexivity | reflexivity | reflexivity | t] | settle].
Ltac end_act p o d :=
  at_end p ltac:(eapply (c_act _ _ _ _ _ true o d); [reflexivity | discriminate || done | discriminate || done | reflexivity]).
Ltac end_pump p t := at_end p ltac:(eapply (c_pump _ _ _ 0); [reflexivity | t; (reflexivity || done)]).

Lemma fleet_serves : net_reach "e" ["e"] fleet_serving.
Proof.
  unfold net_reach, net_start. eapply rtc_l; [by eapply (net_dial _ _ _ 0); [| intros c ?%elem_of_nil] | settle].
  do 2 end_act 0 (@nil SendResult) (@None Z).
  at_call 0 ltac:(apply (h_read _ _ (register_frame "e"))).
  call_binds 0 ({["e" := 0%nat]} : Registry). call_act 0 (@nil SendResult).
  at_hub ltac:(by apply (hub_accept _ _ 7)). at_hub ltac:(by apply (hub_get _ _ 7)).
  forward ltac:(apply (f_next _ _ 7)). forward ltac:(apply (f_add _ _ 7 1)).
  forward ltac:(apply (f_send _ _ 1 0 true)). forward ltac:(apply (f_spawn _ _ 1 0)).
  call_pump ltac:(apply (p_recv _ _ "hi")). call_pump ltac:(apply (p_send _ _ "hi" true)).
  do 2 at_end 0 ltac:(eapply c_read; reflexivity).
  end_act 0 (@nil SendResult) (Some 9%Z). do 2 end_act 0 (@nil SendResult) (@None Z).
  at_end 0 ltac:(eapply c_read; reflexivity).
  end_act 0 (@nil SendResult) (@None Z). end_act 0 [Sent 2] (@None Z).
  end_pump 0 ltac:(apply (p_recv _ _ "yo")). end_pump 0 ltac:(apply (p_send _ _ "yo" true)).
  at_call 0 ltac:(apply (h_read _ _ (data_frame 1 "yo"))).
  call_act 0 (@nil SendResult). call_act 0 [Sent 1; SendAgain; Sent 1]. apply rtc_refl.
Qed.

Lemma fleet_comes_back : rtc (net_step "e" ["e"]) fleet_serving fleet_back.
Proof.
  unfold fleet_serving. at_end 0 ltac:(eapply c_eof; reflexivity).
  do 4 end_act 0 (@nil SendResult) (@None Z). at_end 0 ltac:(eapply c_wake; reflexivity).
  end_act 0 (@nil SendResult) (@None Z).
  eapply rtc_l; [eapply (net_dial _ _ _ 0); [reflexivity |] | settle].
  { intros c [= ->]%list_elem_of_singleton. by split. }
  do 2 end_act 1 (@nil SendResult) (@None Z).
  at_call 1 ltac:(apply (h_read _ _ (register_frame "e"))).
  call_binds 1 ({["e" := 1%nat]} : Registry). call_act 1 (@nil SendResult).
  apply rtc_refl.
Qed.

Lemma fleet_settles : rtc (net_step "e" ["e"]) fleet_back fleet_settled.
Proof.
  unfold fleet_back. at_call 0 ltac:(apply h_eof). do 4 call_act 0 (@nil SendResult). apply rtc_refl.
Qed.

Lemma fleet_back_reached : net_reach "e" ["e"] fleet_back.
Proof. unfold net_reach. etrans; [apply fleet_serves | apply fleet_comes_back]. Qed.
Lemma fleet_settled_reached : net_reach "e" ["e"] fleet_settled.
Proof. unfold net_reach. etrans; [apply fleet_back_reached | apply fleet_settles]. Qed.

(** ** The properties along it *)

Lemma newest_registration_serves_witness :
  reg_get "e" (h_reg (hub fleet_back)) = Some 1 /\
  last_to "e" (h_log (hub fleet_settled)) = Some 1.
Proof.
  split.
  - apply (newest_registration_serves (hub fleet_back) "e" 1 (net_hub_reach _ fleet_back_reached) )
      with (u := fleet_recall); [reflexivity | reflexivity |]. by repeat constructor.
  - apply (newest_registration_serves (hub fleet_settled) "e" 1 (net_hub_reach _ fleet_settled_reached)).
    reflexivity.
Defined.

Lemma hub_calls_end_witness :
  exists u, h_tuns (hub fleet_settled) !! 0 = Some u /\
    written (u_sess u) = [ack_frame "e"; open_frame 1 "e"; data_frame 1 "hi"].
Proof.
  destruct (hub_calls_end (hub fleet_settled) (hub fleet_settled) 0 fleet_call_over
    (net_hub_reach _ fleet_settled_reached) (rtc_refl _ _) eq_refl eq_refl eq_refl) as (u & Hu & Hw & _).
  by exists u.
Defined.

Lemma system_is_pipes_witness :
  p_heard (mkPump 1 0 PRecv "hi") = "hi" /\ p_heard (mkPump 1 0 PRecv "yo") = "yo" /\
  exists h o, u_socks fleet_call !! h = Some (1%Z, o).
Proof.
  destruct (system_is_pipes fleet_serving 0 fleet_call 0 fleet_edge fleet_serves eq_refl eq_refl eq_refl)
    as (Hc & Hs & Hd).
  split; [| split].
  - apply (Hc 0 1%Z "hi" 0 (mkPump 1 0 PRecv "hi") eq_refl eq_refl eq_refl); reflexivity.
  - apply (Hs 0 1%Z "yo" 0 (mkPump 1 0 PRecv "yo") eq_refl eq_refl eq_refl); reflexivity.
  - apply (Hd 0 1%Z "hi" eq_refl).
Defined.

Lemma edges_get_their_own_witness :
  ftarget (open_frame 1 "e") = "e" /\ ferror (data_frame 1 "yo") <> "target mismatch".
Proof.
  destruct (edges_get_their_own fleet_back 0 fleet_call 0 fleet_gone "e" fleet_back_reached
    eq_refl eq_refl eq_refl) as [Ho Hn].
  split; [apply (Ho (open_frame 1 "e")); [right; left | reflexivity] | apply Hn; right; left].
Defined.

(** It comes back from the cut as well as from where all is well. *)
Lemma edge_comes_back_witness :
  exists N p, rtc (net_step "e" ["e"]) fleet_serving N /\ (1 <= p)%nat /\
    reg_get "e" (h_reg (hub N)) = Some p.
Proof.
  destruct (edge_comes_back fleet_serving 0 "e" fleet_serves eq_refl)
    as (N & p & _ & _ & Hr & Hp & _ & _ & _ & _ & _ & Hg).
  exists N, p. split; [exact Hr | split; [exact Hp | exact Hg]].
Defined.
